(** * Delta-inference simulation engine and causal attribution

    A shallow embedding of [backend/python-gnn/simulation_engine.py] and
    [backend/python-gnn/causal_attribution.py].

    Numbers.  The Python code computes on IEEE floats (Python [float] and
    numpy [float32]/[float64]).  This development idealises them as real
    numbers: every formula, comparison and threshold is the source's, read
    over [R].  Where numpy would produce [nan] or [inf] (a division by zero,
    the mean of an empty array) the model stops with [FloatingPointError], so
    that a run that ends in [Ok] is a run in which no such value was made.

    Arrays.  A one-dimensional numpy array is a [list]; a two-dimensional
    array is the list of its rows (numpy arrays are rectangular, so all rows
    share a length); [edge_index], of shape [2, E], is the list of its [E]
    columns [(edge_index[0, i], edge_index[1, i])].  Indices handed in by the
    caller are integers ([Z]) and go through numpy's and Python's index rule:
    a negative index counts from the end, anything else out of range raises
    [IndexError]. *)

From Stdlib Require Import Reals Lra List String ZArith Lia Bool Arith.
From Stdlib Require Import Sorting.Sorted Sorting.Permutation DecimalString.
Import ListNotations.

Local Open Scope R_scope.

(** ** Exceptions and the error monad *)

Inductive exn : Set :=
| IndexError
| ValueError
| KeyError
| FloatingPointError
| PredictorError.

Inductive result (A : Type) : Type :=
| Ok (a : A)
| Raise (e : exn).

Arguments Ok {A} a.
Arguments Raise {A} e.

Definition rbind {A B : Type} (c : result A) (k : A -> result B) : result B :=
  match c with
  | Ok a => k a
  | Raise e => Raise e
  end.

Declare Scope result_scope.
Delimit Scope result_scope with result.
Notation "x <- c ;; k" := (rbind c (fun x => k))
  (at level 61, c at next level, right associativity) : result_scope.
Notation "' p <- c ;; k" := (rbind c (fun x => let 'p := x in k))
  (at level 61, p pattern, c at next level, right associativity) : result_scope.

(** ** Comparisons on numbers, as booleans *)

Definition Rltb (x y : R) : bool := if Rlt_dec x y then true else false.
Definition Rleb (x y : R) : bool := if Rle_dec x y then true else false.
Definition Rgtb (x y : R) : bool := Rltb y x.
Definition Rgeb (x y : R) : bool := Rleb y x.

(** Python's [min(a, b)] and [max(a, b)] on two numbers: the first argument
    unless the second is strictly smaller (larger). *)
Definition py_min (a b : R) : R := if Rltb b a then b else a.
Definition py_max (a b : R) : R := if Rgtb b a then b else a.

(** [x ** 0.5]. *)
Definition pow_half (x : R) : R := Rpower x 0.5.

Local Open Scope string_scope.

(** ** [SimulationEngine._compute_confidence] *)

Definition _compute_confidence (delta topology_weight : R) : R * string :=
  let scaled_delta := py_min (Rabs delta * 2) 1.0 in
  let confidence := scaled_delta * topology_weight in
  let confidence := py_max 0.0 (py_min 1.0 confidence) in
  let label :=
    if Rltb confidence 0.2 then "low"
    else if Rltb confidence 0.5 then "medium"
    else "high" in
  (confidence, label).

(** ** [SimulationEngine._calculate_pessimistic_delta] *)

Definition _calculate_pessimistic_delta (raw_delta topology_weight : R)
  : R * string :=
  if Rgtb raw_delta 0 then
    let amplified := pow_half raw_delta * 2.0 in
    let pessimistic := amplified * topology_weight in
    let alert_level :=
      if Rgeb pessimistic 0.8 then "critical"
      else if Rgeb pessimistic 0.5 then "high"
      else if Rgeb pessimistic 0.2 then "elevated"
      else "normal" in
    (py_min pessimistic 1.0, alert_level)
  else
    let suppressed := raw_delta * 0.1 in
    (suppressed, "normal").

(** ** Lists as Python lists and numpy arrays *)

Local Open Scope result_scope.

Fixpoint mapM {A B : Type} (f : A -> result B) (l : list A) : result (list B) :=
  match l with
  | [] => Ok []
  | a :: l' =>
      b <- f a ;;
      bs <- mapM f l' ;;
      Ok (b :: bs)
  end.

Fixpoint zip_with {A B C : Type} (f : A -> B -> C) (l : list A) (m : list B)
  : list C :=
  match l, m with
  | a :: l', b :: m' => f a b :: zip_with f l' m'
  | _, _ => []
  end.

(** [l[i]] for a loop index [i] of [range(n)]. *)
Definition item {A : Type} (l : list A) (i : nat) : result A :=
  match nth_error l i with
  | Some a => Ok a
  | None => Raise IndexError
  end.

(** The index rule shared by Python lists and numpy axes of List.length [n]. *)
Definition norm_index (n : nat) (i : Z) : result nat :=
  if ((0 <=? i) && (i <? Z.of_nat n))%Z then Ok (Z.to_nat i)
  else if ((- Z.of_nat n <=? i) && (i <? 0))%Z then Ok (Z.to_nat (i + Z.of_nat n))
  else Raise IndexError.

(** [l[i]] for a caller-supplied index. *)
Definition py_get {A : Type} (l : list A) (i : Z) : result A :=
  k <- norm_index (List.length l) i ;;
  item l k.

Fixpoint list_set {A : Type} (l : list A) (k : nat) (v : A) : list A :=
  match l, k with
  | [], _ => []
  | _ :: l', O => v :: l'
  | a :: l', S k' => a :: list_set l' k' v
  end.

(** [a[i] = v] on a one-dimensional array. *)
Definition np_set {A : Type} (a : list A) (i : Z) (v : A) : result (list A) :=
  k <- norm_index (List.length a) i ;;
  Ok (list_set a k v).

(** [a[i] += w]. *)
Definition np_add_at (a : list R) (i : Z) (w : R) : result (list R) :=
  k <- norm_index (List.length a) i ;;
  old <- item a k ;;
  Ok (list_set a k (old + w)%R).

Definition Matrix : Type := list (list R).
Definition EdgeIndex : Type := list (Z * Z).

(** [m[i, j] = v] on a two-dimensional array. *)
Definition np_set2 (m : Matrix) (i j : Z) (v : R) : result Matrix :=
  k <- norm_index (List.length m) i ;;
  row <- item m k ;;
  row' <- np_set row j v ;;
  Ok (list_set m k row').

(** [m[:, 0]]. *)
Definition column0 (m : Matrix) : result (list R) :=
  mapM (fun row => item row 0) m.

(** [a - b] on one-dimensional arrays, with numpy's broadcasting of a
    length-one operand. *)
Definition np_sub (a b : list R) : result (list R) :=
  if (List.length a =? List.length b)%nat then Ok (zip_with Rminus a b)
  else match a, b with
       | [a0], _ => Ok (map (fun y => a0 - y)%R b)
       | _, [b0] => Ok (map (fun x => x - b0)%R a)
       | _, _ => Raise ValueError
       end.

(** [a.max()] and [np.max(a)]: the maximum of an empty array is an error. *)
Definition np_max (a : list R) : result R :=
  match a with
  | [] => Raise ValueError
  | x :: a' => Ok (fold_left Rmax a' x)
  end.

Definition np_sum (a : list R) : R := fold_left Rplus a 0%R.

(** A float division; a zero divisor is where numpy would make [inf] or [nan]. *)
Definition np_true_divide (x y : R) : result R :=
  if Req_dec_T y 0 then Raise FloatingPointError else Ok (x / y)%R.

(** [np.mean(a)] and [a.mean()]. *)
Definition np_mean (a : list R) : result R :=
  np_true_divide (np_sum a) (INR (List.length a)).

(** [np.argmax(a)]: the first position of the maximum. *)
Fixpoint argmax_from (best : nat) (bestv : R) (k : nat) (a : list R) : nat :=
  match a with
  | [] => best
  | v :: a' =>
      if Rgtb v bestv then argmax_from k v (S k) a'
      else argmax_from best bestv (S k) a'
  end.

Definition np_argmax (a : list R) : result nat :=
  match a with
  | [] => Raise ValueError
  | v :: a' => Ok (argmax_from 0 v 1 a')
  end.

(** A stable sort, as [list.sort] is.  [before a b] says that [a], met
    earlier in the list, may stay in front of [b]: [key a <= key b] for an
    ascending sort, [key a >= key b] under [reverse=True]. *)
Fixpoint insert_by {A : Type} (before : A -> A -> bool) (a : A) (l : list A)
  : list A :=
  match l with
  | [] => [a]
  | b :: l' => if before a b then a :: l else b :: insert_by before a l'
  end.

Fixpoint sort_by {A : Type} (before : A -> A -> bool) (l : list A) : list A :=
  match l with
  | [] => []
  | a :: l' => insert_by before a (sort_by before l')
  end.

(** [l.sort(key=key)] and [l.sort(key=key, reverse=True)] with numeric keys. *)
Definition list_sort {A : Type} (key : A -> R) (reverse : bool) (l : list A)
  : list A :=
  if reverse then sort_by (fun a b => Rgeb (key a) (key b)) l
  else sort_by (fun a b => Rleb (key a) (key b)) l.

(** ** [SimulationEngine._compute_topology_weights] *)

(** The loop over the edges, from edge number [i] on. *)
Fixpoint accumulate_edges (edge_index : EdgeIndex) (edge_weight : list R)
  (i : nat) (degree weight_sum : list R) : result (list R * list R) :=
  match edge_index with
  | [] => Ok (degree, weight_sum)
  | (src, dst) :: rest =>
      let w := if (i <? List.length edge_weight)%nat
               then nth i edge_weight 1.0%R else 1.0%R in
      degree <- np_add_at degree src 1 ;;
      degree <- np_add_at degree dst 1 ;;
      weight_sum <- np_add_at weight_sum src w ;;
      weight_sum <- np_add_at weight_sum dst w ;;
      accumulate_edges rest edge_weight (S i) degree weight_sum
  end.

(** [np.divide(weight_sum, degree, out=zeros, where=degree > 0)]. *)
Definition np_divide_where_positive (weight_sum degree : list R)
  : result (list R) :=
  mapM (fun '(ws, d) => if Rgtb d 0 then np_true_divide ws d else Ok 0%R)
       (combine weight_sum degree).

Definition _compute_topology_weights (edge_index : EdgeIndex)
  (edge_weight : list R) (num_nodes : nat) : result (list R) :=
  let degree := repeat 0%R num_nodes in
  let weight_sum := repeat 0%R num_nodes in
  '(degree, weight_sum) <-
     accumulate_edges edge_index edge_weight 0 degree weight_sum ;;
  avg_weight <- np_divide_where_positive weight_sum degree ;;
  let raw_weights := zip_with Rmult degree avg_weight in
  raw_max <- np_max raw_weights ;;
  if Rgtb raw_max 0 then
    raw_max' <- np_max raw_weights ;;
    mapM (fun r => np_true_divide r raw_max') raw_weights
  else
    Ok (map (fun one => one * 0.5)%R (repeat 1%R num_nodes)).

(** ** Failure modes and interpretations *)

Inductive FailureMode : Set :=
| NONE
| DEMAND_LOSS
| SUPPLY_CUT
| CONTAMINATION
| CONTROL_FAILURE.

(** [failure_mode.name]. *)
Definition FailureMode_name (m : FailureMode) : string :=
  match m with
  | NONE => "NONE"
  | DEMAND_LOSS => "DEMAND_LOSS"
  | SUPPLY_CUT => "SUPPLY_CUT"
  | CONTAMINATION => "CONTAMINATION"
  | CONTROL_FAILURE => "CONTROL_FAILURE"
  end.

(** An f-string, kept as its parts: literal text, and a number to be
    rendered by the format [{v:+.2f}] (rendering digits is not modelled). *)
Inductive fpart : Type :=
| Text (s : string)
| Signed2f (v : R).

Record SemanticInterpretation : Type := {
  si_delta : R;
  si_failure_mode : FailureMode;
  risk_type : string;
  explanation : list fpart;
  risk_level : string;
  ui_color : string;
  ui_icon : string;
  confidence : R;
  confidence_label : string;
  si_pessimistic_delta : R;
  alert_level : string
}.

(** The shape shared by the ten mode-specific interpretations:
    [f"{node_name}<text> (Δ{delta:+.2f})"]. *)
Definition explain (node_name text : string) (delta : R) : list fpart :=
  [Text (node_name ++ text ++ " (Δ"); Signed2f delta; Text ")"].

Definition _interpret_demand_loss (delta : R) (node_name rl color : string)
  (conf : R) (conf_label : string) (pess : R) (alert : string)
  : SemanticInterpretation :=
  if Rltb delta 0 then
    {| si_delta := delta; si_failure_mode := DEMAND_LOSS;
       risk_type := "STAGNATION_RISK";
       explanation :=
         explain node_name ": Reduced load → water stagnation risk" delta;
       risk_level := rl; ui_color := color; ui_icon := "🔄";
       confidence := conf; confidence_label := conf_label;
       si_pessimistic_delta := pess; alert_level := alert |}
  else
    {| si_delta := delta; si_failure_mode := DEMAND_LOSS;
       risk_type := "LOAD_REDISTRIBUTION";
       explanation := explain node_name ": Compensating for lost demand" delta;
       risk_level := rl; ui_color := color; ui_icon := "📈";
       confidence := conf; confidence_label := conf_label;
       si_pessimistic_delta := pess; alert_level := alert |}.

Definition _interpret_supply_cut (delta : R) (node_name rl color : string)
  (conf : R) (conf_label : string) (pess : R) (alert : string)
  : SemanticInterpretation :=
  if Rltb delta 0 then
    {| si_delta := delta; si_failure_mode := SUPPLY_CUT;
       risk_type := "SUPPLY_ISOLATION";
       explanation := explain node_name ": Cut off from supply source" delta;
       risk_level := rl; ui_color := color; ui_icon := "🚫";
       confidence := conf; confidence_label := conf_label;
       si_pessimistic_delta := pess; alert_level := alert |}
  else
    {| si_delta := delta; si_failure_mode := SUPPLY_CUT;
       risk_type := "PRESSURE_SURGE";
       explanation :=
         explain node_name ": Pressure redistribution detected" delta;
       risk_level := rl; ui_color := color; ui_icon := "⚡";
       confidence := conf; confidence_label := conf_label;
       si_pessimistic_delta := pess; alert_level := alert |}.

Definition _interpret_contamination (delta : R) (node_name rl color : string)
  (conf : R) (conf_label : string) (pess : R) (alert : string)
  : SemanticInterpretation :=
  if Rltb delta 0 then
    {| si_delta := delta; si_failure_mode := CONTAMINATION;
       risk_type := "BACKFLOW_RISK";
       explanation :=
         explain node_name
           ": Reduced pressure → backflow contamination risk" delta;
       risk_level := rl; ui_color := color; ui_icon := "☣️";
       confidence := conf; confidence_label := conf_label;
       si_pessimistic_delta := pess; alert_level := alert |}
  else
    {| si_delta := delta; si_failure_mode := CONTAMINATION;
       risk_type := "CONTAMINATION_SPREAD";
       explanation := explain node_name ": In contamination spread path" delta;
       risk_level := rl; ui_color := color; ui_icon := "🦠";
       confidence := conf; confidence_label := conf_label;
       si_pessimistic_delta := pess; alert_level := alert |}.

Definition _interpret_control_failure (delta : R) (node_name rl color : string)
  (conf : R) (conf_label : string) (pess : R) (alert : string)
  : SemanticInterpretation :=
  if Rltb delta 0 then
    {| si_delta := delta; si_failure_mode := CONTROL_FAILURE;
       risk_type := "CONTROL_BLIND_SPOT";
       explanation :=
         explain node_name ": Lost monitoring/control visibility" delta;
       risk_level := rl; ui_color := color; ui_icon := "👁️";
       confidence := conf; confidence_label := conf_label;
       si_pessimistic_delta := pess; alert_level := alert |}
  else
    {| si_delta := delta; si_failure_mode := CONTROL_FAILURE;
       risk_type := "CONTROL_INSTABILITY";
       explanation :=
         explain node_name ": Control loop instability detected" delta;
       risk_level := rl; ui_color := color; ui_icon := "⚠️";
       confidence := conf; confidence_label := conf_label;
       si_pessimistic_delta := pess; alert_level := alert |}.

Definition _interpret_raw_delta (delta : R) (node_name rl color : string)
  (conf : R) (conf_label : string) (pess : R) (alert : string)
  : SemanticInterpretation :=
  if Rltb delta 0 then
    {| si_delta := delta; si_failure_mode := NONE;
       risk_type := "IMPACT_DECREASE";
       explanation :=
         explain node_name ": Impact probability decreased" delta;
       risk_level := rl; ui_color := color; ui_icon := "📉";
       confidence := conf; confidence_label := conf_label;
       si_pessimistic_delta := pess; alert_level := alert |}
  else
    {| si_delta := delta; si_failure_mode := NONE;
       risk_type := "IMPACT_INCREASE";
       explanation :=
         explain node_name ": Impact probability increased" delta;
       risk_level := rl; ui_color := color; ui_icon := "📈";
       confidence := conf; confidence_label := conf_label;
       si_pessimistic_delta := pess; alert_level := alert |}.

(** ** [SimulationEngine._interpret_delta] *)

Definition _interpret_delta (delta : R) (node_name : string) (is_source : bool)
  (failure_mode : FailureMode) (topology_weight : R) (pessimistic_mode : bool)
  : SemanticInterpretation :=
  let abs_delta := Rabs delta in
  let '(conf, conf_label) := _compute_confidence delta topology_weight in
  let '(pessimistic_delta, alert) :=
    _calculate_pessimistic_delta delta topology_weight in
  let effective_delta :=
    if pessimistic_mode && Rgtb delta 0 then pessimistic_delta
    else abs_delta in
  let '(rl, color) :=
    if Rltb effective_delta 0.05 then ("low", "#4CAF50")
    else if Rltb effective_delta 0.15 then ("medium", "#FF9800")
    else if Rltb effective_delta 0.30 then ("high", "#F44336")
    else ("critical", "#9C27B0") in
  let '(rl, color) :=
    if pessimistic_mode && negb (alert =? "normal") then
      (alert,
       if alert =? "critical" then "#9C27B0"
       else if alert =? "high" then "#F44336"
       else if alert =? "elevated" then "#FF9800"
       else color)
    else (rl, color) in
  if is_source then
    {| si_delta := delta; si_failure_mode := failure_mode;
       risk_type := "FAILURE_SOURCE";
       explanation := [Text (node_name ++ " is the simulated failure point")];
       risk_level := "critical"; ui_color := "#000000"; ui_icon := "⚫";
       confidence := 1.0; confidence_label := "high";
       si_pessimistic_delta := 1.0; alert_level := "critical" |}
  else if Rltb abs_delta 0.01 then
    {| si_delta := delta; si_failure_mode := failure_mode;
       risk_type := "UNAFFECTED";
       explanation := [Text (node_name ++ " is not significantly affected")];
       risk_level := "low"; ui_color := "#9E9E9E"; ui_icon := "○";
       confidence := conf; confidence_label := conf_label;
       si_pessimistic_delta := pessimistic_delta; alert_level := alert |}
  else
    match failure_mode with
    | DEMAND_LOSS =>
        _interpret_demand_loss delta node_name rl color conf conf_label
          pessimistic_delta alert
    | SUPPLY_CUT =>
        _interpret_supply_cut delta node_name rl color conf conf_label
          pessimistic_delta alert
    | CONTAMINATION =>
        _interpret_contamination delta node_name rl color conf conf_label
          pessimistic_delta alert
    | CONTROL_FAILURE =>
        _interpret_control_failure delta node_name rl color conf conf_label
          pessimistic_delta alert
    | NONE =>
        _interpret_raw_delta delta node_name rl color conf conf_label
          pessimistic_delta alert
    end.

(** ** The predictor ([model.ImpactPredictor])

    The trained network behind [predict] is a black box: any function from a
    graph to a probability matrix, which may also fail. *)

Record Predictor : Type := {
  predict : Matrix -> EdgeIndex -> list R -> result Matrix
}.

(** [ImpactPredictor.predict_with_threshold]. *)
Definition predict_with_threshold (predictor : Predictor) (x : Matrix)
  (edge_index : EdgeIndex) (edge_weight : list R) (threshold : R)
  : result (Matrix * list (list Z) * string) :=
  probabilities <- predict predictor x edge_index edge_weight ;;
  let alerts :=
    map (map (fun p => if Rgeb p threshold then 1%Z else 0%Z)) probabilities in
  impact_probs <- column0 probabilities ;;
  max_impact <- np_max impact_probs ;;
  let risk :=
    if Rgeb max_impact 0.7 then "🔴 CRITICAL"
    else if Rgeb max_impact 0.5 then "🟠 HIGH"
    else if Rgeb max_impact 0.3 then "🟡 MODERATE"
    else "🟢 LOW" in
  Ok (probabilities, alerts, risk).

(** ** Computations that call the predictor

    A computation threads the log of the predictor calls made so far (the
    graph each call was given) and ends in a value or an exception. *)

Definition Call : Type := (Matrix * EdgeIndex * list R)%type.

Definition Sim (A : Type) : Type := list Call -> list Call * result A.

Definition sbind {A B : Type} (c : Sim A) (k : A -> Sim B) : Sim B :=
  fun log =>
    match c log with
    | (log', Ok a) => k a log'
    | (log', Raise e) => (log', Raise e)
    end.

Definition sret {A : Type} (a : A) : Sim A := fun log => (log, Ok a).

Definition lift {A : Type} (r : result A) : Sim A := fun log => (log, r).

Declare Scope sim_scope.
Delimit Scope sim_scope with sim.
Notation "x <- c ;; k" := (sbind c (fun x => k))
  (at level 61, c at next level, right associativity) : sim_scope.
Notation "' p <- c ;; k" := (sbind c (fun x => let 'p := x in k))
  (at level 61, p pattern, c at next level, right associativity) : sim_scope.

(** [self.predictor.predict_with_threshold(x, edge_index, edge_weight)]. *)
Definition call_predict_with_threshold (predictor : Predictor) (x : Matrix)
  (edge_index : EdgeIndex) (edge_weight : list R)
  : Sim (Matrix * list (list Z) * string) :=
  fun log =>
    ((log ++ [(x, edge_index, edge_weight)])%list,
     predict_with_threshold predictor x edge_index edge_weight 0.5).

(** [predictor.predict(x, edge_index, edge_attr)]. *)
Definition call_predict (predictor : Predictor) (x : Matrix)
  (edge_index : EdgeIndex) (edge_attr : list R) : Sim Matrix :=
  fun log =>
    ((log ++ [(x, edge_index, edge_attr)])%list,
     predict predictor x edge_index edge_attr).

(** ** The simulation report *)

Record NodeReport : Type := {
  node_id : nat;
  node_name : string;
  baseline : R;
  simulated : R;
  delta : R;
  pessimistic_delta : option R;
  is_failed_source : bool;
  interpretation : SemanticInterpretation
}.

Record Summary : Type := {
  total_nodes : nat;
  summary_failed_nodes : list Z;
  failed_names : list string;
  summary_failure_mode : string;
  summary_pessimistic_mode : bool;
  affected_count : nat;
  max_delta : R;
  mean_delta : R;
  max_pessimistic_delta : option R;
  interpretation_summary : string
}.

Record RawArrays : Type := {
  raw_baseline : list R;
  raw_simulated : list R;
  raw_deltas : list R
}.

Record SimulationReport : Type := {
  summary : Summary;
  nodes : list NodeReport;
  raw : RawArrays
}.

(** ** [SimulationEngine._summarize_interpretations] *)

Definition string_of_nat (n : nat) : string :=
  NilEmpty.string_of_uint (Nat.to_uint n).

(** [d[k] = d.get(k, 0) + 1] on a dict kept in insertion order. *)
Fixpoint dict_count (d : list (string * nat)) (k : string)
  : list (string * nat) :=
  match d with
  | [] => [(k, 1%nat)]
  | (k', c) :: d' =>
      if k' =? k then (k', S c) :: d' else (k', c) :: dict_count d' k
  end.

(** [d[k] += 1] for a key that has to be there. *)
Fixpoint dict_incr (d : list (string * nat)) (k : string)
  : result (list (string * nat)) :=
  match d with
  | [] => Raise KeyError
  | (k', c) :: d' =>
      if k' =? k then Ok ((k', S c) :: d')
      else d'' <- dict_incr d' k ;; Ok ((k', c) :: d'')
  end.

Fixpoint dict_get (d : list (string * nat)) (k : string) : result nat :=
  match d with
  | [] => Raise KeyError
  | (k', c) :: d' => if k' =? k then Ok c else dict_get d' k
  end.

(** The loop over the affected nodes. *)
Fixpoint count_risks (affected : list NodeReport)
  (risk_counts alert_counts : list (string * nat))
  : result (list (string * nat) * list (string * nat)) :=
  match affected with
  | [] => Ok (risk_counts, alert_counts)
  | r :: rest =>
      let risk_counts :=
        dict_count risk_counts (risk_type (interpretation r)) in
      alert_counts <- dict_incr alert_counts (alert_level (interpretation r)) ;;
      count_risks rest risk_counts alert_counts
  end.

Definition mode_context (m : FailureMode) : string :=
  match m with
  | NONE => "Raw impact analysis"
  | DEMAND_LOSS => "Demand loss scenario (consumer failure)"
  | SUPPLY_CUT => "Supply cut scenario (source failure)"
  | CONTAMINATION => "Contamination scenario (quality issue)"
  | CONTROL_FAILURE => "Control failure scenario (sensor/valve)"
  end.

(** [if n > 0: alerts.append(f"<icon> {n} <WORD>")]. *)
Definition alert_part (icon : string) (n : nat) (word : string) : list string :=
  if (0 <? n)%nat then [icon ++ string_of_nat n ++ word] else [].

(** The nodes the summary text speaks of. *)
Definition summary_affected (report : list NodeReport) : list NodeReport :=
  filter (fun r => Rgtb (Rabs (delta r)) 0.01 && negb (is_failed_source r))
         report.

Definition _summarize_interpretations (report : list NodeReport)
  (failure_mode : FailureMode) (pessimistic_mode : bool) : result string :=
  let affected := summary_affected report in
  match affected with
  | [] => Ok "No significant downstream impact detected."
  | _ :: _ =>
      '(risk_counts, alert_counts) <-
         count_risks affected []
           [("critical", 0%nat); ("high", 0%nat);
            ("elevated", 0%nat); ("normal", 0%nat)] ;;
      let parts :=
        map (fun '(rt, count) => string_of_nat count ++ " node(s) with " ++ rt)
            (list_sort (fun kc => (- INR (snd kc))%R) false risk_counts) in
      let base_summary :=
        mode_context failure_mode ++ ": " ++ String.concat ", " parts in
      if pessimistic_mode then
        n_critical <- dict_get alert_counts "critical" ;;
        n_high <- dict_get alert_counts "high" ;;
        n_elevated <- dict_get alert_counts "elevated" ;;
        let alerts :=
          (alert_part "🔴 " n_critical " CRITICAL"
           ++ alert_part "🟠 " n_high " HIGH"
           ++ alert_part "🟡 " n_elevated " ELEVATED")%list in
        match alerts with
        | [] => Ok base_summary
        | _ :: _ =>
            Ok (base_summary ++ " | ALERTS: " ++ String.concat ", " alerts)
        end
      else Ok base_summary
  end.

(** ** [SimulationEngine.run_simulation] *)

(** [i in failed_nodes] for a loop index [i]. *)
Definition is_listed (i : nat) (failed_nodes : list Z) : bool :=
  existsb (Z.eqb (Z.of_nat i)) failed_nodes.

(** [for node_idx in failed_nodes: x_sim[node_idx, status_col] = 0.0]. *)
Fixpoint force_failures (x_sim : Matrix) (failed_nodes : list Z)
  (status_col : Z) : result Matrix :=
  match failed_nodes with
  | [] => Ok x_sim
  | node_idx :: rest =>
      x_sim <- np_set2 x_sim node_idx status_col 0.0 ;;
      force_failures x_sim rest status_col
  end.

(** Step 6, the loop filling [pessimistic_deltas]. *)
Definition fill_pessimistic_deltas (deltas topology_weights : list R)
  (num_nodes : nat) : result (list R) :=
  mapM (fun i =>
          d <- item deltas i ;;
          tw <- item topology_weights i ;;
          Ok (fst (_calculate_pessimistic_delta d tw)))
       (seq 0 num_nodes).

(** Step 7, one turn of the loop building [report]. *)
Definition report_entry (baseline_probs sim_probs deltas topology_weights
  pessimistic_deltas : list R) (node_names : list string)
  (failed_nodes : list Z) (failure_mode : FailureMode)
  (pessimistic_mode : bool) (i : nat) : result NodeReport :=
  d <- item deltas i ;;
  name <- item node_names i ;;
  tw <- item topology_weights i ;;
  let interp :=
    _interpret_delta d name (is_listed i failed_nodes) failure_mode tw
      pessimistic_mode in
  b <- item baseline_probs i ;;
  s <- item sim_probs i ;;
  pd <- (if pessimistic_mode
         then p <- item pessimistic_deltas i ;; Ok (Some p)
         else Ok None) ;;
  Ok {| node_id := i; node_name := name; baseline := b; simulated := s;
        delta := d; pessimistic_delta := pd;
        is_failed_source := is_listed i failed_nodes;
        interpretation := interp |}.

(** Everything after the second predictor call. *)
Definition build_report (baseline_probs sim_probs : list R)
  (edge_index : EdgeIndex) (edge_weight : list R) (num_nodes : nat)
  (node_names : list string) (failed_nodes : list Z)
  (failure_mode : FailureMode) (pessimistic_mode : bool)
  : result SimulationReport :=
  deltas <- np_sub sim_probs baseline_probs ;;
  topology_weights <-
    _compute_topology_weights edge_index edge_weight num_nodes ;;
  pessimistic_deltas <-
    (if pessimistic_mode
     then fill_pessimistic_deltas deltas topology_weights num_nodes
     else Ok (repeat 0%R num_nodes)) ;;
  report <-
    mapM (report_entry baseline_probs sim_probs deltas topology_weights
            pessimistic_deltas node_names failed_nodes failure_mode
            pessimistic_mode)
         (seq 0 num_nodes) ;;
  let report := list_sort (fun r => Rabs (delta r)) true report in
  let affected_nodes :=
    filter (fun r => Rgtb (Rabs (delta r)) 0.01) report in
  names <- mapM (py_get node_names) failed_nodes ;;
  max_d <- np_max (map Rabs deltas) ;;
  mean_d <- np_mean (map Rabs deltas) ;;
  max_p <- (if pessimistic_mode
            then m <- np_max pessimistic_deltas ;; Ok (Some m)
            else Ok None) ;;
  text <- _summarize_interpretations report failure_mode pessimistic_mode ;;
  Ok {| summary :=
          {| total_nodes := num_nodes;
             summary_failed_nodes := failed_nodes;
             failed_names := names;
             summary_failure_mode := FailureMode_name failure_mode;
             summary_pessimistic_mode := pessimistic_mode;
             affected_count := List.length affected_nodes;
             max_delta := max_d;
             mean_delta := mean_d;
             max_pessimistic_delta := max_p;
             interpretation_summary := text |};
        nodes := report;
        raw := {| raw_baseline := baseline_probs;
                  raw_simulated := sim_probs;
                  raw_deltas := deltas |} |}.

Local Open Scope sim_scope.

Definition run_simulation (predictor : Predictor) (x : Matrix)
  (edge_index : EdgeIndex) (edge_weight : list R) (failed_nodes : list Z)
  (node_names : option (list string)) (failure_mode : FailureMode)
  (pessimistic_mode : bool) : Sim SimulationReport :=
  let num_nodes := List.length x in
  let node_names :=
    match node_names with
    | None => map (fun i => "Node_" ++ string_of_nat i) (seq 0 num_nodes)
    | Some names => names
    end in
  '(baseline_probs, _, _) <-
     call_predict_with_threshold predictor x edge_index edge_weight ;;
  baseline_probs <- lift (column0 baseline_probs) ;;
  let status_col := 12%Z in
  x_sim <- lift (force_failures x failed_nodes status_col) ;;
  '(sim_probs, _, _) <-
     call_predict_with_threshold predictor x_sim edge_index edge_weight ;;
  sim_probs <- lift (column0 sim_probs) ;;
  lift (build_report baseline_probs sim_probs edge_index edge_weight num_nodes
          node_names failed_nodes failure_mode pessimistic_mode).

(** ** Causal attribution ([causal_attribution.py])

    The three analyses print a commentary while they run; the model keeps
    what they compute and return. *)

Fixpoint smapM {A B : Type} (f : A -> Sim B) (l : list A) : Sim (list B) :=
  match l with
  | [] => sret []
  | a :: l' =>
      b <- f a ;;
      bs <- smapM f l' ;;
      sret (b :: bs)
  end.

Definition type_names : list string :=
  ["Road"; "Building"; "Power"; "Tank"; "Pump"; "Pipe";
   "Sensor"; "Cluster"; "Bridge"; "School"; "Hospital"; "Market"].

(** [type_names[np.argmax(x[idx, :12])]]. *)
Definition node_type_of (x : Matrix) (idx : Z) : result string :=
  (row <- py_get x idx ;;
   node_type_idx <- np_argmax (firstn 12 row) ;;
   item type_names node_type_idx)%result.

(** [pred[target_node_idx].mean()]: the impact of the target node. *)
Definition target_impact (pred : Matrix) (target_node_idx : Z) : result R :=
  (row <- py_get pred target_node_idx ;;
   np_mean row)%result.

Record NodePerturbation : Type := {
  neighbor_idx : Z;
  node_type : string;
  baseline_impact : R;
  perturbed_impact : R;
  causal_effect : R
}.

Record EdgeOcclusion : Type := {
  edge_idx : nat;
  source_idx : Z;
  source_type : string;
  occluded_edge_weight : R;
  edge_baseline_impact : R;
  occluded_impact : R;
  edge_causal_effect : R
}.

Record Counterfactual : Type := {
  current_impact : R;
  repaired_impact : R;
  benefit : R
}.

(** The positions [i] of [range(edge_index.shape[1])] with
    [edge_index[1, i] == target_node_idx]. *)
Definition incoming_edges_of (edge_index : EdgeIndex) (target_node_idx : Z)
  : list (nat * (Z * Z)) :=
  filter (fun '(_, (_, dst)) => (dst =? target_node_idx)%Z)
         (combine (seq 0 (List.length edge_index)) edge_index).

(** [a[edge_mask]] for a mask of length [n] that is false at [k] only; a mask
    that does not match the array's length is an [IndexError]. *)
Fixpoint drop_nth {A : Type} (k : nat) (a : list A) : list A :=
  match a, k with
  | [], _ => []
  | _ :: a', O => a'
  | v :: a', S k' => v :: drop_nth k' a'
  end.

Definition mask_out {A : Type} (n k : nat) (a : list A) : result (list A) :=
  if (List.length a =? n)%nat then Ok (drop_nth k a) else Raise IndexError.

Section CausalAttribution.

(** [list(set(neighbors))]: CPython hands the elements of a set back in the
    order of its hash table, which the analyses do not depend on. *)
Variable list_of_set : list Z -> list Z.

Definition perturb_neighbor (predictor : Predictor) (x : Matrix)
  (edge_index : EdgeIndex) (edge_attr : list R) (target_node_idx : Z)
  (baseline_impact : R) (neighbor_idx : Z) : Sim NodePerturbation :=
  x_perturbed <- lift (np_set2 x neighbor_idx 15 0.0) ;;
  x_perturbed <- lift (np_set2 x_perturbed neighbor_idx 13 0.0) ;;
  x_perturbed <- lift (np_set2 x_perturbed neighbor_idx 14 0.0) ;;
  perturbed_pred <- call_predict predictor x_perturbed edge_index edge_attr ;;
  perturbed_impact <- lift (target_impact perturbed_pred target_node_idx) ;;
  let causal_effect := (perturbed_impact - baseline_impact)%R in
  node_type <- lift (node_type_of x neighbor_idx) ;;
  sret {| neighbor_idx := neighbor_idx; node_type := node_type;
          baseline_impact := baseline_impact;
          perturbed_impact := perturbed_impact;
          causal_effect := causal_effect |}.

Definition node_perturbation_analysis (predictor : Predictor) (x : Matrix)
  (edge_index : EdgeIndex) (edge_attr : list R) (target_node_idx : Z)
  : Sim (list NodePerturbation) :=
  baseline_pred <- call_predict predictor x edge_index edge_attr ;;
  baseline_impact <- lift (target_impact baseline_pred target_node_idx) ;;
  let neighbors :=
    map (fun '(_, (src, _)) => src)
        (incoming_edges_of edge_index target_node_idx) in
  let neighbors := list_of_set neighbors in
  match neighbors with
  | [] => sret []
  | _ :: _ =>
      results <-
        smapM (perturb_neighbor predictor x edge_index edge_attr
                 target_node_idx baseline_impact) neighbors ;;
      let results :=
        list_sort (fun r => Rabs (causal_effect r)) true results in
      _ <- lift (item results 0) ;;
      sret results
  end.

Definition occlude_edge (predictor : Predictor) (x : Matrix)
  (edge_index : EdgeIndex) (edge_attr : list R) (target_node_idx : Z)
  (baseline_impact : R) (edge : nat * (Z * Z)) : Sim EdgeOcclusion :=
  let '(edge_idx, (source_idx, target_idx)) := edge in
  let num_edges := List.length edge_index in
  let edge_index_occluded := drop_nth edge_idx edge_index in
  edge_attr_occluded <- lift (mask_out num_edges edge_idx edge_attr) ;;
  occluded_pred <-
    call_predict predictor x edge_index_occluded edge_attr_occluded ;;
  occluded_impact <- lift (target_impact occluded_pred target_node_idx) ;;
  let causal_effect := (occluded_impact - baseline_impact)%R in
  source_type <- lift (node_type_of x source_idx) ;;
  edge_weight <- lift (item edge_attr edge_idx) ;;
  sret {| edge_idx := edge_idx; source_idx := source_idx;
          source_type := source_type; occluded_edge_weight := edge_weight;
          edge_baseline_impact := baseline_impact;
          occluded_impact := occluded_impact;
          edge_causal_effect := causal_effect |}.

Definition edge_occlusion_analysis (predictor : Predictor) (x : Matrix)
  (edge_index : EdgeIndex) (edge_attr : list R) (target_node_idx : Z)
  : Sim (list EdgeOcclusion) :=
  baseline_pred <- call_predict predictor x edge_index edge_attr ;;
  baseline_impact <- lift (target_impact baseline_pred target_node_idx) ;;
  let incoming_edges := incoming_edges_of edge_index target_node_idx in
  match incoming_edges with
  | [] => sret []
  | _ :: _ =>
      results <-
        smapM (occlude_edge predictor x edge_index edge_attr
                 target_node_idx baseline_impact) incoming_edges ;;
      let results := list_sort edge_causal_effect false results in
      _ <- lift (item results 0) ;;
      sret results
  end.

Definition counterfactual_analysis (predictor : Predictor) (x : Matrix)
  (edge_index : EdgeIndex) (edge_attr : list R)
  (target_node_idx failed_node_idx : Z) : Sim Counterfactual :=
  current_pred <- call_predict predictor x edge_index edge_attr ;;
  current_impact <- lift (target_impact current_pred target_node_idx) ;;
  x_repaired <- lift (np_set2 x failed_node_idx 15 0.9) ;;
  x_repaired <- lift (np_set2 x_repaired failed_node_idx 13 0.8) ;;
  x_repaired <- lift (np_set2 x_repaired failed_node_idx 14 0.7) ;;
  repaired_pred <- call_predict predictor x_repaired edge_index edge_attr ;;
  repaired_impact <- lift (target_impact repaired_pred target_node_idx) ;;
  let benefit := (current_impact - repaired_impact)%R in
  sret {| current_impact := current_impact;
          repaired_impact := repaired_impact;
          benefit := benefit |}.

End CausalAttribution.

(** * The vocabulary of the statements

    The quantities of the specification, the shape of well-formed requests
    and what a successful run has computed. *)

Local Close Scope sim_scope.
Local Open Scope R_scope.

(** The specification's [clamp(v, lo, hi)]. *)
Definition spec_clamp (v lo hi : R) : R :=
  if Rltb v lo then lo else if Rltb hi v then hi else v.

(** The specification's confidence formula. *)
Definition spec_confidence (d tw : R) : R :=
  spec_clamp (Rmin (Rabs d * 2) 1.0 * tw) 0 1.

(** The specification's quantities, node by node.  An edge touches node [v]
    once for each of its two ends that is [v]. *)
Definition ends_at (v : nat) (e : Z * Z) : nat :=
  ((if (fst e =? Z.of_nat v)%Z then 1 else 0)
   + (if (snd e =? Z.of_nat v)%Z then 1 else 0))%nat.

(** Degree: the number of incident edges, incoming and outgoing. *)
Definition spec_degree (edge_index : EdgeIndex) (v : nat) : nat :=
  list_sum (map (ends_at v) edge_index).

(** The weight of edge number [i]. *)
Definition edge_weight_at (edge_weight : list R) (i : nat) : R :=
  nth i edge_weight 1.0.

(** Weight sum: the sum of the weights of the incident edges, over the edges
    numbered from [i]. *)
Fixpoint spec_weight_sum_from (edge_index : EdgeIndex) (edge_weight : list R)
  (i v : nat) : R :=
  match edge_index with
  | [] => 0
  | e :: rest =>
      INR (ends_at v e) * edge_weight_at edge_weight i
      + spec_weight_sum_from rest edge_weight (S i) v
  end.

Definition spec_weight_sum (edge_index : EdgeIndex) (edge_weight : list R)
  (v : nat) : R :=
  spec_weight_sum_from edge_index edge_weight 0 v.

(** Average edge weight, 0 for a node without edges. *)
Definition spec_avg_weight (edge_index : EdgeIndex) (edge_weight : list R)
  (v : nat) : R :=
  match spec_degree edge_index v with
  | O => 0
  | S _ =>
      spec_weight_sum edge_index edge_weight v
      / INR (spec_degree edge_index v)
  end.

(** Raw topology value: degree times average edge weight. *)
Definition spec_raw (edge_index : EdgeIndex) (edge_weight : list R) (v : nat)
  : R :=
  INR (spec_degree edge_index v) * spec_avg_weight edge_index edge_weight v.

(** [mx] is the maximum raw value over the nodes [0 .. num_nodes - 1]. *)
Definition is_max_raw (edge_index : EdgeIndex) (edge_weight : list R)
  (num_nodes : nat) (mx : R) : Prop :=
  (exists v, (v < num_nodes)%nat /\ spec_raw edge_index edge_weight v = mx) /\
  (forall v, (v < num_nodes)%nat -> spec_raw edge_index edge_weight v <= mx).

(** A graph on [num_nodes] nodes: every edge joins two of its nodes. *)
Definition edges_in_range (edge_index : EdgeIndex) (num_nodes : nat) : Prop :=
  Forall (fun e => (0 <= fst e < Z.of_nat num_nodes)%Z /\
                   (0 <= snd e < Z.of_nat num_nodes)%Z) edge_index.

(** A list in descending (ascending) order of a numeric key: every element
    comes before all the elements whose key is smaller (larger). *)
Definition descending {A : Type} (key : A -> R) (l : list A) : Prop :=
  StronglySorted (fun a b => key a >= key b) l.

Definition ascending {A : Type} (key : A -> R) (l : list A) : Prop :=
  StronglySorted (fun a b => key a <= key b) l.

(** [node_names], after the default [Node_<i>] names are filled in. *)
Definition names_or_default (node_names : option (list string))
  (num_nodes : nat) : list string :=
  match node_names with
  | None => map (fun i => ("Node_" ++ string_of_nat i)%string) (seq 0 num_nodes)
  | Some names => names
  end.

(** What a successful run computed, in terms of its arrays: the two
    predictions [bm] and [sm], their impact columns [base] and [sim], the
    features [x_sim] with the failures forced, the deltas and the topology
    weights.  Each entry of the report belongs to one node of the graph, each
    node has its entry, and an entry holds that node's delta, its flag and the
    interpretation of its delta. *)
Record RunFacts (predictor : Predictor) (x : Matrix) (edge_index : EdgeIndex)
  (edge_weight : list R) (failed_nodes : list Z) (failure_mode : FailureMode)
  (pessimistic_mode : bool) (rep : SimulationReport) (bm sm : Matrix)
  (base sim deltas tws : list R) (x_sim : Matrix) : Prop := {
  rf_baseline : predict predictor x edge_index edge_weight = Ok bm;
  rf_base : column0 bm = Ok base;
  rf_x_sim : force_failures x failed_nodes 12 = Ok x_sim;
  rf_simulated : predict predictor x_sim edge_index edge_weight = Ok sm;
  rf_sim : column0 sm = Ok sim;
  rf_deltas : np_sub sim base = Ok deltas;
  rf_tws :
    _compute_topology_weights edge_index edge_weight (List.length x) = Ok tws;
  rf_entry :
    forall r, In r (nodes rep) ->
      (node_id r < List.length x)%nat /\
      exists (tw : R) (name : string),
        item deltas (node_id r) = Ok (delta r) /\
        item base (node_id r) = Ok (baseline r) /\
        item sim (node_id r) = Ok (simulated r) /\
        item tws (node_id r) = Ok tw /\
        is_failed_source r = is_listed (node_id r) failed_nodes /\
        interpretation r
        = _interpret_delta (delta r) name (is_listed (node_id r) failed_nodes)
            failure_mode tw pessimistic_mode /\
        (pessimistic_mode = false -> pessimistic_delta r = None);
  rf_all_nodes :
    forall i, (i < List.length x)%nat ->
      exists r, In r (nodes rep) /\ node_id r = i;
  rf_ids : Permutation (seq 0 (List.length x)) (map node_id (nodes rep));
  rf_sorted : descending (fun r => Rabs (delta r)) (nodes rep);
  rf_affected_count :
    affected_count (summary rep)
    = List.length (filter (fun r => Rgtb (Rabs (delta r)) 0.01) (nodes rep));
  rf_max_delta : np_max (map Rabs deltas) = Ok (max_delta (summary rep));
  rf_mean_delta : np_mean (map Rabs deltas) = Ok (mean_delta (summary rep));
  rf_text :
    _summarize_interpretations (nodes rep) failure_mode pessimistic_mode
    = Ok (interpretation_summary (summary rep));
  rf_raw :
    raw rep = {| raw_baseline := base; raw_simulated := sim;
                 raw_deltas := deltas |}
}.

Arguments rf_baseline {predictor x edge_index edge_weight failed_nodes
  failure_mode pessimistic_mode rep bm sm base sim deltas tws x_sim} _.
Arguments rf_base {predictor x edge_index edge_weight failed_nodes
  failure_mode pessimistic_mode rep bm sm base sim deltas tws x_sim} _.
Arguments rf_x_sim {predictor x edge_index edge_weight failed_nodes
  failure_mode pessimistic_mode rep bm sm base sim deltas tws x_sim} _.
Arguments rf_simulated {predictor x edge_index edge_weight failed_nodes
  failure_mode pessimistic_mode rep bm sm base sim deltas tws x_sim} _.
Arguments rf_sim {predictor x edge_index edge_weight failed_nodes
  failure_mode pessimistic_mode rep bm sm base sim deltas tws x_sim} _.
Arguments rf_deltas {predictor x edge_index edge_weight failed_nodes
  failure_mode pessimistic_mode rep bm sm base sim deltas tws x_sim} _.
Arguments rf_tws {predictor x edge_index edge_weight failed_nodes
  failure_mode pessimistic_mode rep bm sm base sim deltas tws x_sim} _.
Arguments rf_entry {predictor x edge_index edge_weight failed_nodes
  failure_mode pessimistic_mode rep bm sm base sim deltas tws x_sim} _.
Arguments rf_all_nodes {predictor x edge_index edge_weight failed_nodes
  failure_mode pessimistic_mode rep bm sm base sim deltas tws x_sim} _.
Arguments rf_ids {predictor x edge_index edge_weight failed_nodes
  failure_mode pessimistic_mode rep bm sm base sim deltas tws x_sim} _.
Arguments rf_sorted {predictor x edge_index edge_weight failed_nodes
  failure_mode pessimistic_mode rep bm sm base sim deltas tws x_sim} _.
Arguments rf_affected_count {predictor x edge_index edge_weight failed_nodes
  failure_mode pessimistic_mode rep bm sm base sim deltas tws x_sim} _.
Arguments rf_max_delta {predictor x edge_index edge_weight failed_nodes
  failure_mode pessimistic_mode rep bm sm base sim deltas tws x_sim} _.
Arguments rf_mean_delta {predictor x edge_index edge_weight failed_nodes
  failure_mode pessimistic_mode rep bm sm base sim deltas tws x_sim} _.
Arguments rf_text {predictor x edge_index edge_weight failed_nodes
  failure_mode pessimistic_mode rep bm sm base sim deltas tws x_sim} _.
Arguments rf_raw {predictor x edge_index edge_weight failed_nodes
  failure_mode pessimistic_mode rep bm sm base sim deltas tws x_sim} _.

(** Every row of [m] has at least [n] columns. *)
Definition has_columns (n : nat) (m : Matrix) : Prop :=
  Forall (fun row => (n <= List.length row)%nat) m.

(** The rows of [m] reach past the status column, number 12. *)
Definition has_status_column (m : Matrix) : Prop := has_columns 13 m.

(** The alert level of every entry is one of the four the summary counts. *)
Definition known_alert_levels (report : list NodeReport) : Prop :=
  Forall (fun r => In (alert_level (interpretation r))
                      ["critical"; "high"; "elevated"; "normal"]%string)
         report.

(** A predictor that answers every graph with one non-empty row per node. *)
Definition well_shaped (predictor : Predictor) : Prop :=
  forall (x : Matrix) (edge_index : EdgeIndex) (edge_weight : list R),
  exists m, predict predictor x edge_index edge_weight = Ok m /\
            List.length m = List.length x /\
            Forall (fun row => row <> []) m.

(** A simulation request on a graph with at least one node: features reach
    the status column, edges join nodes of the graph, the nodes to fail are
    indices of the feature matrix, and names, when given, are one per node. *)
Definition well_formed_request (x : Matrix) (edge_index : EdgeIndex)
  (edge_weight : list R) (failed_nodes : list Z)
  (node_names : option (list string)) : Prop :=
  (0 < List.length x)%nat /\
  has_status_column x /\
  edges_in_range edge_index (List.length x) /\
  Forall (fun z => (- Z.of_nat (List.length x) <= z
                    < Z.of_nat (List.length x))%Z) failed_nodes /\
  match node_names with
  | None => True
  | Some names => List.length names = List.length x
  end.

(** The features with one node put into its failed state: status, level
    and flow (columns 15, 13 and 14) set to 0. *)
Definition failed_features (x : Matrix) (node : Z) : result Matrix :=
  (x1 <- np_set2 x node 15 0.0 ;;
   x2 <- np_set2 x1 node 13 0.0 ;;
   np_set2 x2 node 14 0.0)%result.

(** The features with one node put into its healthy reference state. *)
Definition repaired_features (x : Matrix) (node : Z) : result Matrix :=
  (x1 <- np_set2 x node 15 0.9 ;;
   x2 <- np_set2 x1 node 13 0.8 ;;
   np_set2 x2 node 14 0.7)%result.

(** The edge list and the edge attributes without edge number [k]. *)
Definition occluded_graph (edge_index : EdgeIndex) (edge_attr : list R)
  (k : nat) : result (EdgeIndex * list R) :=
  (attr <- mask_out (List.length edge_index) k edge_attr ;;
   Ok (drop_nth k edge_index, attr))%result.

(** A request for a causal analysis of [target]: features reach the flow,
    level and status columns, edges join nodes of the graph. *)
Definition well_formed_analysis (x : Matrix) (edge_index : EdgeIndex)
  (target : Z) : Prop :=
  has_columns 16 x /\
  edges_in_range edge_index (List.length x) /\
  (- Z.of_nat (List.length x) <= target < Z.of_nat (List.length x))%Z.

(** The upstream neighbours of the target: the sources of the edges that end
    at it, one for each such edge. *)
Definition upstream_neighbors (edge_index : EdgeIndex) (target : Z) : list Z :=
  map (fun '(_, (src, _)) => src) (incoming_edges_of edge_index target).

(** [list_of_set] lists the elements of a set: each element of the list it
    is given, once. *)
Definition lists_the_set (list_of_set : list Z -> list Z) : Prop :=
  forall l, NoDup (list_of_set l) /\
            forall z, In z (list_of_set l) <-> In z l.

(** [v] is dimension 0 of row [i] of the prediction. *)
Definition dimension_0_of (pred : Matrix) (i : nat) (v : R) : Prop :=
  exists row, nth_error pred i = Some row /\ nth_error row 0 = Some v.

(** [v] is the mean over all the dimensions of the target's row of the
    prediction. *)
Definition mean_of_dimensions (pred : Matrix) (target : Z) (v : R) : Prop :=
  exists row, py_get pred target = Ok row /\ row <> [] /\
              v = np_sum row / INR (List.length row).

(** * Scenarios

    The graphs of [demo] (Tank -> Pump -> Pipe -> Hospital) and of
    [run_full_causal_analysis] (a failed tank, every connection in both
    directions), and two stand-ins for the trained network. *)

Definition demo_x : Matrix :=
  [ [0; 0; 0; 1; 0; 0; 0; 0; 0; 0; 0; 0;
     0.9; 0.8; 0.7; 0.9; 0.8; 0.6; 0.7; 0.8; 0.9; 0.1; 0.1; 0.0];
    [0; 0; 0; 0; 1; 0; 0; 0; 0; 0; 0; 0;
     0.9; 0.7; 0.8; 0.8; 0.6; 0.4; 0.5; 0.7; 0.8; 0.1; 0.1; 0.0];
    [0; 0; 0; 0; 0; 1; 0; 0; 0; 0; 0; 0;
     0.9; 0.6; 0.7; 0.7; 0.4; 0.3; 0.4; 0.5; 0.6; 0.1; 0.1; 0.0];
    [0; 0; 0; 0; 0; 0; 1; 0; 0; 0; 0; 0;
     0.9; 0.9; 0.5; 0.95; 0.9; 0.8; 0.9; 0.9; 0.95; 0.1; 0.1; 0.0] ].

Definition demo_edge_index : EdgeIndex := [(0, 1); (1, 2); (2, 3)]%Z.

Definition demo_edge_weight : list R := [0.9; 0.85; 0.8].

Definition demo_node_names : list string :=
  ["Tank_Main"; "Pump_Station"; "Pipe_A"; "Hospital"]%string.

(** A stand-in for the trained network, with the 12 output dimensions of
    the real one: the impact probability (dimension 0) of node [i] is
    [scale[i]] times the outage of node 0, that is 1 minus its status; the
    other eleven dimensions are 0. *)
Definition outage_predictor (scale : list R) : Predictor :=
  {| predict := fun x _ _ =>
       let outage := 1 - nth 12 (nth 0 x []) 0 in
       Ok (map (fun i => (nth i scale 0 * outage) :: repeat 0 11)
               (seq 0 (List.length x))) |}.

Definition demo_predictor : Predictor := outage_predictor [1; 0.9; 0.1; 0.1].

(** A second stand-in, which looks at the neighbours of a node and at the
    edges: the impact probability (dimension 0) of node [i] is half the sum,
    over the edges that end at [i], of the edge's weight times the level
    (column 13) of the edge's source; the other eleven dimensions are 0. *)
Definition inflow_predictor : Predictor :=
  {| predict := fun x edge_index edge_attr =>
       Ok (map (fun i =>
                  (0.5 * np_sum
                           (map (fun '(k, (src, _)) =>
                                   nth k edge_attr 0
                                   * nth 13 (nth (Z.to_nat src) x []) 0)
                                (incoming_edges_of edge_index (Z.of_nat i))))
                  :: repeat 0 11)
               (seq 0 (List.length x))) |}.

(** The scenario of [run_full_causal_analysis]: a failed tank, and the chain
    Tank - Pump - Pipe - Hospital with every connection in both directions. *)
Definition causal_x : Matrix :=
  [ [0; 0; 0; 1; 0; 0; 0; 0; 0; 0; 0; 0;
     0.8; 0.1; 0.0; 0.0; 0.85; 0.5; 0.3; 0.6; 0.8; 0.2; 0.1; 0.05];
    [0; 0; 0; 0; 1; 0; 0; 0; 0; 0; 0; 0;
     0.7; 0.8; 0.9; 0.9; 0.75; 0.4; 0.2; 0.5; 0.7; 0.3; 0.15; 0.1];
    [0; 0; 0; 0; 0; 1; 0; 0; 0; 0; 0; 0;
     0.5; 0.6; 0.7; 0.9; 0.6; 0.3; 0.15; 0.4; 0.5; 0.4; 0.2; 0.15];
    [0; 0; 0; 0; 0; 0; 0; 0; 0; 0; 1; 0;
     0.9; 0.95; 0.5; 0.9; 0.95; 0.9; 0.8; 0.7; 0.9; 0.1; 0.05; 0.02] ].

Definition causal_edge_index : EdgeIndex :=
  [(0, 1); (1, 0); (1, 2); (2, 1); (2, 3); (3, 2)]%Z.

Definition causal_edge_weights : list R := [0.9; 0.9; 0.85; 0.85; 0.8; 0.8].

(** * More vocabulary: the rows a request names, the order of the report *)

(** The caller's index [z] names row [i] of an array with [n] rows. *)
Definition names_row (n : nat) (z : Z) (i : nat) : bool :=
  match norm_index n z with
  | Ok k => (k =? i)%nat
  | Raise _ => false
  end.

(** Row [i] is one of the rows that [failed_nodes] names. *)
Definition is_forced (n : nat) (failed_nodes : list Z) (i : nat) : bool :=
  existsb (fun z => names_row n z i) failed_nodes.

(** [a] goes before [b]: its key is larger or, the keys being equal, it was
    the earlier of the two. *)
Definition key_then {A : Type} (key : A -> R) (earlier : A -> A -> Prop)
  (a b : A) : Prop :=
  key a > key b \/ (key a = key b /\ earlier a b).

(** The order of the entries of a report: larger |delta| first and, among
    equal ones, the smaller node index first. *)
Definition report_order : NodeReport -> NodeReport -> Prop :=
  key_then (fun r => Rabs (delta r)) (fun a b => (node_id a < node_id b)%nat).

(** The risk type of an affected node that is not a failure source, by
    failure mode and by whether its delta is negative. *)
Definition mode_risk_type (fm : FailureMode) (negative : bool) : string :=
  match fm, negative with
  | DEMAND_LOSS, true => "STAGNATION_RISK"
  | DEMAND_LOSS, false => "LOAD_REDISTRIBUTION"
  | SUPPLY_CUT, true => "SUPPLY_ISOLATION"
  | SUPPLY_CUT, false => "PRESSURE_SURGE"
  | CONTAMINATION, true => "BACKFLOW_RISK"
  | CONTAMINATION, false => "CONTAMINATION_SPREAD"
  | CONTROL_FAILURE, true => "CONTROL_BLIND_SPOT"
  | CONTROL_FAILURE, false => "CONTROL_INSTABILITY"
  | NONE, true => "IMPACT_DECREASE"
  | NONE, false => "IMPACT_INCREASE"
  end.

(** The colour that goes with a risk level. *)
Definition level_color (level : string) : string :=
  if level =? "low" then "#4CAF50"
  else if level =? "medium" then "#FF9800"
  else if level =? "elevated" then "#FF9800"
  else if level =? "high" then "#F44336"
  else "#9C27B0".

(** The severity levels of the panel, in their order. *)
Definition severity_rank (level : string) : nat :=
  if level =? "critical" then 3
  else if level =? "high" then 2
  else if level =? "medium" then 1
  else 0.

(** * The impact predictor panel ([backend/python-gnn/gradio_god_mode.py])

    The panel keeps a small network in memory, turns it into the inputs of
    the simulation engine and grades what the engine reports.  The two
    functions that render HTML are left out: the model of [run_prediction]
    ends with the arguments it hands to them. *)

(** ** Dictionaries with strings as keys

    A Python [dict] keeps its keys in the order of their first insertion. *)

(** [k in d]. *)
Fixpoint dict_mem {V : Type} (d : list (string * V)) (k : string) : bool :=
  match d with
  | [] => false
  | (k', _) :: d' => (k' =? k) || dict_mem d' k
  end.

(** [d.get(k)]. *)
Fixpoint dict_lookup {V : Type} (d : list (string * V)) (k : string)
  : option V :=
  match d with
  | [] => None
  | (k', v) :: d' => if k' =? k then Some v else dict_lookup d' k
  end.

(** [d.get(k, default)]. *)
Definition dict_get_or {V : Type} (d : list (string * V)) (k : string)
  (default : V) : V :=
  match dict_lookup d k with
  | Some v => v
  | None => default
  end.

(** [d[k]]. *)
Definition dict_item {V : Type} (d : list (string * V)) (k : string)
  : result V :=
  match dict_lookup d k with
  | Some v => Ok v
  | None => Raise KeyError
  end.

(** [d[k] = v]: a key that is there keeps its place. *)
Fixpoint dict_set {V : Type} (d : list (string * V)) (k : string) (v : V)
  : list (string * V) :=
  match d with
  | [] => [(k, v)]
  | (k', v') :: d' =>
      if k' =? k then (k', v) :: d' else (k', v') :: dict_set d' k v
  end.

(** [list(d.keys())]. *)
Definition dict_keys {V : Type} (d : list (string * V)) : list string :=
  map fst d.

(** [sub in s] on strings. *)
Definition str_contains (sub s : string) : bool :=
  match String.index 0 sub s with
  | Some _ => true
  | None => false
  end.

(** ** [amplify_risk] and [get_severity_level] *)

Definition amplify_risk (delta topology_weight : R) : R :=
  if Rgtb delta 0 then
    let shout := pow_half delta * 2.5 * topology_weight in
    py_min shout 1.0
  else delta * 0.1.

Definition get_severity_level (score : R) : string :=
  if Rgeb score 0.6 then "critical"
  else if Rgeb score 0.3 then "high"
  else if Rgeb score 0.1 then "medium"
  else "low".

(** ** [get_strategic_insight] *)

(** A template with one [{node}] in it, as the text before and after.  Every
    entry of [CRISIS_INSIGHTS] has the four severity levels, so that the
    default of [insights.get] is never formatted. *)
Definition Template : Type := (string * string)%type.

(** [template.format(node=node_name)]. *)
Definition format_node (t : Template) (node_name : string) : string :=
  fst t ++ node_name ++ snd t.

Definition CRISIS_INSIGHTS : list (string * list (string * Template)) :=
  [ ("Complete Failure",
     [ ("critical", ("Complete system failure affecting ",
                     ". Immediate intervention required."));
       ("high", ("", " experiencing significant disruption. Monitor closely."));
       ("medium", ("Moderate impact detected at ", "."));
       ("low", ("Minor effects observed at ", ".")) ]);
    ("Supply Disruption",
     [ ("critical", ("Supply isolation: ",
                     " cut off from water grid. Immediate rerouting required."));
       ("high", ("Pressure drop: ",
                 " experiencing reduced flow. Monitor tank levels."));
       ("medium", ("Flow anomaly: Minor disruption detected at ", "."));
       ("low", ("Slight flow variation at ", ".")) ]);
    ("Contamination Alert",
     [ ("critical", ("Biohazard spread: Contaminated water reaching ",
                     ". ISOLATE IMMEDIATELY."));
       ("high", ("Contamination risk: ",
                 " in contamination path. Test water quality."));
       ("medium", ("Quality alert: Potential contamination approaching ", "."));
       ("low", ("Water quality within acceptable range at ", ".")) ]);
    ("Power Failure",
     [ ("critical", ("Total blackout: ",
                     " lost all power. Critical systems offline."));
       ("high", ("Power disruption: ",
                 " operating on backup. Limited capacity."));
       ("medium", ("Grid stress: Power fluctuations detected near ", "."));
       ("low", ("Minor power variance at ", ".")) ]);
    ("Infrastructure Damage",
     [ ("critical", ("Structural failure: Pressure surge threatening ",
                     ". Evacuate area."));
       ("high", ("Damage risk: ",
                 " under abnormal stress. Inspect immediately."));
       ("medium", ("Pressure warning: Elevated stress detected at ", "."));
       ("low", ("Normal stress levels at ", ".")) ]) ].

Definition get_strategic_insight (node_name : string) (score : R)
  (failure_type node_type : string) : result string :=
  let level := get_severity_level score in
  if (level =? "low") && Rltb score 0.05 then
    Ok (node_name ++ " appears stable.")
  else
    complete <- dict_item CRISIS_INSIGHTS "Complete Failure" ;;
    let insights := dict_get_or CRISIS_INSIGHTS failure_type complete in
    match dict_lookup insights level with
    | Some template => Ok (format_node template node_name)
    | None => Ok ("Impact detected at " ++ node_name)
    end.

(** ** [get_priority_actions] *)

Definition get_priority_actions (severity failure_type : string)
  (affected_count : Z) : list string :=
  let actions := [] in
  let actions :=
    if severity =? "critical" then
      let actions :=
        (actions ++ ["Activate emergency response protocol"])%list in
      let actions :=
        (actions ++ ["Notify all affected downstream consumers"])%list in
      if str_contains "Contamination" failure_type then
        (actions ++ ["Issue water boil advisory"])%list
      else if str_contains "Power" failure_type then
        (actions ++ ["Deploy backup generators"])%list
      else (actions ++ ["Isolate affected section"])%list
    else actions in
  let actions :=
    if existsb (String.eqb severity) ["critical"; "high"] then
      let actions := (actions ++ ["Dispatch field inspection team"])%list in
      if (affected_count >? 3)%Z then
        (actions ++ ["Consider partial system shutdown"])%list
      else actions
    else actions in
  let actions :=
    if (affected_count >? 5)%Z then
      (actions ++ ["Coordinate with neighboring districts"])%list
    else actions in
  firstn 4 actions.

(** ** Failure scenarios *)

Record Scenario : Type := {
  mode : FailureMode;
  intensity : R
}.

Definition FAILURE_SCENARIOS : list (string * Scenario) :=
  [ ("Complete Failure", {| mode := SUPPLY_CUT; intensity := 3.0 |});
    ("Supply Disruption", {| mode := SUPPLY_CUT; intensity := 2.5 |});
    ("Contamination Alert", {| mode := CONTAMINATION; intensity := 4.0 |});
    ("Power Failure", {| mode := DEMAND_LOSS; intensity := 2.0 |});
    ("Infrastructure Damage", {| mode := SUPPLY_CUT; intensity := 3.5 |}) ].

Definition SEVERITY_MULTIPLIERS : list (string * R) :=
  [ ("low", 0.5); ("medium", 1.0); ("high", 1.5); ("critical", 2.0) ].

(** ** [auto_fill_features] and [auto_weight] *)

Definition auto_fill_features (node_type : string) (health : R) : list R :=
  let type_map :=
    [ ("Road", 0%nat); ("Building", 1%nat); ("Power", 2%nat);
      ("Tank", 3%nat); ("Pump", 4%nat); ("Pipe", 5%nat);
      ("Sensor", 6%nat); ("Cluster", 7%nat); ("Bridge", 8%nat);
      ("School", 9%nat); ("Hospital", 10%nat); ("Market", 11%nat) ] in
  let onehot := repeat 0 12 in
  let onehot := list_set onehot (dict_get_or type_map node_type 1%nat) 1 in
  let building :=
    [0.75; 0.70; 0.50; health; 0.60; 0.50; 0.60; 0.60; 0.70; 0.1; 0.1; 0.0] in
  let defaults :=
    [ ("Tank",
       [0.95; 0.85; 0.70; health; 0.90; 0.60; 0.50; 0.70; 0.85; 0.1; 0.1; 0.0]);
      ("Pump",
       [0.85; 0.80; 0.90; health; 0.85; 0.50; 0.40; 0.80; 0.80; 0.1; 0.1; 0.0]);
      ("Pipe",
       [0.70; 0.60; 0.75; health; 0.70; 0.40; 0.30; 0.60; 0.70; 0.1; 0.1; 0.0]);
      ("Hospital",
       [0.90; 0.95; 0.50; health; 0.99; 0.95; 0.90; 0.85; 0.95; 0.1; 0.05;
        0.0]);
      ("School",
       [0.85; 0.90; 0.40; health; 0.90; 0.85; 0.70; 0.75; 0.85; 0.1; 0.1; 0.0]);
      ("Market",
       [0.80; 0.85; 0.60; health; 0.75; 0.70; 0.85; 0.80; 0.75; 0.1; 0.1; 0.0]);
      ("Sensor",
       [0.50; 0.90; 0.30; health; 0.60; 0.20; 0.20; 0.90; 0.90; 0.1; 0.05;
        0.0]);
      ("Power",
       [0.90; 0.85; 0.80; health; 0.95; 0.70; 0.80; 0.85; 0.85; 0.1; 0.1; 0.0]);
      ("Road",
       [0.80; 0.70; 0.80; health; 0.70; 0.60; 0.50; 0.90; 0.70; 0.1; 0.1; 0.0]);
      ("Building", building) ] in
  (onehot ++ dict_get_or defaults node_type building)%list.

Definition auto_weight (from_type to_type : string) : R :=
  let critical := ["Tank"; "Pump"; "Hospital"; "Power"] in
  let w :=
    0.7 + (if existsb (String.eqb from_type) critical then 0.15 else 0)
        + (if existsb (String.eqb to_type) critical then 0.1 else 0) in
  py_min w 0.95.

(** ** The network kept in memory *)

Record NodeInfo : Type := {
  type : string;
  health : R
}.

(** [network_state]: the nodes by name, and the connections. *)
Record NetworkState : Type := {
  state_nodes : list (string * NodeInfo);
  state_edges : list (string * string)
}.

(** The state the module starts with. *)
Definition network_state : NetworkState :=
  {| state_nodes := []; state_edges := [] |}.

(** A message with a number in it, kept as its parts: literal text, and a
    number to be rendered by the format [{v:.0%}]. *)
Inductive mpart : Type :=
| MText (s : string)
| MPercent0 (v : R).

(** [edge in edges] for pairs of names. *)
Definition edge_mem (edge : string * string) (edges : list (string * string))
  : bool :=
  existsb (fun e => (fst e =? fst edge) && (snd e =? snd edge)) edges.

Definition add_edge (from_node to_node : string) (s : NetworkState)
  : NetworkState * string :=
  if negb (dict_mem (state_nodes s) from_node) then
    (s, "❌ Node '" ++ from_node ++ "' doesn't exist")
  else if negb (dict_mem (state_nodes s) to_node) then
    (s, "❌ Node '" ++ to_node ++ "' doesn't exist")
  else if from_node =? to_node then
    (s, "❌ Can't connect node to itself")
  else
    let edge := (from_node, to_node) in
    let s :=
      if negb (edge_mem edge (state_edges s)) then
        {| state_nodes := state_nodes s;
           state_edges :=
             ((state_edges s ++ [edge]) ++ [(to_node, from_node)])%list |}
      else s in
    (s, "✅ Connected: **" ++ from_node ++ "** ↔ **" ++ to_node ++ "**").

Definition clear_network (s : NetworkState) : NetworkState * string :=
  ({| state_nodes := []; state_edges := [] |}, "🗑️ Network cleared").

Definition get_node_choices (s : NetworkState) : list string :=
  match state_nodes s with
  | [] => ["(add nodes first)"]
  | _ :: _ => dict_keys (state_nodes s)
  end.

Definition load_example_network (s : NetworkState) : NetworkState * string :=
  ({| state_nodes :=
        [ ("Main-Tank", {| type := "Tank"; health := 0.95 |});
          ("Pump-A", {| type := "Pump"; health := 0.90 |});
          ("Main-Pipe", {| type := "Pipe"; health := 0.85 |});
          ("Hospital", {| type := "Hospital"; health := 0.95 |});
          ("School", {| type := "School"; health := 0.90 |}) ];
      state_edges :=
        [ ("Main-Tank", "Pump-A"); ("Pump-A", "Main-Tank");
          ("Pump-A", "Main-Pipe"); ("Main-Pipe", "Pump-A");
          ("Main-Pipe", "Hospital"); ("Hospital", "Main-Pipe");
          ("Main-Pipe", "School"); ("School", "Main-Pipe") ] |},
   "✅ Loaded example: Tank → Pump → Pipe → Hospital/School").

(** ** [compute_cascade_depth] *)

(** [for f, t in edges: adj[f].append(t)]. *)
Fixpoint fill_adjacency (adj : list (string * list string))
  (edges : list (string * string)) : result (list (string * list string)) :=
  match edges with
  | [] => Ok adj
  | (f, t) :: rest =>
      targets <- dict_item adj f ;;
      fill_adjacency (dict_set adj f (targets ++ [t])%list) rest
  end.

(** [for neighbor in ...], the loop over the neighbours of [node]. *)
Fixpoint visit_neighbors (node : string) (neighbors : list string)
  (depths : list (string * nat)) (queue : list string)
  : result (list (string * nat) * list string) :=
  match neighbors with
  | [] => Ok (depths, queue)
  | neighbor :: rest =>
      if negb (dict_mem depths neighbor) then
        d <- dict_item depths node ;;
        visit_neighbors node rest (dict_set depths neighbor (d + 1)%nat)
          (queue ++ [neighbor])%list
      else visit_neighbors node rest depths queue
  end.

(** [while queue: ...], for at most [steps] turns of the loop; [None] when
    the queue is not empty by then. *)
Fixpoint search (steps : nat) (adj : list (string * list string))
  (depths : list (string * nat)) (queue : list string)
  : option (result (list (string * nat))) :=
  match queue with
  | [] => Some (Ok depths)
  | node :: queue =>
      match steps with
      | O => None
      | S steps =>
          match visit_neighbors node (dict_get_or adj node []) depths queue
          with
          | Ok (depths, queue) => search steps adj depths queue
          | Raise e => Some (Raise e)
          end
      end
  end.

(** A turn of the loop takes a node off the queue, and a node is put on the
    queue once at most, the source at the start and any other node as the
    target of an edge: one turn more than there are edges is enough. *)
Definition compute_cascade_depth (edges : list (string * string))
  (source : string) (nodes : list string)
  : option (result (list (string * nat))) :=
  let adj := fold_left (fun adj n => dict_set adj n []) nodes [] in
  match fill_adjacency adj edges with
  | Raise e => Some (Raise e)
  | Ok adj =>
      let depths := [(source, 0%nat)] in
      let queue := [source] in
      search (S (List.length edges)) adj depths queue
  end.

(** ** [run_prediction] *)

Record Metrics : Type := {
  supplyDisruption : Z;
  pressureDrop : Z;
  qualityRisk : Z;
  cascadeRisk : Z
}.

(** An entry of [affected_nodes]; its keys are "name", "type", "score",
    "severity", "hops", "insight" and "metrics". *)
Record AffectedNode : Type := {
  an_name : string;
  an_type : string;
  an_score : R;
  an_severity : string;
  an_hops : nat;
  an_insight : string;
  an_metrics : Metrics
}.

(** The page that [run_prediction] returns, as the renderer called and its
    arguments. *)
Inductive Page : Type :=
| render_error (message : string)
| render_impact_results (source_node source_type failure_type severity
    overall_severity : string) (affected_nodes : list AffectedNode)
    (critical_count high_count affected_pop : nat) (recovery : string)
    (priority_actions : list string).

(** [int(v)] on a float: rounding towards zero. *)
Definition py_int (v : R) : Z :=
  if Rltb v 0 then (- Int_part (- v))%Z else Int_part v.

(** [{n: i for i, n in enumerate(node_names)}]. *)
Definition enumerate_names (node_names : list string) : list (string * nat) :=
  fold_left (fun d '(i, n) => dict_set d n i)
            (combine (seq 0 (List.length node_names)) node_names) [].

(** The loop over [network_state["edges"]] that builds [edge_list] and
    [edge_weights]. *)
Fixpoint edge_inputs (nodes : list (string * NodeInfo))
  (name_to_idx : list (string * nat)) (edges : list (string * string))
  (edge_list : EdgeIndex) (edge_weights : list R)
  : result (EdgeIndex * list R) :=
  match edges with
  | [] => Ok (edge_list, edge_weights)
  | (f, t) :: rest =>
      if dict_mem name_to_idx f && dict_mem name_to_idx t then
        i <- dict_item name_to_idx f ;;
        j <- dict_item name_to_idx t ;;
        from_info <- dict_item nodes f ;;
        to_info <- dict_item nodes t ;;
        edge_inputs nodes name_to_idx rest
          (edge_list ++ [(Z.of_nat i, Z.of_nat j)])%list
          (edge_weights ++ [auto_weight (type from_info) (type to_info)])%list
      else edge_inputs nodes name_to_idx rest edge_list edge_weights
  end.

Section Panel.

(** [name.strip()]. *)
Variable str_strip : string -> string.

(** The [n]-th number drawn by [np.random.randint(low, high)]. *)
Variable randint : nat -> Z -> Z -> Z.

Definition add_node (name node_type : string) (health : R) (s : NetworkState)
  : NetworkState * list mpart :=
  if str_strip name =? "" then (s, [MText "❌ Please enter a node name"])
  else
    let name := str_strip name in
    ({| state_nodes :=
          dict_set (state_nodes s) name
            {| type := node_type; health := health |};
        state_edges := state_edges s |},
     [MText ("✅ Added: **" ++ name ++ "** (" ++ node_type ++ ", ");
      MPercent0 health; MText " health)"]).

(** One turn of the loop over [result["nodes"]]; [drawn] counts the random
    numbers drawn so far. *)
Definition assess_node (s : NetworkState) (failure_type : string)
  (edge_weights : list R) (cascade_depths : list (string * nat))
  (intensity : R) (node : NodeReport)
  (acc : list AffectedNode * nat) : result (list AffectedNode * nat) :=
  let '(affected_nodes, drawn) := acc in
  if is_failed_source node then Ok acc
  else
    let name := node_name node in
    let raw_delta := delta node in
    let topo_weight :=
      match edge_weights with
      | w :: _ => w
      | [] => 0.8
      end in
    let impact_score :=
      amplify_risk raw_delta (topo_weight * intensity / 2.5) in
    let node_severity := get_severity_level impact_score in
    let node_type :=
      match dict_lookup (state_nodes s) name with
      | Some info => type info
      | None => "Building"
      end in
    let hops := dict_get_or cascade_depths name 0%nat in
    if Rgeb impact_score 0.02 then
      insight <-
        get_strategic_insight name impact_score failure_type node_type ;;
      let metrics :=
        {| supplyDisruption :=
             py_int (impact_score * 80 + IZR (randint drawn 0 20));
           pressureDrop :=
             py_int (impact_score * 60 + IZR (randint (drawn + 1) 0 30));
           qualityRisk :=
             py_int (impact_score * 40 + IZR (randint (drawn + 2) 0 25));
           cascadeRisk := py_int (impact_score * 100) |} in
      Ok ((affected_nodes
           ++ [{| an_name := name; an_type := node_type;
                  an_score := impact_score; an_severity := node_severity;
                  an_hops := hops; an_insight := insight;
                  an_metrics := metrics |}])%list,
          (drawn + 3)%nat)
    else Ok acc.

Fixpoint assess_nodes (s : NetworkState) (failure_type : string)
  (edge_weights : list R) (cascade_depths : list (string * nat))
  (intensity : R) (report : list NodeReport)
  (acc : list AffectedNode * nat) : result (list AffectedNode * nat) :=
  match report with
  | [] => Ok acc
  | node :: rest =>
      acc <- assess_node s failure_type edge_weights cascade_depths intensity
               node acc ;;
      assess_nodes s failure_type edge_weights cascade_depths intensity rest
        acc
  end.

Local Open Scope sim_scope.

(** [run_prediction] on the network [s], after [drawn] random numbers were
    drawn.  The outer [None] stands for a search for the cascade depths that
    did not end within its steps. *)
Definition run_prediction (predictor : Predictor)
  (failed_node failure_type severity : string) (s : NetworkState)
  (drawn : nat) : Sim (option Page) :=
  match state_nodes s with
  | [] =>
      sret (Some (render_error
                    "No network! Add some nodes first or load the example."))
  | _ :: _ =>
      if negb (dict_mem (state_nodes s) failed_node) then
        sret (Some (render_error
                      ("Node '" ++ failed_node ++ "' not found in network.")))
      else
        let node_names := dict_keys (state_nodes s) in
        let name_to_idx := enumerate_names node_names in
        features <-
          lift (mapM (fun name =>
                        (info <- dict_item (state_nodes s) name ;;
                         Ok (auto_fill_features (type info) (health info)))
                        %result)
                     node_names) ;;
        let x := features in
        '(edge_list, edge_weights) <-
          lift (edge_inputs (state_nodes s) name_to_idx (state_edges s)
                  [] []) ;;
        match edge_list with
        | [] =>
            sret (Some (render_error
                          "No connections in network! Add some edges."))
        | _ :: _ =>
            let edge_index := edge_list in
            let edge_weight := edge_weights in
            complete <- lift (dict_item FAILURE_SCENARIOS "Complete Failure") ;;
            let scenario :=
              dict_get_or FAILURE_SCENARIOS failure_type complete in
            failed_idx <- lift (dict_item name_to_idx failed_node) ;;
            result <-
              run_simulation predictor x edge_index edge_weight
                [Z.of_nat failed_idx] (Some node_names) (mode scenario) true ;;
            match compute_cascade_depth (state_edges s) failed_node node_names
            with
            | None => sret None
            | Some cascade_depths =>
                cascade_depths <- lift cascade_depths ;;
                let intensity :=
                  (intensity scenario
                   * dict_get_or SEVERITY_MULTIPLIERS severity 1.0)%R in
                '(affected_nodes, _) <-
                  lift (assess_nodes s failure_type edge_weights
                          cascade_depths intensity (nodes result)
                          ([], drawn)) ;;
                let affected_nodes := list_sort an_score true affected_nodes in
                let '(overall_severity, max_score) :=
                  match affected_nodes with
                  | first :: _ =>
                      (get_severity_level (an_score first), an_score first)
                  | [] => ("low", 0%R)
                  end in
                let critical_count :=
                  List.length
                    (filter (fun n => String.eqb (an_severity n) "critical")
                            affected_nodes) in
                let high_count :=
                  List.length
                    (filter (fun n => String.eqb (an_severity n) "high")
                            affected_nodes) in
                let affected_pop :=
                  list_sum
                    (map (fun n =>
                            if existsb (String.eqb (an_type n))
                                 ["Hospital"; "School"; "Market"]
                            then 150%nat else 50%nat)
                         affected_nodes) in
                let recovery :=
                  if overall_severity =? "critical" then "4-8 hours"
                  else if overall_severity =? "high" then "2-4 hours"
                  else if overall_severity =? "medium" then "1-2 hours"
                  else "< 1 hour" in
                info <- lift (dict_item (state_nodes s) failed_node) ;;
                let source_type := type info in
                let priority_actions :=
                  get_priority_actions overall_severity failure_type
                    (Z.of_nat (List.length affected_nodes)) in
                sret (Some (render_impact_results failed_node source_type
                              failure_type severity overall_severity
                              affected_nodes critical_count high_count
                              affected_pop recovery priority_actions))
            end
        end
  end.

Local Close Scope sim_scope.

End Panel.

(** * The prediction form ([backend/python-gnn/gradio_app.py]) *)

Definition NODE_TYPES : list (string * nat) :=
  [ ("Road", 0%nat); ("Building", 1%nat); ("Power", 2%nat); ("Tank", 3%nat);
    ("Pump", 4%nat); ("Pipe", 5%nat); ("Sensor", 6%nat); ("Cluster", 7%nat);
    ("Bridge", 8%nat); ("School", 9%nat); ("Hospital", 10%nat);
    ("Market", 11%nat) ].

(** [create_node_features]: the feature vector of a node of the form. *)
Definition create_node_features (node_type : string)
  (capacity level flow status criticality population economic_value
   connectivity maintenance : R) : result (list R) :=
  let type_encoding := repeat 0 12 in
  type_idx <- dict_item NODE_TYPES node_type ;;
  let type_encoding := list_set type_encoding type_idx 1 in
  let features :=
    (type_encoding
     ++ [capacity; level; flow; status; criticality; population;
         economic_value; connectivity; maintenance; 0.1; 0.1; 0.0])%list in
  Ok features.

(** ** Vocabulary for the panel *)

(** What a user of the panel can do to the network. *)
Inductive Action : Type :=
| AddNode (name node_type : string) (health : R)
| AddEdge (from_node to_node : string)
| ClearNetwork
| LoadExample.

Definition perform (str_strip : string -> string) (s : NetworkState)
  (a : Action) : NetworkState :=
  match a with
  | AddNode name node_type health =>
      fst (add_node str_strip name node_type health s)
  | AddEdge from_node to_node => fst (add_edge from_node to_node s)
  | ClearNetwork => fst (clear_network s)
  | LoadExample => fst (load_example_network s)
  end.

(** The network after a session that starts with the empty network. *)
Definition after (str_strip : string -> string) (actions : list Action)
  : NetworkState :=
  fold_left (perform str_strip) actions network_state.

(** The shape of a network that a session can arrive at: node names are
    keys, so there is each one once; the list of connections has no entry
    twice; a connection joins two different nodes of the network and is
    there in both directions. *)
Record network_invariant (s : NetworkState) : Prop := {
  inv_names : NoDup (dict_keys (state_nodes s));
  inv_edges : NoDup (state_edges s);
  inv_endpoints :
    forall f t, In (f, t) (state_edges s) ->
      In f (dict_keys (state_nodes s)) /\
      In t (dict_keys (state_nodes s)) /\ f <> t;
  inv_symmetric :
    forall f t, In (f, t) (state_edges s) -> In (t, f) (state_edges s)
}.

(** There is a walk of [d] connections from [source] to a node. *)
Inductive reaches (edges : list (string * string)) (source : string)
  : string -> nat -> Prop :=
| reaches_source : reaches edges source source 0
| reaches_step (u v : string) (d : nat) :
    reaches edges source u d -> In (u, v) edges ->
    reaches edges source v (S d).

(** [d] is the hop distance of [v] from [source]: the length of a shortest
    walk. *)
Definition hop_distance (edges : list (string * string)) (source v : string)
  (d : nat) : Prop :=
  reaches edges source v d /\
  forall d', reaches edges source v d' -> (d <= d')%nat.

(** The nodes of [universe] that have no depth yet. *)
Definition unvisited (universe : list string) (depths : list (string * nat))
  : nat :=
  List.length (filter (fun v => negb (dict_mem depths v)) universe).

(** The state of the search while the neighbours of a node of depth [h] are
    visited, or just before the node at the head of the queue, of depth [h]
    or [h + 1], is taken off.  [pending] are the nodes whose neighbours have
    not all been visited.  Depths are lengths of walks and at most [h + 1];
    the queue holds nodes of depth [h] and then nodes of depth [h + 1]; the
    neighbours of a node that is not pending have depths, at most one more
    than the node. *)
Record search_invariant (edges : list (string * string)) (source : string)
  (h : nat) (pending : list string) (depths : list (string * nat))
  (queue : list string) : Prop := {
  sv_source : dict_lookup depths source = Some 0%nat;
  sv_sound :
    forall v d, dict_lookup depths v = Some d -> reaches edges source v d;
  sv_bound : forall v d, dict_lookup depths v = Some d -> (d <= h + 1)%nat;
  sv_queue :
    forall q, In q queue ->
      exists d, dict_lookup depths q = Some d /\ (h <= d)%nat;
  sv_sorted :
    StronglySorted
      (fun a b => forall da db,
           dict_lookup depths a = Some da -> dict_lookup depths b = Some db ->
           (da <= db)%nat)
      queue;
  sv_closed :
    forall u d, dict_lookup depths u = Some d -> ~ In u pending ->
      forall v, In (u, v) edges ->
        exists d', dict_lookup depths v = Some d' /\ (d' <= d + 1)%nat
}.



(** * Properties *)

(** ** Comparisons *)

Lemma Rltb_true x y : Rltb x y = true <-> x < y.
Proof. unfold Rltb. destruct (Rlt_dec x y); split; intros; auto; discriminate. Qed.

Lemma Rltb_false x y : Rltb x y = false <-> y <= x.
Proof.
  unfold Rltb. destruct (Rlt_dec x y); split; intros H;
    try discriminate; try reflexivity; lra.
Qed.

Lemma Rleb_true x y : Rleb x y = true <-> x <= y.
Proof. unfold Rleb. destruct (Rle_dec x y); split; intros; auto; discriminate. Qed.

Lemma Rleb_false x y : Rleb x y = false <-> y < x.
Proof.
  unfold Rleb. destruct (Rle_dec x y); split; intros H;
    try discriminate; try reflexivity; lra.
Qed.

Lemma Rgtb_true x y : Rgtb x y = true <-> x > y.
Proof. unfold Rgtb. rewrite Rltb_true. lra. Qed.

Lemma Rgtb_false x y : Rgtb x y = false <-> x <= y.
Proof. unfold Rgtb. apply Rltb_false. Qed.

Lemma Rgeb_true x y : Rgeb x y = true <-> x >= y.
Proof. unfold Rgeb. rewrite Rleb_true. lra. Qed.

Lemma Rgeb_false x y : Rgeb x y = false <-> x < y.
Proof. unfold Rgeb. apply Rleb_false. Qed.

(** Case split on an innermost comparison of the goal. *)
Ltac no_comparison t :=
  lazymatch t with
  | context [Rltb _ _] => fail
  | context [Rleb _ _] => fail
  | _ => idtac
  end.

Ltac Rcase :=
  match goal with
  | |- context [Rltb ?a ?b] =>
      no_comparison a; no_comparison b;
      let E := fresh "E" in
      destruct (Rltb a b) eqn:E;
      [apply Rltb_true in E | apply Rltb_false in E]
  | |- context [Rleb ?a ?b] =>
      no_comparison a; no_comparison b;
      let E := fresh "E" in
      destruct (Rleb a b) eqn:E;
      [apply Rleb_true in E | apply Rleb_false in E]
  end.

Ltac Rcases := unfold Rgtb, Rgeb in *; repeat Rcase.

Lemma py_min_Rmin a b : py_min a b = Rmin a b.
Proof. unfold py_min, Rmin. destruct (Rle_dec a b); Rcases; lra. Qed.

Lemma py_max_Rmax a b : py_max a b = Rmax a b.
Proof. unfold py_max, Rmax. destruct (Rle_dec a b); Rcases; lra. Qed.

Lemma pow_half_sqrt x : 0 < x -> pow_half x = sqrt x.
Proof.
  intros Hx. unfold pow_half.
  replace 0.5 with (/ 2) by lra.
  apply Rpower_sqrt. exact Hx.
Qed.

Lemma pow_half_nonneg x : 0 < x -> 0 <= pow_half x.
Proof. intros Hx. rewrite pow_half_sqrt by exact Hx. apply sqrt_pos. Qed.

Lemma pow_half_mono x y : 0 < x -> x <= y -> pow_half x <= pow_half y.
Proof.
  intros Hx Hxy. rewrite !pow_half_sqrt by lra.
  apply sqrt_le_1; lra.
Qed.

Lemma pow_half_square x : 0 <= x -> 0 < x * x -> pow_half (x * x) = x.
Proof. intros Hx Hxx. rewrite pow_half_sqrt by exact Hxx. apply sqrt_square, Hx. Qed.

(** ** Confidence *)

(** C8.  The confidence score of [_compute_confidence] is
    [clamp(min(|delta| * 2, 1.0) * topology_weight, 0, 1)], and its label is
    "low" exactly when the score is below 0.2, "medium" exactly when it is in
    [0.2, 0.5), and "high" exactly in the remaining case, a score of at least
    0.5.  This holds for every delta and every topology weight, those of
    [0, 1] included. *)
Theorem compute_confidence_formula_and_label (d tw : R) :
  let score := fst (_compute_confidence d tw) in
  let label := snd (_compute_confidence d tw) in
  score = spec_confidence d tw /\
  (label = "low"%string <-> score < 0.2) /\
  (label = "medium"%string <-> 0.2 <= score < 0.5) /\
  (label = "high"%string <-> ~ score < 0.2 /\ ~ 0.2 <= score < 0.5).
Proof.
  cbv zeta. unfold _compute_confidence, spec_confidence, spec_clamp. simpl.
  rewrite <- (py_min_Rmin (Rabs d * 2) 1.0).
  set (v := py_min (Rabs d * 2) 1.0 * tw).
  set (c := py_max 0.0 (py_min 1.0 v)).
  assert (Hc : c = if Rltb v 0 then 0 else if Rltb 1 v then 1 else v).
  { unfold c, py_max, py_min. Rcases; lra. }
  split; [exact Hc |].
  clearbody c. clear Hc.
  Rcases; intuition (try discriminate; try reflexivity; try lra).
Qed.

(** ** Pessimistic amplification *)

Lemma pessimistic_delta_positive (d tw : R) :
  0 < d ->
  _calculate_pessimistic_delta d tw =
    (Rmin (pow_half d * 2.0 * tw) 1.0,
     if Rgeb (pow_half d * 2.0 * tw) 0.8 then "critical"%string
     else if Rgeb (pow_half d * 2.0 * tw) 0.5 then "high"%string
     else if Rgeb (pow_half d * 2.0 * tw) 0.2 then "elevated"%string
     else "normal"%string).
Proof.
  intros Hd. unfold _calculate_pessimistic_delta.
  destruct (Rgtb d 0) eqn:E.
  - rewrite py_min_Rmin. reflexivity.
  - apply Rgtb_false in E. lra.
Qed.

Lemma pessimistic_delta_nonpositive (d tw : R) :
  d <= 0 ->
  _calculate_pessimistic_delta d tw = (d * 0.1, "normal"%string).
Proof.
  intros Hd. unfold _calculate_pessimistic_delta.
  destruct (Rgtb d 0) eqn:E.
  - apply Rgtb_true in E. lra.
  - reflexivity.
Qed.

(** C6.  For a positive delta the amplified value is
    [min((delta ** 0.5) * 2.0 * topology_weight, 1.0)] and the alert level
    read off the amplified value is "critical" exactly from 0.8 up, "high"
    exactly in [0.5, 0.8), "elevated" exactly in [0.2, 0.5) and "normal"
    exactly below 0.2; for a delta that is zero or negative the result is
    [delta * 0.1] with alert level "normal".  This holds for every topology
    weight, those of [0, 1] included. *)
Theorem pessimistic_amplification_formula_and_alert (d tw : R) :
  (d > 0 ->
   let amplified := fst (_calculate_pessimistic_delta d tw) in
   let alert := snd (_calculate_pessimistic_delta d tw) in
   amplified = Rmin (pow_half d * 2.0 * tw) 1.0 /\
   (alert = "critical"%string <-> amplified >= 0.8) /\
   (alert = "high"%string <-> 0.5 <= amplified < 0.8) /\
   (alert = "elevated"%string <-> 0.2 <= amplified < 0.5) /\
   (alert = "normal"%string <->
      ~ amplified >= 0.8 /\ ~ 0.5 <= amplified < 0.8 /\
      ~ 0.2 <= amplified < 0.5)) /\
  (d <= 0 ->
   _calculate_pessimistic_delta d tw = (d * 0.1, "normal"%string)).
Proof.
  split.
  - intros Hd. cbv zeta.
    rewrite pessimistic_delta_positive by lra. simpl.
    set (p := pow_half d * 2.0 * tw).
    split; [reflexivity |].
    unfold Rmin. destruct (Rle_dec p 1.0); Rcases;
      intuition (try discriminate; try reflexivity; try lra).
  - apply pessimistic_delta_nonpositive.
Qed.

(** C7.  For a fixed topology weight in [0, 1] the amplified value does not
    decrease when a positive delta grows, and it never exceeds 1.0, whatever
    the sign of delta. *)
Theorem pessimistic_amplification_monotone_and_bounded (tw : R) :
  0 <= tw <= 1 ->
  (forall d1 d2 : R,
      0 < d1 -> d1 <= d2 ->
      fst (_calculate_pessimistic_delta d1 tw)
      <= fst (_calculate_pessimistic_delta d2 tw)) /\
  (forall d : R, fst (_calculate_pessimistic_delta d tw) <= 1.0).
Proof.
  intros Htw. split.
  - intros d1 d2 H1 H12.
    rewrite !pessimistic_delta_positive by lra. simpl.
    assert (Hm : pow_half d1 <= pow_half d2) by (apply pow_half_mono; lra).
    assert (H0 : 0 <= pow_half d1) by (apply pow_half_nonneg; lra).
    apply Rle_min_compat_r. nra.
  - intros d. destruct (Rlt_le_dec 0 d) as [Hd | Hd].
    + rewrite pessimistic_delta_positive by lra. simpl. apply Rmin_r.
    + rewrite pessimistic_delta_nonpositive by lra. simpl. lra.
Qed.

(** The theorem at topology weight 0.5: the square-root amplification of
    0.04 is below that of 0.25, and a relief of -3 stays below 1. *)
Lemma pessimistic_amplification_monotone_and_bounded_witness :
  fst (_calculate_pessimistic_delta 0.04 0.5)
  <= fst (_calculate_pessimistic_delta 0.25 0.5) /\
  fst (_calculate_pessimistic_delta (-3) 0.5) <= 1.0.
Proof.
  destruct (pessimistic_amplification_monotone_and_bounded 0.5) as [Hm Hb].
  - lra.
  - split.
    + apply Hm; lra.
    + apply Hb.
Defined.

(** ** Lists and the error monad *)

Lemma rbind_Ok_inv {A B : Type} (c : result A) (k : A -> result B) (b : B) :
  rbind c k = Ok b -> exists a, c = Ok a /\ k a = Ok b.
Proof.
  destruct c as [a | e]; simpl; intros H.
  - exists a. split; [reflexivity | exact H].
  - discriminate H.
Qed.

Lemma mapM_Ok_map {A B : Type} (f : A -> result B) (g : A -> B) (l : list A) :
  (forall a, In a l -> f a = Ok (g a)) -> mapM f l = Ok (map g l).
Proof.
  induction l as [| a l IH]; intros H; simpl.
  - reflexivity.
  - rewrite (H a) by (left; reflexivity). simpl.
    rewrite IH by (intros b Hb; apply H; right; exact Hb).
    reflexivity.
Qed.

Lemma mapM_Ok_inv {A B : Type} (f : A -> result B) (l : list A) (bs : list B) :
  mapM f l = Ok bs -> Forall2 (fun a b => f a = Ok b) l bs.
Proof.
  revert bs. induction l as [| a l IH]; intros bs H; simpl in H.
  - inversion H. constructor.
  - apply rbind_Ok_inv in H. destruct H as [b [Hb H]].
    apply rbind_Ok_inv in H. destruct H as [bs' [Hbs H]].
    inversion H; subst. constructor; [exact Hb | apply IH; exact Hbs].
Qed.

Lemma item_Ok {A : Type} (l : list A) (k : nat) (d : A) :
  (k < List.length l)%nat -> item l k = Ok (nth k l d).
Proof.
  intros Hk. unfold item.
  destruct (nth_error l k) as [a |] eqn:E.
  - f_equal. symmetry. apply nth_error_nth. exact E.
  - apply nth_error_None in E. lia.
Qed.

Lemma item_Ok_inv {A : Type} (l : list A) (k : nat) (a : A) :
  item l k = Ok a -> nth_error l k = Some a.
Proof.
  unfold item. destruct (nth_error l k); intros H; inversion H; reflexivity.
Qed.

Lemma norm_index_in_range (n : nat) (z : Z) :
  (0 <= z < Z.of_nat n)%Z -> norm_index n z = Ok (Z.to_nat z).
Proof.
  intros Hz. unfold norm_index.
  replace (0 <=? z)%Z with true by (symmetry; apply Z.leb_le; lia).
  replace (z <? Z.of_nat n)%Z with true by (symmetry; apply Z.ltb_lt; lia).
  reflexivity.
Qed.

Lemma norm_index_Ok_inv (n : nat) (z : Z) (k : nat) :
  norm_index n z = Ok k ->
  (k < n)%nat /\ (- Z.of_nat n <= z < Z.of_nat n)%Z.
Proof.
  unfold norm_index.
  destruct ((0 <=? z)%Z && (z <? Z.of_nat n)%Z) eqn:E1.
  - apply andb_prop in E1. destruct E1 as [E1 E2].
    apply Z.leb_le in E1. apply Z.ltb_lt in E2.
    intros H. inversion H. lia.
  - destruct ((- Z.of_nat n <=? z)%Z && (z <? 0)%Z) eqn:E2.
    + apply andb_prop in E2. destruct E2 as [E2 E3].
      apply Z.leb_le in E2. apply Z.ltb_lt in E3.
      intros H. inversion H. lia.
    + discriminate.
Qed.

Lemma norm_index_out_of_range (n : nat) (z : Z) :
  (z < - Z.of_nat n \/ Z.of_nat n <= z)%Z -> norm_index n z = Raise IndexError.
Proof.
  intros Hz. destruct (norm_index n z) as [k | e] eqn:E.
  - apply norm_index_Ok_inv in E. lia.
  - unfold norm_index in E.
    destruct ((0 <=? z)%Z && (z <? Z.of_nat n)%Z); [discriminate |].
    destruct ((- Z.of_nat n <=? z)%Z && (z <? 0)%Z); [discriminate |].
    inversion E. reflexivity.
Qed.

Lemma length_list_set {A : Type} (l : list A) (k : nat) (v : A) :
  List.length (list_set l k v) = List.length l.
Proof.
  revert k. induction l as [| a l IH]; intros [| k]; simpl; auto.
Qed.

Lemma nth_list_set {A : Type} (l : list A) (k j : nat) (v d : A) :
  (k < List.length l)%nat ->
  nth j (list_set l k v) d = if (j =? k)%nat then v else nth j l d.
Proof.
  revert k j. induction l as [| a l IH]; intros k j Hk; simpl in Hk.
  - lia.
  - destruct k as [| k]; destruct j as [| j]; simpl; try reflexivity.
    apply IH. lia.
Qed.

Lemma length_zip_with {A B C : Type} (f : A -> B -> C) (l : list A)
  (m : list B) :
  List.length l = List.length m ->
  List.length (zip_with f l m) = List.length l.
Proof.
  revert m. induction l as [| a l IH]; intros [| b m] H; simpl in *;
    try reflexivity; try discriminate.
  f_equal. apply IH. lia.
Qed.

Lemma nth_zip_with {A B C : Type} (f : A -> B -> C) (l : list A) (m : list B)
  (j : nat) (da : A) (db : B) (dc : C) :
  (j < List.length l)%nat -> List.length l = List.length m ->
  nth j (zip_with f l m) dc = f (nth j l da) (nth j m db).
Proof.
  revert m j. induction l as [| a l IH]; intros [| b m] j Hj H; simpl in *;
    try lia.
  destruct j as [| j]; [reflexivity |].
  apply IH; lia.
Qed.

(** ** The maximum of an array *)

Lemma fold_left_Rmax_ge_init (l : list R) (x : R) : x <= fold_left Rmax l x.
Proof.
  revert x. induction l as [| y l IH]; intros x; simpl.
  - lra.
  - eapply Rle_trans; [apply (Rmax_l x y) | apply IH].
Qed.

Lemma fold_left_Rmax_upper (l : list R) (x y : R) :
  In y l -> y <= fold_left Rmax l x.
Proof.
  revert x. induction l as [| z l IH]; intros x Hy; simpl in *.
  - contradiction.
  - destruct Hy as [-> | Hy].
    + eapply Rle_trans; [apply (Rmax_r x y) | apply fold_left_Rmax_ge_init].
    + apply IH. exact Hy.
Qed.

Lemma fold_left_Rmax_attained (l : list R) (x : R) :
  fold_left Rmax l x = x \/ In (fold_left Rmax l x) l.
Proof.
  revert x. induction l as [| z l IH]; intros x; simpl.
  - left. reflexivity.
  - destruct (IH (Rmax x z)) as [H | H].
    + rewrite H. unfold Rmax. destruct (Rle_dec x z); auto.
    + right. right. exact H.
Qed.

Lemma np_max_spec (a : list R) :
  a <> [] ->
  exists m, np_max a = Ok m /\ In m a /\ forall y, In y a -> y <= m.
Proof.
  destruct a as [| x a]; intros Hne; [contradiction Hne; reflexivity |].
  exists (fold_left Rmax a x). simpl. split; [reflexivity |]. split.
  - destruct (fold_left_Rmax_attained a x) as [H | H]; [left | right]; auto.
  - intros y [-> | Hy].
    + apply fold_left_Rmax_ge_init.
    + apply fold_left_Rmax_upper. exact Hy.
Qed.

(** ** Topology weights *)

Lemma np_add_at_Ok (a : list R) (z : Z) (w : R) :
  (0 <= z < Z.of_nat (List.length a))%Z ->
  exists a',
    np_add_at a z w = Ok a' /\
    List.length a' = List.length a /\
    forall v, (v < List.length a)%nat ->
      nth v a' 0 = nth v a 0 + (if (z =? Z.of_nat v)%Z then w else 0).
Proof.
  intros Hz. unfold np_add_at.
  rewrite norm_index_in_range by exact Hz. simpl.
  rewrite (item_Ok a (Z.to_nat z) 0) by lia. simpl.
  eexists. split; [reflexivity |]. split.
  - apply length_list_set.
  - intros v Hv. rewrite nth_list_set by lia.
    destruct (Nat.eqb_spec v (Z.to_nat z)) as [-> | Hne].
    + rewrite Z2Nat.id by lia. rewrite Z.eqb_refl. reflexivity.
    + destruct (Z.eqb_spec z (Z.of_nat v)) as [-> | Hne'].
      * rewrite Nat2Z.id in Hne. contradiction.
      * lra.
Qed.

Lemma accumulate_edges_Ok (edge_index : EdgeIndex) (edge_weight : list R)
  (num_nodes : nat) :
  edges_in_range edge_index num_nodes ->
  forall (i : nat) (degree weight_sum : list R),
    List.length degree = num_nodes -> List.length weight_sum = num_nodes ->
    exists degree' weight_sum',
      accumulate_edges edge_index edge_weight i degree weight_sum
      = Ok (degree', weight_sum') /\
      List.length degree' = num_nodes /\
      List.length weight_sum' = num_nodes /\
      forall v, (v < num_nodes)%nat ->
        nth v degree' 0 = nth v degree 0 + INR (spec_degree edge_index v) /\
        nth v weight_sum' 0
        = nth v weight_sum 0 + spec_weight_sum_from edge_index edge_weight i v.
Proof.
  induction 1 as [| [src dst] rest [Hsrc Hdst] Hrest IH];
    intros i degree weight_sum Hd Hw.
  - exists degree, weight_sum. simpl. repeat split; auto.
    + unfold spec_degree. simpl. lra.
    + lra.
  - simpl in Hsrc, Hdst. simpl accumulate_edges.
    set (w := if (i <? List.length edge_weight)%nat
              then nth i edge_weight 1.0 else 1.0).
    assert (Hw_at : w = edge_weight_at edge_weight i).
    { unfold w, edge_weight_at.
      destruct (Nat.ltb_spec i (List.length edge_weight)); [reflexivity |].
      rewrite nth_overflow by lia. reflexivity. }
    destruct (np_add_at_Ok degree src 1) as [d1 [E1 [L1 N1]]]; [lia |].
    destruct (np_add_at_Ok d1 dst 1) as [d2 [E2 [L2 N2]]]; [lia |].
    destruct (np_add_at_Ok weight_sum src w) as [w1 [E3 [L3 N3]]]; [lia |].
    destruct (np_add_at_Ok w1 dst w) as [w2 [E4 [L4 N4]]]; [lia |].
    rewrite E1. simpl. rewrite E2. simpl. rewrite E3. simpl. rewrite E4. simpl.
    destruct (IH (S i) d2 w2) as [d' [w' [E [Ld [Lw Hv]]]]]; [lia | lia |].
    exists d', w'. split; [exact E |]. split; [exact Ld |].
    split; [exact Lw |].
    intros v Hlt. destruct (Hv v Hlt) as [Hdv Hwv].
    rewrite Hdv, Hwv.
    rewrite N2, N1, N4, N3 by lia.
    unfold spec_degree. simpl map. simpl list_sum. fold (spec_degree rest v).
    simpl spec_weight_sum_from. rewrite <- Hw_at.
    rewrite plus_INR. unfold ends_at. simpl fst. simpl snd.
    destruct (src =? Z.of_nat v)%Z; destruct (dst =? Z.of_nat v)%Z;
      simpl; split; lra.
Qed.

Lemma spec_weight_sum_from_nonneg (edge_index : EdgeIndex)
  (edge_weight : list R) (i v : nat) :
  Forall (fun w => 0 <= w) edge_weight ->
  0 <= spec_weight_sum_from edge_index edge_weight i v.
Proof.
  intros Hew. revert i. induction edge_index as [| e rest IH]; intros i; simpl.
  - lra.
  - assert (H0 : 0 <= edge_weight_at edge_weight i).
    { unfold edge_weight_at.
      destruct (Nat.lt_ge_cases i (List.length edge_weight)) as [Hi | Hi].
      - rewrite Forall_forall in Hew. apply Hew. apply nth_In. exact Hi.
      - rewrite nth_overflow by lia. lra. }
    specialize (IH (S i)).
    assert (H1 : 0 <= INR (ends_at v e)) by apply pos_INR.
    nra.
Qed.

Lemma spec_raw_weight_sum (edge_index : EdgeIndex) (edge_weight : list R)
  (v : nat) :
  spec_raw edge_index edge_weight v
  = match spec_degree edge_index v with
    | O => 0
    | S _ => spec_weight_sum edge_index edge_weight v
    end.
Proof.
  unfold spec_raw, spec_avg_weight.
  destruct (spec_degree edge_index v) as [| k] eqn:E.
  - simpl. lra.
  - assert (H : INR (S k) <> 0) by (apply not_0_INR; discriminate).
    field. exact H.
Qed.

Lemma spec_raw_nonneg (edge_index : EdgeIndex) (edge_weight : list R) (v : nat) :
  Forall (fun w => 0 <= w) edge_weight ->
  0 <= spec_raw edge_index edge_weight v.
Proof.
  intros Hew. rewrite spec_raw_weight_sum.
  destruct (spec_degree edge_index v); [lra |].
  apply spec_weight_sum_from_nonneg. exact Hew.
Qed.

Lemma nth_map_in_range {A B : Type} (g : A -> B) (l : list A) (j : nat)
  (da : A) (db : B) :
  (j < List.length l)%nat -> nth j (map g l) db = g (nth j l da).
Proof.
  intros Hj. rewrite (nth_indep (map g l) db (g da)).
  - apply map_nth.
  - rewrite length_map. exact Hj.
Qed.

Lemma np_divide_where_positive_Ok (weight_sum degree : list R) :
  np_divide_where_positive weight_sum degree
  = Ok (map (fun '(ws, d) => if Rgtb d 0 then ws / d else 0)
            (combine weight_sum degree)).
Proof.
  unfold np_divide_where_positive. apply mapM_Ok_map.
  intros [ws d] _. destruct (Rgtb d 0) eqn:E; [| reflexivity].
  apply Rgtb_true in E. unfold np_true_divide.
  destruct (Req_dec_T d 0) as [H0 | H0]; [lra | reflexivity].
Qed.

Lemma divide_by_max_Ok (raw : list R) (m : R) :
  m <> 0 ->
  mapM (fun r => np_true_divide r m) raw = Ok (map (fun r => r / m) raw).
Proof.
  intros Hm. apply mapM_Ok_map. intros r _. unfold np_true_divide.
  destruct (Req_dec_T m 0) as [H0 | H0]; [contradiction | reflexivity].
Qed.

(** What the calculator returns on a graph with at least one node whose
    edges join nodes of the graph, whatever the weights: one weight per node,
    the raw value over the maximum raw value [mx] when [mx] is positive, and
    0.5 throughout otherwise. *)
Lemma compute_topology_weights_Ok (edge_index : EdgeIndex)
  (edge_weight : list R) (num_nodes : nat) :
  (0 < num_nodes)%nat ->
  edges_in_range edge_index num_nodes ->
  exists (weights : list R) (mx : R),
    _compute_topology_weights edge_index edge_weight num_nodes = Ok weights /\
    List.length weights = num_nodes /\
    is_max_raw edge_index edge_weight num_nodes mx /\
    forall v, (v < num_nodes)%nat ->
      (0 < mx -> nth v weights 0 = spec_raw edge_index edge_weight v / mx) /\
      (mx <= 0 -> nth v weights 0 = 0.5).
Proof.
  intros HN Hedges. unfold _compute_topology_weights.
  destruct (accumulate_edges_Ok edge_index edge_weight num_nodes Hedges 0
              (repeat 0 num_nodes) (repeat 0 num_nodes))
    as [degree [weight_sum [E [Ld [Lw Hv]]]]];
    try apply repeat_length.
  rewrite E. simpl. rewrite np_divide_where_positive_Ok. simpl.
  set (avg := map (fun '(ws, d) => if Rgtb d 0 then ws / d else 0)
                  (combine weight_sum degree)).
  set (raw := zip_with Rmult degree avg).
  assert (Lavg : List.length avg = num_nodes).
  { unfold avg. rewrite length_map, length_combine. lia. }
  assert (Lraw : List.length raw = num_nodes).
  { unfold raw. rewrite length_zip_with; lia. }
  assert (Hraw : forall v, (v < num_nodes)%nat ->
                   nth v raw 0 = spec_raw edge_index edge_weight v).
  { intros v Hlt. unfold raw.
    rewrite (nth_zip_with Rmult degree avg v 0 0 0) by lia.
    unfold avg. rewrite (nth_map_in_range _ _ v (0, 0) 0)
      by (rewrite length_combine; lia).
    rewrite combine_nth by lia.
    destruct (Hv v Hlt) as [Hd Hw]. rewrite Hd, Hw.
    rewrite !nth_repeat, !Rplus_0_l.
    unfold spec_raw, spec_avg_weight, spec_weight_sum.
    destruct (spec_degree edge_index v) as [| k] eqn:Edeg.
    - simpl INR. destruct (Rgtb 0 0) eqn:E0.
      + apply Rgtb_true in E0. lra.
      + reflexivity.
    - destruct (Rgtb (INR (S k)) 0) eqn:E0.
      + reflexivity.
      + apply Rgtb_false in E0.
        assert (0 < INR (S k)) by (apply lt_0_INR; lia). lra. }
  destruct (np_max_spec raw) as [m [Em [Hin Hub]]].
  { intros Hnil. rewrite Hnil in Lraw. simpl in Lraw. lia. }
  rewrite Em. simpl.
  assert (Hmax : is_max_raw edge_index edge_weight num_nodes m).
  { split.
    - destruct (In_nth raw m 0 Hin) as [v [Hlt Hnth]].
      exists v. split; [lia |]. rewrite <- Hraw by lia. exact Hnth.
    - intros v Hlt. rewrite <- Hraw by exact Hlt.
      apply Hub. apply nth_In. lia. }
  destruct (Rgtb m 0) eqn:Egt.
  - apply Rgtb_true in Egt.
    rewrite divide_by_max_Ok by lra.
    exists (map (fun r => r / m) raw), m.
    split; [reflexivity |]. split; [rewrite length_map; exact Lraw |].
    split; [exact Hmax |].
    intros v Hlt.
    rewrite (nth_map_in_range _ raw v 0 0) by lia. rewrite Hraw by exact Hlt.
    split; [reflexivity | lra].
  - apply Rgtb_false in Egt.
    exists (map (fun one => one * 0.5) (repeat 1 num_nodes)), m.
    split; [reflexivity |].
    split; [rewrite length_map; apply repeat_length |].
    split; [exact Hmax |].
    intros v Hlt.
    rewrite (nth_map_in_range _ _ v 1 0) by (rewrite repeat_length; lia).
    rewrite nth_repeat.
    split; lra.
Qed.

(** C5.  On a graph with at least one node, whose edges join nodes of the
    graph and carry weights that are not negative, the topology weight
    calculator returns one weight per node and performs no division by zero:
    with [mx] the maximum over all nodes of the raw value (degree times
    average incident edge weight, the average of a node without edges being
    0), node [v] gets its raw value divided by [mx] when [mx] is not 0 and
    exactly 0.5 when [mx] is 0; every weight lies in [0, 1]. *)
Theorem topology_weights_normalised (edge_index : EdgeIndex)
  (edge_weight : list R) (num_nodes : nat) :
  (0 < num_nodes)%nat ->
  edges_in_range edge_index num_nodes ->
  Forall (fun w => 0 <= w) edge_weight ->
  exists (weights : list R) (mx : R),
    _compute_topology_weights edge_index edge_weight num_nodes = Ok weights /\
    List.length weights = num_nodes /\
    is_max_raw edge_index edge_weight num_nodes mx /\
    forall v, (v < num_nodes)%nat ->
      (mx <> 0 -> nth v weights 0 = spec_raw edge_index edge_weight v / mx) /\
      (mx = 0 -> nth v weights 0 = 0.5) /\
      0 <= nth v weights 0 <= 1.
Proof.
  intros HN Hedges Hew.
  destruct (compute_topology_weights_Ok edge_index edge_weight num_nodes
              HN Hedges) as [weights [mx [E [L [Hmax Hw]]]]].
  exists weights, mx.
  split; [exact E |]. split; [exact L |]. split; [exact Hmax |].
  assert (Hmx : 0 <= mx).
  { destruct Hmax as [[v [_ <-]] _]. apply spec_raw_nonneg. exact Hew. }
  intros v Hlt. destruct (Hw v Hlt) as [Hpos Hneutral].
  assert (H0 : 0 <= spec_raw edge_index edge_weight v)
    by (apply spec_raw_nonneg; exact Hew).
  assert (H1 : spec_raw edge_index edge_weight v <= mx)
    by (apply Hmax; exact Hlt).
  destruct (Rle_lt_or_eq_dec 0 mx Hmx) as [Hgt | Heq].
  - rewrite (Hpos Hgt).
    split; [reflexivity |]. split; [lra |]. split.
    + apply Rmult_le_pos; [exact H0 |]. left. apply Rinv_0_lt_compat. lra.
    + apply Rmult_le_reg_r with mx; [lra |]. field_simplify; lra.
  - rewrite Hneutral by lra.
    split; [lra |]. split; lra.
Qed.

(** The theorem on the two-node graph with the single edge 0 -> 1 of
    weight 0.9. *)
Lemma topology_weights_normalised_witness :
  exists (weights : list R) (mx : R),
    _compute_topology_weights [(0, 1)%Z] [0.9] 2 = Ok weights /\
    List.length weights = 2%nat /\
    is_max_raw [(0, 1)%Z] [0.9] 2 mx /\
    forall v, (v < 2)%nat ->
      (mx <> 0 -> nth v weights 0 = spec_raw [(0, 1)%Z] [0.9] v / mx) /\
      (mx = 0 -> nth v weights 0 = 0.5) /\
      0 <= nth v weights 0 <= 1.
Proof.
  apply (topology_weights_normalised [(0, 1)%Z] [0.9] 2).
  - lia.
  - repeat constructor; simpl; lia.
  - repeat constructor. lra.
Defined.

(** A graph without edges: every node gets the neutral weight 0.5. *)
Lemma topology_weights_zero_edges (edge_weight : list R) (num_nodes : nat) :
  (0 < num_nodes)%nat ->
  _compute_topology_weights [] edge_weight num_nodes
  = Ok (map (fun one => one * 0.5) (repeat 1 num_nodes)).
Proof.
  intros HN. unfold _compute_topology_weights. simpl.
  rewrite np_divide_where_positive_Ok. simpl.
  set (raw := zip_with Rmult (repeat 0 num_nodes) _).
  assert (Hall : forall y, In y raw -> y = 0).
  { unfold raw. clear raw. induction num_nodes as [| n IH]; simpl.
    - contradiction.
    - intros y [<- | Hy].
      + destruct (Rgtb 0 0); lra.
      + destruct n as [| n]; [contradiction |]. apply IH; [lia | exact Hy]. }
  destruct (np_max_spec raw) as [m [Em [Hin _]]].
  { unfold raw. destruct num_nodes; [lia | discriminate]. }
  rewrite Em. simpl. rewrite (Hall m Hin).
  destruct (Rgtb 0 0) eqn:E0; [apply Rgtb_true in E0; lra | reflexivity].
Qed.

(** ** Sorting *)

Section SortBy.

Context {A : Type}.
Variable before : A -> A -> bool.
Hypothesis before_total : forall a b, before a b = true \/ before b a = true.

Let ordered (a b : A) : Prop := before a b = true.

Lemma insert_by_perm (a : A) (l : list A) :
  Permutation (a :: l) (insert_by before a l).
Proof.
  induction l as [| b l IH]; simpl.
  - apply Permutation_refl.
  - destruct (before a b).
    + apply Permutation_refl.
    + eapply Permutation_trans; [apply perm_swap |].
      apply perm_skip. exact IH.
Qed.

Lemma sort_by_perm (l : list A) : Permutation l (sort_by before l).
Proof.
  induction l as [| a l IH]; simpl.
  - apply Permutation_refl.
  - eapply Permutation_trans; [| apply insert_by_perm].
    apply perm_skip. exact IH.
Qed.

Lemma insert_by_HdRel (a b : A) (l : list A) :
  ordered b a -> HdRel ordered b l -> HdRel ordered b (insert_by before a l).
Proof.
  intros Hba Hl. destruct l as [| c l]; simpl.
  - constructor. exact Hba.
  - destruct (before a c); constructor.
    + exact Hba.
    + inversion Hl; assumption.
Qed.

Lemma insert_by_sorted (a : A) (l : list A) :
  Sorted ordered l -> Sorted ordered (insert_by before a l).
Proof.
  induction 1 as [| b l Hs IH Hhd]; simpl.
  - repeat constructor.
  - destruct (before a b) eqn:E.
    + constructor; [constructor; assumption |]. constructor. exact E.
    + constructor; [exact IH |].
      apply insert_by_HdRel; [| exact Hhd].
      destruct (before_total a b) as [H | H]; [congruence | exact H].
Qed.

Lemma sort_by_sorted (l : list A) : Sorted ordered (sort_by before l).
Proof.
  induction l as [| a l IH]; simpl.
  - constructor.
  - apply insert_by_sorted. exact IH.
Qed.

End SortBy.

Lemma list_sort_perm {A : Type} (key : A -> R) (reverse : bool) (l : list A) :
  Permutation l (list_sort key reverse l).
Proof. unfold list_sort. destruct reverse; apply sort_by_perm. Qed.

Lemma list_sort_reverse_descending {A : Type} (key : A -> R) (l : list A) :
  descending key (list_sort key true l).
Proof.
  unfold descending, list_sort.
  apply Sorted_StronglySorted.
  - intros a b c Hab Hbc. lra.
  - eapply Sorted_ind with
      (P := fun l => Sorted (fun a b => key a >= key b) l);
      [constructor | | apply (sort_by_sorted (fun a b => Rgeb (key a) (key b)))].
    + intros a l0 _ IH Hhd. constructor; [exact IH |].
      destruct Hhd as [| b l1 Hab]; constructor. apply Rgeb_true. exact Hab.
    + intros a b. destruct (Rle_lt_dec (key a) (key b)) as [H | H].
      * right. apply Rgeb_true. lra.
      * left. apply Rgeb_true. lra.
Qed.

Lemma list_sort_ascending {A : Type} (key : A -> R) (l : list A) :
  ascending key (list_sort key false l).
Proof.
  unfold ascending, list_sort.
  apply Sorted_StronglySorted.
  - intros a b c Hab Hbc. lra.
  - eapply Sorted_ind with
      (P := fun l => Sorted (fun a b => key a <= key b) l);
      [constructor | | apply (sort_by_sorted (fun a b => Rleb (key a) (key b)))].
    + intros a l0 _ IH Hhd. constructor; [exact IH |].
      destruct Hhd as [| b l1 Hab]; constructor. apply Rleb_true. exact Hab.
    + intros a b. destruct (Rle_lt_dec (key a) (key b)) as [H | H].
      * left. apply Rleb_true. lra.
      * right. apply Rleb_true. lra.
Qed.

(** ** Reading a successful run backwards *)

Lemma sbind_Ok_inv {A B : Type} (c : Sim A) (k : A -> Sim B)
  (log log' : list Call) (b : B) :
  sbind c k log = (log', Ok b) ->
  exists a log1, c log = (log1, Ok a) /\ k a log1 = (log', Ok b).
Proof.
  unfold sbind. destruct (c log) as [log1 [a | e]]; intros H.
  - exists a, log1. split; [reflexivity | exact H].
  - inversion H.
Qed.

Lemma lift_Ok_inv {A : Type} (r : result A) (log log' : list Call) (a : A) :
  lift r log = (log', Ok a) -> r = Ok a /\ log' = log.
Proof. unfold lift. intros H. inversion H. split; reflexivity. Qed.

Lemma predict_with_threshold_Ok_inv (predictor : Predictor) (x : Matrix)
  (edge_index : EdgeIndex) (edge_weight : list R) (threshold : R)
  (m : Matrix) (alerts : list (list Z)) (risk : string) :
  predict_with_threshold predictor x edge_index edge_weight threshold
  = Ok (m, alerts, risk) ->
  predict predictor x edge_index edge_weight = Ok m.
Proof.
  unfold predict_with_threshold. intros H.
  apply rbind_Ok_inv in H. destruct H as [m' [Hm H]].
  apply rbind_Ok_inv in H. destruct H as [ip [_ H]].
  apply rbind_Ok_inv in H. destruct H as [mx [_ H]].
  inversion H; subst. exact Hm.
Qed.

Lemma run_simulation_inv (predictor : Predictor) (x : Matrix)
  (edge_index : EdgeIndex) (edge_weight : list R) (failed_nodes : list Z)
  (node_names : option (list string)) (failure_mode : FailureMode)
  (pessimistic_mode : bool) (log log' : list Call) (rep : SimulationReport) :
  run_simulation predictor x edge_index edge_weight failed_nodes node_names
    failure_mode pessimistic_mode log = (log', Ok rep) ->
  exists (bm sm : Matrix) (base sim : list R) (x_sim : Matrix),
    predict predictor x edge_index edge_weight = Ok bm /\
    column0 bm = Ok base /\
    force_failures x failed_nodes 12 = Ok x_sim /\
    predict predictor x_sim edge_index edge_weight = Ok sm /\
    column0 sm = Ok sim /\
    build_report base sim edge_index edge_weight (List.length x)
      (names_or_default node_names (List.length x)) failed_nodes failure_mode
      pessimistic_mode = Ok rep /\
    log' = (log ++ [(x, edge_index, edge_weight);
                    (x_sim, edge_index, edge_weight)])%list.
Proof.
  unfold run_simulation. intros H.
  apply sbind_Ok_inv in H. destruct H as [[[bm al] rk] [log1 [Hb H]]].
  unfold call_predict_with_threshold in Hb. inversion Hb as [[Hlog1 Hbm]].
  clear Hb. apply predict_with_threshold_Ok_inv in Hbm.
  apply sbind_Ok_inv in H. destruct H as [base [log2 [Hbase H]]].
  apply lift_Ok_inv in Hbase. destruct Hbase as [Hbase ->].
  apply sbind_Ok_inv in H. destruct H as [x_sim [log3 [Hx H]]].
  apply lift_Ok_inv in Hx. destruct Hx as [Hx ->].
  apply sbind_Ok_inv in H. destruct H as [[[sm al'] rk'] [log4 [Hs H]]].
  inversion Hs as [[Hlog4 Hsm]]. clear Hs.
  apply predict_with_threshold_Ok_inv in Hsm.
  apply sbind_Ok_inv in H. destruct H as [sim [log5 [Hsim H]]].
  apply lift_Ok_inv in Hsim. destruct Hsim as [Hsim ->].
  apply lift_Ok_inv in H. destruct H as [H ->].
  exists bm, sm, base, sim, x_sim.
  repeat (split; [assumption |]).
  subst. rewrite <- app_assoc. reflexivity.
Qed.

Lemma report_entry_inv (base sim deltas tws pds : list R)
  (names : list string) (failed_nodes : list Z) (failure_mode : FailureMode)
  (pessimistic_mode : bool) (i : nat) (r : NodeReport) :
  report_entry base sim deltas tws pds names failed_nodes failure_mode
    pessimistic_mode i = Ok r ->
  exists (d tw : R) (name : string),
    item deltas i = Ok d /\ item tws i = Ok tw /\ item names i = Ok name /\
    item base i = Ok (baseline r) /\ item sim i = Ok (simulated r) /\
    node_id r = i /\ node_name r = name /\ delta r = d /\
    is_failed_source r = is_listed i failed_nodes /\
    interpretation r
    = _interpret_delta d name (is_listed i failed_nodes) failure_mode tw
        pessimistic_mode /\
    (if pessimistic_mode
     then exists p, item pds i = Ok p /\ pessimistic_delta r = Some p
     else pessimistic_delta r = None).
Proof.
  unfold report_entry. intros H.
  apply rbind_Ok_inv in H. destruct H as [d [Hd H]].
  apply rbind_Ok_inv in H. destruct H as [name [Hn H]].
  apply rbind_Ok_inv in H. destruct H as [tw [Ht H]].
  apply rbind_Ok_inv in H. destruct H as [b [Hb H]].
  apply rbind_Ok_inv in H. destruct H as [s [Hs H]].
  apply rbind_Ok_inv in H. destruct H as [pd [Hp H]].
  inversion H; subst r; clear H. simpl.
  exists d, tw, name. repeat (split; [assumption || reflexivity |]).
  destruct pessimistic_mode.
  - apply rbind_Ok_inv in Hp. destruct Hp as [p [Hp H]].
    inversion H; subst. exists p. split; [exact Hp | reflexivity].
  - inversion Hp. reflexivity.
Qed.

Lemma build_report_inv (base sim : list R) (edge_index : EdgeIndex)
  (edge_weight : list R) (num_nodes : nat) (names : list string)
  (failed_nodes : list Z) (failure_mode : FailureMode)
  (pessimistic_mode : bool) (rep : SimulationReport) :
  build_report base sim edge_index edge_weight num_nodes names failed_nodes
    failure_mode pessimistic_mode = Ok rep ->
  exists (deltas tws pds : list R) (entries : list NodeReport),
    np_sub sim base = Ok deltas /\
    _compute_topology_weights edge_index edge_weight num_nodes = Ok tws /\
    mapM (report_entry base sim deltas tws pds names failed_nodes failure_mode
            pessimistic_mode) (seq 0 num_nodes) = Ok entries /\
    nodes rep = list_sort (fun r => Rabs (delta r)) true entries /\
    affected_count (summary rep)
    = List.length (filter (fun r => Rgtb (Rabs (delta r)) 0.01) (nodes rep)) /\
    np_max (map Rabs deltas) = Ok (max_delta (summary rep)) /\
    np_mean (map Rabs deltas) = Ok (mean_delta (summary rep)) /\
    _summarize_interpretations (nodes rep) failure_mode pessimistic_mode
    = Ok (interpretation_summary (summary rep)) /\
    raw rep = {| raw_baseline := base; raw_simulated := sim;
                 raw_deltas := deltas |}.
Proof.
  unfold build_report. intros H.
  apply rbind_Ok_inv in H. destruct H as [deltas [Hd H]].
  apply rbind_Ok_inv in H. destruct H as [tws [Ht H]].
  apply rbind_Ok_inv in H. destruct H as [pds [Hp H]].
  apply rbind_Ok_inv in H. destruct H as [entries [He H]].
  apply rbind_Ok_inv in H. destruct H as [fnames [Hf H]].
  apply rbind_Ok_inv in H. destruct H as [max_d [Hmax H]].
  apply rbind_Ok_inv in H. destruct H as [mean_d [Hmean H]].
  apply rbind_Ok_inv in H. destruct H as [max_p [Hmp H]].
  apply rbind_Ok_inv in H. destruct H as [text [Htext H]].
  inversion H; subst rep; clear H. simpl.
  exists deltas, tws, pds, entries.
  repeat (split; [assumption || reflexivity |]). reflexivity.
Qed.

Lemma Forall2_In_right {A B : Type} (P : A -> B -> Prop) (l : list A)
  (m : list B) (b : B) :
  Forall2 P l m -> In b m -> exists a, In a l /\ P a b.
Proof.
  induction 1 as [| a b' l m Hab _ IH]; intros Hb; simpl in Hb.
  - contradiction.
  - destruct Hb as [<- | Hb].
    + exists a. split; [left; reflexivity | exact Hab].
    + destruct (IH Hb) as [a' [Ha' HP]]. exists a'. split; [right |]; assumption.
Qed.

Lemma Forall2_In_left {A B : Type} (P : A -> B -> Prop) (l : list A)
  (m : list B) (a : A) :
  Forall2 P l m -> In a l -> exists b, In b m /\ P a b.
Proof.
  induction 1 as [| a' b l m Hab _ IH]; intros Ha; simpl in Ha.
  - contradiction.
  - destruct Ha as [<- | Ha].
    + exists b. split; [left; reflexivity | exact Hab].
    + destruct (IH Ha) as [b' [Hb' HP]]. exists b'. split; [right |]; assumption.
Qed.

Lemma is_listed_true (i : nat) (failed_nodes : list Z) :
  is_listed i failed_nodes = true <-> In (Z.of_nat i) failed_nodes.
Proof.
  unfold is_listed. rewrite existsb_exists. split.
  - intros [z [Hin Heq]]. apply Z.eqb_eq in Heq. subst. exact Hin.
  - intros Hin. exists (Z.of_nat i). split; [exact Hin | apply Z.eqb_refl].
Qed.

Lemma run_simulation_facts (predictor : Predictor) (x : Matrix)
  (edge_index : EdgeIndex) (edge_weight : list R) (failed_nodes : list Z)
  (node_names : option (list string)) (failure_mode : FailureMode)
  (pessimistic_mode : bool) (log log' : list Call) (rep : SimulationReport) :
  run_simulation predictor x edge_index edge_weight failed_nodes node_names
    failure_mode pessimistic_mode log = (log', Ok rep) ->
  exists (bm sm : Matrix) (base sim deltas tws : list R) (x_sim : Matrix),
    RunFacts predictor x edge_index edge_weight failed_nodes failure_mode
      pessimistic_mode rep bm sm base sim deltas tws x_sim.
Proof.
  intros H. apply run_simulation_inv in H.
  destruct H as [bm [sm [base [sim [x_sim
    [Hbm [Hbase [Hx [Hsm [Hsim [Hrep _]]]]]]]]]]].
  apply build_report_inv in Hrep.
  destruct Hrep as [deltas [tws [pds [entries
    [Hd [Ht [He [Hnodes [Hcount [Hmax [Hmean [Htext Hraw]]]]]]]]]]]].
  apply mapM_Ok_inv in He.
  assert (Hperm : Permutation entries (nodes rep))
    by (rewrite Hnodes; apply list_sort_perm).
  exists bm, sm, base, sim, deltas, tws, x_sim.
  constructor; try assumption.
  - intros r Hr.
    apply (Permutation_in _ (Permutation_sym Hperm)) in Hr.
    destruct (Forall2_In_right _ _ _ _ He Hr) as [i [Hi Hentry]].
    apply in_seq in Hi.
    apply report_entry_inv in Hentry.
    destruct Hentry as [d [tw [name
      [Hid [Hit [_ [Hib [His [Hnid [_ [Hdel [Hsrc [Hint Hp]]]]]]]]]]]]].
    subst i d. split; [lia |].
    exists tw, name. repeat (split; [assumption |]).
    intros ->. exact Hp.
  - intros i Hi.
    destruct (Forall2_In_left _ _ _ i He) as [r [Hr Hentry]].
    { apply in_seq. lia. }
    exists r. split; [apply (Permutation_in _ Hperm); exact Hr |].
    apply report_entry_inv in Hentry.
    destruct Hentry as [_ [_ [_ [_ [_ [_ [_ [_ [Hnid _]]]]]]]]].
    exact Hnid.
  - eapply Permutation_trans; [| apply Permutation_map; exact Hperm].
    replace (map node_id entries) with (seq 0 (List.length x));
      [apply Permutation_refl |].
    clear Hperm Hnodes. induction He as [| i r ids rs Hentry _ IH].
    + reflexivity.
    + simpl. f_equal; [| exact IH].
      apply report_entry_inv in Hentry.
      destruct Hentry as [_ [_ [_ [_ [_ [_ [_ [_ [Hnid _]]]]]]]]].
      symmetry. exact Hnid.
  - rewrite Hnodes. apply list_sort_reverse_descending.
Qed.

(** ** The forced-failure sentinel *)

Lemma interpret_delta_source (d : R) (name : string) (fm : FailureMode)
  (tw : R) (pm : bool) :
  _interpret_delta d name true fm tw pm
  = {| si_delta := d; si_failure_mode := fm;
       risk_type := "FAILURE_SOURCE";
       explanation := [Text (name ++ " is the simulated failure point")];
       risk_level := "critical"; ui_color := "#000000"; ui_icon := "⚫";
       confidence := 1.0; confidence_label := "high";
       si_pessimistic_delta := 1.0; alert_level := "critical" |}.
Proof.
  unfold _interpret_delta.
  destruct (_compute_confidence d tw) as [conf conf_label].
  destruct (_calculate_pessimistic_delta d tw) as [pess alert].
  repeat match goal with
         | |- context [let '(_, _) := ?e in _] => destruct e
         end.
  reflexivity.
Qed.

(** C1.  In the report of every simulation run, the entry of a node whose
    index is listed in [failed_nodes] carries the sentinel interpretation:
    risk type FAILURE_SOURCE, risk level "critical", confidence exactly 1.0
    (with label "high", pessimistic delta 1.0 and alert level "critical"),
    whatever delta the predictor produced for that node; and every node of
    the graph has its entry in the report. *)
Theorem failed_source_gets_sentinel (predictor : Predictor) (x : Matrix)
  (edge_index : EdgeIndex) (edge_weight : list R) (failed_nodes : list Z)
  (node_names : option (list string)) (failure_mode : FailureMode)
  (pessimistic_mode : bool) (log log' : list Call) (rep : SimulationReport) :
  run_simulation predictor x edge_index edge_weight failed_nodes node_names
    failure_mode pessimistic_mode log = (log', Ok rep) ->
  (forall r, In r (nodes rep) ->
     In (Z.of_nat (node_id r)) failed_nodes ->
     risk_type (interpretation r) = "FAILURE_SOURCE"%string /\
     risk_level (interpretation r) = "critical"%string /\
     confidence (interpretation r) = 1.0 /\
     confidence_label (interpretation r) = "high"%string /\
     si_pessimistic_delta (interpretation r) = 1.0 /\
     alert_level (interpretation r) = "critical"%string /\
     si_delta (interpretation r) = delta r) /\
  (forall i, (i < List.length x)%nat ->
     exists r, In r (nodes rep) /\ node_id r = i).
Proof.
  intros H. apply run_simulation_facts in H.
  destruct H as [bm [sm [base [sim [deltas [tws [x_sim F]]]]]]].
  split; [| exact (rf_all_nodes F)].
  intros r Hr Hlisted.
  destruct (rf_entry F r Hr)
    as [_ [tw [name [_ [_ [_ [_ [_ [Hint _]]]]]]]]].
  apply is_listed_true in Hlisted.
  rewrite Hlisted, interpret_delta_source in Hint.
  rewrite Hint. simpl. repeat split; reflexivity.
Qed.

(** ** The fields every interpretation takes over unchanged *)

Lemma interpret_delta_not_source (d : R) (name : string) (fm : FailureMode)
  (tw : R) (pm : bool) :
  let i := _interpret_delta d name false fm tw pm in
  si_delta i = d /\
  confidence i = fst (_compute_confidence d tw) /\
  confidence_label i = snd (_compute_confidence d tw) /\
  si_pessimistic_delta i = fst (_calculate_pessimistic_delta d tw) /\
  alert_level i = snd (_calculate_pessimistic_delta d tw).
Proof.
  cbv zeta. unfold _interpret_delta.
  destruct (_compute_confidence d tw) as [conf conf_label].
  destruct (_calculate_pessimistic_delta d tw) as [pess alert].
  repeat match goal with
         | |- context [let '(_, _) := ?e in _] => destruct e
         end.
  destruct (Rltb (Rabs d) 0.01); [simpl; auto |].
  destruct fm;
    unfold _interpret_raw_delta, _interpret_demand_loss, _interpret_supply_cut,
      _interpret_contamination, _interpret_control_failure;
    destruct (Rltb d 0); simpl; auto.
Qed.

Lemma pessimistic_alert_levels (d tw : R) :
  In (snd (_calculate_pessimistic_delta d tw))
     ["critical"; "high"; "elevated"; "normal"]%string.
Proof.
  unfold _calculate_pessimistic_delta.
  destruct (Rgtb d 0); simpl.
  - destruct (Rgeb (pow_half d * 2.0 * tw) 0.8); [auto |].
    destruct (Rgeb (pow_half d * 2.0 * tw) 0.5); [auto |].
    destruct (Rgeb (pow_half d * 2.0 * tw) 0.2); auto.
  - auto.
Qed.

Lemma interpret_delta_alert_levels (d : R) (name : string) (src : bool)
  (fm : FailureMode) (tw : R) (pm : bool) :
  In (alert_level (_interpret_delta d name src fm tw pm))
     ["critical"; "high"; "elevated"; "normal"]%string.
Proof.
  destruct src.
  - rewrite interpret_delta_source. simpl. auto.
  - destruct (interpret_delta_not_source d name fm tw pm)
      as [_ [_ [_ [_ Halert]]]].
    rewrite Halert. apply pessimistic_alert_levels.
Qed.

(** ** Runs that succeed *)

Lemma mapM_Ok_total {A B : Type} (f : A -> result B) (l : list A) :
  (forall a, In a l -> exists b, f a = Ok b) ->
  exists bs, mapM f l = Ok bs /\ List.length bs = List.length l.
Proof.
  induction l as [| a l IH]; intros H; simpl.
  - exists []. split; reflexivity.
  - destruct (H a) as [b Hb]; [left; reflexivity |].
    destruct IH as [bs [Hbs Hlen]]; [intros a' Ha'; apply H; right; exact Ha' |].
    exists (b :: bs). rewrite Hb, Hbs. simpl. split; [reflexivity | lia].
Qed.

Lemma item_total {A : Type} (l : list A) (k : nat) :
  (k < List.length l)%nat -> exists a, item l k = Ok a.
Proof.
  intros Hk. unfold item. destruct (nth_error l k) as [a |] eqn:E.
  - exists a. reflexivity.
  - apply nth_error_None in E. lia.
Qed.

Lemma norm_index_total (n : nat) (z : Z) :
  (- Z.of_nat n <= z < Z.of_nat n)%Z ->
  exists k, norm_index n z = Ok k /\ (k < n)%nat.
Proof.
  intros Hz. destruct (norm_index n z) as [k | e] eqn:E.
  - exists k. split; [reflexivity |]. apply norm_index_Ok_inv in E. tauto.
  - unfold norm_index in E.
    destruct (Z.leb_spec 0 z); destruct (Z.ltb_spec z (Z.of_nat n));
      destruct (Z.leb_spec (- Z.of_nat n) z); destruct (Z.ltb_spec z 0);
      simpl in E; try discriminate; lia.
Qed.

Lemma py_get_total {A : Type} (l : list A) (z : Z) :
  (- Z.of_nat (List.length l) <= z < Z.of_nat (List.length l))%Z ->
  exists a, py_get l z = Ok a.
Proof.
  intros Hz. unfold py_get.
  destruct (norm_index_total _ _ Hz) as [k [Ek Hk]]. rewrite Ek. simpl.
  apply item_total. exact Hk.
Qed.

Lemma column0_total (m : Matrix) :
  Forall (fun row => row <> []) m ->
  exists col, column0 m = Ok col /\ List.length col = List.length m.
Proof.
  intros Hrows. unfold column0. apply mapM_Ok_total.
  intros row Hin. rewrite Forall_forall in Hrows. specialize (Hrows row Hin).
  destruct row as [| v row]; [contradiction Hrows; reflexivity |].
  exists v. reflexivity.
Qed.

Lemma Forall_list_set {A : Type} (P : A -> Prop) (l : list A) (k : nat) (v : A) :
  Forall P l -> P v -> Forall P (list_set l k v).
Proof.
  intros Hl Hv. revert k. induction Hl as [| a l Ha Hl IH]; intros k; simpl.
  - constructor.
  - destruct k as [| k]; constructor; auto.
Qed.

Lemma np_set2_total (n : nat) (m : Matrix) (z j : Z) (v : R) :
  has_columns n m ->
  (0 <= j < Z.of_nat n)%Z ->
  (- Z.of_nat (List.length m) <= z < Z.of_nat (List.length m))%Z ->
  exists m', np_set2 m z j v = Ok m' /\
             List.length m' = List.length m /\ has_columns n m'.
Proof.
  intros Hm Hj Hz. unfold np_set2.
  destruct (norm_index_total _ _ Hz) as [k [Ek Hk]]. rewrite Ek. simpl.
  destruct (item_total m k Hk) as [row Erow]. rewrite Erow. simpl.
  assert (Hrow : (n <= List.length row)%nat).
  { unfold has_columns in Hm. rewrite Forall_forall in Hm. apply Hm.
    apply item_Ok_inv in Erow. eapply nth_error_In. exact Erow. }
  unfold np_set. rewrite norm_index_in_range by lia. simpl.
  eexists. split; [reflexivity |]. split.
  - apply length_list_set.
  - apply Forall_list_set; [exact Hm |]. rewrite length_list_set. exact Hrow.
Qed.

Lemma set_status_total (m : Matrix) (z : Z) (v : R) :
  has_status_column m ->
  (- Z.of_nat (List.length m) <= z < Z.of_nat (List.length m))%Z ->
  exists m', np_set2 m z 12 v = Ok m' /\
             List.length m' = List.length m /\ has_status_column m'.
Proof. intros Hm Hz. apply (np_set2_total 13); [exact Hm | lia | exact Hz]. Qed.

Lemma force_failures_total (failed_nodes : list Z) (x : Matrix) :
  has_status_column x ->
  Forall (fun z => (- Z.of_nat (List.length x) <= z
                    < Z.of_nat (List.length x))%Z) failed_nodes ->
  exists x_sim, force_failures x failed_nodes 12 = Ok x_sim /\
                List.length x_sim = List.length x.
Proof.
  intros Hx Hf. revert x Hx Hf.
  induction failed_nodes as [| z rest IH]; intros x Hx Hf; simpl.
  - exists x. split; reflexivity.
  - inversion Hf as [| z' rest' Hz Hrest]; subst.
    destruct (set_status_total x z 0.0 Hx Hz) as [x1 [E1 [L1 H1]]].
    rewrite E1. simpl.
    destruct (IH x1 H1) as [x_sim [E L]].
    { rewrite L1. exact Hrest. }
    exists x_sim. split; [exact E | lia].
Qed.

Lemma dict_incr_total (d : list (string * nat)) (k : string) :
  In k (map fst d) ->
  exists d', dict_incr d k = Ok d' /\ map fst d' = map fst d.
Proof.
  induction d as [| [k' c] d IH]; simpl; intros Hin.
  - contradiction.
  - destruct (String.eqb_spec k' k) as [-> | Hne].
    + eexists. split; reflexivity.
    + destruct Hin as [Heq | Hin]; [contradiction |].
      destruct (IH Hin) as [d' [E Hk]]. rewrite E. simpl.
      eexists. split; [reflexivity |]. simpl. rewrite Hk. reflexivity.
Qed.

Lemma dict_get_total (d : list (string * nat)) (k : string) :
  In k (map fst d) -> exists c, dict_get d k = Ok c.
Proof.
  induction d as [| [k' c] d IH]; simpl; intros Hin.
  - contradiction.
  - destruct (String.eqb_spec k' k) as [-> | Hne].
    + exists c. reflexivity.
    + destruct Hin as [Heq | Hin]; [contradiction | apply IH; exact Hin].
Qed.

Lemma count_risks_total (affected : list NodeReport) :
  forall risk_counts alert_counts : list (string * nat),
    Forall (fun r => In (alert_level (interpretation r)) (map fst alert_counts))
           affected ->
    exists rc ac,
      count_risks affected risk_counts alert_counts = Ok (rc, ac) /\
      map fst ac = map fst alert_counts.
Proof.
  induction affected as [| r rest IH]; intros rc ac Hall; simpl.
  - exists rc, ac. split; reflexivity.
  - inversion Hall as [| r' rest' Hr Hrest]; subst.
    destruct (dict_incr_total ac _ Hr) as [ac1 [E1 K1]].
    rewrite E1. simpl.
    destruct (IH (dict_count rc (risk_type (interpretation r))) ac1)
      as [rc' [ac' [E K]]].
    { rewrite K1. exact Hrest. }
    exists rc', ac'. split; [exact E | congruence].
Qed.

Lemma summarize_interpretations_total (report : list NodeReport)
  (fm : FailureMode) (pm : bool) :
  known_alert_levels report ->
  exists text, _summarize_interpretations report fm pm = Ok text.
Proof.
  intros Hknown. unfold _summarize_interpretations.
  assert (Haff : known_alert_levels (summary_affected report)).
  { unfold known_alert_levels, summary_affected in *.
    rewrite Forall_forall in *. intros r Hr. apply filter_In in Hr.
    apply Hknown. tauto. }
  destruct (summary_affected report) as [| r0 rest] eqn:Eaff.
  - eexists. reflexivity.
  - destruct (count_risks_total (r0 :: rest) []
                [("critical", 0%nat); ("high", 0%nat);
                 ("elevated", 0%nat); ("normal", 0%nat)]%string Haff)
      as [rc [ac [E K]]].
    rewrite E. simpl rbind. simpl in K.
    destruct pm; [| eexists; reflexivity].
    destruct (dict_get_total ac "critical") as [c1 E1];
      [rewrite K; simpl; auto |].
    destruct (dict_get_total ac "high") as [c2 E2];
      [rewrite K; simpl; auto |].
    destruct (dict_get_total ac "elevated") as [c3 E3];
      [rewrite K; simpl; auto |].
    rewrite E1. simpl rbind. rewrite E2. simpl rbind. rewrite E3. simpl rbind.
    match goal with
    | |- context [match ?l with [] => _ | _ :: _ => _ end] => destruct l
    end; eexists; reflexivity.
Qed.

Lemma np_sub_same_length (a b : list R) :
  List.length a = List.length b ->
  np_sub a b = Ok (zip_with Rminus a b).
Proof.
  intros H. unfold np_sub. rewrite H, Nat.eqb_refl. reflexivity.
Qed.

Lemma np_mean_total (a : list R) : a <> [] -> exists m, np_mean a = Ok m.
Proof.
  intros Hne. unfold np_mean, np_true_divide.
  destruct (Req_dec_T (INR (List.length a)) 0) as [H0 | H0].
  - destruct a; [contradiction Hne; reflexivity |].
    simpl List.length in H0. apply (not_0_INR _ (Nat.neq_succ_0 _)) in H0.
    contradiction.
  - eexists. reflexivity.
Qed.

Lemma predict_with_threshold_total (predictor : Predictor) (x : Matrix)
  (edge_index : EdgeIndex) (edge_weight : list R) (threshold : R) :
  well_shaped predictor -> (0 < List.length x)%nat ->
  exists m alerts risk col,
    predict_with_threshold predictor x edge_index edge_weight threshold
    = Ok (m, alerts, risk) /\
    column0 m = Ok col /\ List.length col = List.length x.
Proof.
  intros Hp Hx. unfold predict_with_threshold.
  destruct (Hp x edge_index edge_weight) as [m [Em [Lm Hrows]]].
  rewrite Em. simpl rbind.
  destruct (column0_total m Hrows) as [col [Ec Lc]]. rewrite Ec. simpl rbind.
  destruct (np_max_spec col) as [mx [Emx _]].
  { intros ->. simpl in Lc. lia. }
  rewrite Emx. simpl rbind.
  do 4 eexists. split; [reflexivity |]. split; [exact Ec | lia].
Qed.

Lemma rbind_Ok {A B : Type} (a : A) (k : A -> result B) : rbind (Ok a) k = k a.
Proof. reflexivity. Qed.

Ltac rbind_step := rewrite rbind_Ok; cbv beta.

Lemma report_entry_total (base sim deltas tws pds : list R)
  (names : list string) (failed_nodes : list Z) (fm : FailureMode) (pm : bool)
  (num_nodes i : nat) :
  List.length base = num_nodes -> List.length sim = num_nodes ->
  List.length deltas = num_nodes -> List.length tws = num_nodes ->
  List.length pds = num_nodes -> List.length names = num_nodes ->
  (i < num_nodes)%nat ->
  exists r, report_entry base sim deltas tws pds names failed_nodes fm pm i
            = Ok r.
Proof.
  intros Lb Ls Ld Lt Lp Ln Hi. unfold report_entry.
  rewrite (item_Ok deltas i 0) by lia. rbind_step.
  rewrite (item_Ok names i ""%string) by lia. rbind_step.
  rewrite (item_Ok tws i 0) by lia. rbind_step.
  rewrite (item_Ok base i 0) by lia. rbind_step.
  rewrite (item_Ok sim i 0) by lia. rbind_step.
  destruct pm.
  - rewrite (item_Ok pds i 0) by lia. rbind_step. eexists. reflexivity.
  - rbind_step. eexists. reflexivity.
Qed.

Lemma build_report_total (base sim : list R) (edge_index : EdgeIndex)
  (edge_weight : list R) (num_nodes : nat) (names : list string)
  (failed_nodes : list Z) (fm : FailureMode) (pm : bool) :
  (0 < num_nodes)%nat ->
  List.length base = num_nodes -> List.length sim = num_nodes ->
  List.length names = num_nodes ->
  edges_in_range edge_index num_nodes ->
  Forall (fun z => (- Z.of_nat num_nodes <= z < Z.of_nat num_nodes)%Z)
         failed_nodes ->
  exists rep,
    build_report base sim edge_index edge_weight num_nodes names failed_nodes
      fm pm = Ok rep.
Proof.
  intros HN Lb Ls Ln Hedges Hfailed. unfold build_report.
  rewrite np_sub_same_length by lia. rbind_step.
  set (deltas := zip_with Rminus sim base).
  assert (Ld : List.length deltas = num_nodes)
    by (unfold deltas; rewrite length_zip_with; lia).
  destruct (compute_topology_weights_Ok edge_index edge_weight num_nodes
              HN Hedges) as [tws [mx [Et [Lt _]]]].
  rewrite Et. rbind_step.
  assert (Hpds : exists pds,
             (if pm then fill_pessimistic_deltas deltas tws num_nodes
              else Ok (repeat 0 num_nodes)) = Ok pds /\
             List.length pds = num_nodes).
  { destruct pm.
    - unfold fill_pessimistic_deltas.
      destruct (mapM_Ok_total
                  (fun i => (d <- item deltas i ;;
                             tw <- item tws i ;;
                             Ok (fst (_calculate_pessimistic_delta d tw)))%result)
                  (seq 0 num_nodes)) as [pds [E L]].
      + intros i Hi. apply in_seq in Hi.
        rewrite (item_Ok deltas i 0) by lia. rbind_step.
        rewrite (item_Ok tws i 0) by lia. rbind_step.
        eexists. reflexivity.
      + exists pds. split; [exact E |]. rewrite L. apply length_seq.
    - eexists. split; [reflexivity | apply repeat_length]. }
  destruct Hpds as [pds [Ep Lp]]. rewrite Ep. rbind_step.
  destruct (mapM_Ok_total
              (report_entry base sim deltas tws pds names failed_nodes fm pm)
              (seq 0 num_nodes)) as [entries [Ee Le]].
  { intros i Hi. apply in_seq in Hi.
    apply (report_entry_total base sim deltas tws pds names failed_nodes fm pm
             num_nodes); auto; lia. }
  rewrite Ee. rbind_step.
  assert (Hknown : known_alert_levels
                     (list_sort (fun r => Rabs (delta r)) true entries)).
  { unfold known_alert_levels.
    eapply Permutation_Forall; [apply list_sort_perm |].
    rewrite Forall_forall. intros r Hr.
    destruct (Forall2_In_right _ _ _ _ (mapM_Ok_inv _ _ _ Ee) Hr)
      as [i [_ Hentry]].
    apply report_entry_inv in Hentry.
    destruct Hentry as [d [tw [name [_ [_ [_ [_ [_ [_ [_ [_ [_ [Hint _]]]]]]]]]]]]].
    rewrite Hint. apply interpret_delta_alert_levels. }
  destruct (mapM_Ok_total (py_get names) failed_nodes) as [fnames [Ef _]].
  { intros z Hz. apply py_get_total. rewrite Ln.
    rewrite Forall_forall in Hfailed. apply Hfailed. exact Hz. }
  rewrite Ef. rbind_step.
  assert (Hne : map Rabs deltas <> []).
  { intros Hnil. apply (f_equal (@List.length R)) in Hnil.
    rewrite length_map, Ld in Hnil. simpl in Hnil. lia. }
  destruct (np_max_spec _ Hne) as [max_d [Emax _]]. rewrite Emax. rbind_step.
  destruct (np_mean_total _ Hne) as [mean_d Emean]. rewrite Emean.
  rbind_step.
  assert (Hmp : exists max_p,
             (if pm then (m <- np_max pds ;; Ok (Some m))%result
              else Ok None) = Ok max_p).
  { destruct pm; [| eexists; reflexivity].
    destruct (np_max_spec pds) as [m [Em _]].
    - intros ->. simpl in Lp. lia.
    - rewrite Em. rbind_step. eexists. reflexivity. }
  destruct Hmp as [max_p Emp]. rewrite Emp. rbind_step.
  destruct (summarize_interpretations_total _ fm pm Hknown) as [text Etext].
  rewrite Etext. rbind_step.
  eexists. reflexivity.
Qed.

Lemma names_or_default_length (node_names : option (list string)) (n : nat) :
  match node_names with
  | None => True
  | Some names => List.length names = n
  end ->
  List.length (names_or_default node_names n) = n.
Proof.
  destruct node_names as [names |]; simpl; intros H.
  - exact H.
  - rewrite length_map. apply length_seq.
Qed.

(** On a well-formed request and with a well-shaped predictor the
    simulation returns a report, after exactly two predictor calls: one on the
    graph as given, one on the graph with the failures forced. *)
Theorem run_simulation_total (predictor : Predictor) (x : Matrix)
  (edge_index : EdgeIndex) (edge_weight : list R) (failed_nodes : list Z)
  (node_names : option (list string)) (failure_mode : FailureMode)
  (pessimistic_mode : bool) (log : list Call) :
  well_shaped predictor ->
  well_formed_request x edge_index edge_weight failed_nodes node_names ->
  exists (rep : SimulationReport) (x_sim : Matrix),
    force_failures x failed_nodes 12 = Ok x_sim /\
    run_simulation predictor x edge_index edge_weight failed_nodes node_names
      failure_mode pessimistic_mode log
    = ((log ++ [(x, edge_index, edge_weight);
                (x_sim, edge_index, edge_weight)])%list, Ok rep).
Proof.
  intros Hp [HN [Hx [Hedges [Hfailed Hnames]]]].
  destruct (force_failures_total failed_nodes x Hx Hfailed)
    as [x_sim [Ex Lx]].
  destruct (predict_with_threshold_total predictor x edge_index edge_weight
              0.5 Hp HN) as [bm [al [rk [base [Eb [Ecb Lb]]]]]].
  destruct (predict_with_threshold_total predictor x_sim edge_index
              edge_weight 0.5 Hp) as [sm [al' [rk' [sim [Es [Ecs Ls]]]]]];
    [lia |].
  destruct (build_report_total base sim edge_index edge_weight
              (List.length x) (names_or_default node_names (List.length x))
              failed_nodes failure_mode pessimistic_mode)
    as [rep Erep]; auto; try lia.
  { apply names_or_default_length. exact Hnames. }
  exists rep, x_sim. split; [exact Ex |].
  unfold run_simulation, sbind, call_predict_with_threshold, lift.
  rewrite Eb, Ecb, Ex, Es, Ecs.
  fold (names_or_default node_names (List.length x)).
  rewrite Erep, <- app_assoc. reflexivity.
Qed.

(** ** The demo scenario is a well-formed request *)

Lemma outage_predictor_well_shaped (scale : list R) :
  well_shaped (outage_predictor scale).
Proof.
  intros x edge_index edge_weight. simpl. eexists. split; [reflexivity |].
  split.
  - rewrite length_map. apply length_seq.
  - rewrite Forall_forall. intros row Hrow. apply in_map_iff in Hrow.
    destruct Hrow as [i [<- _]]. discriminate.
Qed.

Lemma demo_request_well_formed :
  well_formed_request demo_x demo_edge_index demo_edge_weight [0%Z]
    (Some demo_node_names).
Proof.
  unfold well_formed_request, has_status_column, has_columns, edges_in_range,
    demo_x, demo_edge_index, demo_edge_weight, demo_node_names.
  simpl List.length.
  repeat split; repeat constructor; simpl; try lia; try lra.
Qed.

(** The theorem on the demo scenario: the tank is forced to fail under
    SUPPLY_CUT. *)
Lemma failed_source_gets_sentinel_witness :
  exists (rep : SimulationReport) (log' : list Call),
    run_simulation demo_predictor demo_x demo_edge_index demo_edge_weight
      [0%Z] (Some demo_node_names) SUPPLY_CUT false [] = (log', Ok rep) /\
    (forall r, In r (nodes rep) ->
       In (Z.of_nat (node_id r)) [0%Z] ->
       risk_type (interpretation r) = "FAILURE_SOURCE"%string /\
       risk_level (interpretation r) = "critical"%string /\
       confidence (interpretation r) = 1.0 /\
       confidence_label (interpretation r) = "high"%string /\
       si_pessimistic_delta (interpretation r) = 1.0 /\
       alert_level (interpretation r) = "critical"%string /\
       si_delta (interpretation r) = delta r) /\
    (forall i, (i < List.length demo_x)%nat ->
       exists r, In r (nodes rep) /\ node_id r = i).
Proof.
  destruct (run_simulation_total demo_predictor demo_x demo_edge_index
              demo_edge_weight [0%Z] (Some demo_node_names) SUPPLY_CUT false []
              (outage_predictor_well_shaped _) demo_request_well_formed)
    as [rep [x_sim [_ Hrun]]].
  eexists rep, _. split; [exact Hrun |].
  exact (failed_source_gets_sentinel _ _ _ _ _ _ _ _ _ _ _ Hrun).
Defined.

(** ** Indices out of range *)

Lemma np_set2_Ok_length (m m' : Matrix) (z j : Z) (v : R) :
  np_set2 m z j v = Ok m' ->
  List.length m' = List.length m /\
  (- Z.of_nat (List.length m) <= z < Z.of_nat (List.length m))%Z.
Proof.
  unfold np_set2. intros H.
  apply rbind_Ok_inv in H. destruct H as [k [Hk H]].
  apply rbind_Ok_inv in H. destruct H as [row [_ H]].
  apply rbind_Ok_inv in H. destruct H as [row' [_ H]].
  inversion H; subst. split; [apply length_list_set |].
  apply norm_index_Ok_inv in Hk. tauto.
Qed.

Lemma norm_index_raises (n : nat) (z : Z) (e : exn) :
  norm_index n z = Raise e -> e = IndexError.
Proof.
  unfold norm_index.
  destruct ((0 <=? z)%Z && (z <? Z.of_nat n)%Z); [discriminate |].
  destruct ((- Z.of_nat n <=? z)%Z && (z <? 0)%Z); [discriminate |].
  intros H. inversion H. reflexivity.
Qed.

Lemma item_raises {A : Type} (l : list A) (k : nat) (e : exn) :
  item l k = Raise e -> e = IndexError.
Proof.
  unfold item. destruct (nth_error l k); intros H; inversion H. reflexivity.
Qed.



(** Whatever happens later, the baseline prediction is the first thing a
    simulation does. *)
Lemma run_simulation_calls_predictor_first (predictor : Predictor) (x : Matrix)
  (edge_index : EdgeIndex) (edge_weight : list R) (failed_nodes : list Z)
  (node_names : option (list string)) (failure_mode : FailureMode)
  (pessimistic_mode : bool) (log : list Call) :
  exists later,
    fst (run_simulation predictor x edge_index edge_weight failed_nodes
           node_names failure_mode pessimistic_mode log)
    = (log ++ (x, edge_index, edge_weight) :: later)%list.
Proof.
  unfold run_simulation, sbind, call_predict_with_threshold, lift.
  destruct (predict_with_threshold predictor x edge_index edge_weight 0.5)
    as [[[bm al] rk] | e]; [| exists []; reflexivity].
  destruct (column0 bm) as [base | e]; [| exists []; reflexivity].
  destruct (force_failures x failed_nodes 12) as [x_sim | e];
    [| exists []; reflexivity].
  destruct (predict_with_threshold predictor x_sim edge_index edge_weight 0.5)
    as [[[sm al'] rk'] | e].
  - destruct (column0 sm) as [sim | e];
      [destruct (build_report _ _ _ _ _ _ _ _ _) |];
      eexists; simpl; rewrite <- app_assoc; reflexivity.
  - eexists; simpl; rewrite <- app_assoc; reflexivity.
Qed.



Lemma demo_request_with_negative_index :
  well_formed_request demo_x demo_edge_index demo_edge_weight [(-1)%Z]
    (Some demo_node_names).
Proof.
  unfold well_formed_request, has_status_column, has_columns, edges_in_range,
    demo_x, demo_edge_index, demo_edge_weight, demo_node_names.
  simpl List.length.
  repeat split; repeat constructor; simpl; try lia; try lra.
Qed.


(** ** Summary statistics *)

Lemma force_failures_Ok_length (failed_nodes : list Z) (status_col : Z) :
  forall x x_sim : Matrix,
    force_failures x failed_nodes status_col = Ok x_sim ->
    List.length x_sim = List.length x.
Proof.
  induction failed_nodes as [| z rest IH]; intros x x_sim H; simpl in H.
  - inversion H. reflexivity.
  - apply rbind_Ok_inv in H. destruct H as [x1 [E1 H]].
    apply np_set2_Ok_length in E1. destruct E1 as [L1 _].
    rewrite (IH _ _ H). exact L1.
Qed.

Lemma column0_Ok_length (m : Matrix) (col : list R) :
  column0 m = Ok col -> List.length col = List.length m.
Proof.
  intros H. apply mapM_Ok_inv in H. symmetry.
  eapply Forall2_length. exact H.
Qed.

(** With a well-shaped predictor the arrays of a run have one place per
    node. *)
Lemma run_arrays_length (predictor : Predictor) (x : Matrix)
  (edge_index : EdgeIndex) (edge_weight : list R) (failed_nodes : list Z)
  (failure_mode : FailureMode) (pessimistic_mode : bool)
  (rep : SimulationReport) (bm sm : Matrix) (base sim deltas tws : list R)
  (x_sim : Matrix) :
  well_shaped predictor ->
  RunFacts predictor x edge_index edge_weight failed_nodes failure_mode
    pessimistic_mode rep bm sm base sim deltas tws x_sim ->
  List.length base = List.length x /\ List.length sim = List.length x /\
  List.length deltas = List.length x /\ deltas = zip_with Rminus sim base.
Proof.
  intros Hp F.
  destruct (Hp x edge_index edge_weight) as [bm' [Eb [Lb _]]].
  destruct (Hp x_sim edge_index edge_weight) as [sm' [Es [Ls _]]].
  rewrite (rf_baseline F) in Eb. inversion Eb; subst bm'.
  rewrite (rf_simulated F) in Es. inversion Es; subst sm'.
  pose proof (column0_Ok_length _ _ (rf_base F)) as Lbase.
  pose proof (column0_Ok_length _ _ (rf_sim F)) as Lsim.
  pose proof (force_failures_Ok_length _ _ _ _ (rf_x_sim F)) as Lx.
  pose proof (rf_deltas F) as Hd.
  rewrite np_sub_same_length in Hd by lia. inversion Hd.
  repeat split; try lia.
  rewrite length_zip_with; lia.
Qed.

(** C2, as amended.  In the report of every simulation run, [max_delta] is
    the largest |delta| over all nodes, the forced-failure nodes included: no
    entry of the report has a larger |delta|, the value is the |delta| of a
    place of the delta array and, with a predictor that returns one row per
    node, of an entry of the report.  The forced-failure nodes are left out of
    the set of affected nodes that the interpretation summary is built from:
    that set holds exactly the entries with |delta| > 0.01 that are not
    forced-failure sources. *)
Theorem max_delta_ranges_over_all_nodes (predictor : Predictor) (x : Matrix)
  (edge_index : EdgeIndex) (edge_weight : list R) (failed_nodes : list Z)
  (node_names : option (list string)) (failure_mode : FailureMode)
  (pessimistic_mode : bool) (log log' : list Call) (rep : SimulationReport) :
  run_simulation predictor x edge_index edge_weight failed_nodes node_names
    failure_mode pessimistic_mode log = (log', Ok rep) ->
  (forall r, In r (nodes rep) -> Rabs (delta r) <= max_delta (summary rep)) /\
  (exists d, In d (raw_deltas (raw rep)) /\
             Rabs d = max_delta (summary rep)) /\
  (well_shaped predictor ->
   exists r, In r (nodes rep) /\ Rabs (delta r) = max_delta (summary rep)) /\
  _summarize_interpretations (nodes rep) failure_mode pessimistic_mode
  = Ok (interpretation_summary (summary rep)) /\
  (forall r, In r (summary_affected (nodes rep)) <->
             In r (nodes rep) /\ Rabs (delta r) > 0.01 /\
             is_failed_source r = false).
Proof.
  intros H. apply run_simulation_facts in H.
  destruct H as [bm [sm [base [sim [deltas [tws [x_sim F]]]]]]].
  pose proof (rf_max_delta F) as Hmax.
  assert (Hne : map Rabs deltas <> []).
  { intros Hnil. rewrite Hnil in Hmax. discriminate. }
  destruct (np_max_spec _ Hne) as [m [Em [Hin Hub]]].
  rewrite Em in Hmax. inversion Hmax as [Hm]. clear Hmax. rewrite <- Hm.
  apply in_map_iff in Hin. destruct Hin as [d [Hd Hind]].
  split; [| split; [| split; [| split]]].
  - intros r Hr. destruct (rf_entry F r Hr) as [_ [tw [name [Hitem _]]]].
    apply Hub. apply in_map. apply item_Ok_inv in Hitem.
    eapply nth_error_In. exact Hitem.
  - exists d. rewrite (rf_raw F). simpl. split; [exact Hind | exact Hd].
  - intros Hp.
    destruct (run_arrays_length _ _ _ _ _ _ _ _ _ _ _ _ _ _ _ Hp F)
      as [_ [_ [Ld _]]].
    destruct (In_nth _ _ 0 Hind) as [i [Hi Hnth]].
    destruct (rf_all_nodes F i) as [r [Hr Hid]]; [lia |].
    exists r. split; [exact Hr |].
    destruct (rf_entry F r Hr) as [_ [tw [name [Hitem _]]]].
    rewrite Hid, (item_Ok deltas i 0) in Hitem by exact Hi.
    assert (Hdr : nth i deltas 0 = delta r) by congruence.
    rewrite <- Hdr, Hnth. exact Hd.
  - exact (rf_text F).
  - intros r. unfold summary_affected. rewrite filter_In, andb_true_iff.
    rewrite Rgtb_true, negb_true_iff. tauto.
Qed.

Lemma demo_run_deltas (fm : FailureMode) (pm : bool) (rep : SimulationReport)
  (bm sm : Matrix) (base sim deltas tws : list R) (x_sim : Matrix) :
  RunFacts demo_predictor demo_x demo_edge_index demo_edge_weight [0%Z] fm pm
    rep bm sm base sim deltas tws x_sim ->
  deltas = [0.9; 0.81; 0.09; 0.09].
Proof.
  intros F.
  pose proof (rf_baseline F) as Hb. 
  unfold demo_predictor, outage_predictor, demo_x in Hb. simpl in Hb.
  injection Hb as <-.
  pose proof (rf_base F) as Hbase. simpl in Hbase.
  injection Hbase as <-.
  pose proof (rf_x_sim F) as Hx. unfold demo_x in Hx. simpl in Hx.
  injection Hx as <-.
  pose proof (rf_simulated F) as Hs.
  unfold demo_predictor, outage_predictor in Hs. simpl in Hs.
  injection Hs as <-.
  pose proof (rf_sim F) as Hsim. simpl in Hsim.
  injection Hsim as <-.
  pose proof (rf_deltas F) as Hd. unfold np_sub in Hd. simpl in Hd.
  injection Hd as <-.
  repeat (f_equal; try lra).
Qed.

Lemma Permutation_filter_length {A : Type} (f : A -> bool) (l l' : list A) :
  Permutation l l' ->
  List.length (filter f l) = List.length (filter f l').
Proof.
  induction 1 as [| a l l' _ IH | a b l | l l' l'' _ IH1 _ IH2]; simpl.
  - reflexivity.
  - destruct (f a); simpl; congruence.
  - destruct (f a); destruct (f b); reflexivity.
  - congruence.
Qed.

(** Counting the entries that pass a test which only looks at the node an
    entry belongs to. *)
Lemma count_entries_by_node (f : NodeReport -> bool) (g : nat -> bool)
  (report : list NodeReport) (ids : list nat) :
  (forall r, In r report -> f r = g (node_id r)) ->
  Permutation ids (map node_id report) ->
  List.length (filter f report) = List.length (filter g ids).
Proof.
  intros Hfg Hperm.
  rewrite (Permutation_filter_length g _ _ Hperm).
  clear Hperm. induction report as [| r report IH]; simpl.
  - reflexivity.
  - rewrite (Hfg r) by (left; reflexivity).
    destruct (g (node_id r)); simpl; rewrite IH; auto;
      intros r' Hr'; apply Hfg; right; exact Hr'.
Qed.

(** In the demo run every entry holds the delta found at its node's place
    in the delta array. *)
Lemma demo_run_entry_delta (fm : FailureMode) (pm : bool)
  (rep : SimulationReport) (bm sm : Matrix) (base sim deltas tws : list R)
  (x_sim : Matrix) :
  RunFacts demo_predictor demo_x demo_edge_index demo_edge_weight [0%Z] fm pm
    rep bm sm base sim deltas tws x_sim ->
  forall r, In r (nodes rep) ->
    delta r = nth (node_id r) [0.9; 0.81; 0.09; 0.09] 0 /\
    is_failed_source r = (node_id r =? 0)%nat /\
    (node_id r < 4)%nat.
Proof.
  intros F r Hr.
  destruct (rf_entry F r Hr) as [Hlt [tw [name [Hitem [_ [_ [_ [Hsrc _]]]]]]]].
  rewrite (demo_run_deltas _ _ _ _ _ _ _ _ _ _ F) in Hitem.
  simpl in Hlt.
  rewrite (item_Ok _ _ 0) in Hitem by (simpl; lia).
  split; [congruence |]. split; [| exact Hlt].
  rewrite Hsrc. unfold is_listed. simpl.
  destruct (node_id r) as [| k]; reflexivity.
Qed.

(** C2, as the specification states it, fails on the demo scenario.  The
    tank, node 0, is the forced-failure source and has the largest delta,
    0.9; the other three nodes have deltas 0.81, 0.09 and 0.09.  The summary
    counts four affected nodes although only three entries with
    |delta| > 0.01 are not sources, and its [max_delta] is 0.9 although no
    entry that is not a source has a |delta| above 0.81. *)
Lemma summary_statistics_counterexample :
  exists (rep : SimulationReport) (log' : list Call),
    run_simulation demo_predictor demo_x demo_edge_index demo_edge_weight
      [0%Z] (Some demo_node_names) SUPPLY_CUT false [] = (log', Ok rep) /\
    affected_count (summary rep) = 4%nat /\
    List.length
      (filter (fun r => Rgtb (Rabs (delta r)) 0.01
                        && negb (is_failed_source r)) (nodes rep)) = 3%nat /\
    max_delta (summary rep) = 0.9 /\
    (forall r, In r (nodes rep) -> is_failed_source r = false ->
               Rabs (delta r) <= 0.81).
Proof.
  destruct (run_simulation_total demo_predictor demo_x demo_edge_index
              demo_edge_weight [0%Z] (Some demo_node_names) SUPPLY_CUT false []
              (outage_predictor_well_shaped _) demo_request_well_formed)
    as [rep [x_sim' [_ Hrun]]].
  eexists rep, _. split; [exact Hrun |].
  apply run_simulation_facts in Hrun.
  destruct Hrun as [bm [sm [base [sim [deltas [tws [x_sim F]]]]]]].
  pose proof (demo_run_entry_delta _ _ _ _ _ _ _ _ _ _ F) as Hentry.
  assert (Hpos : forall i, (i < 4)%nat ->
                   Rgtb (Rabs (nth i [0.9; 0.81; 0.09; 0.09] 0)) 0.01 = true).
  { intros i Hi. apply Rgtb_true.
    do 4 (destruct i as [| i]; [simpl; rewrite Rabs_pos_eq; lra |]). lia. }
  split; [| split; [| split]].
  - rewrite (rf_affected_count F).
    rewrite (count_entries_by_node _ (fun i => (i <? 4)%nat) (nodes rep)
               (seq 0 (List.length demo_x))).
    + reflexivity.
    + intros r Hr. destruct (Hentry r Hr) as [Hd [_ Hlt]].
      rewrite Hd, Hpos by exact Hlt. symmetry. apply Nat.ltb_lt. exact Hlt.
    + exact (rf_ids F).
  - rewrite (count_entries_by_node _
               (fun i => (i <? 4)%nat && negb (i =? 0)%nat) (nodes rep)
               (seq 0 (List.length demo_x))).
    + reflexivity.
    + intros r Hr. destruct (Hentry r Hr) as [Hd [Hsrc Hlt]].
      rewrite Hd, Hsrc, Hpos by exact Hlt.
      f_equal. symmetry. apply Nat.ltb_lt. exact Hlt.
    + exact (rf_ids F).
  - pose proof (rf_max_delta F) as Hmax.
    rewrite (demo_run_deltas _ _ _ _ _ _ _ _ _ _ F) in Hmax.
    simpl in Hmax. rewrite !Rabs_pos_eq in Hmax by lra.
    injection Hmax as <-.
    unfold Rmax. repeat (destruct (Rle_dec _ _); try lra).
  - intros r Hr Hns. destruct (Hentry r Hr) as [Hd [Hsrc Hlt]].
    rewrite Hd. rewrite Hns in Hsrc.
    destruct (node_id r) as [| i]; [discriminate |].
    do 3 (destruct i as [| i]; [simpl; rewrite Rabs_pos_eq; lra |]). lia.
Qed.

(** The amended statement on the demo scenario. *)
Lemma max_delta_ranges_over_all_nodes_witness :
  exists (rep : SimulationReport) (log' : list Call),
    run_simulation demo_predictor demo_x demo_edge_index demo_edge_weight
      [0%Z] (Some demo_node_names) SUPPLY_CUT false [] = (log', Ok rep) /\
    (forall r, In r (nodes rep) -> Rabs (delta r) <= max_delta (summary rep)) /\
    (exists d, In d (raw_deltas (raw rep)) /\
               Rabs d = max_delta (summary rep)) /\
    (well_shaped demo_predictor ->
     exists r, In r (nodes rep) /\ Rabs (delta r) = max_delta (summary rep)) /\
    _summarize_interpretations (nodes rep) SUPPLY_CUT false
    = Ok (interpretation_summary (summary rep)) /\
    (forall r, In r (summary_affected (nodes rep)) <->
               In r (nodes rep) /\ Rabs (delta r) > 0.01 /\
               is_failed_source r = false).
Proof.
  destruct (run_simulation_total demo_predictor demo_x demo_edge_index
              demo_edge_weight [0%Z] (Some demo_node_names) SUPPLY_CUT false []
              (outage_predictor_well_shaped _) demo_request_well_formed)
    as [rep [x_sim [_ Hrun]]].
  eexists rep, _. split; [exact Hrun |].
  exact (max_delta_ranges_over_all_nodes _ _ _ _ _ _ _ _ _ _ _ Hrun).
Defined.

(** ** Alert levels in standard mode *)

Lemma demo_spec_raw :
  spec_raw demo_edge_index demo_edge_weight 0 = 0.9 /\
  spec_raw demo_edge_index demo_edge_weight 1 = 1.75 /\
  spec_raw demo_edge_index demo_edge_weight 2 = 1.65 /\
  spec_raw demo_edge_index demo_edge_weight 3 = 0.8.
Proof.
  rewrite !spec_raw_weight_sum.
  unfold spec_weight_sum, spec_degree, demo_edge_index, demo_edge_weight,
    ends_at.
  simpl. unfold edge_weight_at. simpl. repeat split; lra.
Qed.

(** The topology weights of the demo chain: the pump, with the largest
    weight sum 1.75, gets weight 1. *)
Lemma demo_topology_weights :
  exists tws,
    _compute_topology_weights demo_edge_index demo_edge_weight 4 = Ok tws /\
    List.length tws = 4%nat /\
    nth 0 tws 0 = 0.9 / 1.75 /\ nth 1 tws 0 = 1.75 / 1.75 /\
    nth 2 tws 0 = 1.65 / 1.75 /\ nth 3 tws 0 = 0.8 / 1.75.
Proof.
  destruct (compute_topology_weights_Ok demo_edge_index demo_edge_weight 4)
    as [tws [mx [E [L [[[v [Hv Hmx]] Hub] Hw]]]]].
  - lia.
  - unfold edges_in_range, demo_edge_index. repeat constructor; simpl; lia.
  - destruct demo_spec_raw as [R0 [R1 [R2 R3]]].
    assert (Hmx' : mx = 1.75).
    { pose proof (Hub 1%nat ltac:(lia)) as H1. rewrite R1 in H1.
      do 4 (destruct v as [| v]; [lra |]). lia. }
    exists tws. split; [exact E |]. split; [exact L |].
    assert (Hpos : 0 < mx) by lra.
    destruct (Hw 0%nat ltac:(lia)) as [W0 _].
    destruct (Hw 1%nat ltac:(lia)) as [W1 _].
    destruct (Hw 2%nat ltac:(lia)) as [W2 _].
    destruct (Hw 3%nat ltac:(lia)) as [W3 _].
    rewrite (W0 Hpos), (W1 Hpos), (W2 Hpos), (W3 Hpos), R0, R1, R2, R3, Hmx'.
    repeat split.
Qed.

(** The alert level of a delta that is the square of [s > 0]. *)
Lemma alert_level_of_square (s tw : R) :
  0 < s ->
  snd (_calculate_pessimistic_delta (s * s) tw)
  = if Rgeb (s * 2.0 * tw) 0.8 then "critical"%string
    else if Rgeb (s * 2.0 * tw) 0.5 then "high"%string
    else if Rgeb (s * 2.0 * tw) 0.2 then "elevated"%string
    else "normal"%string.
Proof.
  intros Hs. assert (Hss : 0 < s * s) by nra.
  rewrite pessimistic_delta_positive by exact Hss. simpl.
  rewrite pow_half_square by lra. reflexivity.
Qed.

(** C10.  In standard mode ([pessimistic_mode = False]) the top-level
    [pessimistic_delta] of every report entry is [None]; yet the
    interpretation of every entry that is not a forced-failure source carries
    the amplified delta and the alert level that
    [_calculate_pessimistic_delta] gives for the entry's delta and its
    node's topology weight.  So a standard-mode report can hold
    interpretations with alert level "critical", "high" and "elevated": on
    the demo scenario it does, at the pump, the pipe and the hospital. *)
Theorem standard_mode_interpretations_keep_alert_levels :
  (forall (predictor : Predictor) (x : Matrix) (edge_index : EdgeIndex)
          (edge_weight : list R) (failed_nodes : list Z)
          (node_names : option (list string)) (failure_mode : FailureMode)
          (log log' : list Call) (rep : SimulationReport),
      run_simulation predictor x edge_index edge_weight failed_nodes
        node_names failure_mode false log = (log', Ok rep) ->
      exists tws,
        _compute_topology_weights edge_index edge_weight (List.length x)
        = Ok tws /\
        forall r, In r (nodes rep) ->
          pessimistic_delta r = None /\
          (is_failed_source r = false ->
           exists tw,
             nth_error tws (node_id r) = Some tw /\
             si_pessimistic_delta (interpretation r)
             = fst (_calculate_pessimistic_delta (delta r) tw) /\
             alert_level (interpretation r)
             = snd (_calculate_pessimistic_delta (delta r) tw))) /\
  (exists (rep : SimulationReport) (log' : list Call) (r1 r2 r3 : NodeReport),
      run_simulation demo_predictor demo_x demo_edge_index demo_edge_weight
        [0%Z] (Some demo_node_names) SUPPLY_CUT false [] = (log', Ok rep) /\
      In r1 (nodes rep) /\ In r2 (nodes rep) /\ In r3 (nodes rep) /\
      is_failed_source r1 = false /\ is_failed_source r2 = false /\
      is_failed_source r3 = false /\
      pessimistic_delta r1 = None /\ pessimistic_delta r2 = None /\
      pessimistic_delta r3 = None /\
      alert_level (interpretation r1) = "critical"%string /\
      alert_level (interpretation r2) = "high"%string /\
      alert_level (interpretation r3) = "elevated"%string).
Proof.
  assert (Hgen :
    forall predictor x edge_index edge_weight failed_nodes failure_mode rep
           bm sm base sim deltas tws x_sim,
      RunFacts predictor x edge_index edge_weight failed_nodes failure_mode
        false rep bm sm base sim deltas tws x_sim ->
      forall r, In r (nodes rep) ->
        pessimistic_delta r = None /\
        (is_failed_source r = false ->
         exists tw,
           nth_error tws (node_id r) = Some tw /\
           si_pessimistic_delta (interpretation r)
           = fst (_calculate_pessimistic_delta (delta r) tw) /\
           alert_level (interpretation r)
           = snd (_calculate_pessimistic_delta (delta r) tw))).
  { intros predictor x edge_index edge_weight failed_nodes failure_mode rep
      bm sm base sim deltas tws x_sim F r Hr.
    destruct (rf_entry F r Hr)
      as [_ [tw [name [_ [_ [_ [Htw [Hsrc [Hint Hnone]]]]]]]]].
    split; [apply Hnone; reflexivity |].
    intros Hns. exists tw. split; [apply item_Ok_inv; exact Htw |].
    rewrite <- Hsrc, Hns in Hint. rewrite Hint.
    destruct (interpret_delta_not_source (delta r) name failure_mode tw false)
      as [_ [_ [_ [Hp Ha]]]].
    split; [exact Hp | exact Ha]. }
  split.
  - intros predictor x edge_index edge_weight failed_nodes node_names
      failure_mode log log' rep Hrun.
    apply run_simulation_facts in Hrun.
    destruct Hrun as [bm [sm [base [sim [deltas [tws [x_sim F]]]]]]].
    exists tws. split; [exact (rf_tws F) |].
    exact (Hgen _ _ _ _ _ _ _ _ _ _ _ _ _ _ F).
  - destruct (run_simulation_total demo_predictor demo_x demo_edge_index
                demo_edge_weight [0%Z] (Some demo_node_names) SUPPLY_CUT false
                [] (outage_predictor_well_shaped _) demo_request_well_formed)
      as [rep [x_sim' [_ Hrun]]].
    pose proof Hrun as Hrun'.
    apply run_simulation_facts in Hrun'.
    destruct Hrun' as [bm [sm [base [sim [deltas [tws [x_sim F]]]]]]].
    destruct demo_topology_weights as [tws' [Et [_ [_ [T1 [T2 T3]]]]]].
    pose proof (rf_tws F) as Et'. simpl List.length in Et'.
    rewrite Et in Et'. injection Et' as <-.
    assert (Hnode : forall i s,
               (0 < i < 4)%nat -> 0 < s ->
               nth i [0.9; 0.81; 0.09; 0.09] 0 = s * s ->
               exists r, In r (nodes rep) /\ is_failed_source r = false /\
                         pessimistic_delta r = None /\
                         alert_level (interpretation r)
                         = snd (_calculate_pessimistic_delta
                                  (s * s) (nth i tws' 0))).
    { intros i s Hi Hs Hsq.
      destruct (rf_all_nodes F i) as [r [Hr Hid]]; [simpl; lia |].
      destruct (demo_run_entry_delta _ _ _ _ _ _ _ _ _ _ F r Hr)
        as [Hd [Hsrc _]].
      assert (Hns : is_failed_source r = false).
      { rewrite Hsrc, Hid. apply Nat.eqb_neq. lia. }
      destruct (Hgen _ _ _ _ _ _ _ _ _ _ _ _ _ _ F r Hr) as [Hnone Hrest].
      destruct (Hrest Hns) as [tw [Htw [_ Ha]]].
      exists r. repeat (split; [assumption |]).
      rewrite Ha, Hd, Hid, Hsq. rewrite Hid in Htw.
      rewrite (nth_error_nth _ _ 0 Htw). reflexivity. }
    destruct (Hnode 1%nat 0.9) as [r1 [In1 [S1 [N1 A1]]]];
      [lia | lra | simpl; lra |].
    destruct (Hnode 2%nat 0.3) as [r2 [In2 [S2 [N2 A2]]]];
      [lia | lra | simpl; lra |].
    destruct (Hnode 3%nat 0.3) as [r3 [In3 [S3 [N3 A3]]]];
      [lia | lra | simpl; lra |].
    eexists rep, _, r1, r2, r3.
    split; [exact Hrun |].
    repeat (split; [assumption |]).
    rewrite A1, A2, A3, !alert_level_of_square by lra.
    rewrite T1, T2, T3.
    repeat split; Rcases; try reflexivity; lra.
Qed.

(** ** Causal attribution: reading a successful analysis backwards *)

Lemma sret_Ok_inv {A : Type} (a b : A) (log log' : list Call) :
  sret a log = (log', Ok b) -> a = b /\ log' = log.
Proof. unfold sret. intros H. inversion H. split; reflexivity. Qed.

Lemma call_predict_Ok_inv (predictor : Predictor) (x : Matrix)
  (edge_index : EdgeIndex) (edge_attr : list R) (log log' : list Call)
  (pred : Matrix) :
  call_predict predictor x edge_index edge_attr log = (log', Ok pred) ->
  predict predictor x edge_index edge_attr = Ok pred.
Proof. unfold call_predict. intros H. inversion H. reflexivity. Qed.

Lemma smapM_Ok_inv {A B : Type} (f : A -> Sim B) (l : list A) :
  forall (log log' : list Call) (bs : list B),
    smapM f l log = (log', Ok bs) ->
    Forall2 (fun a b => exists l1 l2, f a l1 = (l2, Ok b)) l bs.
Proof.
  induction l as [| a l IH]; intros log log' bs H; simpl in H.
  - apply sret_Ok_inv in H. destruct H as [<- _]. constructor.
  - apply sbind_Ok_inv in H. destruct H as [b [log1 [Hb H]]].
    apply sbind_Ok_inv in H. destruct H as [bs' [log2 [Hbs H]]].
    apply sret_Ok_inv in H. destruct H as [<- _].
    constructor; [exists log, log1; exact Hb | eapply IH; exact Hbs].
Qed.

Lemma perturb_neighbor_inv (predictor : Predictor) (x : Matrix)
  (edge_index : EdgeIndex) (edge_attr : list R) (target : Z) (bi : R)
  (neighbor : Z) (log log' : list Call) (r : NodePerturbation) :
  perturb_neighbor predictor x edge_index edge_attr target bi neighbor log
  = (log', Ok r) ->
  neighbor_idx r = neighbor /\ baseline_impact r = bi /\
  causal_effect r = perturbed_impact r - baseline_impact r /\
  exists x_perturbed pred,
    failed_features x neighbor = Ok x_perturbed /\
    predict predictor x_perturbed edge_index edge_attr = Ok pred /\
    target_impact pred target = Ok (perturbed_impact r).
Proof.
  unfold perturb_neighbor. intros H.
  apply sbind_Ok_inv in H. destruct H as [x1 [l1 [H1 H]]].
  apply lift_Ok_inv in H1. destruct H1 as [H1 ->].
  apply sbind_Ok_inv in H. destruct H as [x2 [l2 [H2 H]]].
  apply lift_Ok_inv in H2. destruct H2 as [H2 ->].
  apply sbind_Ok_inv in H. destruct H as [x3 [l3 [H3 H]]].
  apply lift_Ok_inv in H3. destruct H3 as [H3 ->].
  apply sbind_Ok_inv in H. destruct H as [pred [l4 [Hp H]]].
  apply call_predict_Ok_inv in Hp.
  apply sbind_Ok_inv in H. destruct H as [pi [l5 [Hi H]]].
  apply lift_Ok_inv in Hi. destruct Hi as [Hi ->].
  apply sbind_Ok_inv in H. destruct H as [nt [l6 [Hn H]]].
  apply sret_Ok_inv in H. destruct H as [<- _]. simpl.
  repeat split.
  exists x3, pred. unfold failed_features. rewrite H1. simpl. rewrite H2.
  simpl. auto.
Qed.

Lemma occlude_edge_inv (predictor : Predictor) (x : Matrix)
  (edge_index : EdgeIndex) (edge_attr : list R) (target : Z) (bi : R)
  (edge : nat * (Z * Z)) (log log' : list Call) (r : EdgeOcclusion) :
  occlude_edge predictor x edge_index edge_attr target bi edge log
  = (log', Ok r) ->
  edge_idx r = fst edge /\ source_idx r = fst (snd edge) /\
  edge_baseline_impact r = bi /\
  edge_causal_effect r = occluded_impact r - edge_baseline_impact r /\
  exists edges' attr' pred,
    occluded_graph edge_index edge_attr (fst edge) = Ok (edges', attr') /\
    predict predictor x edges' attr' = Ok pred /\
    target_impact pred target = Ok (occluded_impact r).
Proof.
  unfold occlude_edge. destruct edge as [k [src dst]]. intros H.
  apply sbind_Ok_inv in H. destruct H as [attr [l1 [H1 H]]].
  apply lift_Ok_inv in H1. destruct H1 as [H1 ->].
  apply sbind_Ok_inv in H. destruct H as [pred [l2 [Hp H]]].
  apply call_predict_Ok_inv in Hp.
  apply sbind_Ok_inv in H. destruct H as [oi [l3 [Hi H]]].
  apply lift_Ok_inv in Hi. destruct Hi as [Hi ->].
  apply sbind_Ok_inv in H. destruct H as [st [l4 [Hs H]]].
  apply sbind_Ok_inv in H. destruct H as [w [l5 [Hw H]]].
  apply sret_Ok_inv in H. destruct H as [<- _]. simpl.
  repeat split.
  exists (drop_nth k edge_index), attr, pred.
  unfold occluded_graph. simpl. rewrite H1. simpl. auto.
Qed.

(** What a node-perturbation analysis that returned [results] computed. *)
Lemma node_perturbation_analysis_inv (list_of_set : list Z -> list Z)
  (predictor : Predictor) (x : Matrix) (edge_index : EdgeIndex)
  (edge_attr : list R) (target : Z) (log log' : list Call)
  (results : list NodePerturbation) :
  node_perturbation_analysis list_of_set predictor x edge_index edge_attr
    target log = (log', Ok results) ->
  descending (fun r => Rabs (causal_effect r)) results /\
  exists baseline_pred bi,
    predict predictor x edge_index edge_attr = Ok baseline_pred /\
    target_impact baseline_pred target = Ok bi /\
    forall r, In r results ->
      baseline_impact r = bi /\
      causal_effect r = perturbed_impact r - baseline_impact r /\
      exists x_perturbed pred,
        failed_features x (neighbor_idx r) = Ok x_perturbed /\
        predict predictor x_perturbed edge_index edge_attr = Ok pred /\
        target_impact pred target = Ok (perturbed_impact r).
Proof.
  unfold node_perturbation_analysis. intros H.
  apply sbind_Ok_inv in H. destruct H as [bp [l1 [Hp H]]].
  apply call_predict_Ok_inv in Hp.
  apply sbind_Ok_inv in H. destruct H as [bi [l2 [Hi H]]].
  apply lift_Ok_inv in Hi. destruct Hi as [Hi ->].
  destruct (list_of_set _) as [| n ns] eqn:En.
  - apply sret_Ok_inv in H. destruct H as [<- _].
    split; [constructor |]. exists bp, bi.
    split; [exact Hp |]. split; [exact Hi |]. intros r [].
  - apply sbind_Ok_inv in H. destruct H as [rs [l3 [Hrs H]]].
    apply sbind_Ok_inv in H. destruct H as [first [l4 [_ H]]].
    apply sret_Ok_inv in H. destruct H as [<- _].
    split; [apply list_sort_reverse_descending |].
    exists bp, bi. split; [exact Hp |]. split; [exact Hi |].
    intros r Hr.
    apply (Permutation_in _ (Permutation_sym (list_sort_perm _ _ _))) in Hr.
    destruct (Forall2_In_right _ _ _ _ (smapM_Ok_inv _ _ _ _ _ Hrs) Hr)
      as [nb [_ [la [lb Hnb]]]].
    apply perturb_neighbor_inv in Hnb.
    destruct Hnb as [Hidx [Hb [Hc Hx]]].
    split; [exact Hb |]. split; [exact Hc |]. rewrite Hidx. exact Hx.
Qed.

(** What an edge-occlusion analysis that returned [results] computed. *)
Lemma edge_occlusion_analysis_inv (predictor : Predictor) (x : Matrix)
  (edge_index : EdgeIndex) (edge_attr : list R) (target : Z)
  (log log' : list Call) (results : list EdgeOcclusion) :
  edge_occlusion_analysis predictor x edge_index edge_attr target log
  = (log', Ok results) ->
  ascending edge_causal_effect results /\
  exists baseline_pred bi,
    predict predictor x edge_index edge_attr = Ok baseline_pred /\
    target_impact baseline_pred target = Ok bi /\
    forall r, In r results ->
      edge_baseline_impact r = bi /\
      edge_causal_effect r = occluded_impact r - edge_baseline_impact r /\
      exists edges' attr' pred,
        occluded_graph edge_index edge_attr (edge_idx r)
        = Ok (edges', attr') /\
        predict predictor x edges' attr' = Ok pred /\
        target_impact pred target = Ok (occluded_impact r).
Proof.
  unfold edge_occlusion_analysis. intros H.
  apply sbind_Ok_inv in H. destruct H as [bp [l1 [Hp H]]].
  apply call_predict_Ok_inv in Hp.
  apply sbind_Ok_inv in H. destruct H as [bi [l2 [Hi H]]].
  apply lift_Ok_inv in Hi. destruct Hi as [Hi ->].
  destruct (incoming_edges_of edge_index target) as [| e es] eqn:En.
  - apply sret_Ok_inv in H. destruct H as [<- _].
    split; [constructor |]. exists bp, bi.
    split; [exact Hp |]. split; [exact Hi |]. intros r [].
  - apply sbind_Ok_inv in H. destruct H as [rs [l3 [Hrs H]]].
    apply sbind_Ok_inv in H. destruct H as [first [l4 [_ H]]].
    apply sret_Ok_inv in H. destruct H as [<- _].
    split; [apply list_sort_ascending |].
    exists bp, bi. split; [exact Hp |]. split; [exact Hi |].
    intros r Hr.
    apply (Permutation_in _ (Permutation_sym (list_sort_perm _ _ _))) in Hr.
    destruct (Forall2_In_right _ _ _ _ (smapM_Ok_inv _ _ _ _ _ Hrs) Hr)
      as [edge [_ [la [lb Hedge]]]].
    apply occlude_edge_inv in Hedge.
    destruct Hedge as [Hidx [_ [Hb [Hc Hx]]]].
    split; [exact Hb |]. split; [exact Hc |]. rewrite Hidx. exact Hx.
Qed.

(** What a counterfactual analysis that returned [cf] computed. *)
Lemma counterfactual_analysis_inv (predictor : Predictor) (x : Matrix)
  (edge_index : EdgeIndex) (edge_attr : list R) (target failed : Z)
  (log log' : list Call) (cf : Counterfactual) :
  counterfactual_analysis predictor x edge_index edge_attr target failed log
  = (log', Ok cf) ->
  benefit cf = current_impact cf - repaired_impact cf /\
  exists current_pred x_repaired repaired_pred,
    predict predictor x edge_index edge_attr = Ok current_pred /\
    target_impact current_pred target = Ok (current_impact cf) /\
    repaired_features x failed = Ok x_repaired /\
    predict predictor x_repaired edge_index edge_attr = Ok repaired_pred /\
    target_impact repaired_pred target = Ok (repaired_impact cf).
Proof.
  unfold counterfactual_analysis. intros H.
  apply sbind_Ok_inv in H. destruct H as [cp [l1 [Hp H]]].
  apply call_predict_Ok_inv in Hp.
  apply sbind_Ok_inv in H. destruct H as [ci [l2 [Hi H]]].
  apply lift_Ok_inv in Hi. destruct Hi as [Hi ->].
  apply sbind_Ok_inv in H. destruct H as [x1 [l3 [H1 H]]].
  apply lift_Ok_inv in H1. destruct H1 as [H1 ->].
  apply sbind_Ok_inv in H. destruct H as [x2 [l4 [H2 H]]].
  apply lift_Ok_inv in H2. destruct H2 as [H2 ->].
  apply sbind_Ok_inv in H. destruct H as [x3 [l5 [H3 H]]].
  apply lift_Ok_inv in H3. destruct H3 as [H3 ->].
  apply sbind_Ok_inv in H. destruct H as [rp [l6 [Hrp H]]].
  apply call_predict_Ok_inv in Hrp.
  apply sbind_Ok_inv in H. destruct H as [ri [l7 [Hri H]]].
  apply lift_Ok_inv in Hri. destruct Hri as [Hri ->].
  apply sret_Ok_inv in H. destruct H as [<- _]. simpl.
  split; [reflexivity |].
  exists cp, x3, rp. unfold repaired_features. rewrite H1. simpl. rewrite H2.
  simpl. auto.
Qed.

(** ** Causal attribution: analyses that succeed *)

Lemma smapM_total {A B : Type} (f : A -> Sim B) (l : list A) :
  (forall a, In a l -> forall log, exists b log', f a log = (log', Ok b)) ->
  forall log, exists bs log',
    smapM f l log = (log', Ok bs) /\ List.length bs = List.length l.
Proof.
  induction l as [| a l IH]; intros Hf log; simpl.
  - exists [], log. split; reflexivity.
  - destruct (Hf a (or_introl eq_refl) log) as [b [log1 Hb]].
    destruct (IH (fun a' Ha' => Hf a' (or_intror Ha')) log1)
      as [bs [log2 [Hbs Hlen]]].
    exists (b :: bs), log2. unfold sbind, sret. rewrite Hb, Hbs.
    split; [reflexivity | simpl; lia].
Qed.

Lemma py_get_Ok_In {A : Type} (l : list A) (z : Z) (a : A) :
  py_get l z = Ok a -> In a l.
Proof.
  unfold py_get. intros H. apply rbind_Ok_inv in H.
  destruct H as [k [_ H]]. apply item_Ok_inv in H.
  eapply nth_error_In. exact H.
Qed.

Lemma target_impact_total (pred : Matrix) (target : Z) :
  Forall (fun row => row <> []) pred ->
  (- Z.of_nat (List.length pred) <= target < Z.of_nat (List.length pred))%Z ->
  exists v, target_impact pred target = Ok v.
Proof.
  intros Hrows Ht. unfold target_impact.
  destruct (py_get_total pred target Ht) as [row Erow]. rewrite Erow.
  rewrite rbind_Ok. apply np_mean_total.
  rewrite Forall_forall in Hrows. apply Hrows.
  eapply py_get_Ok_In. exact Erow.
Qed.

Lemma argmax_from_bound (a : list R) :
  forall (best : nat) (bestv : R) (k : nat),
    (best < k)%nat ->
    (argmax_from best bestv k a < k + List.length a)%nat.
Proof.
  induction a as [| v a IH]; intros best bestv k Hlt; simpl.
  - lia.
  - destruct (Rgtb v bestv).
    + specialize (IH k v (S k)). lia.
    + specialize (IH best bestv (S k)). lia.
Qed.

Lemma node_type_of_total (x : Matrix) (idx : Z) :
  has_columns 16 x ->
  (- Z.of_nat (List.length x) <= idx < Z.of_nat (List.length x))%Z ->
  exists name, node_type_of x idx = Ok name.
Proof.
  intros Hx Hidx. unfold node_type_of.
  destruct (py_get_total x idx Hidx) as [row Erow]. rewrite Erow, rbind_Ok.
  assert (Hrow : (16 <= List.length row)%nat).
  { unfold has_columns in Hx. rewrite Forall_forall in Hx. apply Hx.
    eapply py_get_Ok_In. exact Erow. }
  assert (Hlen : List.length (firstn 12 row) = 12%nat)
    by (rewrite length_firstn; lia).
  destruct (firstn 12 row) as [| v a] eqn:E; [discriminate |].
  simpl np_argmax. rewrite rbind_Ok.
  apply item_total.
  pose proof (argmax_from_bound a 0 v 1 ltac:(lia)) as Hb.
  simpl in Hlen. simpl. lia.
Qed.

Lemma failed_features_total (x : Matrix) (node : Z) :
  has_columns 16 x ->
  (- Z.of_nat (List.length x) <= node < Z.of_nat (List.length x))%Z ->
  exists x', failed_features x node = Ok x' /\
             List.length x' = List.length x.
Proof.
  intros Hx Hn. unfold failed_features.
  destruct (np_set2_total 16 x node 15 0.0 Hx) as [x1 [E1 [L1 C1]]];
    [lia | exact Hn |].
  destruct (np_set2_total 16 x1 node 13 0.0 C1) as [x2 [E2 [L2 C2]]];
    [lia | lia |].
  destruct (np_set2_total 16 x2 node 14 0.0 C2) as [x3 [E3 [L3 C3]]];
    [lia | lia |].
  exists x3. rewrite E1, rbind_Ok, E2, rbind_Ok. split; [exact E3 | lia].
Qed.

Lemma repaired_features_total (x : Matrix) (node : Z) :
  has_columns 16 x ->
  (- Z.of_nat (List.length x) <= node < Z.of_nat (List.length x))%Z ->
  exists x', repaired_features x node = Ok x' /\
             List.length x' = List.length x.
Proof.
  intros Hx Hn. unfold repaired_features.
  destruct (np_set2_total 16 x node 15 0.9 Hx) as [x1 [E1 [L1 C1]]];
    [lia | exact Hn |].
  destruct (np_set2_total 16 x1 node 13 0.8 C1) as [x2 [E2 [L2 C2]]];
    [lia | lia |].
  destruct (np_set2_total 16 x2 node 14 0.7 C2) as [x3 [E3 [L3 C3]]];
    [lia | lia |].
  exists x3. rewrite E1, rbind_Ok, E2, rbind_Ok. split; [exact E3 | lia].
Qed.

(** A prediction followed by reading the target's impact. *)
Lemma predicted_impact_total (predictor : Predictor) (x : Matrix)
  (edge_index : EdgeIndex) (edge_attr : list R) (target : Z) :
  well_shaped predictor ->
  (- Z.of_nat (List.length x) <= target < Z.of_nat (List.length x))%Z ->
  exists pred v,
    predict predictor x edge_index edge_attr = Ok pred /\
    target_impact pred target = Ok v.
Proof.
  intros Hp Ht. destruct (Hp x edge_index edge_attr) as [pred [E [L Hrows]]].
  destruct (target_impact_total pred target Hrows) as [v Ev]; [lia |].
  exists pred, v. split; assumption.
Qed.

Lemma incoming_edges_in_range (edge_index : EdgeIndex) (target : Z) (n : nat)
  (k : nat) (src dst : Z) :
  edges_in_range edge_index n ->
  In (k, (src, dst)) (incoming_edges_of edge_index target) ->
  (k < List.length edge_index)%nat /\ (0 <= src < Z.of_nat n)%Z.
Proof.
  intros Hedges Hin. unfold incoming_edges_of in Hin.
  apply filter_In in Hin. destruct Hin as [Hin _]. split.
  - apply in_combine_l in Hin. apply in_seq in Hin. lia.
  - apply in_combine_r in Hin. unfold edges_in_range in Hedges.
    rewrite Forall_forall in Hedges. apply Hedges in Hin. simpl in Hin. tauto.
Qed.

Lemma perturb_neighbor_total (predictor : Predictor) (x : Matrix)
  (edge_index : EdgeIndex) (edge_attr : list R) (target : Z) (bi : R)
  (neighbor : Z) (log : list Call) :
  well_shaped predictor -> well_formed_analysis x edge_index target ->
  (- Z.of_nat (List.length x) <= neighbor < Z.of_nat (List.length x))%Z ->
  exists r log',
    perturb_neighbor predictor x edge_index edge_attr target bi neighbor log
    = (log', Ok r).
Proof.
  intros Hp [Hx [_ Ht]] Hn.
  destruct (np_set2_total 16 x neighbor 15 0.0 Hx) as [x1 [E1 [L1 C1]]];
    [lia | exact Hn |].
  destruct (np_set2_total 16 x1 neighbor 13 0.0 C1) as [x2 [E2 [L2 C2]]];
    [lia | lia |].
  destruct (np_set2_total 16 x2 neighbor 14 0.0 C2) as [x3 [E3 [L3 C3]]];
    [lia | lia |].
  destruct (predicted_impact_total predictor x3 edge_index edge_attr target Hp)
    as [pred [v [Ep Ev]]]; [lia |].
  destruct (node_type_of_total x neighbor Hx Hn) as [name En].
  unfold perturb_neighbor, sbind, lift, call_predict, sret.
  rewrite E1, E2, E3, Ep, Ev, En. eexists _, _. reflexivity.
Qed.

Lemma occlude_edge_total (predictor : Predictor) (x : Matrix)
  (edge_index : EdgeIndex) (edge_attr : list R) (target : Z) (bi : R)
  (k : nat) (src dst : Z) (log : list Call) :
  well_shaped predictor -> well_formed_analysis x edge_index target ->
  List.length edge_attr = List.length edge_index ->
  (k < List.length edge_index)%nat ->
  (0 <= src < Z.of_nat (List.length x))%Z ->
  exists r log',
    occlude_edge predictor x edge_index edge_attr target bi (k, (src, dst)) log
    = (log', Ok r).
Proof.
  intros Hp [Hx [_ Ht]] Hlen Hk Hsrc.
  destruct (predicted_impact_total predictor x (drop_nth k edge_index)
              (drop_nth k edge_attr) target Hp Ht) as [pred [v [Ep Ev]]].
  destruct (node_type_of_total x src Hx) as [name En]; [lia |].
  destruct (item_total edge_attr k) as [w Ew]; [lia |].
  unfold occlude_edge, sbind, lift, call_predict, sret, mask_out.
  rewrite Hlen, Nat.eqb_refl, Ep, Ev, En, Ew. eexists _, _. reflexivity.
Qed.

Lemma node_perturbation_analysis_total (list_of_set : list Z -> list Z)
  (predictor : Predictor) (x : Matrix) (edge_index : EdgeIndex)
  (edge_attr : list R) (target : Z) (log : list Call) :
  (forall l z, In z (list_of_set l) -> In z l) ->
  well_shaped predictor -> well_formed_analysis x edge_index target ->
  exists results log',
    node_perturbation_analysis list_of_set predictor x edge_index edge_attr
      target log = (log', Ok results).
Proof.
  intros Hset Hp Hwf. pose proof Hwf as [Hx [Hedges Ht]].
  destruct (predicted_impact_total predictor x edge_index edge_attr target
              Hp Ht) as [bp [bi [Ep Ei]]].
  unfold node_perturbation_analysis, sbind, lift, call_predict.
  rewrite Ep, Ei.
  set (candidates := map (fun '(_, (src, _)) => src)
                         (incoming_edges_of edge_index target)).
  assert (Hrange : forall nb, In nb (list_of_set candidates) ->
             (- Z.of_nat (List.length x) <= nb < Z.of_nat (List.length x))%Z).
  { intros nb Hnb. apply Hset in Hnb. unfold candidates in Hnb.
    apply in_map_iff in Hnb. destruct Hnb as [[k [src dst]] [<- Hin]].
    destruct (incoming_edges_in_range _ _ _ _ _ _ Hedges Hin). lia. }
  destruct (list_of_set candidates) as [| n ns] eqn:En.
  - eexists _, _. reflexivity.
  - destruct (smapM_total
                (perturb_neighbor predictor x edge_index edge_attr target bi)
                (n :: ns)) with (log := (log ++ [(x, edge_index, edge_attr)])%list)
      as [rs [log1 [Hrs Hlen]]].
    { intros nb Hnb log0. apply perturb_neighbor_total; auto. }
    rewrite Hrs.
    destruct (item_total (list_sort (fun r => Rabs (causal_effect r)) true rs) 0)
      as [first Efirst].
    { rewrite <- (Permutation_length (list_sort_perm _ true rs)), Hlen.
      simpl. lia. }
    rewrite Efirst. eexists _, _. reflexivity.
Qed.

Lemma edge_occlusion_analysis_total (predictor : Predictor) (x : Matrix)
  (edge_index : EdgeIndex) (edge_attr : list R) (target : Z)
  (log : list Call) :
  well_shaped predictor -> well_formed_analysis x edge_index target ->
  List.length edge_attr = List.length edge_index ->
  exists results log',
    edge_occlusion_analysis predictor x edge_index edge_attr target log
    = (log', Ok results).
Proof.
  intros Hp Hwf Hattr. pose proof Hwf as [Hx [Hedges Ht]].
  destruct (predicted_impact_total predictor x edge_index edge_attr target
              Hp Ht) as [bp [bi [Ep Ei]]].
  unfold edge_occlusion_analysis, sbind, lift, call_predict.
  rewrite Ep, Ei.
  pose proof (incoming_edges_in_range edge_index target (List.length x))
    as Hrange.
  destruct (incoming_edges_of edge_index target) as [| e es] eqn:En.
  - eexists _, _. reflexivity.
  - destruct (smapM_total
                (occlude_edge predictor x edge_index edge_attr target bi)
                (e :: es)) with (log := (log ++ [(x, edge_index, edge_attr)])%list)
      as [rs [log1 [Hrs Hlen]]].
    { intros [k [src dst]] Hin log0.
      destruct (Hrange k src dst Hedges Hin) as [Hk Hsrc].
      apply occlude_edge_total; auto. }
    rewrite Hrs.
    destruct (item_total (list_sort edge_causal_effect false rs) 0)
      as [first Efirst].
    { rewrite <- (Permutation_length (list_sort_perm _ false rs)), Hlen.
      simpl. lia. }
    rewrite Efirst. eexists _, _. reflexivity.
Qed.

Lemma counterfactual_analysis_total (predictor : Predictor) (x : Matrix)
  (edge_index : EdgeIndex) (edge_attr : list R) (target failed : Z)
  (log : list Call) :
  well_shaped predictor -> well_formed_analysis x edge_index target ->
  (- Z.of_nat (List.length x) <= failed < Z.of_nat (List.length x))%Z ->
  exists cf log',
    counterfactual_analysis predictor x edge_index edge_attr target failed log
    = (log', Ok cf).
Proof.
  intros Hp [Hx [_ Ht]] Hf.
  destruct (predicted_impact_total predictor x edge_index edge_attr target
              Hp Ht) as [cp [ci [Ep Ei]]].
  destruct (np_set2_total 16 x failed 15 0.9 Hx) as [x1 [E1 [L1 C1]]];
    [lia | exact Hf |].
  destruct (np_set2_total 16 x1 failed 13 0.8 C1) as [x2 [E2 [L2 C2]]];
    [lia | lia |].
  destruct (np_set2_total 16 x2 failed 14 0.7 C2) as [x3 [E3 [L3 C3]]];
    [lia | lia |].
  destruct (predicted_impact_total predictor x3 edge_index edge_attr target Hp)
    as [rp [ri [Erp Eri]]]; [lia |].
  unfold counterfactual_analysis, sbind, lift, call_predict, sret.
  rewrite Ep, Ei, E1, E2, E3, Erp, Eri. eexists _, _. reflexivity.
Qed.

(** ** Rankings *)

Lemma node_perturbation_entries (list_of_set : list Z -> list Z)
  (predictor : Predictor) (x : Matrix) (edge_index : EdgeIndex)
  (edge_attr : list R) (target : Z) (log log' : list Call)
  (results : list NodePerturbation) :
  node_perturbation_analysis list_of_set predictor x edge_index edge_attr
    target log = (log', Ok results) ->
  Permutation (map neighbor_idx results)
              (list_of_set (upstream_neighbors edge_index target)).
Proof.
  unfold node_perturbation_analysis, upstream_neighbors. intros H.
  apply sbind_Ok_inv in H. destruct H as [bp [l1 [_ H]]].
  apply sbind_Ok_inv in H. destruct H as [bi [l2 [_ H]]].
  destruct (list_of_set _) as [| n ns] eqn:En.
  - apply sret_Ok_inv in H. destruct H as [<- _]. constructor.
  - apply sbind_Ok_inv in H. destruct H as [rs [l3 [Hrs H]]].
    apply sbind_Ok_inv in H. destruct H as [first [l4 [_ H]]].
    apply sret_Ok_inv in H. destruct H as [<- _].
    apply smapM_Ok_inv in Hrs.
    assert (Hids : map neighbor_idx rs = n :: ns).
    { clear - Hrs. induction Hrs as [| a b l bs [la [lb Hab]] _ IH]; simpl.
      - reflexivity.
      - apply perturb_neighbor_inv in Hab. destruct Hab as [Hidx _].
        rewrite Hidx, IH. reflexivity. }
    rewrite <- Hids. apply Permutation_map, Permutation_sym.
    exact (list_sort_perm (fun r => Rabs (causal_effect r)) true rs).
Qed.

Lemma edge_occlusion_entries (predictor : Predictor) (x : Matrix)
  (edge_index : EdgeIndex) (edge_attr : list R) (target : Z)
  (log log' : list Call) (results : list EdgeOcclusion) :
  edge_occlusion_analysis predictor x edge_index edge_attr target log
  = (log', Ok results) ->
  Permutation (map edge_idx results)
              (map fst (incoming_edges_of edge_index target)).
Proof.
  unfold edge_occlusion_analysis. intros H.
  apply sbind_Ok_inv in H. destruct H as [bp [l1 [_ H]]].
  apply sbind_Ok_inv in H. destruct H as [bi [l2 [_ H]]].
  destruct (incoming_edges_of edge_index target) as [| e es] eqn:En.
  - apply sret_Ok_inv in H. destruct H as [<- _]. constructor.
  - apply sbind_Ok_inv in H. destruct H as [rs [l3 [Hrs H]]].
    apply sbind_Ok_inv in H. destruct H as [first [l4 [_ H]]].
    apply sret_Ok_inv in H. destruct H as [<- _].
    apply smapM_Ok_inv in Hrs.
    assert (Hids : map edge_idx rs = map fst (e :: es)).
    { clear - Hrs. induction Hrs as [| a b l bs [la [lb Hab]] _ IH]; simpl.
      - reflexivity.
      - apply occlude_edge_inv in Hab. destruct Hab as [Hidx _].
        rewrite Hidx, IH. reflexivity. }
    rewrite <- Hids. apply Permutation_map, Permutation_sym.
    exact (list_sort_perm edge_causal_effect false rs).
Qed.

(** C9.  The node-perturbation analysis returns one entry for each upstream
    neighbour of the target that the set of neighbours lists, and the
    edge-occlusion analysis one entry for each edge that ends at the target;
    so for a target with an upstream neighbour or edge the lists are not
    empty.  The first list is in descending order of |causal effect|, the
    second in ascending order of signed causal effect, most negative first.
    In both, the causal effect of an entry is its perturbed (occluded) target
    impact minus the baseline target impact, and these impacts are what the
    predictor gives for the target on the graph with that neighbour failed
    (that edge left out) and on the graph as given.  For a predictor that
    answers with one row per node, on a graph whose edges join its nodes and
    which has one weight per edge, both analyses do return, for every target
    of the graph. *)
Theorem causal_rankings_sorted (list_of_set : list Z -> list Z)
  (predictor : Predictor) (x : Matrix) (edge_index : EdgeIndex)
  (edge_attr : list R) (target : Z) :
  (forall (log log' : list Call) (results : list NodePerturbation),
      node_perturbation_analysis list_of_set predictor x edge_index edge_attr
        target log = (log', Ok results) ->
      Permutation (map neighbor_idx results)
                  (list_of_set (upstream_neighbors edge_index target)) /\
      descending (fun r => Rabs (perturbed_impact r - baseline_impact r))
        results /\
      Forall (fun r => causal_effect r
                       = perturbed_impact r - baseline_impact r) results /\
      exists (baseline_pred : Matrix) (bi : R),
        predict predictor x edge_index edge_attr = Ok baseline_pred /\
        target_impact baseline_pred target = Ok bi /\
        Forall (fun r =>
                  baseline_impact r = bi /\
                  exists x_perturbed pred,
                    failed_features x (neighbor_idx r) = Ok x_perturbed /\
                    predict predictor x_perturbed edge_index edge_attr
                    = Ok pred /\
                    target_impact pred target = Ok (perturbed_impact r))
               results) /\
  (forall (log log' : list Call) (results : list EdgeOcclusion),
      edge_occlusion_analysis predictor x edge_index edge_attr target log
      = (log', Ok results) ->
      Permutation (map edge_idx results)
                  (map fst (incoming_edges_of edge_index target)) /\
      ascending edge_causal_effect results /\
      Forall (fun r => edge_causal_effect r
                       = occluded_impact r - edge_baseline_impact r) results /\
      exists (baseline_pred : Matrix) (bi : R),
        predict predictor x edge_index edge_attr = Ok baseline_pred /\
        target_impact baseline_pred target = Ok bi /\
        Forall (fun r =>
                  edge_baseline_impact r = bi /\
                  exists edges' attr' pred,
                    occluded_graph edge_index edge_attr (edge_idx r)
                    = Ok (edges', attr') /\
                    predict predictor x edges' attr' = Ok pred /\
                    target_impact pred target = Ok (occluded_impact r))
               results) /\
  (lists_the_set list_of_set ->
   well_shaped predictor ->
   well_formed_analysis x edge_index target ->
   List.length edge_attr = List.length edge_index ->
   forall log : list Call,
     (exists (results : list NodePerturbation) (log' : list Call),
         node_perturbation_analysis list_of_set predictor x edge_index
           edge_attr target log = (log', Ok results) /\
         NoDup (map neighbor_idx results) /\
         (forall nb, In nb (map neighbor_idx results)
                     <-> In nb (upstream_neighbors edge_index target)) /\
         (upstream_neighbors edge_index target <> [] -> results <> [])) /\
     (exists (results : list EdgeOcclusion) (log' : list Call),
         edge_occlusion_analysis predictor x edge_index edge_attr target log
         = (log', Ok results) /\
         List.length results
         = List.length (incoming_edges_of edge_index target))).
Proof.
  split; [| split].
  - intros log log' results H.
    pose proof (node_perturbation_entries _ _ _ _ _ _ _ _ _ H) as Hperm.
    apply node_perturbation_analysis_inv in H.
    destruct H as [Hsorted [bp [bi [Hp [Hi Hr]]]]].
    assert (Heff : Forall (fun r => causal_effect r
                            = perturbed_impact r - baseline_impact r) results).
    { rewrite Forall_forall. intros r Hin. apply Hr. exact Hin. }
    split; [exact Hperm |]. split; [| split; [exact Heff |]].
    + unfold descending in *. clear Hr Hperm.
      induction Hsorted as [| r rs Hs IH Hall]; [constructor |].
      inversion Heff as [| r' rs' Hr Hrs]; subst.
      constructor; [apply IH; exact Hrs |].
      rewrite Forall_forall in *. intros r' Hin.
      rewrite <- Hr, <- (Hrs r' Hin). apply Hall. exact Hin.
    + exists bp, bi. split; [exact Hp |]. split; [exact Hi |].
      rewrite Forall_forall. intros r Hin.
      destruct (Hr r Hin) as [Hb [_ Hx]]. split; [exact Hb | exact Hx].
  - intros log log' results H.
    pose proof (edge_occlusion_entries _ _ _ _ _ _ _ _ H) as Hperm.
    apply edge_occlusion_analysis_inv in H.
    destruct H as [Hsorted [bp [bi [Hp [Hi Hr]]]]].
    split; [exact Hperm |]. split; [exact Hsorted |]. split.
    + rewrite Forall_forall. intros r Hin. apply Hr. exact Hin.
    + exists bp, bi. split; [exact Hp |]. split; [exact Hi |].
      rewrite Forall_forall. intros r Hin.
      destruct (Hr r Hin) as [Hb [_ Hx]]. split; [exact Hb | exact Hx].
  - intros Hset Hp Hwf Hattr log. split.
    + destruct (node_perturbation_analysis_total list_of_set predictor x
                  edge_index edge_attr target log) as [results [log' H]];
        [intros l z Hz; apply (proj2 (Hset l)); exact Hz | exact Hp
        | exact Hwf |].
      exists results, log'. split; [exact H |].
      pose proof (node_perturbation_entries _ _ _ _ _ _ _ _ _ H) as Hperm.
      destruct (Hset (upstream_neighbors edge_index target)) as [Hnd Hin].
      split; [| split].
      * exact (Permutation_NoDup (Permutation_sym Hperm) Hnd).
      * intros nb. rewrite <- Hin. split; intros Hnb.
        -- exact (Permutation_in _ Hperm Hnb).
        -- exact (Permutation_in _ (Permutation_sym Hperm) Hnb).
      * intros Hne Hnil. subst results. simpl in Hperm.
        apply Permutation_nil in Hperm.
        destruct (upstream_neighbors edge_index target) as [| nb nbs];
          [contradiction Hne; reflexivity |].
        assert (Hnb : In nb (list_of_set (nb :: nbs)))
          by (apply Hin; left; reflexivity).
        rewrite Hperm in Hnb. exact Hnb.
    + destruct (edge_occlusion_analysis_total predictor x edge_index
                  edge_attr target log Hp Hwf Hattr) as [results [log' H]].
      exists results, log'. split; [exact H |].
      pose proof (edge_occlusion_entries _ _ _ _ _ _ _ _ H) as Hperm.
      apply Permutation_length in Hperm.
      rewrite !length_map in Hperm. exact Hperm.
Qed.

Lemma causal_analysis_well_formed (target : Z) :
  (-4 <= target < 4)%Z ->
  well_formed_analysis causal_x causal_edge_index target.
Proof.
  intros Ht.
  unfold well_formed_analysis, has_columns, edges_in_range, causal_x,
    causal_edge_index.
  simpl List.length.
  repeat split; repeat constructor; simpl; lia.
Qed.

Lemma nodup_subset (l : list Z) (z : Z) : In z (nodup Z.eq_dec l) -> In z l.
Proof. apply nodup_In. Qed.

Lemma inflow_predictor_well_shaped : well_shaped inflow_predictor.
Proof.
  intros x edge_index edge_weight. simpl. eexists. split; [reflexivity |].
  split.
  - rewrite length_map. apply length_seq.
  - rewrite Forall_forall. intros row Hrow. apply in_map_iff in Hrow.
    destruct Hrow as [i [<- _]]. discriminate.
Qed.

Lemma nodup_lists_the_set : lists_the_set (nodup Z.eq_dec).
Proof.
  intros l. split; [apply NoDup_nodup |]. intros z. apply nodup_In.
Qed.

(** The impact of the pipe (node 2), read from an answer of the stand-in on
    a graph of the scenario. *)
Ltac pipe_impact Hp Hi :=
  simpl in Hp; injection Hp as <-;
  unfold target_impact, py_get in Hi;
  rewrite norm_index_in_range in Hi by (simpl; lia);
  change (Z.to_nat 2) with 2%nat in Hi; simpl in Hi;
  unfold np_mean, np_true_divide in Hi;
  destruct (Req_dec_T _ 0) as [? | _] in Hi; [discriminate |];
  injection Hi as Hi; unfold np_sum in Hi; simpl in Hi.

(** On the scenario, with the stand-in that looks at the neighbours, the
    facts that the theorem gives about the node-perturbation analysis of the
    pipe (node 2) leave one list only: the hospital (node 3) before the pump
    (node 1), the reverse of the order in which they are met. *)
Lemma inflow_ranking_by_node (by_node : list NodePerturbation) :
  Permutation (map neighbor_idx by_node)
              (nodup Z.eq_dec (upstream_neighbors causal_edge_index 2)) ->
  descending (fun r => Rabs (perturbed_impact r - baseline_impact r))
    by_node ->
  Forall (fun r => causal_effect r = perturbed_impact r - baseline_impact r)
    by_node ->
  (exists (baseline_pred : Matrix) (bi : R),
      predict inflow_predictor causal_x causal_edge_index causal_edge_weights
      = Ok baseline_pred /\
      target_impact baseline_pred 2 = Ok bi /\
      Forall (fun r =>
                baseline_impact r = bi /\
                exists x_perturbed pred,
                  failed_features causal_x (neighbor_idx r)
                  = Ok x_perturbed /\
                  predict inflow_predictor x_perturbed causal_edge_index
                    causal_edge_weights = Ok pred /\
                  target_impact pred 2 = Ok (perturbed_impact r))
             by_node) ->
  nodup Z.eq_dec (upstream_neighbors causal_edge_index 2) = [1; 3]%Z /\
  map neighbor_idx by_node = [3; 1]%Z /\
  map causal_effect by_node = [(0.34 - 0.72) / 12; (0.38 - 0.72) / 12].
Proof.
  intros Hperm Hdesc Heff [bp [bi [Hp [Hi Hall]]]].
  change (nodup Z.eq_dec (upstream_neighbors causal_edge_index 2))
    with [1; 3]%Z in *.
  split; [reflexivity |].
  unfold inflow_predictor, causal_x, causal_edge_index, causal_edge_weights
    in Hp.
  pipe_impact Hp Hi.
  assert (Hbi : bi = 0.72 / 12) by (rewrite <- Hi; lra). clear Hi.
  assert (Hone : forall r, In r by_node -> neighbor_idx r = 1%Z ->
                           perturbed_impact r = 0.38 / 12 /\
                           baseline_impact r = 0.72 / 12).
  { intros r Hin Hidx. rewrite Forall_forall in Hall.
    destruct (Hall r Hin) as [Hb [xp [pred [Hx [Hpp Hpi]]]]].
    rewrite Hidx in Hx.
    unfold failed_features, np_set2, np_set, causal_x in Hx. simpl in Hx.
    injection Hx as <-.
    unfold inflow_predictor, causal_edge_index, causal_edge_weights in Hpp.
    pipe_impact Hpp Hpi.
    split; [rewrite <- Hpi; lra | rewrite Hb; exact Hbi]. }
  assert (Hthree : forall r, In r by_node -> neighbor_idx r = 3%Z ->
                             perturbed_impact r = 0.34 / 12 /\
                             baseline_impact r = 0.72 / 12).
  { intros r Hin Hidx. rewrite Forall_forall in Hall.
    destruct (Hall r Hin) as [Hb [xp [pred [Hx [Hpp Hpi]]]]].
    rewrite Hidx in Hx.
    unfold failed_features, np_set2, np_set, causal_x in Hx. simpl in Hx.
    injection Hx as <-.
    unfold inflow_predictor, causal_edge_index, causal_edge_weights in Hpp.
    pipe_impact Hpp Hpi.
    split; [rewrite <- Hpi; lra | rewrite Hb; exact Hbi]. }
  clear Hall.
  pose proof (Permutation_length Hperm) as Hlen.
  destruct by_node as [| r1 [| r2 [| r3 rs]]]; try discriminate Hlen.
  simpl in Hperm. apply Permutation_sym, Permutation_length_2_inv in Hperm.
  inversion Heff as [| ? ? E1 Heff']; subst.
  inversion Heff' as [| ? ? E2 _]; subst.
  inversion Hdesc as [| ? ? _ Hfirst]; subst.
  inversion Hfirst as [| ? ? Hge _]; subst.
  destruct Hperm as [Hperm | Hperm]; injection Hperm as I1 I2.
  - exfalso.
    destruct (Hone r1 (or_introl eq_refl) I1) as [P1 B1].
    destruct (Hthree r2 (or_intror (or_introl eq_refl)) I2) as [P2 B2].
    rewrite P1, B1, P2, B2 in Hge.
    rewrite (Rabs_left (0.38 / 12 - 0.72 / 12)) in Hge by lra.
    rewrite (Rabs_left (0.34 / 12 - 0.72 / 12)) in Hge by lra.
    lra.
  - destruct (Hthree r1 (or_introl eq_refl) I1) as [P1 B1].
    destruct (Hone r2 (or_intror (or_introl eq_refl)) I2) as [P2 B2].
    simpl. rewrite I1, I2, E1, E2, P1, B1, P2, B2.
    split; [reflexivity |]. f_equal; [lra | f_equal; lra].
Qed.

(** Likewise for the edge-occlusion analysis of the pipe: the edge from the
    hospital (number 5) before the edge from the pump (number 2). *)
Lemma inflow_ranking_by_edge (by_edge : list EdgeOcclusion) :
  Permutation (map edge_idx by_edge)
              (map fst (incoming_edges_of causal_edge_index 2)) ->
  ascending edge_causal_effect by_edge ->
  Forall (fun r => edge_causal_effect r
                   = occluded_impact r - edge_baseline_impact r) by_edge ->
  (exists (baseline_pred : Matrix) (bi : R),
      predict inflow_predictor causal_x causal_edge_index causal_edge_weights
      = Ok baseline_pred /\
      target_impact baseline_pred 2 = Ok bi /\
      Forall (fun r =>
                edge_baseline_impact r = bi /\
                exists edges' attr' pred,
                  occluded_graph causal_edge_index causal_edge_weights
                    (edge_idx r) = Ok (edges', attr') /\
                  predict inflow_predictor causal_x edges' attr' = Ok pred /\
                  target_impact pred 2 = Ok (occluded_impact r))
             by_edge) ->
  map fst (incoming_edges_of causal_edge_index 2) = [2; 5]%nat /\
  map edge_idx by_edge = [5; 2]%nat /\
  map edge_causal_effect by_edge = [(0.34 - 0.72) / 12; (0.38 - 0.72) / 12].
Proof.
  intros Hperm Hasc Heff [bp [bi [Hp [Hi Hall]]]].
  change (map fst (incoming_edges_of causal_edge_index 2))
    with [2; 5]%nat in *.
  split; [reflexivity |].
  unfold inflow_predictor, causal_x, causal_edge_index, causal_edge_weights
    in Hp.
  pipe_impact Hp Hi.
  assert (Hbi : bi = 0.72 / 12) by (rewrite <- Hi; lra). clear Hi.
  assert (Htwo : forall r, In r by_edge -> edge_idx r = 2%nat ->
                           occluded_impact r = 0.38 / 12 /\
                           edge_baseline_impact r = 0.72 / 12).
  { intros r Hin Hidx. rewrite Forall_forall in Hall.
    destruct (Hall r Hin) as [Hb [edges' [attr' [pred [Hg [Hpp Hpi]]]]]].
    rewrite Hidx in Hg.
    unfold occluded_graph, mask_out, causal_edge_index, causal_edge_weights
      in Hg. simpl in Hg.
    injection Hg as <- <-.
    unfold inflow_predictor, causal_x in Hpp.
    pipe_impact Hpp Hpi.
    split; [rewrite <- Hpi; lra | rewrite Hb; exact Hbi]. }
  assert (Hfive : forall r, In r by_edge -> edge_idx r = 5%nat ->
                            occluded_impact r = 0.34 / 12 /\
                            edge_baseline_impact r = 0.72 / 12).
  { intros r Hin Hidx. rewrite Forall_forall in Hall.
    destruct (Hall r Hin) as [Hb [edges' [attr' [pred [Hg [Hpp Hpi]]]]]].
    rewrite Hidx in Hg.
    unfold occluded_graph, mask_out, causal_edge_index, causal_edge_weights
      in Hg. simpl in Hg.
    injection Hg as <- <-.
    unfold inflow_predictor, causal_x in Hpp.
    pipe_impact Hpp Hpi.
    split; [rewrite <- Hpi; lra | rewrite Hb; exact Hbi]. }
  clear Hall.
  pose proof (Permutation_length Hperm) as Hlen.
  destruct by_edge as [| r1 [| r2 [| r3 rs]]]; try discriminate Hlen.
  simpl in Hperm. apply Permutation_sym, Permutation_length_2_inv in Hperm.
  inversion Heff as [| ? ? E1 Heff']; subst.
  inversion Heff' as [| ? ? E2 _]; subst.
  inversion Hasc as [| ? ? _ Hfirst]; subst.
  inversion Hfirst as [| ? ? Hle _]; subst.
  destruct Hperm as [Hperm | Hperm]; injection Hperm as I1 I2.
  - exfalso.
    destruct (Htwo r1 (or_introl eq_refl) I1) as [P1 B1].
    destruct (Hfive r2 (or_intror (or_introl eq_refl)) I2) as [P2 B2].
    rewrite E1, E2, P1, B1, P2, B2 in Hle. lra.
  - destruct (Hfive r1 (or_introl eq_refl) I1) as [P1 B1].
    destruct (Htwo r2 (or_intror (or_introl eq_refl)) I2) as [P2 B2].
    simpl. rewrite I1, I2, E1, E2, P1, B1, P2, B2.
    split; [reflexivity |]. f_equal; [lra | f_equal; lra].
Qed.

(** The theorem on the scenario of [run_full_causal_analysis], for the pipe
    (node 2) with its two incoming edges, from the pump and from the
    hospital, and the stand-in that looks at the neighbours: both analyses
    return, and each ranking is the reverse of the order in which the
    neighbours and the edges are met. *)
Lemma causal_rankings_sorted_witness :
  exists (by_node : list NodePerturbation) (by_edge : list EdgeOcclusion)
         (log1 log2 : list Call),
    node_perturbation_analysis (nodup Z.eq_dec) inflow_predictor causal_x
      causal_edge_index causal_edge_weights 2 [] = (log1, Ok by_node) /\
    edge_occlusion_analysis inflow_predictor causal_x causal_edge_index
      causal_edge_weights 2 [] = (log2, Ok by_edge) /\
    (nodup Z.eq_dec (upstream_neighbors causal_edge_index 2) = [1; 3]%Z /\
     map neighbor_idx by_node = [3; 1]%Z /\
     map causal_effect by_node = [(0.34 - 0.72) / 12; (0.38 - 0.72) / 12]) /\
    (map fst (incoming_edges_of causal_edge_index 2) = [2; 5]%nat /\
     map edge_idx by_edge = [5; 2]%nat /\
     map edge_causal_effect by_edge
     = [(0.34 - 0.72) / 12; (0.38 - 0.72) / 12]) /\
    descending (fun r => Rabs (perturbed_impact r - baseline_impact r))
      by_node /\
    ascending edge_causal_effect by_edge.
Proof.
  destruct (causal_rankings_sorted (nodup Z.eq_dec) inflow_predictor causal_x
              causal_edge_index causal_edge_weights 2) as [Hn [He Hreturn]].
  destruct (Hreturn nodup_lists_the_set inflow_predictor_well_shaped
              (causal_analysis_well_formed 2 ltac:(lia)) eq_refl [])
    as [[by_node [log1 [Hrun1 _]]] [by_edge [log2 [Hrun2 _]]]].
  destruct (Hn _ _ _ Hrun1) as [Hperm1 [Hdesc [Heff1 Hval1]]].
  destruct (He _ _ _ Hrun2) as [Hperm2 [Hasc [Heff2 Hval2]]].
  exists by_node, by_edge, log1, log2.
  split; [exact Hrun1 |]. split; [exact Hrun2 |].
  split; [exact (inflow_ranking_by_node by_node Hperm1 Hdesc Heff1 Hval1) |].
  split; [exact (inflow_ranking_by_edge by_edge Hperm2 Hasc Heff2 Hval2) |].
  split; [exact Hdesc | exact Hasc].
Defined.

(** ** Which part of the predictor's output is read *)

Lemma target_impact_is_mean (pred : Matrix) (target : Z) (v : R) :
  target_impact pred target = Ok v -> mean_of_dimensions pred target v.
Proof.
  unfold target_impact. intros H.
  apply rbind_Ok_inv in H. destruct H as [row [Hrow H]].
  exists row. split; [exact Hrow |].
  unfold np_mean, np_true_divide in H.
  destruct (Req_dec_T (INR (List.length row)) 0) as [H0 | H0];
    [discriminate |].
  inversion H. split; [| reflexivity].
  intros ->. apply H0. reflexivity.
Qed.

Lemma Forall2_nth_error_right {A B : Type} (P : A -> B -> Prop) (l : list A)
  (m : list B) (i : nat) (b : B) :
  Forall2 P l m -> nth_error m i = Some b ->
  exists a, nth_error l i = Some a /\ P a b.
Proof.
  intros H. revert i. induction H as [| a b' l m Hab _ IH]; intros i Hi.
  - destruct i; discriminate.
  - destruct i as [| i]; simpl in *.
    + inversion Hi; subst. exists a. split; [reflexivity | exact Hab].
    + apply IH. exact Hi.
Qed.

Lemma column0_is_dimension_0 (pred : Matrix) (col : list R) (i : nat) (v : R) :
  column0 pred = Ok col -> item col i = Ok v -> dimension_0_of pred i v.
Proof.
  intros Hcol Hitem. apply mapM_Ok_inv in Hcol. apply item_Ok_inv in Hitem.
  destruct (Forall2_nth_error_right _ _ _ _ _ Hcol Hitem) as [row [Hrow H0]].
  exists row. split; [exact Hrow |]. apply item_Ok_inv. exact H0.
Qed.

(** C4, as amended.  In [run_simulation] the baseline and the simulated
    value of every report entry are dimension 0 of the node's row of the
    predictor's output, on the graph as given and on the graph with the
    failures forced.  In the three causal analyses the target impacts
    (baseline and perturbed, baseline and occluded, current and repaired) are
    not dimension 0: each is the mean over all the dimensions of the target's
    row of the predictor's output. *)
Theorem impacts_read_from_prediction (list_of_set : list Z -> list Z)
  (predictor : Predictor) (x : Matrix) (edge_index : EdgeIndex)
  (edge_attr : list R) :
  (forall (failed_nodes : list Z) (node_names : option (list string))
          (failure_mode : FailureMode) (pessimistic_mode : bool)
          (log log' : list Call) (rep : SimulationReport),
      run_simulation predictor x edge_index edge_attr failed_nodes node_names
        failure_mode pessimistic_mode log = (log', Ok rep) ->
      exists baseline_pred x_sim sim_pred,
        predict predictor x edge_index edge_attr = Ok baseline_pred /\
        force_failures x failed_nodes 12 = Ok x_sim /\
        predict predictor x_sim edge_index edge_attr = Ok sim_pred /\
        forall r, In r (nodes rep) ->
          dimension_0_of baseline_pred (node_id r) (baseline r) /\
          dimension_0_of sim_pred (node_id r) (simulated r)) /\
  (forall (target : Z) (log log' : list Call)
          (results : list NodePerturbation),
      node_perturbation_analysis list_of_set predictor x edge_index edge_attr
        target log = (log', Ok results) ->
      exists baseline_pred,
        predict predictor x edge_index edge_attr = Ok baseline_pred /\
        forall r, In r results ->
          mean_of_dimensions baseline_pred target (baseline_impact r) /\
          exists x_perturbed pred,
            failed_features x (neighbor_idx r) = Ok x_perturbed /\
            predict predictor x_perturbed edge_index edge_attr = Ok pred /\
            mean_of_dimensions pred target (perturbed_impact r)) /\
  (forall (target : Z) (log log' : list Call) (results : list EdgeOcclusion),
      edge_occlusion_analysis predictor x edge_index edge_attr target log
      = (log', Ok results) ->
      exists baseline_pred,
        predict predictor x edge_index edge_attr = Ok baseline_pred /\
        forall r, In r results ->
          mean_of_dimensions baseline_pred target (edge_baseline_impact r) /\
          exists edges' attr' pred,
            occluded_graph edge_index edge_attr (edge_idx r)
            = Ok (edges', attr') /\
            predict predictor x edges' attr' = Ok pred /\
            mean_of_dimensions pred target (occluded_impact r)) /\
  (forall (target failed : Z) (log log' : list Call) (cf : Counterfactual),
      counterfactual_analysis predictor x edge_index edge_attr target failed
        log = (log', Ok cf) ->
      exists current_pred x_repaired repaired_pred,
        predict predictor x edge_index edge_attr = Ok current_pred /\
        mean_of_dimensions current_pred target (current_impact cf) /\
        repaired_features x failed = Ok x_repaired /\
        predict predictor x_repaired edge_index edge_attr = Ok repaired_pred /\
        mean_of_dimensions repaired_pred target (repaired_impact cf)).
Proof.
  split; [| split; [| split]].
  - intros failed_nodes node_names failure_mode pessimistic_mode log log' rep H.
    apply run_simulation_facts in H.
    destruct H as [bm [sm [base [sim [deltas [tws [x_sim F]]]]]]].
    exists bm, x_sim, sm.
    split; [exact (rf_baseline F) |]. split; [exact (rf_x_sim F) |].
    split; [exact (rf_simulated F) |].
    intros r Hr.
    destruct (rf_entry F r Hr) as [_ [tw [name [_ [Hb [Hs _]]]]]].
    split.
    + exact (column0_is_dimension_0 _ _ _ _ (rf_base F) Hb).
    + exact (column0_is_dimension_0 _ _ _ _ (rf_sim F) Hs).
  - intros target log log' results H.
    apply node_perturbation_analysis_inv in H.
    destruct H as [_ [bp [bi [Hp [Hi Hr]]]]].
    exists bp. split; [exact Hp |]. intros r Hin.
    destruct (Hr r Hin) as [Hb [_ [xp [pred [Hx [Hpp Hpi]]]]]].
    split; [rewrite Hb; apply target_impact_is_mean; exact Hi |].
    exists xp, pred. split; [exact Hx |]. split; [exact Hpp |].
    apply target_impact_is_mean. exact Hpi.
  - intros target log log' results H.
    apply edge_occlusion_analysis_inv in H.
    destruct H as [_ [bp [bi [Hp [Hi Hr]]]]].
    exists bp. split; [exact Hp |]. intros r Hin.
    destruct (Hr r Hin) as [Hb [_ [edges' [attr' [pred [Hg [Hpp Hpi]]]]]]].
    split; [rewrite Hb; apply target_impact_is_mean; exact Hi |].
    exists edges', attr', pred. split; [exact Hg |]. split; [exact Hpp |].
    apply target_impact_is_mean. exact Hpi.
  - intros target failed log log' cf H.
    apply counterfactual_analysis_inv in H.
    destruct H as [_ [cp [xr [rp [Hp [Hci [Hx [Hrp Hri]]]]]]]].
    exists cp, xr, rp.
    split; [exact Hp |].
    split; [apply target_impact_is_mean; exact Hci |].
    split; [exact Hx |]. split; [exact Hrp |].
    apply target_impact_is_mean. exact Hri.
Qed.

Lemma demo_analysis_well_formed (target : Z) :
  (-4 <= target < 4)%Z ->
  well_formed_analysis demo_x demo_edge_index target.
Proof.
  intros Ht.
  unfold well_formed_analysis, has_columns, edges_in_range, demo_x,
    demo_edge_index.
  simpl List.length.
  repeat split; repeat constructor; simpl; lia.
Qed.

(** C4, as the specification states it, fails on the demo scenario: for
    the hospital (node 3) the predictor's row is 0.1 * (1 - 0.9) in dimension 0
    and 0 in the other eleven dimensions, and the current impact that the
    counterfactual analysis works with is a twelfth of the dimension-0
    value, not that value. *)
Lemma causal_impact_counterexample :
  exists (cf : Counterfactual) (log' : list Call) (pred : Matrix) (d0 : R),
    counterfactual_analysis demo_predictor demo_x demo_edge_index
      demo_edge_weight 3 0 [] = (log', Ok cf) /\
    predict demo_predictor demo_x demo_edge_index demo_edge_weight = Ok pred /\
    dimension_0_of pred 3 d0 /\
    current_impact cf = d0 / 12 /\
    current_impact cf <> d0.
Proof.
  destruct (counterfactual_analysis_total demo_predictor demo_x
              demo_edge_index demo_edge_weight 3 0 []
              (outage_predictor_well_shaped _)
              (demo_analysis_well_formed 3 ltac:(lia)))
    as [cf [log' Hcf]]; [simpl; lia |].
  pose proof Hcf as Hinv. apply counterfactual_analysis_inv in Hinv.
  destruct Hinv as [_ [cp [xr [rp [Hp [Hci _]]]]]].
  exists cf, log', cp, (0.1 * (1 - 0.9)).
  split; [exact Hcf |]. split; [exact Hp |].
  unfold demo_predictor, outage_predictor, demo_x in Hp. simpl in Hp.
  injection Hp as <-.
  unfold target_impact, py_get in Hci.
  rewrite norm_index_in_range in Hci by (simpl; lia).
  change (Z.to_nat 3) with 3%nat in Hci. simpl in Hci.
  unfold np_mean, np_true_divide in Hci.
  destruct (Req_dec_T _ 0) as [H0 | H0] in Hci; [discriminate |].
  injection Hci as Hci. unfold np_sum in Hci. simpl in Hci.
  split; [eexists; split; reflexivity |].
  split; rewrite <- Hci; lra.
Qed.

Lemma causal_request_well_formed :
  well_formed_request causal_x causal_edge_index causal_edge_weights [1%Z]
    None.
Proof.
  unfold well_formed_request, has_status_column, has_columns, edges_in_range,
    causal_x, causal_edge_index, causal_edge_weights.
  simpl List.length.
  repeat split; repeat constructor; simpl; try lia; try lra.
Qed.

(** The amended statement on the scenario of [run_full_causal_analysis]: a
    pessimistic simulation of a pump failure, and the three analyses for the
    pipe (node 2), the counterfactual one repairing the tank (node 0). *)
Lemma impacts_read_from_prediction_witness :
  (exists (rep : SimulationReport) (log' : list Call)
          (baseline_pred x_sim sim_pred : Matrix),
      run_simulation demo_predictor causal_x causal_edge_index
        causal_edge_weights [1%Z] None NONE true [] = (log', Ok rep) /\
      predict demo_predictor causal_x causal_edge_index causal_edge_weights
      = Ok baseline_pred /\
      force_failures causal_x [1%Z] 12 = Ok x_sim /\
      predict demo_predictor x_sim causal_edge_index causal_edge_weights
      = Ok sim_pred /\
      forall r, In r (nodes rep) ->
        dimension_0_of baseline_pred (node_id r) (baseline r) /\
        dimension_0_of sim_pred (node_id r) (simulated r)) /\
  (exists (results : list NodePerturbation) (log' : list Call)
          (baseline_pred : Matrix),
      node_perturbation_analysis (nodup Z.eq_dec) demo_predictor causal_x
        causal_edge_index causal_edge_weights 2 [] = (log', Ok results) /\
      forall r, In r results ->
        mean_of_dimensions baseline_pred 2 (baseline_impact r) /\
        exists x_perturbed pred,
          failed_features causal_x (neighbor_idx r) = Ok x_perturbed /\
          predict demo_predictor x_perturbed causal_edge_index
            causal_edge_weights = Ok pred /\
          mean_of_dimensions pred 2 (perturbed_impact r)) /\
  (exists (results : list EdgeOcclusion) (log' : list Call)
          (baseline_pred : Matrix),
      edge_occlusion_analysis demo_predictor causal_x causal_edge_index
        causal_edge_weights 2 [] = (log', Ok results) /\
      forall r, In r results ->
        mean_of_dimensions baseline_pred 2 (edge_baseline_impact r) /\
        exists edges' attr' pred,
          occluded_graph causal_edge_index causal_edge_weights (edge_idx r)
          = Ok (edges', attr') /\
          predict demo_predictor causal_x edges' attr' = Ok pred /\
          mean_of_dimensions pred 2 (occluded_impact r)) /\
  (exists (cf : Counterfactual) (log' : list Call)
          (current_pred x_repaired repaired_pred : Matrix),
      counterfactual_analysis demo_predictor causal_x causal_edge_index
        causal_edge_weights 2 0 [] = (log', Ok cf) /\
      predict demo_predictor causal_x causal_edge_index causal_edge_weights
      = Ok current_pred /\
      mean_of_dimensions current_pred 2 (current_impact cf) /\
      repaired_features causal_x 0 = Ok x_repaired /\
      predict demo_predictor x_repaired causal_edge_index causal_edge_weights
      = Ok repaired_pred /\
      mean_of_dimensions repaired_pred 2 (repaired_impact cf)).
Proof.
  destruct (impacts_read_from_prediction (nodup Z.eq_dec) demo_predictor
              causal_x causal_edge_index causal_edge_weights)
    as [Hrun [Hnode [Hedge Hcf]]].
  split; [| split; [| split]].
  - destruct (run_simulation_total demo_predictor causal_x causal_edge_index
                causal_edge_weights [1%Z] None NONE true []
                (outage_predictor_well_shaped _) causal_request_well_formed)
      as [rep [x_sim' [_ H]]].
    destruct (Hrun _ _ _ _ _ _ _ H) as [bp [x_sim [sp [H1 [H2 [H3 H4]]]]]].
    eexists rep, _, bp, x_sim, sp. repeat (split; [eassumption |]). exact H4.
  - destruct (node_perturbation_analysis_total (nodup Z.eq_dec)
                demo_predictor causal_x causal_edge_index causal_edge_weights
                2 [] nodup_subset (outage_predictor_well_shaped _)
                (causal_analysis_well_formed 2 ltac:(lia)))
      as [results [log' H]].
    destruct (Hnode _ _ _ _ H) as [bp [_ H2]].
    exists results, log', bp. split; [exact H | exact H2].
  - destruct (edge_occlusion_analysis_total demo_predictor causal_x
                causal_edge_index causal_edge_weights 2 []
                (outage_predictor_well_shaped _)
                (causal_analysis_well_formed 2 ltac:(lia)) eq_refl)
      as [results [log' H]].
    destruct (Hedge _ _ _ _ H) as [bp [_ H2]].
    exists results, log', bp. split; [exact H | exact H2].
  - destruct (counterfactual_analysis_total demo_predictor causal_x
                causal_edge_index causal_edge_weights 2 0 []
                (outage_predictor_well_shaped _)
                (causal_analysis_well_formed 2 ltac:(lia)))
      as [cf [log' H]]; [simpl; lia |].
    destruct (Hcf _ _ _ _ _ H) as [cp [xr [rp [H1 [H2 [H3 [H4 H5]]]]]]].
    exists cf, log', cp, xr, rp. repeat (split; [assumption |]). exact H5.
Defined.

(** ** Small checks of the sort and of the two scalar formulas *)

Example list_sort_reverse_example :
  list_sort Rabs true [0.1; -0.3; 0.2] = [-0.3; 0.2; 0.1].
Proof.
  assert (H1 : Rabs 0.1 = 0.1) by (apply Rabs_pos_eq; lra).
  assert (H2 : Rabs (-0.3) = 0.3) by (rewrite Rabs_left by lra; lra).
  assert (H3 : Rabs 0.2 = 0.2) by (apply Rabs_pos_eq; lra).
  assert (G1 : Rgeb (Rabs (-0.3)) (Rabs 0.2) = true)
    by (apply Rgeb_true; lra).
  assert (G2 : Rgeb (Rabs 0.1) (Rabs (-0.3)) = false)
    by (apply Rgeb_false; lra).
  assert (G3 : Rgeb (Rabs 0.1) (Rabs 0.2) = false)
    by (apply Rgeb_false; lra).
  unfold list_sort. simpl. rewrite G1. simpl. rewrite G2, G3. reflexivity.
Qed.

Example list_sort_example :
  list_sort (fun v => v) false [0.1; -0.3; 0.2] = [-0.3; 0.1; 0.2].
Proof.
  assert (G1 : Rleb (-0.3) 0.2 = true) by (apply Rleb_true; lra).
  assert (G2 : Rleb 0.1 (-0.3) = false) by (apply Rleb_false; lra).
  assert (G3 : Rleb 0.1 0.2 = true) by (apply Rleb_true; lra).
  unfold list_sort. simpl. rewrite G1. simpl. rewrite G2, G3. reflexivity.
Qed.

Example confidence_example :
  _compute_confidence 0.15 1.0 = (0.3, "medium"%string).
Proof.
  unfold _compute_confidence.
  rewrite (Rabs_pos_eq 0.15) by lra.
  unfold py_min, py_max. Rcases; try lra; f_equal; lra.
Qed.

Example pessimistic_delta_example :
  _calculate_pessimistic_delta 0.01 1.0 = (0.2, "elevated"%string).
Proof.
  replace 0.01 with (0.1 * 0.1) by lra.
  rewrite pessimistic_delta_positive by lra.
  rewrite pow_half_square by lra.
  unfold Rmin. destruct (Rle_dec _ _); Rcases; try lra; f_equal; lra.
Qed.
(** * Further properties of the simulation engine *)

(** ** What forcing the failures changes *)

Lemma nth_error_list_set {A : Type} (l : list A) (k i : nat) (v : A) :
  nth_error (list_set l k v) i
  = if (i =? k)%nat
    then match nth_error l i with Some _ => Some v | None => None end
    else nth_error l i.
Proof.
  revert k i. induction l as [| a l IH]; intros [| k] [| i]; simpl;
    try reflexivity.
  - destruct (i =? k)%nat; reflexivity.
  - apply IH.
Qed.

Lemma list_set_twice {A : Type} (l : list A) (k : nat) (v w : A) :
  list_set (list_set l k v) k w = list_set l k w.
Proof.
  revert k. induction l as [| a l IH]; intros [| k]; simpl; try reflexivity.
  f_equal. apply IH.
Qed.

Lemma norm_index_nonneg (n : nat) (j : Z) (k : nat) :
  (0 <= j)%Z -> norm_index n j = Ok k -> k = Z.to_nat j.
Proof.
  intros Hj. unfold norm_index.
  destruct ((0 <=? j)%Z && (j <? Z.of_nat n)%Z).
  - intros H. inversion H. reflexivity.
  - replace (j <? 0)%Z with false by (symmetry; apply Z.ltb_ge; lia).
    rewrite andb_false_r. discriminate.
Qed.

Lemma np_set2_Ok_inv (m m' : Matrix) (z j : Z) (v : R) :
  np_set2 m z j v = Ok m' ->
  exists (k : nat) (row : list R) (kj : nat),
    norm_index (List.length m) z = Ok k /\ nth_error m k = Some row /\
    norm_index (List.length row) j = Ok kj /\
    m' = list_set m k (list_set row kj v).
Proof.
  unfold np_set2, np_set. intros H.
  apply rbind_Ok_inv in H. destruct H as [k [Hk H]].
  apply rbind_Ok_inv in H. destruct H as [row [Hrow H]].
  apply rbind_Ok_inv in H. destruct H as [row' [Hrow' H]].
  apply rbind_Ok_inv in Hrow'. destruct Hrow' as [kj [Hkj Hrow']].
  inversion Hrow'; subst row'. inversion H; subst m'.
  exists k, row, kj. repeat split; try assumption.
  apply item_Ok_inv. exact Hrow.
Qed.

Lemma force_failures_frame (failed_nodes : list Z) :
  forall x x_sim : Matrix,
    force_failures x failed_nodes 12 = Ok x_sim ->
    List.length x_sim = List.length x /\
    forall (i : nat) (row : list R),
      nth_error x i = Some row ->
      nth_error x_sim i
      = Some (if is_forced (List.length x) failed_nodes i
              then list_set row 12 0.0 else row).
Proof.
  induction failed_nodes as [| z rest IH]; intros x x_sim H; simpl in H.
  - inversion H; subst. split; [reflexivity |]. intros i row Hi. exact Hi.
  - apply rbind_Ok_inv in H. destruct H as [x1 [E1 H]].
    pose proof (np_set2_Ok_length _ _ _ _ _ E1) as [L1 _].
    apply np_set2_Ok_inv in E1.
    destruct E1 as [k [rowk [kj [Hk [Hrowk [Hkj ->]]]]]].
    apply norm_index_nonneg in Hkj; [| lia].
    change (Z.to_nat 12) with 12%nat in Hkj. subst kj.
    destruct (IH _ _ H) as [L IHrows]. split; [lia |].
    intros i row Hi.
    rewrite L1 in IHrows. simpl is_forced. unfold names_row at 1. rewrite Hk.
    specialize (IHrows i). rewrite nth_error_list_set in IHrows.
    destruct (Nat.eqb_spec i k) as [Heq | Hne].
    + subst i. rewrite Nat.eqb_refl. simpl orb.
      rewrite Hrowk in Hi. inversion Hi; subst row. rewrite Hrowk in IHrows.
      rewrite (IHrows _ eq_refl). rewrite list_set_twice.
      destruct (is_forced (List.length x) rest k); reflexivity.
    + replace (k =? i)%nat with false
        by (symmetry; apply Nat.eqb_neq; congruence).
      simpl orb. apply IHrows. exact Hi.
Qed.

(** X1.  The loop that forces the failures leaves the feature matrix as it
    is apart from the status column, number 12, of the rows that
    [failed_nodes] names (a negative index naming a row from the end): these
    rows get the value 0 there and keep every other feature, all other rows
    are unchanged, and the number of rows stays the same.  So the outcome
    depends on the set of rows named only, not on the order of the indices,
    on repetitions or on how an index is written. *)
Theorem force_failures_changes_status_only (failed_nodes : list Z) :
  forall x x_sim : Matrix,
    force_failures x failed_nodes 12 = Ok x_sim ->
    List.length x_sim = List.length x /\
    (forall (i : nat) (row : list R),
        nth_error x i = Some row ->
        nth_error x_sim i
        = Some (if is_forced (List.length x) failed_nodes i
                then list_set row 12 0.0 else row)) /\
    forall (other : list Z) (x_other : Matrix),
      (forall i, is_forced (List.length x) other i
                 = is_forced (List.length x) failed_nodes i) ->
      force_failures x other 12 = Ok x_other ->
      x_other = x_sim.
Proof.
  intros x x_sim H.
  destruct (force_failures_frame failed_nodes x x_sim H) as [L Hrows].
  split; [exact L |]. split; [exact Hrows |].
  intros other x_other Hsame Hother.
  destruct (force_failures_frame other x x_other Hother) as [L' Hrows'].
  apply nth_error_ext. intros i.
  destruct (nth_error x i) as [row |] eqn:Erow.
  - rewrite (Hrows _ _ Erow), (Hrows' _ _ Erow), Hsame. reflexivity.
  - apply nth_error_None in Erow.
    assert (E1 : nth_error x_sim i = None) by (apply nth_error_None; lia).
    assert (E2 : nth_error x_other i = None) by (apply nth_error_None; lia).
    congruence.
Qed.

(** The theorem on the demo graph, with the tank failed by its index and
    the hospital by the index -1. *)
Lemma force_failures_changes_status_only_witness :
  exists x_sim : Matrix,
    force_failures demo_x [0%Z; (-1)%Z] 12 = Ok x_sim /\
    List.length x_sim = List.length demo_x /\
    (forall (i : nat) (row : list R),
        nth_error demo_x i = Some row ->
        nth_error x_sim i
        = Some (if is_forced (List.length demo_x) [0%Z; (-1)%Z] i
                then list_set row 12 0.0 else row)) /\
    forall (other : list Z) (x_other : Matrix),
      (forall i, is_forced (List.length demo_x) other i
                 = is_forced (List.length demo_x) [0%Z; (-1)%Z] i) ->
      force_failures demo_x other 12 = Ok x_other ->
      x_other = x_sim.
Proof.
  destruct (force_failures_total [0%Z; (-1)%Z] demo_x) as [x_sim [E _]].
  - unfold has_status_column, has_columns, demo_x.
    repeat constructor; simpl; lia.
  - repeat constructor; simpl; lia.
  - exists x_sim. split; [exact E |].
    exact (force_failures_changes_status_only _ _ _ E).
Defined.
(** ** The two predictor calls of a run *)

Lemma demo_run_exists (failed_nodes : list Z) (fm : FailureMode) (pm : bool) :
  well_formed_request demo_x demo_edge_index demo_edge_weight failed_nodes
    (Some demo_node_names) ->
  exists (rep : SimulationReport) (log' : list Call),
    run_simulation demo_predictor demo_x demo_edge_index demo_edge_weight
      failed_nodes (Some demo_node_names) fm pm [] = (log', Ok rep).
Proof.
  intros Hwf.
  destruct (run_simulation_total demo_predictor demo_x demo_edge_index
              demo_edge_weight failed_nodes (Some demo_node_names) fm pm []
              (outage_predictor_well_shaped _) Hwf)
    as [rep [x_sim [_ Hrun]]].
  eexists rep, _. exact Hrun.
Qed.

(** X2.  A simulation that returns a report has called the predictor exactly
    twice: first on the features as given, then on the features with the
    failures forced, both times with the caller's edges and edge weights
    unchanged.  The raw arrays of the report are the impact columns
    (dimension 0) of the two answers and their difference. *)
Theorem run_simulation_calls_predictor_twice (predictor : Predictor)
  (x : Matrix) (edge_index : EdgeIndex) (edge_weight : list R)
  (failed_nodes : list Z) (node_names : option (list string))
  (failure_mode : FailureMode) (pessimistic_mode : bool)
  (log log' : list Call) (rep : SimulationReport) :
  run_simulation predictor x edge_index edge_weight failed_nodes node_names
    failure_mode pessimistic_mode log = (log', Ok rep) ->
  exists (x_sim bm sm : Matrix),
    force_failures x failed_nodes 12 = Ok x_sim /\
    log' = (log ++ [(x, edge_index, edge_weight);
                    (x_sim, edge_index, edge_weight)])%list /\
    predict predictor x edge_index edge_weight = Ok bm /\
    predict predictor x_sim edge_index edge_weight = Ok sm /\
    column0 bm = Ok (raw_baseline (raw rep)) /\
    column0 sm = Ok (raw_simulated (raw rep)) /\
    np_sub (raw_simulated (raw rep)) (raw_baseline (raw rep))
    = Ok (raw_deltas (raw rep)).
Proof.
  intros H. apply run_simulation_inv in H.
  destruct H as [bm [sm [base [sim [x_sim
    [Hbm [Hbase [Hx [Hsm [Hsim [Hrep Hlog]]]]]]]]]]].
  apply build_report_inv in Hrep.
  destruct Hrep as [deltas [tws [pds [entries
    [Hd [_ [_ [_ [_ [_ [_ [_ Hraw]]]]]]]]]]]].
  exists x_sim, bm, sm. rewrite Hraw. simpl.
  repeat (split; [assumption |]). assumption.
Qed.

Lemma run_simulation_calls_predictor_twice_witness :
  exists (rep : SimulationReport) (log' : list Call),
    run_simulation demo_predictor demo_x demo_edge_index demo_edge_weight
      [0%Z] (Some demo_node_names) SUPPLY_CUT true [] = (log', Ok rep) /\
    exists (x_sim bm sm : Matrix),
      force_failures demo_x [0%Z] 12 = Ok x_sim /\
      log' = ([] ++ [(demo_x, demo_edge_index, demo_edge_weight);
                     (x_sim, demo_edge_index, demo_edge_weight)])%list /\
      predict demo_predictor demo_x demo_edge_index demo_edge_weight = Ok bm /\
      predict demo_predictor x_sim demo_edge_index demo_edge_weight = Ok sm /\
      column0 bm = Ok (raw_baseline (raw rep)) /\
      column0 sm = Ok (raw_simulated (raw rep)) /\
      np_sub (raw_simulated (raw rep)) (raw_baseline (raw rep))
      = Ok (raw_deltas (raw rep)).
Proof.
  destruct (demo_run_exists [0%Z] SUPPLY_CUT true demo_request_well_formed)
    as [rep [log' Hrun]].
  exists rep, log'. split; [exact Hrun |].
  exact (run_simulation_calls_predictor_twice _ _ _ _ _ _ _ _ _ _ _ Hrun).
Defined.

(** ** Deltas *)

Lemma np_sub_item (a b d : list R) (i : nat) (av bv dv : R) :
  np_sub a b = Ok d ->
  item a i = Ok av -> item b i = Ok bv -> item d i = Ok dv ->
  dv = av - bv.
Proof.
  unfold np_sub. intros H Ha Hb Hd.
  apply item_Ok_inv in Ha. apply item_Ok_inv in Hb. apply item_Ok_inv in Hd.
  destruct (List.length a =? List.length b)%nat eqn:E.
  - inversion H; subst d. clear H E.
    revert b i Ha Hb Hd.
    induction a as [| a0 a IH]; intros [| b0 b] [| i] Ha Hb Hd;
      simpl in *; try discriminate.
    + congruence.
    + eapply IH; eassumption.
  - destruct a as [| a0 [| a1 a]].
    + destruct i; discriminate.
    + destruct i as [| i]; [| destruct i; discriminate].
      simpl in Ha. inversion Ha; subst av.
      inversion H; subst d. clear H.
      destruct b as [| b0 b]; [discriminate |]. simpl in Hb, Hd. congruence.
    + destruct b as [| b0 [| b1 b]]; try discriminate.
      inversion H; subst d. clear H.
      destruct i as [| i]; [| destruct i; discriminate].
      simpl in Hb, Ha, Hd. congruence.
Qed.

(** X3.  In the report of every simulation run each entry's delta is its
    simulated impact minus its baseline impact, and the interpretation of the
    entry records that same delta. *)
Theorem entry_delta_is_simulated_minus_baseline (predictor : Predictor)
  (x : Matrix) (edge_index : EdgeIndex) (edge_weight : list R)
  (failed_nodes : list Z) (node_names : option (list string))
  (failure_mode : FailureMode) (pessimistic_mode : bool)
  (log log' : list Call) (rep : SimulationReport) :
  run_simulation predictor x edge_index edge_weight failed_nodes node_names
    failure_mode pessimistic_mode log = (log', Ok rep) ->
  forall r, In r (nodes rep) ->
    delta r = simulated r - baseline r /\
    si_delta (interpretation r) = delta r.
Proof.
  intros H r Hr. apply run_simulation_facts in H.
  destruct H as [bm [sm [base [sim [deltas [tws [x_sim F]]]]]]].
  destruct (rf_entry F r Hr)
    as [_ [tw [name [Hd [Hb [Hs [_ [_ [Hint _]]]]]]]]].
  split.
  - exact (np_sub_item _ _ _ _ _ _ _ (rf_deltas F) Hs Hb Hd).
  - rewrite Hint. destruct (is_listed (node_id r) failed_nodes).
    + rewrite interpret_delta_source. reflexivity.
    + apply (interpret_delta_not_source (delta r) name failure_mode tw
               pessimistic_mode).
Qed.

Lemma entry_delta_is_simulated_minus_baseline_witness :
  exists (rep : SimulationReport) (log' : list Call),
    run_simulation demo_predictor demo_x demo_edge_index demo_edge_weight
      [0%Z] (Some demo_node_names) CONTAMINATION false [] = (log', Ok rep) /\
    forall r, In r (nodes rep) ->
      delta r = simulated r - baseline r /\
      si_delta (interpretation r) = delta r.
Proof.
  destruct (demo_run_exists [0%Z] CONTAMINATION false demo_request_well_formed)
    as [rep [log' Hrun]].
  exists rep, log'. split; [exact Hrun |].
  exact (entry_delta_is_simulated_minus_baseline _ _ _ _ _ _ _ _ _ _ _ Hrun).
Defined.

(** ** The order of the report *)

Section StableSort.

Context {A : Type}.
Variable key : A -> R.
Variable earlier : A -> A -> Prop.

Lemma insert_by_In (before : A -> A -> bool) (a c : A) (l : list A) :
  In c (insert_by before a l) -> c = a \/ In c l.
Proof.
  induction l as [| b l IH]; simpl.
  - intros [<- | []]. left. reflexivity.
  - destruct (before a b); simpl.
    + intros [<- | H]; [left; reflexivity | right; exact H].
    + intros [<- | H]; [right; left; reflexivity |].
      destruct (IH H) as [-> | H']; [left; reflexivity | right; right; exact H'].
Qed.

Lemma insert_by_stable (a : A) (l : list A) :
  StronglySorted (key_then key earlier) l -> Forall (earlier a) l ->
  StronglySorted (key_then key earlier)
    (insert_by (fun a b => Rgeb (key a) (key b)) a l).
Proof.
  induction 1 as [| b l Hl IH Hb]; intros Ha; simpl.
  - constructor; constructor.
  - inversion Ha as [| b' l' Hab Hal]; subst.
    destruct (Rgeb (key a) (key b)) eqn:E.
    + apply Rgeb_true in E. constructor; [constructor; assumption |].
      constructor.
      * unfold key_then.
        destruct (Rtotal_order (key a) (key b)) as [Hlt | [Heq | Hgt]].
        -- lra.
        -- right. split; [exact Heq | exact Hab].
        -- left. exact Hgt.
      * rewrite Forall_forall in Hb, Hal |- *. intros c Hc.
        specialize (Hb c Hc). specialize (Hal c Hc).
        unfold key_then in Hb |- *.
        destruct (Rtotal_order (key a) (key c)) as [Hlt | [Heq | Hgt]].
        -- destruct Hb as [Hb | [Hb _]]; lra.
        -- right. split; [exact Heq | exact Hal].
        -- left. exact Hgt.
    + apply Rgeb_false in E. constructor; [apply IH; exact Hal |].
      rewrite Forall_forall in Hb |- *. intros c Hc.
      apply insert_by_In in Hc. destruct Hc as [-> | Hc].
      * left. lra.
      * apply Hb. exact Hc.
Qed.

Lemma sort_by_stable (l : list A) :
  StronglySorted earlier l ->
  StronglySorted (key_then key earlier)
    (sort_by (fun a b => Rgeb (key a) (key b)) l).
Proof.
  induction 1 as [| a l Hl IH Ha]; simpl.
  - constructor.
  - apply insert_by_stable; [exact IH |].
    rewrite Forall_forall in Ha |- *. intros c Hc. apply Ha.
    eapply Permutation_in; [| exact Hc].
    apply Permutation_sym. apply sort_by_perm.
Qed.

End StableSort.

Lemma StronglySorted_seq_ids (f : nat -> result NodeReport) (ids : list nat)
  (entries : list NodeReport) :
  Forall2 (fun i r => f i = Ok r) ids entries ->
  (forall i r, f i = Ok r -> node_id r = i) ->
  StronglySorted lt ids ->
  StronglySorted (fun a b => (node_id a < node_id b)%nat) entries.
Proof.
  intros HF Hid. induction HF as [| i r ids entries Hir HF IH]; intros Hs.
  - constructor.
  - inversion Hs as [| i' ids' Hs' Hi]; subst.
    constructor; [apply IH; exact Hs' |].
    rewrite Forall_forall in Hi |- *. intros r' Hr'.
    destruct (Forall2_In_right _ _ _ _ HF Hr') as [i' [Hi' Hr'']].
    rewrite (Hid _ _ Hir), (Hid _ _ Hr''). apply Hi. exact Hi'.
Qed.

Lemma StronglySorted_seq (start len : nat) : StronglySorted lt (seq start len).
Proof.
  revert start. induction len as [| len IH]; intros start; simpl.
  - constructor.
  - constructor; [apply IH |].
    rewrite Forall_forall. intros i Hi. apply in_seq in Hi. lia.
Qed.

(** X4.  The report of every simulation run is sorted: an entry with a
    larger |delta| comes first, and entries with equal |delta| keep the order
    of their node indices (the sort is stable).  Each node of the graph has
    exactly one entry. *)
Theorem report_sorted_by_delta_then_node (predictor : Predictor) (x : Matrix)
  (edge_index : EdgeIndex) (edge_weight : list R) (failed_nodes : list Z)
  (node_names : option (list string)) (failure_mode : FailureMode)
  (pessimistic_mode : bool) (log log' : list Call) (rep : SimulationReport) :
  run_simulation predictor x edge_index edge_weight failed_nodes node_names
    failure_mode pessimistic_mode log = (log', Ok rep) ->
  StronglySorted report_order (nodes rep) /\
  Permutation (seq 0 (List.length x)) (map node_id (nodes rep)) /\
  NoDup (map node_id (nodes rep)).
Proof.
  intros H. pose proof (run_simulation_facts _ _ _ _ _ _ _ _ _ _ _ H) as HF.
  destruct HF as [bm' [sm' [base' [sim' [deltas' [tws' [x_sim' F]]]]]]].
  apply run_simulation_inv in H.
  destruct H as [bm [sm [base [sim [x_sim [_ [_ [_ [_ [_ [Hrep _]]]]]]]]]]].
  apply build_report_inv in Hrep.
  destruct Hrep as [deltas [tws [pds [entries
    [_ [_ [He [Hnodes _]]]]]]]].
  apply mapM_Ok_inv in He.
  split; [| split].
  - rewrite Hnodes. unfold list_sort.
    apply (sort_by_stable (fun r => Rabs (delta r))
             (fun a b => (node_id a < node_id b)%nat)).
    eapply StronglySorted_seq_ids; [exact He | | apply StronglySorted_seq].
    intros i r Hir. apply report_entry_inv in Hir.
    destruct Hir as [_ [_ [_ [_ [_ [_ [_ [_ [Hnid _]]]]]]]]]. exact Hnid.
  - exact (rf_ids F).
  - eapply Permutation_NoDup; [exact (rf_ids F) | apply seq_NoDup].
Qed.

Lemma report_sorted_by_delta_then_node_witness :
  exists (rep : SimulationReport) (log' : list Call),
    run_simulation demo_predictor demo_x demo_edge_index demo_edge_weight
      [0%Z] (Some demo_node_names) SUPPLY_CUT false [] = (log', Ok rep) /\
    StronglySorted report_order (nodes rep) /\
    Permutation (seq 0 (List.length demo_x)) (map node_id (nodes rep)) /\
    NoDup (map node_id (nodes rep)).
Proof.
  destruct (demo_run_exists [0%Z] SUPPLY_CUT false demo_request_well_formed)
    as [rep [log' Hrun]].
  exists rep, log'. split; [exact Hrun |].
  exact (report_sorted_by_delta_then_node _ _ _ _ _ _ _ _ _ _ _ Hrun).
Defined.
(** ** Risk types, risk levels and colours *)

Lemma interpret_delta_risk_type (d : R) (name : string) (src : bool)
  (fm : FailureMode) (tw : R) (pm : bool) :
  risk_type (_interpret_delta d name src fm tw pm)
  = if src then "FAILURE_SOURCE"
    else if Rltb (Rabs d) 0.01 then "UNAFFECTED"
    else mode_risk_type fm (Rltb d 0).
Proof.
  destruct src; [rewrite interpret_delta_source; reflexivity |].
  unfold _interpret_delta.
  destruct (_compute_confidence d tw) as [conf conf_label].
  destruct (_calculate_pessimistic_delta d tw) as [pess alert].
  repeat match goal with
         | |- context [let '(_, _) := ?e in _] => destruct e
         end.
  destruct (Rltb (Rabs d) 0.01); [reflexivity |].
  destruct fm;
    unfold _interpret_raw_delta, _interpret_demand_loss, _interpret_supply_cut,
      _interpret_contamination, _interpret_control_failure;
    destruct (Rltb d 0); reflexivity.
Qed.

Lemma interpret_delta_level_color (d : R) (name : string) (fm : FailureMode)
  (tw : R) (pm : bool) :
  Rltb (Rabs d) 0.01 = false ->
  let i := _interpret_delta d name false fm tw pm in
  ui_color i = level_color (risk_level i) /\
  In (risk_level i) ["low"; "medium"; "high"; "critical"; "elevated"] /\
  (pm = false -> risk_level i <> "elevated") /\
  (pm = true -> alert_level i <> "normal" -> risk_level i = alert_level i).
Proof.
  intros Hd. cbv zeta. unfold _interpret_delta. rewrite Hd.
  destruct (_compute_confidence d tw) as [conf conf_label].
  pose proof (pessimistic_alert_levels d tw) as Halert.
  destruct (_calculate_pessimistic_delta d tw) as [pess alert].
  simpl snd in Halert.
  match goal with
  | |- context [let '(rl, color) := ?e in @?k rl color] =>
      destruct e as [rl1 c1] eqn:E1
  end.
  match goal with
  | |- context [let '(rl, color) := ?e in @?k rl color] =>
      destruct e as [rl2 c2] eqn:E2
  end.
  assert (Hfields :
    forall i,
      i = match fm with
          | NONE => _interpret_raw_delta d name rl2 c2 conf conf_label pess alert
          | DEMAND_LOSS =>
              _interpret_demand_loss d name rl2 c2 conf conf_label pess alert
          | SUPPLY_CUT =>
              _interpret_supply_cut d name rl2 c2 conf conf_label pess alert
          | CONTAMINATION =>
              _interpret_contamination d name rl2 c2 conf conf_label pess alert
          | CONTROL_FAILURE =>
              _interpret_control_failure d name rl2 c2 conf conf_label pess
                alert
          end ->
      risk_level i = rl2 /\ ui_color i = c2 /\ alert_level i = alert).
  { intros i ->. destruct fm;
      unfold _interpret_raw_delta, _interpret_demand_loss,
        _interpret_supply_cut, _interpret_contamination,
        _interpret_control_failure;
      destruct (Rltb d 0); simpl; auto. }
  destruct (Hfields _ eq_refl) as [-> [-> ->]]. clear Hfields.
  assert (H1 : In (rl1, c1)
                 [("low", "#4CAF50"); ("medium", "#FF9800");
                  ("high", "#F44336"); ("critical", "#9C27B0")]).
  { repeat match type of E1 with
           | (if ?c then _ else _) = _ => destruct c
           end; inversion E1; simpl; auto. }
  clear E1.
  simpl in Halert, H1.
  destruct pm; simpl andb in E2;
    destruct Halert as [<- | [<- | [<- | [<- | []]]]];
    destruct H1 as [H1 | [H1 | [H1 | [H1 | []]]]];
    inversion H1; subst rl1 c1; simpl in E2; inversion E2; subst rl2 c2;
    (split; [reflexivity |]); (split; [simpl; auto 10 |]);
    (split; [intros; discriminate |]); intros; congruence.
Qed.

(** X5.  The risk type of an interpretation is FAILURE_SOURCE exactly for a
    failed source, UNAFFECTED exactly for another node with |delta| < 0.01,
    and otherwise the one that the failure mode has for the sign of the
    delta.  Topology weight and pessimistic mode have no say in it, nor in the
    explanation and the icon; the failure mode is recorded as given. *)
Theorem risk_type_ignores_weight_and_mode (d : R) (name : string)
  (src : bool) (fm : FailureMode) (tw tw' : R) (pm pm' : bool) :
  let i := _interpret_delta d name src fm tw pm in
  let i' := _interpret_delta d name src fm tw' pm' in
  risk_type i = risk_type i' /\
  explanation i = explanation i' /\
  ui_icon i = ui_icon i' /\
  si_failure_mode i = fm /\
  (risk_type i = "FAILURE_SOURCE" <-> src = true) /\
  (risk_type i = "UNAFFECTED" <-> src = false /\ Rabs d < 0.01) /\
  (src = false -> 0.01 <= Rabs d ->
   risk_type i = mode_risk_type fm (Rltb d 0)).
Proof.
  cbv zeta. split; [rewrite !interpret_delta_risk_type; reflexivity |].
  assert (Hsame :
    explanation (_interpret_delta d name src fm tw pm)
    = explanation (_interpret_delta d name src fm tw' pm') /\
    ui_icon (_interpret_delta d name src fm tw pm)
    = ui_icon (_interpret_delta d name src fm tw' pm') /\
    si_failure_mode (_interpret_delta d name src fm tw pm) = fm).
  { destruct src; [rewrite !interpret_delta_source; simpl; auto |].
    unfold _interpret_delta.
    destruct (_compute_confidence d tw) as [conf conf_label].
    destruct (_compute_confidence d tw') as [conf' conf_label'].
    destruct (_calculate_pessimistic_delta d tw) as [pess alert].
    destruct (_calculate_pessimistic_delta d tw') as [pess' alert'].
    repeat match goal with
           | |- context [let '(_, _) := ?e in _] => destruct e
           end.
    destruct (Rltb (Rabs d) 0.01); [simpl; auto |].
    destruct fm;
      unfold _interpret_raw_delta, _interpret_demand_loss,
        _interpret_supply_cut, _interpret_contamination,
        _interpret_control_failure;
      destruct (Rltb d 0); simpl; auto. }
  destruct Hsame as [He [Hi Hm]].
  split; [exact He |]. split; [exact Hi |]. split; [exact Hm |].
  rewrite interpret_delta_risk_type.
  split; [| split].
  - destruct src; [tauto |].
    split; [| discriminate].
    destruct (Rltb (Rabs d) 0.01); [discriminate |].
    destruct fm; destruct (Rltb d 0); discriminate.
  - destruct src; [split; [discriminate | intros [H _]; discriminate H] |].
    destruct (Rltb (Rabs d) 0.01) eqn:E.
    + apply Rltb_true in E. tauto.
    + apply Rltb_false in E. split.
      * destruct fm; destruct (Rltb d 0); discriminate.
      * intros [_ H]. lra.
  - intros -> Hd. apply Rltb_false in Hd. rewrite Hd. reflexivity.
Qed.

(** X6.  For a node that is not a failed source and has |delta| >= 0.01 the
    risk level is one of low, medium, high, critical and elevated, the last
    one in pessimistic mode only; the colour is the one that goes with the
    level, whichever of the two modes chose the level; and in pessimistic
    mode an alert level other than "normal" is taken over as the risk
    level. *)
Theorem risk_level_and_colour_agree (d : R) (name : string)
  (fm : FailureMode) (tw : R) (pm : bool) :
  0.01 <= Rabs d ->
  let i := _interpret_delta d name false fm tw pm in
  ui_color i = level_color (risk_level i) /\
  In (risk_level i) ["low"; "medium"; "high"; "critical"; "elevated"] /\
  (pm = false -> risk_level i <> "elevated") /\
  (pm = true -> alert_level i <> "normal" -> risk_level i = alert_level i).
Proof.
  intros Hd. apply interpret_delta_level_color. apply Rltb_false. exact Hd.
Qed.

Lemma risk_level_and_colour_agree_witness :
  0.01 <= Rabs 0.25 /\
  let i := _interpret_delta 0.25 "Pump" false SUPPLY_CUT 0.5 true in
  ui_color i = level_color (risk_level i) /\
  In (risk_level i) ["low"; "medium"; "high"; "critical"; "elevated"] /\
  (true = false -> risk_level i <> "elevated") /\
  (true = true -> alert_level i <> "normal" -> risk_level i = alert_level i).
Proof.
  assert (H : 0.01 <= Rabs 0.25) by (rewrite Rabs_pos_eq; lra).
  split; [exact H |].
  exact (risk_level_and_colour_agree 0.25 "Pump" SUPPLY_CUT 0.5 true H).
Defined.
(** ** The summary of a run *)

Lemma fold_left_Rplus_acc (l : list R) (acc : R) :
  fold_left Rplus l acc = acc + fold_left Rplus l 0.
Proof.
  revert acc. induction l as [| y l IH]; intros acc; simpl.
  - lra.
  - rewrite (IH (acc + y)), (IH (0 + y)). lra.
Qed.

Lemma np_sum_cons (y : R) (l : list R) : np_sum (y :: l) = y + np_sum l.
Proof.
  unfold np_sum. simpl. rewrite fold_left_Rplus_acc. lra.
Qed.

Lemma np_sum_bounds (l : list R) (lo hi : R) :
  (forall y, In y l -> lo <= y <= hi) ->
  INR (List.length l) * lo <= np_sum l <= INR (List.length l) * hi.
Proof.
  induction l as [| y l IH]; intros H.
  - unfold np_sum. simpl. lra.
  - rewrite np_sum_cons. change (List.length (y :: l)) with (S (List.length l)).
    rewrite S_INR.
    destruct IH as [IH1 IH2]; [intros z Hz; apply H; right; exact Hz |].
    destruct (H y) as [H1 H2]; [left; reflexivity |]. lra.
Qed.

Lemma np_max_Ok_inv (a : list R) (m : R) :
  np_max a = Ok m -> In m a /\ forall y, In y a -> y <= m.
Proof.
  intros H. destruct a as [| x a]; [discriminate |].
  destruct (np_max_spec (x :: a)) as [m' [E Hm']]; [discriminate |].
  rewrite H in E. inversion E; subst m'. exact Hm'.
Qed.

Lemma np_mean_Ok_inv (a : list R) (m : R) :
  np_mean a = Ok m ->
  a <> [] /\ m = np_sum a / INR (List.length a).
Proof.
  unfold np_mean, np_true_divide. intros H.
  destruct (Req_dec_T (INR (List.length a)) 0) as [H0 | H0]; [discriminate |].
  inversion H. split; [| reflexivity].
  intros ->. apply H0. reflexivity.
Qed.

Lemma build_report_summary_inv (base sim : list R) (edge_index : EdgeIndex)
  (edge_weight : list R) (num_nodes : nat) (names : list string)
  (failed_nodes : list Z) (failure_mode : FailureMode)
  (pessimistic_mode : bool) (rep : SimulationReport) :
  build_report base sim edge_index edge_weight num_nodes names failed_nodes
    failure_mode pessimistic_mode = Ok rep ->
  total_nodes (summary rep) = num_nodes /\
  summary_failed_nodes (summary rep) = failed_nodes /\
  summary_failure_mode (summary rep) = FailureMode_name failure_mode /\
  summary_pessimistic_mode (summary rep) = pessimistic_mode /\
  mapM (py_get names) failed_nodes = Ok (failed_names (summary rep)).
Proof.
  unfold build_report. intros H.
  apply rbind_Ok_inv in H. destruct H as [deltas [Hd H]].
  apply rbind_Ok_inv in H. destruct H as [tws [Ht H]].
  apply rbind_Ok_inv in H. destruct H as [pds [Hp H]].
  apply rbind_Ok_inv in H. destruct H as [entries [He H]].
  apply rbind_Ok_inv in H. destruct H as [fnames [Hf H]].
  apply rbind_Ok_inv in H. destruct H as [max_d [Hmax H]].
  apply rbind_Ok_inv in H. destruct H as [mean_d [Hmean H]].
  apply rbind_Ok_inv in H. destruct H as [max_p [Hmp H]].
  apply rbind_Ok_inv in H. destruct H as [text [Htext H]].
  inversion H; subst rep; clear H. simpl.
  repeat (split; [reflexivity |]). exact Hf.
Qed.

(** X7.  The summary of every simulation run echoes the request (number of
    nodes, failed indices, failure mode, pessimistic flag) and names the
    failed nodes in the order given.  Its mean |delta| is the mean of the
    absolute values of the raw delta array, all nodes included, and is not
    negative; the number of affected nodes is at most the number of nodes. *)
Theorem summary_statistics_consistent (predictor : Predictor) (x : Matrix)
  (edge_index : EdgeIndex) (edge_weight : list R) (failed_nodes : list Z)
  (node_names : option (list string)) (failure_mode : FailureMode)
  (pessimistic_mode : bool) (log log' : list Call) (rep : SimulationReport) :
  run_simulation predictor x edge_index edge_weight failed_nodes node_names
    failure_mode pessimistic_mode log = (log', Ok rep) ->
  np_mean (map Rabs (raw_deltas (raw rep))) = Ok (mean_delta (summary rep)) /\
  0 <= mean_delta (summary rep) /\
  (affected_count (summary rep) <= total_nodes (summary rep))%nat /\
  total_nodes (summary rep) = List.length x /\
  summary_failed_nodes (summary rep) = failed_nodes /\
  summary_failure_mode (summary rep) = FailureMode_name failure_mode /\
  summary_pessimistic_mode (summary rep) = pessimistic_mode /\
  Forall2 (fun z name =>
             py_get (names_or_default node_names (List.length x)) z = Ok name)
          failed_nodes (failed_names (summary rep)).
Proof.
  intros H. pose proof (run_simulation_facts _ _ _ _ _ _ _ _ _ _ _ H) as HF.
  destruct HF as [bm' [sm' [base' [sim' [deltas [tws' [x_sim' F]]]]]]].
  apply run_simulation_inv in H.
  destruct H as [bm [sm [base [sim [x_sim [_ [_ [_ [_ [_ [Hrep _]]]]]]]]]]].
  apply build_report_summary_inv in Hrep.
  destruct Hrep as [Htotal [Hfailed [Hmode [Hpm Hnames]]]].
  destruct (np_mean_Ok_inv _ _ (rf_mean_delta F)) as [Hne Hmean].
  assert (Hlen : 0 < INR (List.length (map Rabs deltas))).
  { apply lt_0_INR. destruct (map Rabs deltas); [contradiction | simpl; lia]. }
  destruct (np_max_Ok_inv _ _ (rf_max_delta F)) as [_ Hub].
  assert (Hsum := np_sum_bounds (map Rabs deltas) 0 (max_delta (summary rep))).
  destruct Hsum as [Hlo _].
  { intros y Hy. split; [| apply Hub; exact Hy].
    apply in_map_iff in Hy. destruct Hy as [d [<- _]]. apply Rabs_pos. }
  split; [rewrite (rf_raw F); exact (rf_mean_delta F) |].
  split; [| split; [| repeat (split; [assumption |])]].
  - rewrite Hmean. apply Rmult_le_reg_r
      with (r := INR (List.length (map Rabs deltas))); [exact Hlen |].
    unfold Rdiv. rewrite Rmult_assoc, Rinv_l by lra. lra.
  - rewrite (rf_affected_count F), Htotal.
    eapply Nat.le_trans; [apply filter_length_le |].
    rewrite <- (length_map node_id), <- (Permutation_length (rf_ids F)).
    rewrite length_seq. apply Nat.le_refl.
  - apply mapM_Ok_inv. exact Hnames.
Qed.

Lemma summary_statistics_consistent_witness :
  exists (rep : SimulationReport) (log' : list Call),
    run_simulation demo_predictor demo_x demo_edge_index demo_edge_weight
      [0%Z] (Some demo_node_names) SUPPLY_CUT true [] = (log', Ok rep) /\
    np_mean (map Rabs (raw_deltas (raw rep)))
    = Ok (mean_delta (summary rep)) /\
    0 <= mean_delta (summary rep) /\
    (affected_count (summary rep) <= total_nodes (summary rep))%nat /\
    total_nodes (summary rep) = List.length demo_x /\
    summary_failed_nodes (summary rep) = [0%Z] /\
    summary_failure_mode (summary rep) = FailureMode_name SUPPLY_CUT /\
    summary_pessimistic_mode (summary rep) = true /\
    Forall2 (fun z name =>
               py_get (names_or_default (Some demo_node_names)
                         (List.length demo_x)) z = Ok name)
            [0%Z] (failed_names (summary rep)).
Proof.
  destruct (demo_run_exists [0%Z] SUPPLY_CUT true demo_request_well_formed)
    as [rep [log' Hrun]].
  exists rep, log'. split; [exact Hrun |].
  exact (summary_statistics_consistent _ _ _ _ _ _ _ _ _ _ _ Hrun).
Defined.

(** ** Nodes failed through a negative index *)

Lemma is_listed_negative (i : nat) (failed_nodes : list Z) :
  Forall (fun z => (z < 0)%Z) failed_nodes -> is_listed i failed_nodes = false.
Proof.
  intros H. destruct (is_listed i failed_nodes) eqn:E; [| reflexivity].
  apply is_listed_true in E. rewrite Forall_forall in H.
  specialize (H _ E). simpl in H. lia.
Qed.

(** X8.  A node failed through a negative index is simulated as failed (its
    status is forced to 0 before the second predictor call) but is not
    reported as a failure source: when every index of [failed_nodes] is
    negative, no entry of the report has [is_failed_source] set or carries the
    FAILURE_SOURCE sentinel, although the rows named by the indices were
    changed. *)
Theorem negative_index_is_failed_but_not_flagged (predictor : Predictor)
  (x : Matrix) (edge_index : EdgeIndex) (edge_weight : list R)
  (failed_nodes : list Z) (node_names : option (list string))
  (failure_mode : FailureMode) (pessimistic_mode : bool)
  (log log' : list Call) (rep : SimulationReport) :
  run_simulation predictor x edge_index edge_weight failed_nodes node_names
    failure_mode pessimistic_mode log = (log', Ok rep) ->
  Forall (fun z => (z < 0)%Z) failed_nodes ->
  (forall r, In r (nodes rep) ->
     is_failed_source r = false /\
     risk_type (interpretation r) <> "FAILURE_SOURCE") /\
  exists x_sim,
    log' = (log ++ [(x, edge_index, edge_weight);
                    (x_sim, edge_index, edge_weight)])%list /\
    forall z, In z failed_nodes ->
      exists row,
        nth_error x (Z.to_nat (z + Z.of_nat (List.length x))) = Some row /\
        nth_error x_sim (Z.to_nat (z + Z.of_nat (List.length x)))
        = Some (list_set row 12 0.0).
Proof.
  intros H Hneg.
  pose proof (run_simulation_facts _ _ _ _ _ _ _ _ _ _ _ H) as HF.
  destruct HF as [bm' [sm' [base' [sim' [deltas [tws' [x_sim' F]]]]]]].
  apply run_simulation_inv in H.
  destruct H as [bm [sm [base [sim [x_sim [_ [_ [Hx [_ [_ [_ Hlog]]]]]]]]]]].
  split.
  - intros r Hr.
    destruct (rf_entry F r Hr)
      as [_ [tw [name [_ [_ [_ [_ [Hsrc [Hint _]]]]]]]]].
    rewrite (is_listed_negative _ _ Hneg) in Hsrc, Hint.
    split; [exact Hsrc |].
    rewrite Hint, interpret_delta_risk_type.
    destruct (Rltb (Rabs (delta r)) 0.01); [discriminate |].
    destruct failure_mode; destruct (Rltb (delta r) 0); discriminate.
  - exists x_sim. split; [exact Hlog |].
    intros z Hz.
    assert (Hrange : (- Z.of_nat (List.length x) <= z < 0)%Z).
    { rewrite Forall_forall in Hneg. specialize (Hneg z Hz). simpl in Hneg.
      split; [| exact Hneg].
      clear - Hx Hz. revert x Hx.
      induction failed_nodes as [| z0 rest IH]; intros x Hx;
        [contradiction |].
      simpl in Hx. apply rbind_Ok_inv in Hx. destruct Hx as [x1 [E1 Hx]].
      apply np_set2_Ok_length in E1. destruct E1 as [L1 Hz0].
      destruct Hz as [-> | Hz]; [lia |].
      rewrite <- L1. apply (IH Hz _ Hx). }
    set (k := Z.to_nat (z + Z.of_nat (List.length x))).
    assert (Hk : (k < List.length x)%nat) by (unfold k; lia).
    destruct (nth_error x k) as [row |] eqn:Erow;
      [| apply nth_error_None in Erow; lia].
    exists row. split; [reflexivity |].
    destruct (force_failures_frame _ _ _ Hx) as [_ Hrows].
    rewrite (Hrows _ _ Erow).
    replace (is_forced (List.length x) failed_nodes k) with true;
      [reflexivity |].
    symmetry. unfold is_forced. apply existsb_exists. exists z.
    split; [exact Hz |]. unfold names_row, norm_index.
    replace ((0 <=? z)%Z && (z <? Z.of_nat (List.length x))%Z) with false
      by (symmetry; apply andb_false_iff; left; apply Z.leb_gt; lia).
    replace ((- Z.of_nat (List.length x) <=? z)%Z && (z <? 0)%Z) with true
      by (symmetry; apply andb_true_iff; split;
          [apply Z.leb_le | apply Z.ltb_lt]; lia).
    apply Nat.eqb_refl.
Qed.

Lemma negative_index_is_failed_but_not_flagged_witness :
  exists (rep : SimulationReport) (log' : list Call),
    run_simulation demo_predictor demo_x demo_edge_index demo_edge_weight
      [(-1)%Z] (Some demo_node_names) SUPPLY_CUT false [] = (log', Ok rep) /\
    Forall (fun z => (z < 0)%Z) [(-1)%Z] /\
    (forall r, In r (nodes rep) ->
       is_failed_source r = false /\
       risk_type (interpretation r) <> "FAILURE_SOURCE") /\
    exists x_sim,
      log' = ([] ++ [(demo_x, demo_edge_index, demo_edge_weight);
                     (x_sim, demo_edge_index, demo_edge_weight)])%list /\
      forall z, In z [(-1)%Z] ->
        exists row,
          nth_error demo_x (Z.to_nat (z + Z.of_nat (List.length demo_x)))
          = Some row /\
          nth_error x_sim (Z.to_nat (z + Z.of_nat (List.length demo_x)))
          = Some (list_set row 12 0.0).
Proof.
  destruct (demo_run_exists [(-1)%Z] SUPPLY_CUT false
              demo_request_with_negative_index) as [rep [log' Hrun]].
  assert (Hneg : Forall (fun z => (z < 0)%Z) [(-1)%Z])
    by (repeat constructor).
  exists rep, log'. split; [exact Hrun |]. split; [exact Hneg |].
  exact (negative_index_is_failed_but_not_flagged _ _ _ _ _ _ _ _ _ _ _
           Hrun Hneg).
Defined.
(** ** The text of the summary *)

Lemma summarize_interpretations_text (report : list NodeReport)
  (fm : FailureMode) (pm : bool) (text : string) :
  _summarize_interpretations report fm pm = Ok text ->
  (text = "No significant downstream impact detected."
   <-> summary_affected report = []).
Proof.
  unfold _summarize_interpretations.
  destruct (summary_affected report) as [| r0 rest].
  - intros H. inversion H. split; reflexivity.
  - intros H. split; [| discriminate]. intros Htext. exfalso.
    apply rbind_Ok_inv in H. destruct H as [[rc ac] [_ H]].
    assert (Hstart : exists t1 t2,
               text = mode_context fm ++ t1 \/
               text = (mode_context fm ++ t1) ++ t2).
    { destruct pm.
      - apply rbind_Ok_inv in H. destruct H as [n1 [_ H]].
        apply rbind_Ok_inv in H. destruct H as [n2 [_ H]].
        apply rbind_Ok_inv in H. destruct H as [n3 [_ H]].
        match type of H with
        | match ?a with [] => _ | _ :: _ => _ end = _ => destruct a
        end; inversion H.
        + eexists _, "". left. reflexivity.
        + eexists _, _. right. reflexivity.
      - inversion H. eexists _, "". left. reflexivity. }
    destruct Hstart as [t1 [t2 [Htail | Htail]]]; rewrite Htext in Htail;
      destruct fm; simpl in Htail; discriminate Htail.
Qed.

Lemma summary_affected_nil (report : list NodeReport) :
  summary_affected report = [] <->
  forall r, In r report -> is_failed_source r = false ->
            Rabs (delta r) <= 0.01.
Proof.
  unfold summary_affected. split.
  - intros H r Hr Hsrc.
    destruct (Rgtb (Rabs (delta r)) 0.01) eqn:E.
    + assert (Hin : In r (filter (fun r => Rgtb (Rabs (delta r)) 0.01
                                            && negb (is_failed_source r))
                                 report)).
      { apply filter_In. split; [exact Hr |]. rewrite E, Hsrc. reflexivity. }
      rewrite H in Hin. contradiction.
    + apply Rgtb_false in E. exact E.
  - intros H.
    destruct (filter _ report) as [| r rest] eqn:E; [reflexivity |].
    assert (Hin : In r (r :: rest)) by (left; reflexivity).
    rewrite <- E in Hin. apply filter_In in Hin. destruct Hin as [Hr Hc].
    apply andb_prop in Hc. destruct Hc as [Hd Hs].
    apply Rgtb_true in Hd. apply negb_true_iff in Hs.
    specialize (H r Hr Hs). lra.
Qed.

(** X9.  The interpretation summary of a run is the sentence
    "No significant downstream impact detected." exactly when no node other
    than the failed sources has a |delta| above 0.01; in every other case the
    text starts with the description of the failure mode. *)
Theorem summary_text_tells_no_impact (predictor : Predictor) (x : Matrix)
  (edge_index : EdgeIndex) (edge_weight : list R) (failed_nodes : list Z)
  (node_names : option (list string)) (failure_mode : FailureMode)
  (pessimistic_mode : bool) (log log' : list Call) (rep : SimulationReport) :
  run_simulation predictor x edge_index edge_weight failed_nodes node_names
    failure_mode pessimistic_mode log = (log', Ok rep) ->
  (interpretation_summary (summary rep)
   = "No significant downstream impact detected."
   <-> forall r, In r (nodes rep) -> is_failed_source r = false ->
                 Rabs (delta r) <= 0.01).
Proof.
  intros H. apply run_simulation_facts in H.
  destruct H as [bm [sm [base [sim [deltas [tws [x_sim F]]]]]]].
  rewrite (summarize_interpretations_text _ _ _ _ (rf_text F)).
  apply summary_affected_nil.
Qed.

Lemma summary_text_tells_no_impact_witness :
  exists (rep : SimulationReport) (log' : list Call),
    run_simulation demo_predictor demo_x demo_edge_index demo_edge_weight
      [0%Z] (Some demo_node_names) DEMAND_LOSS true [] = (log', Ok rep) /\
    (interpretation_summary (summary rep)
     = "No significant downstream impact detected."
     <-> forall r, In r (nodes rep) -> is_failed_source r = false ->
                   Rabs (delta r) <= 0.01).
Proof.
  destruct (demo_run_exists [0%Z] DEMAND_LOSS true demo_request_well_formed)
    as [rep [log' Hrun]].
  exists rep, log'. split; [exact Hrun |].
  exact (summary_text_tells_no_impact _ _ _ _ _ _ _ _ _ _ _ Hrun).
Defined.

(** ** The amplified deltas of a pessimistic report *)

Lemma pessimistic_delta_le_1 (d tw : R) :
  fst (_calculate_pessimistic_delta d tw) <= 1.
Proof.
  unfold _calculate_pessimistic_delta.
  destruct (Rgtb d 0) eqn:E; simpl.
  - unfold py_min. Rcases; lra.
  - apply Rgtb_false in E. lra.
Qed.

Lemma build_report_pessimistic_inv (base sim : list R)
  (edge_index : EdgeIndex) (edge_weight : list R) (num_nodes : nat)
  (names : list string) (failed_nodes : list Z) (failure_mode : FailureMode)
  (pessimistic_mode : bool) (rep : SimulationReport) :
  build_report base sim edge_index edge_weight num_nodes names failed_nodes
    failure_mode pessimistic_mode = Ok rep ->
  exists (deltas tws pds : list R) (entries : list NodeReport),
    np_sub sim base = Ok deltas /\
    _compute_topology_weights edge_index edge_weight num_nodes = Ok tws /\
    mapM (report_entry base sim deltas tws pds names failed_nodes failure_mode
            pessimistic_mode) (seq 0 num_nodes) = Ok entries /\
    Permutation entries (nodes rep) /\
    if pessimistic_mode
    then fill_pessimistic_deltas deltas tws num_nodes = Ok pds /\
         exists m, np_max pds = Ok m /\
                   max_pessimistic_delta (summary rep) = Some m
    else max_pessimistic_delta (summary rep) = None.
Proof.
  unfold build_report. intros H.
  apply rbind_Ok_inv in H. destruct H as [deltas [Hd H]].
  apply rbind_Ok_inv in H. destruct H as [tws [Ht H]].
  apply rbind_Ok_inv in H. destruct H as [pds [Hp H]].
  apply rbind_Ok_inv in H. destruct H as [entries [He H]].
  apply rbind_Ok_inv in H. destruct H as [fnames [Hf H]].
  apply rbind_Ok_inv in H. destruct H as [max_d [Hmax H]].
  apply rbind_Ok_inv in H. destruct H as [mean_d [Hmean H]].
  apply rbind_Ok_inv in H. destruct H as [max_p [Hmp H]].
  apply rbind_Ok_inv in H. destruct H as [text [Htext H]].
  inversion H; subst rep; clear H. simpl.
  exists deltas, tws, pds, entries.
  repeat (split; [assumption |]).
  split; [exact (list_sort_perm (fun r => Rabs (delta r)) true entries) |].
  destruct pessimistic_mode.
  - split; [exact Hp |].
    apply rbind_Ok_inv in Hmp. destruct Hmp as [m [Hm Hmp]].
    inversion Hmp. exists m. split; [exact Hm | reflexivity].
  - inversion Hmp. reflexivity.
Qed.

(** X10.  In pessimistic mode every entry of the report carries, as its
    top-level [pessimistic_delta], the amplification of its own delta under
    its node's topology weight.  This holds for the failed sources too, whose
    interpretation shows the sentinel 1.0 instead.  The summary's
    [max_pessimistic_delta] is the largest of these values, so it bounds them
    all, and it never exceeds 1.  In standard mode the summary has no
    [max_pessimistic_delta]. *)
Theorem pessimistic_report_fields (predictor : Predictor) (x : Matrix)
  (edge_index : EdgeIndex) (edge_weight : list R) (failed_nodes : list Z)
  (node_names : option (list string)) (failure_mode : FailureMode)
  (pessimistic_mode : bool) (log log' : list Call) (rep : SimulationReport) :
  run_simulation predictor x edge_index edge_weight failed_nodes node_names
    failure_mode pessimistic_mode log = (log', Ok rep) ->
  if pessimistic_mode
  then exists (tws : list R) (m : R),
         _compute_topology_weights edge_index edge_weight (List.length x)
         = Ok tws /\
         max_pessimistic_delta (summary rep) = Some m /\ m <= 1 /\
         (exists r, In r (nodes rep) /\ pessimistic_delta r = Some m) /\
         forall r, In r (nodes rep) ->
           exists tw,
             nth_error tws (node_id r) = Some tw /\
             pessimistic_delta r
             = Some (fst (_calculate_pessimistic_delta (delta r) tw)) /\
             fst (_calculate_pessimistic_delta (delta r) tw) <= m /\
             (is_failed_source r = true ->
              si_pessimistic_delta (interpretation r) = 1.0) /\
             (is_failed_source r = false ->
              si_pessimistic_delta (interpretation r)
              = fst (_calculate_pessimistic_delta (delta r) tw))
  else max_pessimistic_delta (summary rep) = None.
Proof.
  intros H. apply run_simulation_inv in H.
  destruct H as [bm [sm [base [sim [x_sim [_ [_ [_ [_ [_ [Hrep _]]]]]]]]]]].
  apply build_report_pessimistic_inv in Hrep.
  destruct Hrep as [deltas [tws [pds [entries [Hd [Ht [He [Hperm Hp]]]]]]]].
  destruct pessimistic_mode; [| exact Hp].
  destruct Hp as [Hfill [m [Hm Hmax]]].
  apply mapM_Ok_inv in He. apply mapM_Ok_inv in Hfill.
  destruct (np_max_Ok_inv _ _ Hm) as [Hin Hub].
  assert (Hpds : forall i p, nth_error pds i = Some p ->
            exists d tw, item deltas i = Ok d /\ item tws i = Ok tw /\
                         p = fst (_calculate_pessimistic_delta d tw)).
  { intros i p Hi.
    destruct (Forall2_nth_error_right _ _ _ _ _ Hfill Hi) as [j [Hj Hp]].
    assert (j = i).
    { assert (Hlt : (i < List.length (seq 0 (List.length x)))%nat)
        by (apply nth_error_Some; congruence).
      rewrite length_seq in Hlt.
      rewrite nth_error_nth' with (d := 0%nat) in Hj
        by (rewrite length_seq; exact Hlt).
      rewrite seq_nth in Hj by exact Hlt. inversion Hj. reflexivity. }
    subst j.
    apply rbind_Ok_inv in Hp. destruct Hp as [d [Hd' Hp]].
    apply rbind_Ok_inv in Hp. destruct Hp as [tw [Htw Hp]].
    inversion Hp. exists d, tw. repeat split; assumption. }
  assert (Hentry : forall r, In r (nodes rep) ->
            exists tw p,
              nth_error tws (node_id r) = Some tw /\
              nth_error pds (node_id r) = Some p /\
              p = fst (_calculate_pessimistic_delta (delta r) tw) /\
              pessimistic_delta r = Some p /\
              interpretation r
              = _interpret_delta (delta r) (node_name r)
                  (is_failed_source r) failure_mode tw true).
  { intros r Hr.
    apply (Permutation_in _ (Permutation_sym Hperm)) in Hr.
    destruct (Forall2_In_right _ _ _ _ He Hr) as [i [_ Hentry]].
    apply report_entry_inv in Hentry.
    destruct Hentry as [d [tw [name
      [Hid [Hit [_ [_ [_ [Hnid [Hname [Hdel [Hsrc [Hint [p [Hp Hpd]]]]]]]]]]]]]]].
    subst i d name. apply item_Ok_inv in Hp.
    destruct (Hpds _ _ Hp) as [d' [tw' [Hd' [Htw' Hpeq]]]].
    rewrite Hid in Hd'. inversion Hd'; subst d'.
    rewrite Hit in Htw'. inversion Htw'; subst tw'.
    exists tw, p. rewrite Hsrc.
    repeat (split; [assumption || (apply item_Ok_inv; assumption) |]).
    exact Hint. }
  exists tws, m. split; [exact Ht |]. split; [exact Hmax |]. split; [| split].
  - apply In_nth_error in Hin. destruct Hin as [i Hi].
    destruct (Hpds _ _ Hi) as [d [tw [_ [_ ->]]]].
    apply pessimistic_delta_le_1.
  - apply In_nth_error in Hin. destruct Hin as [i Hi].
    assert (Hlt : (i < List.length x)%nat).
    { apply Forall2_length in Hfill. rewrite length_seq in Hfill.
      rewrite Hfill. apply nth_error_Some. congruence. }
    destruct (Forall2_In_left _ _ _ i He) as [r [Hr Hri]];
      [apply in_seq; lia |].
    apply report_entry_inv in Hri.
    destruct Hri as [d [tw [name
      [_ [_ [_ [_ [_ [_ [_ [_ [_ [_ [p [Hp Hpd]]]]]]]]]]]]]]].
    apply item_Ok_inv in Hp. rewrite Hi in Hp. injection Hp as <-.
    exists r. split; [apply (Permutation_in _ Hperm); exact Hr | exact Hpd].
  - intros r Hr.
    destruct (Hentry r Hr) as [tw [p [Htw [Hp [Hpeq [Hpd Hint]]]]]].
    exists tw. split; [exact Htw |]. split; [rewrite Hpd, Hpeq; reflexivity |].
    split; [rewrite <- Hpeq; apply Hub; eapply nth_error_In; exact Hp |].
    split; intros Hsrc; rewrite Hint, Hsrc.
    + rewrite interpret_delta_source. reflexivity.
    + apply (interpret_delta_not_source (delta r) (node_name r) failure_mode
               tw true).
Qed.

Lemma pessimistic_report_fields_witness :
  exists (rep : SimulationReport) (log' : list Call),
    run_simulation demo_predictor demo_x demo_edge_index demo_edge_weight
      [0%Z] (Some demo_node_names) SUPPLY_CUT true [] = (log', Ok rep) /\
    exists (tws : list R) (m : R),
      _compute_topology_weights demo_edge_index demo_edge_weight
        (List.length demo_x) = Ok tws /\
      max_pessimistic_delta (summary rep) = Some m /\ m <= 1 /\
      (exists r, In r (nodes rep) /\ pessimistic_delta r = Some m) /\
      forall r, In r (nodes rep) ->
        exists tw,
          nth_error tws (node_id r) = Some tw /\
          pessimistic_delta r
          = Some (fst (_calculate_pessimistic_delta (delta r) tw)) /\
          fst (_calculate_pessimistic_delta (delta r) tw) <= m /\
          (is_failed_source r = true ->
           si_pessimistic_delta (interpretation r) = 1.0) /\
          (is_failed_source r = false ->
           si_pessimistic_delta (interpretation r)
           = fst (_calculate_pessimistic_delta (delta r) tw)).
Proof.
  destruct (demo_run_exists [0%Z] SUPPLY_CUT true demo_request_well_formed)
    as [rep [log' Hrun]].
  exists rep, log'. split; [exact Hrun |].
  exact (pessimistic_report_fields _ _ _ _ _ _ _ _ _ _ _ Hrun).
Defined.
(** ** Topology weights do not look at the direction of an edge *)

Lemma list_set_comm {A : Type} (l : list A) (i j : nat) (v w : A) :
  i <> j -> list_set (list_set l i v) j w = list_set (list_set l j w) i v.
Proof.
  revert i j. induction l as [| a l IH]; intros [| i] [| j] H; simpl;
    try reflexivity; try congruence.
  f_equal. apply IH. congruence.
Qed.

Lemma np_add_at_Ok_inv (a a' : list R) (z : Z) (w : R) :
  np_add_at a z w = Ok a' ->
  exists k old, norm_index (List.length a) z = Ok k /\
                nth_error a k = Some old /\ a' = list_set a k (old + w).
Proof.
  unfold np_add_at. intros H.
  apply rbind_Ok_inv in H. destruct H as [k [Hk H]].
  apply rbind_Ok_inv in H. destruct H as [old [Hold H]].
  inversion H. exists k, old.
  repeat split; [exact Hk | apply item_Ok_inv; exact Hold].
Qed.

Lemma np_add_at_raises (a : list R) (z : Z) (w : R) (e : exn) :
  np_add_at a z w = Raise e -> e = IndexError.
Proof.
  unfold np_add_at.
  destruct (norm_index (List.length a) z) as [k | e1] eqn:E1; simpl.
  - destruct (item a k) as [old | e2] eqn:E2; simpl; [discriminate |].
    intros H. inversion H; subst. eapply item_raises. exact E2.
  - intros H. inversion H; subst. eapply norm_index_raises. exact E1.
Qed.

Lemma np_add_at_defined (a : list R) (z : Z) (w : R) (k : nat) :
  norm_index (List.length a) z = Ok k ->
  np_add_at a z w = Ok (list_set a k (nth k a 0 + w)).
Proof.
  intros Hk. unfold np_add_at. rewrite Hk. simpl.
  apply norm_index_Ok_inv in Hk. destruct Hk as [Hk _].
  rewrite (item_Ok a k 0) by exact Hk. reflexivity.
Qed.

Lemma np_add_at_undefined (a : list R) (z : Z) (w : R) (e : exn) :
  norm_index (List.length a) z = Raise e ->
  np_add_at a z w = Raise IndexError.
Proof.
  intros Hk. unfold np_add_at. rewrite Hk. simpl.
  apply norm_index_raises in Hk. subst. reflexivity.
Qed.

(** Two additions into an array can be made in either order. *)
Lemma np_add_at_swap {B : Type} (a : list R) (i j : Z) (v w : R)
  (k : list R -> result B) :
  rbind (np_add_at a i v) (fun a1 => rbind (np_add_at a1 j w) k)
  = rbind (np_add_at a j w) (fun a1 => rbind (np_add_at a1 i v) k).
Proof.
  destruct (norm_index (List.length a) i) as [ki | ei] eqn:Ei;
    destruct (norm_index (List.length a) j) as [kj | ej] eqn:Ej.
  - rewrite (np_add_at_defined a i v ki Ei), (np_add_at_defined a j w kj Ej).
    simpl.
    rewrite (np_add_at_defined _ j w kj)
      by (rewrite length_list_set; exact Ej).
    rewrite (np_add_at_defined _ i v ki)
      by (rewrite length_list_set; exact Ei).
    simpl. f_equal.
    pose proof (norm_index_Ok_inv _ _ _ Ei) as [Hki _].
    pose proof (norm_index_Ok_inv _ _ _ Ej) as [Hkj _].
    rewrite !nth_list_set by assumption.
    destruct (Nat.eqb_spec kj ki) as [-> | Hne].
    + rewrite Nat.eqb_refl, !list_set_twice. f_equal. lra.
    + replace (ki =? kj)%nat with false
        by (symmetry; apply Nat.eqb_neq; congruence).
      apply list_set_comm. congruence.
  - rewrite (np_add_at_defined a i v ki Ei), (np_add_at_undefined a j w ej Ej).
    simpl.
    rewrite (np_add_at_undefined _ j w ej)
      by (rewrite length_list_set; exact Ej).
    reflexivity.
  - rewrite (np_add_at_undefined a i v ei Ei), (np_add_at_defined a j w kj Ej).
    simpl.
    rewrite (np_add_at_undefined _ i v ei)
      by (rewrite length_list_set; exact Ei).
    reflexivity.
  - rewrite (np_add_at_undefined a i v ei Ei), (np_add_at_undefined a j w ej Ej).
    reflexivity.
Qed.

Lemma accumulate_edges_reversed (edge_index : EdgeIndex)
  (edge_weight : list R) :
  forall (i : nat) (degree weight_sum : list R),
    accumulate_edges (map (fun e => (snd e, fst e)) edge_index) edge_weight i
      degree weight_sum
    = accumulate_edges edge_index edge_weight i degree weight_sum.
Proof.
  induction edge_index as [| [src dst] rest IH]; intros i degree weight_sum.
  - reflexivity.
  - simpl.
    set (w := if (i <? List.length edge_weight)%nat
              then nth i edge_weight 1.0 else 1.0).
    rewrite (np_add_at_swap degree dst src 1 1).
    destruct (np_add_at degree src 1) as [d1 | e]; [| reflexivity].
    rewrite !rbind_Ok; cbv beta.
    destruct (np_add_at d1 dst 1) as [d2 | e]; [| reflexivity].
    rewrite !rbind_Ok; cbv beta.
    rewrite (np_add_at_swap weight_sum dst src w w).
    destruct (np_add_at weight_sum src w) as [w1 | e]; [| reflexivity].
    rewrite !rbind_Ok; cbv beta.
    destruct (np_add_at w1 dst w) as [w2 | e]; [| reflexivity].
    rewrite !rbind_Ok; cbv beta. apply IH.
Qed.

(** X11.  The topology weights do not depend on the direction of the edges:
    turning every edge around, with the edge weights left in place, gives the
    same weights, or the same exception. *)
Theorem topology_weights_ignore_direction (edge_index : EdgeIndex)
  (edge_weight : list R) (num_nodes : nat) :
  _compute_topology_weights (map (fun e => (snd e, fst e)) edge_index)
    edge_weight num_nodes
  = _compute_topology_weights edge_index edge_weight num_nodes.
Proof.
  unfold _compute_topology_weights.
  rewrite accumulate_edges_reversed. reflexivity.
Qed.
(** ** Confidence grows with the size of the delta *)

(** X12.  The confidence of a delta depends on its absolute value only, and
    under a topology weight that is not negative a delta of larger absolute
    value never gets a smaller confidence. *)
Theorem confidence_even_and_monotone (d1 d2 tw : R) :
  0 <= tw -> Rabs d1 <= Rabs d2 ->
  _compute_confidence (- d1) tw = _compute_confidence d1 tw /\
  fst (_compute_confidence d1 tw) <= fst (_compute_confidence d2 tw).
Proof.
  intros Htw Hd. split.
  - unfold _compute_confidence. rewrite Rabs_Ropp. reflexivity.
  - unfold _compute_confidence. simpl fst.
    pose proof (Rabs_pos d1) as H1.
    unfold py_max, py_min. Rcases; nra.
Qed.

Lemma confidence_even_and_monotone_witness :
  0 <= 0.5 /\ Rabs 0.1 <= Rabs 0.2 /\
  _compute_confidence (- (0.1)) 0.5 = _compute_confidence 0.1 0.5 /\
  fst (_compute_confidence 0.1 0.5) <= fst (_compute_confidence 0.2 0.5).
Proof.
  assert (H1 : 0 <= 0.5) by lra.
  assert (H2 : Rabs 0.1 <= Rabs 0.2) by (rewrite !Rabs_pos_eq; lra).
  split; [exact H1 |]. split; [exact H2 |].
  exact (confidence_even_and_monotone 0.1 0.2 0.5 H1 H2).
Defined.

(** ** The alert threshold of the predictor *)

Lemma alerts_antitone (t1 t2 : R) (m : Matrix) :
  t1 <= t2 ->
  Forall2 (Forall2 Z.le)
    (map (map (fun p => if Rgeb p t2 then 1%Z else 0%Z)) m)
    (map (map (fun p => if Rgeb p t1 then 1%Z else 0%Z)) m).
Proof.
  intros Ht. induction m as [| row m IH]; simpl; constructor; [| exact IH].
  clear IH. induction row as [| p row IH]; simpl; constructor; [| exact IH].
  destruct (Rgeb p t2) eqn:E2; destruct (Rgeb p t1) eqn:E1; try lia.
  apply Rgeb_true in E2. apply Rgeb_false in E1. lra.
Qed.

(** X13.  The threshold of [predict_with_threshold] is a decision boundary
    only.  Whatever the threshold, the probabilities are those of [predict]
    and the risk level is the same; the alerts have the shape of the
    probabilities, flag exactly the probabilities that reach the threshold,
    and raising the threshold never turns an alert on. *)
Theorem threshold_changes_alerts_only (predictor : Predictor) (x : Matrix)
  (edge_index : EdgeIndex) (edge_weight : list R) (t1 t2 : R)
  (m : Matrix) (alerts : list (list Z)) (risk : string) :
  predict_with_threshold predictor x edge_index edge_weight t1
  = Ok (m, alerts, risk) ->
  predict predictor x edge_index edge_weight = Ok m /\
  alerts = map (map (fun p => if Rgeb p t1 then 1%Z else 0%Z)) m /\
  exists alerts',
    predict_with_threshold predictor x edge_index edge_weight t2
    = Ok (m, alerts', risk) /\
    (t1 <= t2 -> Forall2 (Forall2 Z.le) alerts' alerts).
Proof.
  unfold predict_with_threshold. intros H.
  apply rbind_Ok_inv in H. destruct H as [m' [Hm H]].
  apply rbind_Ok_inv in H. destruct H as [ip [Hip H]].
  apply rbind_Ok_inv in H. destruct H as [mx [Hmx H]].
  inversion H; subst m' alerts risk; clear H.
  split; [exact Hm |]. split; [reflexivity |].
  rewrite Hm. rbind_step. rewrite Hip. rbind_step. rewrite Hmx. rbind_step.
  eexists. split; [reflexivity |]. apply alerts_antitone.
Qed.

Lemma threshold_changes_alerts_only_witness :
  exists (m : Matrix) (alerts : list (list Z)) (risk : string),
    predict_with_threshold demo_predictor demo_x demo_edge_index
      demo_edge_weight 0.5 = Ok (m, alerts, risk) /\
    predict demo_predictor demo_x demo_edge_index demo_edge_weight = Ok m /\
    alerts = map (map (fun p => if Rgeb p 0.5 then 1%Z else 0%Z)) m /\
    exists alerts',
      predict_with_threshold demo_predictor demo_x demo_edge_index
        demo_edge_weight 0.7 = Ok (m, alerts', risk) /\
      (0.5 <= 0.7 -> Forall2 (Forall2 Z.le) alerts' alerts).
Proof.
  destruct (predict_with_threshold_total demo_predictor demo_x
              demo_edge_index demo_edge_weight 0.5
              (outage_predictor_well_shaped _))
    as [m [alerts [risk [col [E _]]]]]; [simpl; lia |].
  exists m, alerts, risk. split; [exact E |].
  exact (threshold_changes_alerts_only _ _ _ _ 0.5 0.7 _ _ _ E).
Defined.
(** * Further properties of the causal analyses *)

(** ** The predictor calls of an analysis *)

Lemma call_predict_log (predictor : Predictor) (x : Matrix)
  (edge_index : EdgeIndex) (edge_attr : list R) (log log' : list Call)
  (r : result Matrix) :
  call_predict predictor x edge_index edge_attr log = (log', r) ->
  log' = (log ++ [(x, edge_index, edge_attr)])%list /\
  r = predict predictor x edge_index edge_attr.
Proof. unfold call_predict. intros H. inversion H. split; reflexivity. Qed.

Lemma smapM_calls {A B : Type} (f : A -> Sim B) (call : A -> Call -> Prop) :
  (forall a log log' b, f a log = (log', Ok b) ->
     exists c, call a c /\ log' = (log ++ [c])%list) ->
  forall (l : list A) (log log' : list Call) (bs : list B),
    smapM f l log = (log', Ok bs) ->
    exists cs, Forall2 call l cs /\ log' = (log ++ cs)%list /\
               Forall2 (fun a b => exists l1 l2, f a l1 = (l2, Ok b)) l bs.
Proof.
  intros Hf. induction l as [| a l IH]; intros log log' bs H; simpl in H.
  - apply sret_Ok_inv in H. destruct H as [<- ->].
    exists []. rewrite app_nil_r. repeat split; constructor.
  - apply sbind_Ok_inv in H. destruct H as [b [log1 [Hb H]]].
    apply sbind_Ok_inv in H. destruct H as [bs' [log2 [Hbs H]]].
    apply sret_Ok_inv in H. destruct H as [<- ->].
    destruct (Hf _ _ _ _ Hb) as [c [Hc ->]].
    destruct (IH _ _ _ Hbs) as [cs [Hcs [-> Hall]]].
    exists (c :: cs). split; [constructor; assumption |].
    split; [rewrite <- app_assoc; reflexivity |].
    constructor; [exists log, (log ++ [c])%list; exact Hb | exact Hall].
Qed.

Lemma mask_out_Ok_inv {A : Type} (n k : nat) (a a' : list A) :
  mask_out n k a = Ok a' -> List.length a = n /\ a' = drop_nth k a.
Proof.
  unfold mask_out. destruct (Nat.eqb_spec (List.length a) n) as [E | E];
    intros H; inversion H. split; [exact E | reflexivity].
Qed.

Lemma occlude_edge_call (predictor : Predictor) (x : Matrix)
  (edge_index : EdgeIndex) (edge_attr : list R) (target : Z) (bi : R)
  (edge : nat * (Z * Z)) (log log' : list Call) (r : EdgeOcclusion) :
  occlude_edge predictor x edge_index edge_attr target bi edge log
  = (log', Ok r) ->
  exists c,
    (c = (x, drop_nth (fst edge) edge_index, drop_nth (fst edge) edge_attr) /\
     List.length edge_attr = List.length edge_index) /\
    log' = (log ++ [c])%list.
Proof.
  unfold occlude_edge. destruct edge as [k [src dst]]. intros H.
  apply sbind_Ok_inv in H. destruct H as [attr [l1 [H1 H]]].
  apply lift_Ok_inv in H1. destruct H1 as [H1 ->].
  apply mask_out_Ok_inv in H1. destruct H1 as [Hlen ->].
  apply sbind_Ok_inv in H. destruct H as [pred [l2 [Hp H]]].
  apply call_predict_log in Hp. destruct Hp as [-> _].
  apply sbind_Ok_inv in H. destruct H as [oi [l3 [Hi H]]].
  apply lift_Ok_inv in Hi. destruct Hi as [Hi ->].
  apply sbind_Ok_inv in H. destruct H as [st [l4 [Hs H]]].
  apply lift_Ok_inv in Hs. destruct Hs as [Hs ->].
  apply sbind_Ok_inv in H. destruct H as [w [l5 [Hw H]]].
  apply lift_Ok_inv in Hw. destruct Hw as [Hw ->].
  apply sret_Ok_inv in H. destruct H as [_ ->].
  eexists. split; [split; [reflexivity | exact Hlen] | reflexivity].
Qed.

(** X14.  An edge-occlusion analysis that returns has called the predictor
    once on the graph as given and then once for each edge that ends at the
    target, in the order of the edge list, each time on the graph without
    that one edge and its weight (the other edges keeping their order).  It
    returns one result per such edge, none at all for a target without
    incoming edges; with an incoming edge, the call can only succeed when
    there is one weight per edge. *)
Theorem edge_occlusion_calls (predictor : Predictor) (x : Matrix)
  (edge_index : EdgeIndex) (edge_attr : list R) (target : Z)
  (log log' : list Call) (results : list EdgeOcclusion) :
  edge_occlusion_analysis predictor x edge_index edge_attr target log
  = (log', Ok results) ->
  let incoming := incoming_edges_of edge_index target in
  log' = (log ++ (x, edge_index, edge_attr)
              :: map (fun e => (x, drop_nth (fst e) edge_index,
                                drop_nth (fst e) edge_attr)) incoming)%list /\
  Permutation (map fst incoming) (map edge_idx results) /\
  List.length results = List.length incoming /\
  (incoming <> [] -> List.length edge_attr = List.length edge_index).
Proof.
  cbv zeta. unfold edge_occlusion_analysis. intros H.
  apply sbind_Ok_inv in H. destruct H as [bp [l1 [Hp H]]].
  apply call_predict_log in Hp. destruct Hp as [-> _].
  apply sbind_Ok_inv in H. destruct H as [bi [l2 [Hi H]]].
  apply lift_Ok_inv in Hi. destruct Hi as [Hi ->].
  destruct (incoming_edges_of edge_index target) as [| e es] eqn:En.
  - apply sret_Ok_inv in H. destruct H as [<- ->].
    simpl. repeat split; try constructor. intros Hne. contradiction.
  - apply sbind_Ok_inv in H. destruct H as [rs [l3 [Hrs H]]].
    apply sbind_Ok_inv in H. destruct H as [first [l4 [Hf H]]].
    apply lift_Ok_inv in Hf. destruct Hf as [_ ->].
    apply sret_Ok_inv in H. destruct H as [<- ->].
    apply (smapM_calls _
             (fun e c =>
                c = (x, drop_nth (fst e) edge_index,
                     drop_nth (fst e) edge_attr) /\
                List.length edge_attr = List.length edge_index)) in Hrs;
      [| intros a la lb b Hab; eapply occlude_edge_call; exact Hab].
    destruct Hrs as [cs [Hcs [-> Hall]]].
    assert (Hmap : cs = map (fun e => (x, drop_nth (fst e) edge_index,
                                       drop_nth (fst e) edge_attr))
                            (e :: es)).
    { clear - Hcs. induction Hcs as [| a c l cs [Hc _] _ IH]; simpl.
      - reflexivity.
      - rewrite Hc, IH. reflexivity. }
    assert (Hids : map fst (e :: es) = map edge_idx rs).
    { clear - Hall. induction Hall as [| a b l bs [la [lb Hab]] _ IH]; simpl.
      - reflexivity.
      - apply occlude_edge_inv in Hab. destruct Hab as [Hidx _].
        rewrite Hidx, IH. reflexivity. }
    split; [rewrite <- app_assoc, Hmap; reflexivity |].
    split; [| split].
    + rewrite Hids. apply Permutation_map.
      exact (list_sort_perm edge_causal_effect false rs).
    + rewrite <- (Permutation_length
                    (list_sort_perm edge_causal_effect false rs)).
      symmetry. eapply Forall2_length. exact Hall.
    + intros _. inversion Hcs as [| a c l cs' [_ Hlen] _]. exact Hlen.
Qed.

Lemma edge_occlusion_calls_witness :
  exists (results : list EdgeOcclusion) (log' : list Call),
    edge_occlusion_analysis demo_predictor causal_x causal_edge_index
      causal_edge_weights 2 [] = (log', Ok results) /\
    let incoming := incoming_edges_of causal_edge_index 2 in
    log' = ([] ++ (causal_x, causal_edge_index, causal_edge_weights)
               :: map (fun e => (causal_x, drop_nth (fst e) causal_edge_index,
                                 drop_nth (fst e) causal_edge_weights))
                      incoming)%list /\
    Permutation (map fst incoming) (map edge_idx results) /\
    List.length results = List.length incoming /\
    (incoming <> [] ->
     List.length causal_edge_weights = List.length causal_edge_index).
Proof.
  destruct (edge_occlusion_analysis_total demo_predictor causal_x
              causal_edge_index causal_edge_weights 2 []
              (outage_predictor_well_shaped _)
              (causal_analysis_well_formed 2 ltac:(lia)) eq_refl)
    as [results [log' He]].
  exists results, log'. split; [exact He |].
  exact (edge_occlusion_calls _ _ _ _ _ _ _ _ He).
Defined.

Lemma np_set2_nonneg_column (m m' : Matrix) (z j : Z) (v : R) :
  (0 <= j)%Z ->
  np_set2 m z j v = Ok m' ->
  exists (k : nat) (row : list R),
    norm_index (List.length m) z = Ok k /\ nth_error m k = Some row /\
    (Z.to_nat j < List.length row)%nat /\
    m' = list_set m k (list_set row (Z.to_nat j) v).
Proof.
  intros Hj H. apply np_set2_Ok_inv in H.
  destruct H as [k [row [kj [Hk [Hrow [Hkj ->]]]]]].
  pose proof (norm_index_Ok_inv _ _ _ Hkj) as [Hlt _].
  apply norm_index_nonneg in Hkj; [| exact Hj]. subst kj.
  exists k, row. repeat split; assumption.
Qed.

(** Three writes into the columns of one row. *)
Lemma set_three_features (x x3 : Matrix) (node : Z) (a b c : R) :
  (x1 <- np_set2 x node 15 a ;;
   x2 <- np_set2 x1 node 13 b ;;
   np_set2 x2 node 14 c) = Ok x3 ->
  exists (k : nat) (row : list R),
    norm_index (List.length x) node = Ok k /\ nth_error x k = Some row /\
    (15 < List.length row)%nat /\
    x3 = list_set x k (list_set (list_set (list_set row 15 a) 13 b) 14 c).
Proof.
  intros H.
  apply rbind_Ok_inv in H. destruct H as [x1 [H1 H]].
  apply rbind_Ok_inv in H. destruct H as [x2 [H2 H3]].
  apply np_set2_nonneg_column in H1; [| lia].
  destruct H1 as [k [row [Hk [Hrow [Hlen ->]]]]].
  change (Z.to_nat 15) with 15%nat in *.
  pose proof (norm_index_Ok_inv _ _ _ Hk) as [Hklt _].
  apply np_set2_nonneg_column in H2; [| lia].
  destruct H2 as [k2 [row2 [Hk2 [Hrow2 [_ ->]]]]].
  change (Z.to_nat 13) with 13%nat in *.
  rewrite length_list_set, Hk in Hk2. injection Hk2 as <-.
  rewrite nth_error_list_set, Nat.eqb_refl, Hrow in Hrow2.
  injection Hrow2 as <-.
  apply np_set2_nonneg_column in H3; [| lia].
  destruct H3 as [k3 [row3 [Hk3 [Hrow3 [_ ->]]]]].
  change (Z.to_nat 14) with 14%nat in *.
  rewrite !length_list_set, Hk in Hk3. injection Hk3 as <-.
  rewrite nth_error_list_set, Nat.eqb_refl in Hrow3.
  rewrite nth_error_list_set, Nat.eqb_refl, Hrow in Hrow3.
  injection Hrow3 as <-.
  exists k, row. repeat split; try assumption.
  rewrite !list_set_twice. reflexivity.
Qed.

(** X15.  A counterfactual analysis that returns has called the predictor
    exactly twice with the same edges and weights: on the features as given
    and on the features of the repair.  The repair changes one row only, the
    one of the failed node, and there only the level, the flow and the
    status (columns 13, 14 and 15), which become 0.8, 0.7 and 0.9.  The
    benefit is the current impact minus the repaired impact. *)
Theorem counterfactual_repairs_one_node (predictor : Predictor) (x : Matrix)
  (edge_index : EdgeIndex) (edge_attr : list R) (target failed : Z)
  (log log' : list Call) (cf : Counterfactual) :
  counterfactual_analysis predictor x edge_index edge_attr target failed log
  = (log', Ok cf) ->
  benefit cf = current_impact cf - repaired_impact cf /\
  exists (k : nat) (row : list R),
    norm_index (List.length x) failed = Ok k /\
    nth_error x k = Some row /\ (15 < List.length row)%nat /\
    log' = (log ++ [(x, edge_index, edge_attr);
                    (list_set x k
                       (list_set (list_set (list_set row 15 0.9) 13 0.8)
                          14 0.7),
                     edge_index, edge_attr)])%list.
Proof.
  unfold counterfactual_analysis. intros H.
  apply sbind_Ok_inv in H. destruct H as [cp [l1 [Hp H]]].
  apply call_predict_log in Hp. destruct Hp as [-> _].
  apply sbind_Ok_inv in H. destruct H as [ci [l2 [Hi H]]].
  apply lift_Ok_inv in Hi. destruct Hi as [Hi ->].
  apply sbind_Ok_inv in H. destruct H as [x1 [l3 [H1 H]]].
  apply lift_Ok_inv in H1. destruct H1 as [H1 ->].
  apply sbind_Ok_inv in H. destruct H as [x2 [l4 [H2 H]]].
  apply lift_Ok_inv in H2. destruct H2 as [H2 ->].
  apply sbind_Ok_inv in H. destruct H as [x3 [l5 [H3 H]]].
  apply lift_Ok_inv in H3. destruct H3 as [H3 ->].
  apply sbind_Ok_inv in H. destruct H as [rp [l6 [Hrp H]]].
  apply call_predict_log in Hrp. destruct Hrp as [-> _].
  apply sbind_Ok_inv in H. destruct H as [ri [l7 [Hri H]]].
  apply lift_Ok_inv in Hri. destruct Hri as [Hri ->].
  apply sret_Ok_inv in H. destruct H as [<- ->]. simpl.
  split; [reflexivity |].
  destruct (set_three_features x x3 failed 0.9 0.8 0.7)
    as [k [row [Hk [Hrow [Hlen ->]]]]].
  { rewrite H1. rbind_step. rewrite H2. rbind_step. exact H3. }
  exists k, row. repeat (split; [assumption |]).
  rewrite <- app_assoc. reflexivity.
Qed.

Lemma counterfactual_repairs_one_node_witness :
  exists (cf : Counterfactual) (log' : list Call),
    counterfactual_analysis demo_predictor causal_x causal_edge_index
      causal_edge_weights 2 0 [] = (log', Ok cf) /\
    benefit cf = current_impact cf - repaired_impact cf /\
    exists (k : nat) (row : list R),
      norm_index (List.length causal_x) 0 = Ok k /\
      nth_error causal_x k = Some row /\ (15 < List.length row)%nat /\
      log' = ([] ++ [(causal_x, causal_edge_index, causal_edge_weights);
                     (list_set causal_x k
                        (list_set (list_set (list_set row 15 0.9) 13 0.8)
                           14 0.7),
                      causal_edge_index, causal_edge_weights)])%list.
Proof.
  destruct (counterfactual_analysis_total demo_predictor causal_x
              causal_edge_index causal_edge_weights 2 0 []
              (outage_predictor_well_shaped _)
              (causal_analysis_well_formed 2 ltac:(lia)) ltac:(simpl; lia))
    as [cf [log' Hc]].
  exists cf, log'. split; [exact Hc |].
  exact (counterfactual_repairs_one_node _ _ _ _ _ _ _ _ _ Hc).
Defined.
Lemma perturb_neighbor_call (predictor : Predictor) (x : Matrix)
  (edge_index : EdgeIndex) (edge_attr : list R) (target : Z) (bi : R)
  (neighbor : Z) (log log' : list Call) (r : NodePerturbation) :
  perturb_neighbor predictor x edge_index edge_attr target bi neighbor log
  = (log', Ok r) ->
  exists c,
    (exists (k : nat) (row : list R),
        norm_index (List.length x) neighbor = Ok k /\
        nth_error x k = Some row /\
        c = (list_set x k
               (list_set (list_set (list_set row 15 0.0) 13 0.0) 14 0.0),
             edge_index, edge_attr)) /\
    log' = (log ++ [c])%list.
Proof.
  unfold perturb_neighbor. intros H.
  apply sbind_Ok_inv in H. destruct H as [x1 [l1 [H1 H]]].
  apply lift_Ok_inv in H1. destruct H1 as [H1 ->].
  apply sbind_Ok_inv in H. destruct H as [x2 [l2 [H2 H]]].
  apply lift_Ok_inv in H2. destruct H2 as [H2 ->].
  apply sbind_Ok_inv in H. destruct H as [x3 [l3 [H3 H]]].
  apply lift_Ok_inv in H3. destruct H3 as [H3 ->].
  apply sbind_Ok_inv in H. destruct H as [pred [l4 [Hp H]]].
  apply call_predict_log in Hp. destruct Hp as [-> _].
  apply sbind_Ok_inv in H. destruct H as [pi [l5 [Hi H]]].
  apply lift_Ok_inv in Hi. destruct Hi as [Hi ->].
  apply sbind_Ok_inv in H. destruct H as [nt [l6 [Hn H]]].
  apply lift_Ok_inv in Hn. destruct Hn as [Hn ->].
  apply sret_Ok_inv in H. destruct H as [_ ->].
  destruct (set_three_features x x3 neighbor 0.0 0.0 0.0)
    as [k [row [Hk [Hrow [_ ->]]]]].
  { rewrite H1. rbind_step. rewrite H2. rbind_step. exact H3. }
  eexists. split; [| reflexivity]. exists k, row. repeat split; assumption.
Qed.

(** X16.  A node-perturbation analysis that returns has called the
    predictor once on the graph as given and then once for each upstream
    neighbour of the target, in the order in which the set of neighbours is
    listed, with the edges and weights unchanged.  The features of such a
    call differ from the given ones in the neighbour's row only, where
    status, level and flow (columns 15, 13 and 14) are 0.  There is one
    result per neighbour. *)
Theorem node_perturbation_calls (list_of_set : list Z -> list Z)
  (predictor : Predictor) (x : Matrix) (edge_index : EdgeIndex)
  (edge_attr : list R) (target : Z) (log log' : list Call)
  (results : list NodePerturbation) :
  node_perturbation_analysis list_of_set predictor x edge_index edge_attr
    target log = (log', Ok results) ->
  let neighbors :=
    list_of_set (map (fun '(_, (src, _)) => src)
                     (incoming_edges_of edge_index target)) in
  exists perturbed : list Matrix,
    Forall2 (fun nb xp =>
               exists (k : nat) (row : list R),
                 norm_index (List.length x) nb = Ok k /\
                 nth_error x k = Some row /\
                 xp = list_set x k
                        (list_set (list_set (list_set row 15 0.0) 13 0.0)
                           14 0.0))
            neighbors perturbed /\
    log' = (log ++ (x, edge_index, edge_attr)
                :: map (fun xp => (xp, edge_index, edge_attr)) perturbed)%list /\
    Permutation neighbors (map neighbor_idx results).
Proof.
  cbv zeta. unfold node_perturbation_analysis. intros H.
  apply sbind_Ok_inv in H. destruct H as [bp [l1 [Hp H]]].
  apply call_predict_log in Hp. destruct Hp as [-> _].
  apply sbind_Ok_inv in H. destruct H as [bi [l2 [Hi H]]].
  apply lift_Ok_inv in Hi. destruct Hi as [Hi ->].
  destruct (list_of_set _) as [| n ns] eqn:En.
  - apply sret_Ok_inv in H. destruct H as [<- ->].
    exists []. repeat split; constructor.
  - apply sbind_Ok_inv in H. destruct H as [rs [l3 [Hrs H]]].
    apply sbind_Ok_inv in H. destruct H as [first [l4 [Hf H]]].
    apply lift_Ok_inv in Hf. destruct Hf as [_ ->].
    apply sret_Ok_inv in H. destruct H as [<- ->].
    apply (smapM_calls _
             (fun nb c =>
                exists (k : nat) (row : list R),
                  norm_index (List.length x) nb = Ok k /\
                  nth_error x k = Some row /\
                  c = (list_set x k
                         (list_set (list_set (list_set row 15 0.0) 13 0.0)
                            14 0.0),
                       edge_index, edge_attr))) in Hrs;
      [| intros a la lb b Hab; eapply perturb_neighbor_call; exact Hab].
    destruct Hrs as [cs [Hcs [-> Hall]]].
    exists (map (fun c => fst (fst c)) cs). split; [| split].
    + clear - Hcs.
      induction Hcs as [| a c l cs [k [row [Hk [Hrow ->]]]] _ IH]; simpl;
        constructor; [| exact IH].
      exists k, row. repeat split; assumption.
    + rewrite <- app_assoc. simpl. do 2 f_equal.
      clear - Hcs.
      induction Hcs as [| a c l cs [k [row [Hk [Hrow ->]]]] _ IH]; simpl.
      * reflexivity.
      * f_equal. exact IH.
    + assert (Hids : n :: ns = map neighbor_idx rs).
      { clear - Hall.
        induction Hall as [| a b l bs [la [lb Hab]] _ IH]; simpl.
        - reflexivity.
        - apply perturb_neighbor_inv in Hab. destruct Hab as [Hidx _].
          rewrite Hidx, IH. reflexivity. }
      rewrite Hids. apply Permutation_map.
      exact (list_sort_perm (fun r => Rabs (causal_effect r)) true rs).
Qed.

Lemma node_perturbation_calls_witness :
  exists (results : list NodePerturbation) (log' : list Call),
    node_perturbation_analysis (nodup Z.eq_dec) demo_predictor causal_x
      causal_edge_index causal_edge_weights 2 [] = (log', Ok results) /\
    let neighbors :=
      nodup Z.eq_dec (map (fun '(_, (src, _)) => src)
                          (incoming_edges_of causal_edge_index 2)) in
    exists perturbed : list Matrix,
      Forall2 (fun nb xp =>
                 exists (k : nat) (row : list R),
                   norm_index (List.length causal_x) nb = Ok k /\
                   nth_error causal_x k = Some row /\
                   xp = list_set causal_x k
                          (list_set (list_set (list_set row 15 0.0) 13 0.0)
                             14 0.0))
              neighbors perturbed /\
      log' = ([] ++ (causal_x, causal_edge_index, causal_edge_weights)
                 :: map (fun xp => (xp, causal_edge_index,
                                    causal_edge_weights)) perturbed)%list /\
      Permutation neighbors (map neighbor_idx results).
Proof.
  destruct (node_perturbation_analysis_total (nodup Z.eq_dec) demo_predictor
              causal_x causal_edge_index causal_edge_weights 2 []
              nodup_subset (outage_predictor_well_shaped _)
              (causal_analysis_well_formed 2 ltac:(lia)))
    as [results [log' Hn]].
  exists results, log'. split; [exact Hn |].
  exact (node_perturbation_calls _ _ _ _ _ _ _ _ _ Hn).
Defined.

(** ** A target that is not a node of the graph *)

(** X17.  With a predictor that answers with one row per node, each of the
    three analyses, asked about a target index below [-N] or at least [N]
    (with [N] the number of nodes), stops with [IndexError], and it does so
    after the baseline predictor call and before any other call. *)
Theorem causal_target_out_of_range (list_of_set : list Z -> list Z)
  (predictor : Predictor) (x : Matrix) (edge_index : EdgeIndex)
  (edge_attr : list R) (target failed : Z) (log : list Call) :
  well_shaped predictor ->
  (target < - Z.of_nat (List.length x) \/ Z.of_nat (List.length x) <= target)%Z ->
  node_perturbation_analysis list_of_set predictor x edge_index edge_attr
    target log
  = ((log ++ [(x, edge_index, edge_attr)])%list, Raise IndexError) /\
  edge_occlusion_analysis predictor x edge_index edge_attr target log
  = ((log ++ [(x, edge_index, edge_attr)])%list, Raise IndexError) /\
  counterfactual_analysis predictor x edge_index edge_attr target failed log
  = ((log ++ [(x, edge_index, edge_attr)])%list, Raise IndexError).
Proof.
  intros Hp Ht.
  destruct (Hp x edge_index edge_attr) as [m [Em [Lm _]]].
  assert (Himpact : target_impact m target = Raise IndexError).
  { unfold target_impact, py_get.
    rewrite norm_index_out_of_range by (rewrite Lm; exact Ht). reflexivity. }
  unfold node_perturbation_analysis, edge_occlusion_analysis,
    counterfactual_analysis, sbind, call_predict, lift.
  rewrite Em, Himpact. repeat split.
Qed.

Lemma causal_target_out_of_range_witness :
  well_shaped demo_predictor /\
  (7 < - Z.of_nat (List.length causal_x)
   \/ Z.of_nat (List.length causal_x) <= 7)%Z /\
  node_perturbation_analysis (nodup Z.eq_dec) demo_predictor causal_x
    causal_edge_index causal_edge_weights 7 []
  = (([] ++ [(causal_x, causal_edge_index, causal_edge_weights)])%list,
     Raise IndexError) /\
  edge_occlusion_analysis demo_predictor causal_x causal_edge_index
    causal_edge_weights 7 []
  = (([] ++ [(causal_x, causal_edge_index, causal_edge_weights)])%list,
     Raise IndexError) /\
  counterfactual_analysis demo_predictor causal_x causal_edge_index
    causal_edge_weights 7 0 []
  = (([] ++ [(causal_x, causal_edge_index, causal_edge_weights)])%list,
     Raise IndexError).
Proof.
  assert (H1 : well_shaped demo_predictor)
    by apply outage_predictor_well_shaped.
  assert (H2 : (7 < - Z.of_nat (List.length causal_x)
                \/ Z.of_nat (List.length causal_x) <= 7)%Z)
    by (right; simpl; lia).
  split; [exact H1 |]. split; [exact H2 |].
  exact (causal_target_out_of_range (nodup Z.eq_dec) demo_predictor causal_x
           causal_edge_index causal_edge_weights 7 0 [] H1 H2).
Defined.
(** * Properties of the impact predictor panel *)

(** ** Impact scores *)

Lemma amplify_risk_positive (d tw : R) :
  0 < d -> amplify_risk d tw = Rmin (pow_half d * 2.5 * tw) 1.0.
Proof.
  intros Hd. unfold amplify_risk.
  replace (Rgtb d 0) with true by (symmetry; apply Rgtb_true; exact Hd).
  cbv zeta. rewrite py_min_Rmin. reflexivity.
Qed.

Lemma amplify_risk_nonpositive (d tw : R) :
  d <= 0 -> amplify_risk d tw = d * 0.1.
Proof.
  intros Hd. unfold amplify_risk.
  replace (Rgtb d 0) with false by (symmetry; apply Rgtb_false; exact Hd).
  reflexivity.
Qed.

Lemma amplify_risk_le_1 (d tw : R) : amplify_risk d tw <= 1.
Proof.
  destruct (Rle_lt_dec d 0) as [Hd | Hd].
  - rewrite amplify_risk_nonpositive by exact Hd. lra.
  - rewrite amplify_risk_positive by exact Hd.
    eapply Rle_trans; [apply Rmin_r | lra].
Qed.

Lemma amplify_risk_monotone (d1 d2 tw : R) :
  0 <= tw -> d1 <= d2 -> amplify_risk d1 tw <= amplify_risk d2 tw.
Proof.
  intros Htw Hd.
  destruct (Rle_lt_dec d2 0) as [H2 | H2].
  - rewrite !amplify_risk_nonpositive by lra. lra.
  - rewrite (amplify_risk_positive d2) by exact H2.
    assert (Hp2 : 0 <= pow_half d2 * 2.5 * tw).
    { pose proof (pow_half_nonneg d2). nra. }
    destruct (Rle_lt_dec d1 0) as [H1 | H1].
    + rewrite amplify_risk_nonpositive by exact H1.
      apply Rmin_glb; lra.
    + rewrite (amplify_risk_positive d1) by exact H1.
      apply Rle_min_compat_r.
      pose proof (pow_half_mono d1 d2) as Hm.
      assert (pow_half d1 <= pow_half d2) by (apply Hm; lra).
      nra.
Qed.

(** X18.  The amplified score of the panel never exceeds 1, whatever the
    weight.  A delta that is not positive gets a tenth of the delta, a score
    that is not positive; a positive delta gets its square root times 2.5
    times the weight, cut at 1.  Under a weight that is not negative the
    score of a positive delta is not negative, and a larger delta never gets a
    smaller score. *)
Theorem amplify_risk_bounded_and_monotone (d1 d2 tw : R) :
  amplify_risk d1 tw <= 1 /\
  (d1 <= 0 -> amplify_risk d1 tw = d1 * 0.1 /\ amplify_risk d1 tw <= 0) /\
  (0 < d1 -> amplify_risk d1 tw = Rmin (pow_half d1 * 2.5 * tw) 1.0) /\
  (0 <= tw -> 0 < d1 -> 0 <= amplify_risk d1 tw) /\
  (0 <= tw -> d1 <= d2 -> amplify_risk d1 tw <= amplify_risk d2 tw).
Proof.
  split; [apply amplify_risk_le_1 |].
  split; [intros H1; rewrite amplify_risk_nonpositive by exact H1;
          split; [reflexivity | lra] |].
  split; [apply amplify_risk_positive |].
  split; [| apply amplify_risk_monotone].
  intros Htw H1. rewrite amplify_risk_positive by exact H1.
  pose proof (pow_half_nonneg d1). apply Rmin_glb; nra.
Qed.

(** The theorem for the deltas 0.04 and 0.25 under the weight 0.8: the
    scores are 0.4 and 1. *)
Lemma amplify_risk_bounded_and_monotone_witness :
  amplify_risk 0.04 0.8 = 0.4 /\ amplify_risk 0.25 0.8 = 1 /\
  amplify_risk 0.04 0.8 <= 1 /\
  0 <= amplify_risk 0.04 0.8 /\
  amplify_risk 0.04 0.8 <= amplify_risk 0.25 0.8.
Proof.
  destruct (amplify_risk_bounded_and_monotone 0.04 0.25 0.8)
    as [Hle [_ [Hpos [Hnonneg Hmono]]]].
  destruct (amplify_risk_bounded_and_monotone 0.25 0.25 0.8)
    as [_ [_ [Hpos' _]]].
  assert (Htw : 0 <= 0.8) by lra.
  assert (H1 : 0 < 0.04) by lra.
  assert (H2 : 0 < 0.25) by lra.
  assert (H12 : 0.04 <= 0.25) by lra.
  assert (S1 : pow_half 0.04 = 0.2).
  { replace 0.04 with (0.2 * 0.2) by lra. apply pow_half_square; lra. }
  assert (S2 : pow_half 0.25 = 0.5).
  { replace 0.25 with (0.5 * 0.5) by lra. apply pow_half_square; lra. }
  split; [rewrite (Hpos H1), S1; unfold Rmin;
          destruct (Rle_dec _ _); lra |].
  split; [rewrite (Hpos' H2), S2; unfold Rmin;
          destruct (Rle_dec _ _); lra |].
  split; [exact Hle |].
  split; [exact (Hnonneg Htw H1) | exact (Hmono Htw H12)].
Defined.

Lemma severity_level_cases (score : R) :
  (score < 0.1 /\ get_severity_level score = "low") \/
  (0.1 <= score < 0.3 /\ get_severity_level score = "medium") \/
  (0.3 <= score < 0.6 /\ get_severity_level score = "high") \/
  (0.6 <= score /\ get_severity_level score = "critical").
Proof.
  unfold get_severity_level. Rcases; intuition lra.
Qed.

(** X19.  The severity level of a score is "low" below 0.1, "medium" from 0.1,
    "high" from 0.3 and "critical" from 0.6, so every score has one of the
    four levels, and a larger score never has a lower level. *)
Theorem severity_level_monotone (s1 s2 : R) :
  s1 <= s2 ->
  (severity_rank (get_severity_level s1)
   <= severity_rank (get_severity_level s2))%nat /\
  In (get_severity_level s1) ["low"; "medium"; "high"; "critical"] /\
  (get_severity_level s1 = "low" <-> s1 < 0.1) /\
  (get_severity_level s1 = "medium" <-> 0.1 <= s1 < 0.3) /\
  (get_severity_level s1 = "high" <-> 0.3 <= s1 < 0.6) /\
  (get_severity_level s1 = "critical" <-> 0.6 <= s1).
Proof.
  intros H.
  destruct (severity_level_cases s1) as [[A ->] | [[A ->] | [[A ->] | [A ->]]]];
    destruct (severity_level_cases s2)
      as [[B ->] | [[B ->] | [[B ->] | [B ->]]]];
    try (exfalso; lra);
    (split; [vm_compute; lia |]); (split; [simpl; auto 6 |]);
    repeat split; intros; try discriminate; try reflexivity; try lra.
Qed.

Lemma severity_level_monotone_witness :
  0.25 <= 0.7 /\
  (severity_rank (get_severity_level 0.25)
   <= severity_rank (get_severity_level 0.7))%nat /\
  In (get_severity_level 0.25) ["low"; "medium"; "high"; "critical"] /\
  (get_severity_level 0.25 = "low" <-> 0.25 < 0.1) /\
  (get_severity_level 0.25 = "medium" <-> 0.1 <= 0.25 < 0.3) /\
  (get_severity_level 0.25 = "high" <-> 0.3 <= 0.25 < 0.6) /\
  (get_severity_level 0.25 = "critical" <-> 0.6 <= 0.25).
Proof.
  assert (H : 0.25 <= 0.7) by lra.
  split; [exact H |].
  exact (severity_level_monotone 0.25 0.7 H).
Defined.

(** ** Priority actions *)

(** X20.  The panel recommends at most four actions.  Under critical
    severity these are always the emergency protocol, the notification, one
    action chosen by the failure type and the field inspection, so that the
    partial shutdown and the coordination with neighbouring districts are cut
    off: the shutdown is recommended exactly under high severity with more
    than three affected nodes, the coordination exactly under a severity
    other than critical with more than five. *)
Theorem priority_actions_shape (severity failure_type : string)
  (affected_count : Z) :
  let actions := get_priority_actions severity failure_type affected_count in
  (List.length actions <= 4)%nat /\
  (severity = "critical" ->
   exists third,
     actions = ["Activate emergency response protocol";
                "Notify all affected downstream consumers";
                third; "Dispatch field inspection team"] /\
     In third ["Issue water boil advisory"; "Deploy backup generators";
               "Isolate affected section"]) /\
  (In "Consider partial system shutdown" actions
   <-> severity = "high" /\ (3 < affected_count)%Z) /\
  (In "Coordinate with neighboring districts" actions
   <-> severity <> "critical" /\ (5 < affected_count)%Z).
Proof.
  cbv zeta. unfold get_priority_actions.
  split; [apply firstn_le_length |].
  destruct (Z.gtb_spec affected_count 3) as [E3 | E3];
    destruct (Z.gtb_spec affected_count 5) as [E5 | E5];
    try lia.
  all: destruct (String.eqb_spec severity "critical") as [-> | Hc];
    [ destruct (str_contains "Contamination" failure_type);
      [| destruct (str_contains "Power" failure_type)]
    | destruct (String.eqb_spec severity "high") as [-> | Hh] ];
    simpl.
  all: try replace (severity =? "critical") with false
      by (symmetry; apply String.eqb_neq; exact Hc).
  all: try replace (severity =? "high") with false
      by (symmetry; apply String.eqb_neq; exact Hh).
  all: simpl.
  all: split;
    [ first [ intros _; eexists; split; [reflexivity | simpl; auto]
            | intros Hs; congruence ] |].
  all: split; split;
    try (intros [Hs Hn]; first [lia | congruence | simpl; auto 6]);
    intros Hin; simpl in Hin;
    repeat match type of Hin with
           | _ \/ _ => destruct Hin as [Hin | Hin]
           end;
    try discriminate Hin; try contradiction;
    split; try lia; try congruence; try reflexivity; try discriminate.
Qed.
(** ** Features and edge weights filled in by the panel *)

Lemma argmax_from_keep (best : nat) (bestv : R) (k : nat) (v : R)
  (a : list R) :
  v <= bestv ->
  argmax_from best bestv k (v :: a) = argmax_from best bestv (S k) a.
Proof.
  intros H. simpl.
  replace (Rgtb v bestv) with false by (symmetry; apply Rgtb_false; exact H).
  reflexivity.
Qed.

Lemma argmax_from_take (best : nat) (bestv : R) (k : nat) (v : R)
  (a : list R) :
  bestv < v ->
  argmax_from best bestv k (v :: a) = argmax_from k v (S k) a.
Proof.
  intros H. simpl.
  replace (Rgtb v bestv) with true by (symmetry; apply Rgtb_true; exact H).
  reflexivity.
Qed.

(** The position of the 1 in a one-hot vector of twelve places. *)
Lemma np_argmax_onehot (k : nat) :
  (k < 12)%nat -> np_argmax (list_set (repeat 0 12) k 1) = Ok k.
Proof.
  intros Hk.
  do 12 (destruct k as [| k];
         [ simpl list_set; unfold np_argmax;
           repeat first [ rewrite argmax_from_keep by lra
                        | rewrite argmax_from_take by lra ];
           reflexivity |]).
  lia.
Qed.

Lemma auto_fill_features_parts (node_type : string) (health : R) :
  exists (k : nat) (a b c e f g h i j l m : R),
    (k < 12)%nat /\
    nth_error type_names k
    = Some (if existsb (String.eqb node_type) type_names then node_type
            else "Building") /\
    auto_fill_features node_type health
    = (list_set (repeat 0 12) k 1
       ++ [a; b; c; health; e; f; g; h; i; j; l; m])%list /\
    forall health',
      auto_fill_features node_type health'
      = (list_set (repeat 0 12) k 1
         ++ [a; b; c; health'; e; f; g; h; i; j; l; m])%list.
Proof.
  unfold auto_fill_features, dict_get_or, type_names.
  cbn [dict_lookup existsb].
  repeat match goal with
         | |- context [String.eqb ?a node_type] =>
             rewrite (String.eqb_sym a node_type)
         end.
  repeat match goal with
         | |- context [String.eqb node_type ?a] =>
             destruct (String.eqb_spec node_type a) as [-> | ?]
         end;
    cbn [orb];
    (eexists _, _, _, _, _, _, _, _, _, _, _, _;
     refine (conj _ (conj _ (conj eq_refl _)));
     [lia | reflexivity | intros; reflexivity]).
Qed.

Lemma list_set_app_r {A : Type} (l1 l2 : list A) (j : nat) (v : A) :
  list_set (l1 ++ l2) (List.length l1 + j) v = (l1 ++ list_set l2 j v)%list.
Proof.
  induction l1 as [| a l1 IH]; simpl.
  - reflexivity.
  - f_equal. exact IH.
Qed.

(** X21.  The features that the panel fills in for a node have 24 places.
    The first twelve are a one-hot code of the node type, a type outside the
    table counting as a building, and the type is read back from that code by
    the decoding of the causal analyses.  The health chosen by the user is
    feature 15 and changes no other feature; in particular feature 12, the
    column that a simulated failure sets to 0, does not depend on it. *)
Theorem auto_fill_features_shape (node_type : string) (health : R) :
  let features := auto_fill_features node_type health in
  let read_type :=
    if existsb (String.eqb node_type) type_names then node_type
    else "Building" in
  List.length features = 24%nat /\
  (exists k : nat,
      (k < 12)%nat /\ nth_error type_names k = Some read_type /\
      firstn 12 features = list_set (repeat 0 12) k 1) /\
  node_type_of [features] 0 = Ok read_type /\
  nth_error features 15 = Some health /\
  (forall health',
      auto_fill_features node_type health' = list_set features 15 health') /\
  (forall health',
      nth_error (auto_fill_features node_type health') 12
      = nth_error features 12).
Proof.
  cbv zeta.
  destruct (auto_fill_features_parts node_type health)
    as [k [a [b [c [e [f [g [h [i [j [l [m [Hk [Hty [Hf Hall]]]]]]]]]]]]]]].
  assert (Hlen : List.length (list_set (repeat 0 12) k 1) = 12%nat)
    by (rewrite length_list_set; reflexivity).
  assert (Hfirst : firstn 12 (auto_fill_features node_type health)
                   = list_set (repeat 0 12) k 1).
  { rewrite Hf. rewrite <- Hlen at 1. rewrite firstn_app, firstn_all.
    rewrite Nat.sub_diag. simpl. apply app_nil_r. }
  split; [rewrite Hf, length_app, Hlen; reflexivity |].
  split; [exists k; repeat split; assumption |].
  split.
  { unfold node_type_of, py_get.
    change (List.length [auto_fill_features node_type health]) with 1%nat.
    rewrite norm_index_in_range by lia. rbind_step.
    change (item [auto_fill_features node_type health] (Z.to_nat 0))
      with (Ok (auto_fill_features node_type health)).
    rbind_step.
    rewrite Hfirst, np_argmax_onehot by exact Hk. rbind_step.
    unfold item. rewrite Hty. reflexivity. }
  split.
  { rewrite Hf, nth_error_app2 by (rewrite Hlen; lia).
    rewrite Hlen. reflexivity. }
  split.
  - intros health'. rewrite Hall, Hf.
    change 15%nat with (12 + 3)%nat. rewrite <- Hlen at 3.
    rewrite list_set_app_r. reflexivity.
  - intros health'. rewrite Hall, Hf.
    rewrite !nth_error_app2 by (rewrite Hlen; lia).
    rewrite Hlen. reflexivity.
Qed.


(** X22.  The weight that the panel gives to a connection is 0.7, raised by
    0.15 for a critical type at its start and by 0.1 for one at its end; it
    lies between 0.7 and 0.95, so that the cap of 0.95 never cuts anything
    off. *)
Theorem auto_weight_range (from_type to_type : string) :
  let critical := ["Tank"; "Pump"; "Hospital"; "Power"] in
  auto_weight from_type to_type
  = 0.7 + (if existsb (String.eqb from_type) critical then 0.15 else 0)
        + (if existsb (String.eqb to_type) critical then 0.1 else 0) /\
  0.7 <= auto_weight from_type to_type <= 0.95.
Proof.
  cbv zeta. unfold auto_weight.
  destruct (existsb (String.eqb from_type) _);
    destruct (existsb (String.eqb to_type) _);
    unfold py_min; Rcases; lra.
Qed.
(** ** Dictionaries *)

Lemma dict_mem_lookup {V : Type} (d : list (string * V)) (k : string) :
  dict_mem d k = match dict_lookup d k with Some _ => true | None => false end.
Proof.
  induction d as [| [k' v] d IH]; simpl.
  - reflexivity.
  - destruct (k' =? k); [reflexivity | exact IH].
Qed.

Lemma dict_mem_In {V : Type} (d : list (string * V)) (k : string) :
  dict_mem d k = true <-> In k (dict_keys d).
Proof.
  induction d as [| [k' v] d IH]; simpl.
  - split; [discriminate | contradiction].
  - rewrite orb_true_iff, IH, String.eqb_eq. reflexivity.
Qed.

Lemma dict_mem_false {V : Type} (d : list (string * V)) (k : string) :
  dict_mem d k = false <-> ~ In k (dict_keys d).
Proof.
  rewrite <- dict_mem_In. destruct (dict_mem d k); split; intros H.
  - discriminate.
  - contradiction H. reflexivity.
  - discriminate.
  - reflexivity.
Qed.

Lemma dict_lookup_set {V : Type} (d : list (string * V)) (k k' : string)
  (v : V) :
  dict_lookup (dict_set d k v) k'
  = if k =? k' then Some v else dict_lookup d k'.
Proof.
  induction d as [| [k0 v0] d IH]; simpl.
  - reflexivity.
  - destruct (String.eqb_spec k0 k) as [-> | Hne]; simpl.
    + destruct (k =? k'); reflexivity.
    + destruct (String.eqb_spec k0 k') as [-> | Hne'].
      * replace (k =? k') with false
          by (symmetry; apply String.eqb_neq; congruence).
        reflexivity.
      * exact IH.
Qed.

Lemma dict_mem_set {V : Type} (d : list (string * V)) (k k' : string)
  (v : V) :
  dict_mem (dict_set d k v) k' = (k =? k') || dict_mem d k'.
Proof.
  rewrite !dict_mem_lookup, dict_lookup_set.
  destruct (k =? k'); reflexivity.
Qed.

Lemma dict_keys_set {V : Type} (d : list (string * V)) (k : string) (v : V) :
  dict_keys (dict_set d k v)
  = if dict_mem d k then dict_keys d else (dict_keys d ++ [k])%list.
Proof.
  unfold dict_keys. induction d as [| [k0 v0] d IH]; simpl.
  - reflexivity.
  - destruct (String.eqb_spec k0 k) as [-> | Hne]; simpl.
    + reflexivity.
    + rewrite IH. destruct (dict_mem d k); reflexivity.
Qed.

Lemma dict_keys_set_NoDup {V : Type} (d : list (string * V)) (k : string)
  (v : V) :
  NoDup (dict_keys d) -> NoDup (dict_keys (dict_set d k v)).
Proof.
  intros H. rewrite dict_keys_set.
  destruct (dict_mem d k) eqn:E; [exact H |].
  apply dict_mem_false in E.
  apply NoDup_app; [exact H | repeat constructor; intros [] | ].
  intros k' Hk' [<- | []]. contradiction.
Qed.

Lemma dict_keys_set_In {V : Type} (d : list (string * V)) (k k' : string)
  (v : V) :
  In k' (dict_keys (dict_set d k v)) <-> k' = k \/ In k' (dict_keys d).
Proof.
  rewrite <- !dict_mem_In, dict_mem_set, orb_true_iff, String.eqb_eq.
  intuition congruence.
Qed.

Lemma dict_item_Ok {V : Type} (d : list (string * V)) (k : string) (v : V) :
  dict_item d k = Ok v <-> dict_lookup d k = Some v.
Proof.
  unfold dict_item. destruct (dict_lookup d k); split; intros H;
    inversion H; reflexivity.
Qed.

Lemma dict_item_total {V : Type} (d : list (string * V)) (k : string) :
  In k (dict_keys d) -> exists v, dict_item d k = Ok v.
Proof.
  intros H. apply dict_mem_In in H. rewrite dict_mem_lookup in H.
  unfold dict_item. destruct (dict_lookup d k) as [v |]; [| discriminate].
  exists v. reflexivity.
Qed.

Lemma edge_mem_In (edge : string * string) (edges : list (string * string)) :
  edge_mem edge edges = true <-> In edge edges.
Proof.
  unfold edge_mem. rewrite existsb_exists. destruct edge as [f t]. split.
  - intros [[f' t'] [Hin Heq]]. simpl in Heq.
    apply andb_prop in Heq. destruct Heq as [H1 H2].
    apply String.eqb_eq in H1. apply String.eqb_eq in H2. subst. exact Hin.
  - intros Hin. exists (f, t). split; [exact Hin |].
    simpl. rewrite !String.eqb_refl. reflexivity.
Qed.

(** ** The network of a session *)

Lemma add_node_invariant (str_strip : string -> string)
  (name node_type : string) (health : R) (s : NetworkState) :
  network_invariant s ->
  network_invariant (fst (add_node str_strip name node_type health s)).
Proof.
  intros [Hn He Hp Hs]. unfold add_node.
  destruct (str_strip name =? ""); simpl; [constructor; assumption |].
  constructor; simpl.
  - apply dict_keys_set_NoDup. exact Hn.
  - exact He.
  - intros f t Hin. destruct (Hp f t Hin) as [Hf [Ht Hne]].
    rewrite !dict_keys_set_In. auto.
  - exact Hs.
Qed.

Lemma add_edge_invariant (from_node to_node : string) (s : NetworkState) :
  network_invariant s -> network_invariant (fst (add_edge from_node to_node s)).
Proof.
  intros Hinv. pose proof Hinv as [Hn He Hp Hs]. unfold add_edge.
  destruct (dict_mem (state_nodes s) from_node) eqn:Ef; simpl;
    [| exact Hinv].
  destruct (dict_mem (state_nodes s) to_node) eqn:Et; simpl; [| exact Hinv].
  destruct (String.eqb_spec from_node to_node) as [Heq | Hne]; simpl;
    [exact Hinv |].
  destruct (edge_mem (from_node, to_node) (state_edges s)) eqn:Em; simpl;
    [exact Hinv |].
  apply dict_mem_In in Ef. apply dict_mem_In in Et.
  assert (Hft : ~ In (from_node, to_node) (state_edges s)).
  { intros H. apply edge_mem_In in H. congruence. }
  assert (Htf : ~ In (to_node, from_node) (state_edges s)).
  { intros H. apply Hs in H. contradiction. }
  constructor; simpl.
  - exact Hn.
  - rewrite <- app_assoc. apply NoDup_app; [exact He | |].
    + repeat constructor; simpl; [| tauto].
      intros [H | []]. inversion H. congruence.
    + intros e Hin [<- | [<- | []]]; contradiction.
  - intros f t Hin. rewrite <- app_assoc in Hin. apply in_app_or in Hin.
    destruct Hin as [Hin | [Hin | [Hin | []]]].
    + apply Hp. exact Hin.
    + inversion Hin; subst. auto.
    + inversion Hin; subst. auto.
  - intros f t Hin. rewrite <- app_assoc in Hin |- *.
    apply in_app_or in Hin. apply in_or_app.
    destruct Hin as [Hin | [Hin | [Hin | []]]].
    + left. apply Hs. exact Hin.
    + inversion Hin; subst. right. right. left. reflexivity.
    + inversion Hin; subst. right. left. reflexivity.
Qed.

Lemma empty_network_invariant :
  network_invariant {| state_nodes := []; state_edges := [] |}.
Proof.
  constructor; simpl.
  - constructor.
  - constructor.
  - intros f t [].
  - intros f t [].
Qed.

Lemma example_network_invariant (s : NetworkState) :
  network_invariant (fst (load_example_network s)).
Proof.
  constructor; simpl.
  - repeat constructor; simpl; intuition discriminate.
  - repeat constructor; simpl; intuition discriminate.
  - intros f t Hin.
    repeat match type of Hin with
           | _ \/ _ => destruct Hin as [Hin | Hin]
           end;
      try contradiction; inversion Hin; subst;
      repeat split; try discriminate; auto 10.
  - intros f t Hin.
    repeat match type of Hin with
           | _ \/ _ => destruct Hin as [Hin | Hin]
           end;
      try contradiction; inversion Hin; subst; auto 12.
Qed.

Lemma perform_invariant (str_strip : string -> string) (s : NetworkState)
  (a : Action) :
  network_invariant s -> network_invariant (perform str_strip s a).
Proof.
  intros H. destruct a; simpl.
  - apply add_node_invariant. exact H.
  - apply add_edge_invariant. exact H.
  - apply empty_network_invariant.
  - exact (example_network_invariant s).
Qed.

Lemma after_invariant (str_strip : string -> string) (actions : list Action) :
  network_invariant (after str_strip actions).
Proof.
  unfold after.
  assert (H : forall s, network_invariant s ->
                        network_invariant
                          (fold_left (perform str_strip) actions s)).
  { induction actions as [| a actions IH]; intros s Hs; simpl.
    - exact Hs.
    - apply IH. apply perform_invariant. exact Hs. }
  apply H. apply empty_network_invariant.
Qed.

(** X23.  Whatever a session does (adding nodes, connecting them, clearing
    the network, loading the example), the network it arrives at is well
    formed: each node name is there once, no connection is listed twice,
    every connection joins two different nodes of the network, and with a
    connection its reverse is listed too. *)
Theorem network_stays_well_formed (str_strip : string -> string)
  (actions : list Action) :
  let s := after str_strip actions in
  NoDup (dict_keys (state_nodes s)) /\
  NoDup (state_edges s) /\
  (forall f t, In (f, t) (state_edges s) ->
     In f (dict_keys (state_nodes s)) /\
     In t (dict_keys (state_nodes s)) /\ f <> t /\
     In (t, f) (state_edges s)).
Proof.
  cbv zeta. destruct (after_invariant str_strip actions) as [Hn He Hp Hs].
  split; [exact Hn |]. split; [exact He |].
  intros f t Hin. destruct (Hp f t Hin) as [Hf [Ht Hne]].
  repeat split; try assumption. apply Hs. exact Hin.
Qed.

Lemma add_edge_state (from_node to_node : string) (s : NetworkState) :
  fst (add_edge from_node to_node s)
  = if dict_mem (state_nodes s) from_node
       && dict_mem (state_nodes s) to_node
       && negb (from_node =? to_node)
       && negb (edge_mem (from_node, to_node) (state_edges s))
    then {| state_nodes := state_nodes s;
            state_edges :=
              ((state_edges s ++ [(from_node, to_node)])
               ++ [(to_node, from_node)])%list |}
    else s.
Proof.
  unfold add_edge.
  destruct (dict_mem (state_nodes s) from_node);
    destruct (dict_mem (state_nodes s) to_node);
    destruct (from_node =? to_node);
    destruct (edge_mem (from_node, to_node) (state_edges s)); reflexivity.
Qed.

(** X24.  Connecting two nodes a second time, in the same or in the
    opposite direction, leaves the network of a session as it is; so does a
    connection that is refused, because one end is not a node of the network
    or both ends are the same node. *)
Theorem add_edge_twice (str_strip : string -> string)
  (actions : list Action) (from_node to_node : string) :
  let s := after str_strip actions in
  let s1 := fst (add_edge from_node to_node s) in
  fst (add_edge from_node to_node s1) = s1 /\
  fst (add_edge to_node from_node s1) = s1 /\
  (~ In from_node (dict_keys (state_nodes s)) \/
   ~ In to_node (dict_keys (state_nodes s)) \/ from_node = to_node ->
   s1 = s) /\
  (s1 <> s -> In (from_node, to_node) (state_edges s1) /\
              In (to_node, from_node) (state_edges s1)).
Proof.
  cbv zeta. pose proof (after_invariant str_strip actions) as Hinv.
  set (s := after str_strip actions) in *. clearbody s.
  destruct Hinv as [Hn He Hp Hs].
  rewrite (add_edge_state from_node to_node s).
  destruct (dict_mem (state_nodes s) from_node
            && dict_mem (state_nodes s) to_node
            && negb (from_node =? to_node)
            && negb (edge_mem (from_node, to_node) (state_edges s))) eqn:Ec.
  - apply andb_prop in Ec. destruct Ec as [Ec Em].
    apply andb_prop in Ec. destruct Ec as [Ec Ene].
    apply andb_prop in Ec. destruct Ec as [Ef Et].
    assert (H1 : edge_mem (from_node, to_node)
                   ((state_edges s ++ [(from_node, to_node)])
                    ++ [(to_node, from_node)]) = true).
    { apply edge_mem_In. apply in_or_app. left. apply in_or_app. right.
      left. reflexivity. }
    assert (H2 : edge_mem (to_node, from_node)
                   ((state_edges s ++ [(from_node, to_node)])
                    ++ [(to_node, from_node)]) = true).
    { apply edge_mem_In. apply in_or_app. right. left. reflexivity. }
    rewrite !add_edge_state. simpl state_nodes. simpl state_edges.
    rewrite H1, H2, !andb_false_r.
    split; [reflexivity |]. split; [reflexivity |]. split.
    + apply negb_true_iff, String.eqb_neq in Ene.
      apply dict_mem_In in Ef. apply dict_mem_In in Et.
      intros [H | [H | H]]; contradiction.
    + intros _. split; apply edge_mem_In; assumption.
  - rewrite !add_edge_state, Ec.
    assert (Ec' : dict_mem (state_nodes s) to_node
                  && dict_mem (state_nodes s) from_node
                  && negb (to_node =? from_node)
                  && negb (edge_mem (to_node, from_node) (state_edges s))
                  = false).
    { destruct (dict_mem (state_nodes s) from_node);
        [| rewrite andb_false_r; reflexivity].
      destruct (dict_mem (state_nodes s) to_node); [| reflexivity].
      rewrite (String.eqb_sym to_node from_node).
      destruct (from_node =? to_node); [reflexivity |].
      simpl in Ec |- *. apply negb_false_iff in Ec.
      apply edge_mem_In, Hs, edge_mem_In in Ec. rewrite Ec. reflexivity. }
    rewrite Ec'.
    split; [reflexivity |]. split; [reflexivity |].
    split; [reflexivity |]. intros H. contradiction H. reflexivity.
Qed.
(** ** The adjacency lists of the cascade search *)

Lemma empty_adjacency (nodes : list string) :
  forall (adj : list (string * list string)) (n : string),
    dict_lookup (fold_left (fun adj n => dict_set adj n []) nodes adj) n
    = if existsb (String.eqb n) nodes then Some []
      else dict_lookup adj n.
Proof.
  induction nodes as [| m nodes IH]; intros adj n; simpl.
  - reflexivity.
  - rewrite IH, dict_lookup_set, (String.eqb_sym n m).
    destruct (existsb (String.eqb n) nodes); [rewrite orb_true_r |
                                              rewrite orb_false_r];
      destruct (m =? n); reflexivity.
Qed.

Lemma fill_adjacency_Ok (edges : list (string * string)) :
  forall adj adj' : list (string * list string),
    fill_adjacency adj edges = Ok adj' ->
    Forall (fun e => dict_mem adj (fst e) = true) edges /\
    (forall n, dict_mem adj' n = dict_mem adj n) /\
    forall n,
      dict_get_or adj' n []
      = (dict_get_or adj n []
         ++ map snd (filter (fun e => fst e =? n) edges))%list.
Proof.
  induction edges as [| [f t] rest IH]; intros adj adj' H; simpl in H.
  - inversion H; subst. repeat split; [constructor | ].
    intros n. simpl. rewrite app_nil_r. reflexivity.
  - apply rbind_Ok_inv in H. destruct H as [targets [Ht H]].
    apply dict_item_Ok in Ht.
    destruct (IH _ _ H) as [Hall [Hmem Hget]].
    assert (Hf : dict_mem adj f = true)
      by (rewrite dict_mem_lookup, Ht; reflexivity).
    assert (Hm : forall n, dict_mem (dict_set adj f (targets ++ [t])%list) n
                           = dict_mem adj n).
    { intros n. rewrite dict_mem_set.
      destruct (String.eqb_spec f n) as [<- | _]; [exact (eq_sym Hf) |].
      reflexivity. }
    split; [| split].
    + constructor; [exact Hf |].
      eapply Forall_impl; [| exact Hall].
      intros e He. simpl in He. rewrite Hm in He. exact He.
    + intros n. rewrite Hmem. apply Hm.
    + intros n. rewrite Hget. unfold dict_get_or.
      rewrite dict_lookup_set. simpl filter.
      destruct (String.eqb_spec f n) as [<- | Hne].
      * rewrite Ht. simpl. rewrite <- app_assoc. reflexivity.
      * reflexivity.
Qed.

Lemma fill_adjacency_raises (edges : list (string * string)) :
  forall (adj : list (string * list string)) (e : exn),
    fill_adjacency adj edges = Raise e ->
    e = KeyError /\
    exists f t, In (f, t) edges /\ dict_mem adj f = false.
Proof.
  induction edges as [| [f t] rest IH]; intros adj e H; simpl in H.
  - discriminate.
  - unfold dict_item in H.
    destruct (dict_lookup adj f) as [targets |] eqn:Ef; simpl in H.
    + destruct (IH _ _ H) as [-> [f' [t' [Hin Hmem]]]].
      split; [reflexivity |]. exists f', t'. split; [right; exact Hin |].
      rewrite dict_mem_set in Hmem. apply orb_false_iff in Hmem. tauto.
    + inversion H. split; [reflexivity |]. exists f, t.
      split; [left; reflexivity |]. rewrite dict_mem_lookup, Ef. reflexivity.
Qed.

(** The adjacency lists that the search works with: a node's list holds the
    targets of the edges that start at it, in the order of the edge list. *)
Lemma adjacency_lists (edges : list (string * string)) (nodes : list string)
  (adj : list (string * list string)) :
  fill_adjacency (fold_left (fun adj n => dict_set adj n []) nodes []) edges
  = Ok adj ->
  Forall (fun e => In (fst e) nodes) edges /\
  forall n,
    dict_get_or adj n [] = map snd (filter (fun e => fst e =? n) edges).
Proof.
  intros H. apply fill_adjacency_Ok in H. destruct H as [Hall [_ Hget]].
  split.
  - eapply Forall_impl; [| exact Hall].
    intros e He. simpl in He.
    rewrite dict_mem_lookup, empty_adjacency in He. simpl in He.
    destruct (existsb (String.eqb (fst e)) nodes) eqn:E; [| discriminate].
    apply existsb_exists in E. destruct E as [m [Hm Hem]].
    apply String.eqb_eq in Hem. subst. exact Hm.
  - intros n. rewrite Hget. unfold dict_get_or at 1.
    rewrite empty_adjacency. simpl.
    destruct (existsb (String.eqb n) nodes); reflexivity.
Qed.

Lemma adjacency_edges (edges : list (string * string)) (n v : string) :
  In v (map snd (filter (fun e => fst e =? n) edges)) <-> In (n, v) edges.
Proof.
  rewrite in_map_iff. split.
  - intros [[f t] [Hv Hin]]. apply filter_In in Hin. destruct Hin as [Hin Hf].
    simpl in *. apply String.eqb_eq in Hf. subst. exact Hin.
  - intros Hin. exists (n, v). split; [reflexivity |].
    apply filter_In. split; [exact Hin | apply String.eqb_refl].
Qed.

(** ** The search ends *)

Lemma unvisited_set (universe : list string) (depths : list (string * nat))
  (x : string) (d : nat) :
  NoDup universe -> In x universe -> dict_mem depths x = false ->
  S (unvisited universe (dict_set depths x d)) = unvisited universe depths.
Proof.
  unfold unvisited. intros Hnd Hin Hx.
  induction Hnd as [| y universe Hy Hnd IH]; [contradiction |].
  simpl. rewrite dict_mem_set.
  destruct Hin as [-> | Hin].
  - rewrite String.eqb_refl, Hx. simpl. f_equal.
    f_equal. apply filter_ext_in. intros z Hz. rewrite dict_mem_set.
    replace (x =? z) with false; [reflexivity |].
    symmetry. apply String.eqb_neq. intros ->. contradiction.
  - replace (x =? y) with false
      by (symmetry; apply String.eqb_neq; intros ->; contradiction).
    simpl. destruct (dict_mem depths y); simpl.
    + apply IH. exact Hin.
    + f_equal. apply IH. exact Hin.
Qed.

Lemma visit_neighbors_measure (universe : list string) (node : string)
  (neighbors : list string) :
  NoDup universe -> incl neighbors universe ->
  forall (depths depths' : list (string * nat)) (queue queue' : list string),
    visit_neighbors node neighbors depths queue = Ok (depths', queue') ->
    (List.length queue' + unvisited universe depths'
     = List.length queue + unvisited universe depths)%nat.
Proof.
  intros Hnd. induction neighbors as [| v rest IH];
    intros Hincl depths depths' queue queue' H; simpl in H.
  - inversion H. reflexivity.
  - assert (Hrest : incl rest universe)
      by (intros z Hz; apply Hincl; right; exact Hz).
    destruct (dict_mem depths v) eqn:Ev; simpl in H.
    + apply (IH Hrest _ _ _ _ H).
    + apply rbind_Ok_inv in H. destruct H as [d [_ H]].
      rewrite (IH Hrest _ _ _ _ H), length_app. simpl.
      rewrite <- (unvisited_set universe depths v (d + 1)) ;
        [lia | exact Hnd | apply Hincl; left; reflexivity | exact Ev].
Qed.

Lemma search_ends (universe : list string) (adj : list (string * list string)) :
  NoDup universe ->
  (forall node, incl (dict_get_or adj node []) universe) ->
  forall (steps : nat) (depths : list (string * nat)) (queue : list string),
    (List.length queue + unvisited universe depths <= steps)%nat ->
    exists r, search steps adj depths queue = Some r.
Proof.
  intros Hnd Hadj. induction steps as [| steps IH]; intros depths queue Hm.
  - destruct queue as [| node queue]; [| simpl in Hm; lia].
    eexists. reflexivity.
  - destruct queue as [| node queue]; [eexists; reflexivity |].
    simpl.
    destruct (visit_neighbors node (dict_get_or adj node []) depths queue)
      as [[depths' queue'] | e] eqn:E; [| eexists; reflexivity].
    apply IH.
    rewrite (visit_neighbors_measure universe _ _ Hnd (Hadj node) _ _ _ _ E).
    simpl in Hm. lia.
Qed.
(** ** The search does not fail *)

Lemma visit_neighbors_Ok (node : string) (neighbors : list string) :
  forall (depths : list (string * nat)) (queue : list string),
    dict_mem depths node = true ->
    (forall q, In q queue -> dict_mem depths q = true) ->
    exists depths' queue',
      visit_neighbors node neighbors depths queue = Ok (depths', queue') /\
      dict_mem depths' node = true /\
      (forall q, In q queue' -> dict_mem depths' q = true).
Proof.
  induction neighbors as [| v rest IH]; intros depths queue Hnode Hq; simpl.
  - exists depths, queue. repeat split; assumption.
  - destruct (dict_mem depths v) eqn:Ev; simpl; [apply IH; assumption |].
    unfold dict_item. pose proof Hnode as Hn.
    rewrite dict_mem_lookup in Hn.
    destruct (dict_lookup depths node) as [d |]; [| discriminate].
    rbind_step. apply IH.
    + rewrite dict_mem_set, Hnode. apply orb_true_r.
    + intros q Hin. rewrite dict_mem_set. apply in_app_or in Hin.
      destruct Hin as [Hin | [<- | []]].
      * rewrite (Hq q Hin). apply orb_true_r.
      * rewrite String.eqb_refl. reflexivity.
Qed.

Lemma search_no_error (adj : list (string * list string)) :
  forall (steps : nat) (depths : list (string * nat)) (queue : list string)
         (r : result (list (string * nat))),
    (forall q, In q queue -> dict_mem depths q = true) ->
    search steps adj depths queue = Some r ->
    exists final, r = Ok final.
Proof.
  induction steps as [| steps IH]; intros depths queue r Hq H;
    destruct queue as [| node queue]; simpl in H; try discriminate.
  - inversion H. eexists. reflexivity.
  - inversion H. eexists. reflexivity.
  - destruct (visit_neighbors_Ok node (dict_get_or adj node []) depths queue)
      as [depths' [queue' [E [_ Hq']]]].
    + apply Hq. left. reflexivity.
    + intros q Hin. apply Hq. right. exact Hin.
    + rewrite E in H. apply (IH _ _ _ Hq' H).
Qed.

Lemma nodup_length_le (l : list string) :
  (List.length (nodup string_dec l) <= List.length l)%nat.
Proof.
  induction l as [| a l IH]; simpl; [lia |].
  destruct (in_dec string_dec a l); simpl; lia.
Qed.

Lemma compute_cascade_depth_cases (edges : list (string * string))
  (source : string) (nodes : list string) :
  (exists f t, In (f, t) edges /\ ~ In f nodes /\
               compute_cascade_depth edges source nodes
               = Some (Raise KeyError)) \/
  (Forall (fun e => In (fst e) nodes) edges /\
   exists (adj : list (string * list string)) (depths : list (string * nat)),
     (forall n, dict_get_or adj n []
                = map snd (filter (fun e => fst e =? n) edges)) /\
     search (S (List.length edges)) adj [(source, 0%nat)] [source]
     = Some (Ok depths) /\
     compute_cascade_depth edges source nodes = Some (Ok depths)).
Proof.
  unfold compute_cascade_depth.
  destruct (fill_adjacency _ edges) as [adj | e] eqn:E.
  - right. apply adjacency_lists in E. destruct E as [Hall Hadj].
    split; [exact Hall |].
    destruct (search_ends (nodup string_dec (map snd edges)) adj
                (NoDup_nodup _ _)) with
      (steps := S (List.length edges)) (depths := [(source, 0%nat)])
      (queue := [source]) as [r Hr].
    + intros node v Hv. rewrite Hadj in Hv. apply nodup_In.
      apply in_map_iff in Hv. destruct Hv as [e [<- He]].
      apply filter_In in He. apply in_map. tauto.
    + unfold unvisited. simpl.
      pose proof (filter_length_le
                    (fun v => negb (dict_mem [(source, 0%nat)] v))
                    (nodup string_dec (map snd edges))) as H1.
      pose proof (nodup_length_le (map snd edges)) as H2.
      rewrite length_map in H2. simpl in H1. lia.
    + assert (Hq : forall q, In q [source] ->
                              dict_mem [(source, 0%nat)] q = true).
      { intros q [<- | []]. simpl. rewrite String.eqb_refl. reflexivity. }
      destruct (search_no_error adj _ _ _ r Hq Hr) as [final ->].
      exists adj, final. repeat split; assumption.
  - left. apply fill_adjacency_raises in E.
    destruct E as [-> [f [t [Hin Hmem]]]].
    exists f, t. split; [exact Hin |]. split; [| reflexivity].
    rewrite dict_mem_lookup, empty_adjacency in Hmem. simpl in Hmem.
    destruct (existsb (String.eqb f) nodes) eqn:Ex; [discriminate |].
    intros Hf. assert (existsb (String.eqb f) nodes = true).
    { apply existsb_exists. exists f. split; [exact Hf |].
      apply String.eqb_refl. }
    congruence.
Qed.

(** X25.  The search for the cascade depths always comes to an end within
    its steps.  It fails, with [KeyError], exactly when some connection
    starts at a name that is not in the list of nodes; otherwise it returns
    the depths. *)
Theorem cascade_depth_search_ends (edges : list (string * string))
  (source : string) (nodes : list string) :
  match compute_cascade_depth edges source nodes with
  | None => False
  | Some (Raise e) =>
      e = KeyError /\ exists f t, In (f, t) edges /\ ~ In f nodes
  | Some (Ok depths) =>
      Forall (fun e => In (fst e) nodes) edges
  end.
Proof.
  destruct (compute_cascade_depth_cases edges source nodes)
    as [[f [t [Hin [Hf ->]]]] | [Hall [adj [depths [_ [_ ->]]]]]].
  - split; [reflexivity |]. exists f, t. split; assumption.
  - exact Hall.
Qed.
(** ** The search finds hop distances *)

Lemma StronglySorted_app_last {A : Type} (R : A -> A -> Prop) (l : list A)
  (x : A) :
  StronglySorted R l -> Forall (fun a => R a x) l ->
  StronglySorted R (l ++ [x]).
Proof.
  induction 1 as [| a l Hl IH Ha]; intros Hx; simpl.
  - constructor; constructor.
  - inversion Hx as [| a' l' Hax Hlx]; subst.
    constructor; [apply IH; exact Hlx |].
    apply Forall_app. split; [exact Ha | constructor; [exact Hax | constructor]].
Qed.

Lemma StronglySorted_impl_In {A : Type} (R R' : A -> A -> Prop) (l : list A) :
  (forall a b, In a l -> In b l -> R a b -> R' a b) ->
  StronglySorted R l -> StronglySorted R' l.
Proof.
  intros HR. induction 1 as [| a l Hl IH Ha]; constructor.
  - apply IH. intros x y Hx Hy. apply HR; right; assumption.
  - rewrite Forall_forall in Ha |- *. intros b Hb.
    apply HR; [left; reflexivity | right; exact Hb | apply Ha; exact Hb].
Qed.

(** One neighbour that has no depth yet gets its depth and joins the
    queue. *)
Lemma search_invariant_discover (edges : list (string * string))
  (source node v : string) (h : nat) (depths : list (string * nat))
  (queue : list string) :
  search_invariant edges source h (node :: queue) depths queue ->
  dict_lookup depths node = Some h ->
  In (node, v) edges ->
  dict_mem depths v = false ->
  search_invariant edges source h (node :: queue ++ [v])
    (dict_set depths v (h + 1)%nat) (queue ++ [v]).
Proof.
  intros [Hsrc Hsound Hbound Hqueue Hsorted Hclosed] Hnode Hedge Hv.
  rewrite dict_mem_lookup in Hv.
  assert (Hnew : forall k d, dict_lookup depths k = Some d -> (v =? k) = false).
  { intros k d Hk. apply String.eqb_neq. intros ->. rewrite Hk in Hv.
    discriminate. }
  assert (Hkeep : forall k d, dict_lookup depths k = Some d ->
                              dict_lookup (dict_set depths v (h + 1)%nat) k
                              = Some d).
  { intros k d Hk. rewrite dict_lookup_set, (Hnew k d Hk). exact Hk. }
  constructor.
  - apply Hkeep. exact Hsrc.
  - intros k d. rewrite dict_lookup_set.
    destruct (String.eqb_spec v k) as [<- | Hne].
    + intros H. inversion H. rewrite Nat.add_1_r.
      apply reaches_step with (u := node); [apply Hsound; exact Hnode |].
      exact Hedge.
    + apply Hsound.
  - intros k d. rewrite dict_lookup_set.
    destruct (v =? k).
    + intros H. inversion H. lia.
    + apply Hbound.
  - intros q Hq. apply in_app_or in Hq. destruct Hq as [Hq | [<- | []]].
    + destruct (Hqueue q Hq) as [d [Hd Hle]]. exists d.
      split; [apply Hkeep; exact Hd | exact Hle].
    + exists (h + 1)%nat. rewrite dict_lookup_set, String.eqb_refl.
      split; [reflexivity | lia].
  - apply StronglySorted_app_last.
    + eapply StronglySorted_impl_In; [| exact Hsorted].
      intros a b Ha Hb Hab da db Hda Hdb.
      destruct (Hqueue a Ha) as [da' [Hda' _]].
      destruct (Hqueue b Hb) as [db' [Hdb' _]].
      rewrite (Hkeep _ _ Hda') in Hda. rewrite (Hkeep _ _ Hdb') in Hdb.
      inversion Hda; inversion Hdb; subst. apply Hab; assumption.
    + rewrite Forall_forall. intros a Ha da db Hda Hdb.
      destruct (Hqueue a Ha) as [da' [Hda' _]].
      rewrite (Hkeep _ _ Hda') in Hda. inversion Hda; subst.
      rewrite dict_lookup_set, String.eqb_refl in Hdb. inversion Hdb; subst.
      apply (Hbound _ _ Hda').
  - intros u d Hu Hpend w Hw.
    rewrite dict_lookup_set in Hu.
    destruct (String.eqb_spec v u) as [<- | Hne].
    + contradiction Hpend. right. apply in_or_app. right. left. reflexivity.
    + destruct (Hclosed u d Hu) with (v := w) as [d' [Hd' Hle]].
      * intros [Hin | Hin]; apply Hpend; [left; exact Hin |].
        right. apply in_or_app. left. exact Hin.
      * exact Hw.
      * exists d'. split; [apply Hkeep; exact Hd' | exact Hle].
Qed.

Lemma visit_neighbors_invariant (edges : list (string * string))
  (source node : string) (h : nat) (neighbors : list string) :
  (forall v, In v neighbors -> In (node, v) edges) ->
  forall (depths depths' : list (string * nat)) (queue queue' : list string),
    search_invariant edges source h (node :: queue) depths queue ->
    dict_lookup depths node = Some h ->
    visit_neighbors node neighbors depths queue = Ok (depths', queue') ->
    search_invariant edges source h (node :: queue') depths' queue' /\
    dict_lookup depths' node = Some h /\
    (forall v d, dict_lookup depths v = Some d ->
                 dict_lookup depths' v = Some d) /\
    (forall v, In v neighbors ->
       exists d', dict_lookup depths' v = Some d' /\ (d' <= h + 1)%nat).
Proof.
  induction neighbors as [| v rest IH];
    intros Hedges depths depths' queue queue' Hinv Hnode H; simpl in H.
  - inversion H; subst.
    split; [exact Hinv |]. split; [exact Hnode |]. split.
    + intros v d Hv. exact Hv.
    + intros v [].
  - assert (Hrest : forall w, In w rest -> In (node, w) edges)
      by (intros w Hw; apply Hedges; right; exact Hw).
    destruct (dict_mem depths v) eqn:Ev; simpl in H.
    + destruct (IH Hrest _ _ _ _ Hinv Hnode H) as [Hinv' [Hnode' [Hkeep Hdone]]].
      split; [exact Hinv' |]. split; [exact Hnode' |]. split; [exact Hkeep |].
      intros w [<- | Hw]; [| apply Hdone; exact Hw].
      rewrite dict_mem_lookup in Ev.
      destruct (dict_lookup depths v) as [d |] eqn:Ed; [| discriminate].
      exists d. split; [apply Hkeep; exact Ed |].
      apply (sv_bound _ _ _ _ _ _ Hinv _ _ Ed).
    + unfold dict_item in H. rewrite Hnode in H. simpl in H.
      assert (Hnew : dict_lookup (dict_set depths v (h + 1)%nat) v
                     = Some (h + 1)%nat)
        by (rewrite dict_lookup_set, String.eqb_refl; reflexivity).
      assert (Hold : forall k d, dict_lookup depths k = Some d ->
                       dict_lookup (dict_set depths v (h + 1)%nat) k = Some d).
      { intros k d Hk. rewrite dict_lookup_set.
        destruct (String.eqb_spec v k) as [<- | _]; [| exact Hk].
        rewrite dict_mem_lookup, Hk in Ev. discriminate. }
      destruct (IH Hrest _ _ _ _
                  (search_invariant_discover _ _ _ _ _ _ _ Hinv Hnode
                     (Hedges v (or_introl eq_refl)) Ev)
                  (Hold _ _ Hnode) H)
        as [Hinv' [Hnode' [Hkeep Hdone]]].
      split; [exact Hinv' |]. split; [exact Hnode' |]. split.
      * intros k d Hk. apply Hkeep, Hold, Hk.
      * intros w [<- | Hw]; [| apply Hdone; exact Hw].
        exists (h + 1)%nat. split; [apply Hkeep; exact Hnew | lia].
Qed.

Lemma search_invariant_final (edges : list (string * string))
  (source : string) (adj : list (string * list string)) :
  (forall n v, In v (dict_get_or adj n []) <-> In (n, v) edges) ->
  forall (steps : nat) (h : nat) (depths final : list (string * nat))
         (queue : list string),
    search_invariant edges source h queue depths queue ->
    search steps adj depths queue = Some (Ok final) ->
    exists h', search_invariant edges source h' [] final [].
Proof.
  intros Hadj. induction steps as [| steps IH];
    intros h depths final queue Hinv H;
    destruct queue as [| node queue]; simpl in H; try discriminate.
  - inversion H; subst. exists h. exact Hinv.
  - inversion H; subst. exists h. exact Hinv.
  - destruct (visit_neighbors node (dict_get_or adj node []) depths queue)
      as [[depths' queue'] | e] eqn:E; [| discriminate].
    pose proof Hinv as [Hsrc Hsound Hbound Hqueue Hsorted Hclosed].
    destruct (Hqueue node (or_introl eq_refl)) as [dn [Hnode Hle]].
    pose proof (Hbound _ _ Hnode) as Hdn.
    assert (Hinv1 : search_invariant edges source dn (node :: queue) depths
                      queue).
    { inversion Hsorted as [| a l Hl Ha]; subst.
      constructor; try assumption.
      - intros v d Hv. specialize (Hbound v d Hv). lia.
      - intros q Hq. destruct (Hqueue q (or_intror Hq)) as [d [Hd _]].
        exists d. split; [exact Hd |].
        rewrite Forall_forall in Ha. apply (Ha q Hq); assumption. }
    destruct (visit_neighbors_invariant edges source node dn
                (dict_get_or adj node [])
                (fun v Hv => proj1 (Hadj node v) Hv)
                _ _ _ _ Hinv1 Hnode E)
      as [Hinv2 [Hnode' [Hkeep Hdone]]].
    apply (IH dn depths' final queue'); [| exact H].
    destruct Hinv2 as [Hsrc2 Hsound2 Hbound2 Hqueue2 Hsorted2 Hclosed2].
    constructor; try assumption.
    intros u d Hu Hpend v Hv.
    destruct (String.eqb_spec u node) as [-> | Hne].
    + rewrite Hnode' in Hu. inversion Hu; subst d.
      apply Hdone. apply Hadj. exact Hv.
    + apply (Hclosed2 u d Hu); [| exact Hv].
      intros [Heq | Hin]; [congruence | contradiction].
Qed.

Lemma search_invariant_start (edges : list (string * string))
  (source : string) :
  search_invariant edges source 0 [source] [(source, 0%nat)] [source].
Proof.
  assert (Hkey : forall v d, dict_lookup [(source, 0%nat)] v = Some d ->
                             v = source /\ d = 0%nat).
  { intros v d. simpl. destruct (String.eqb_spec source v) as [-> | _];
      [| discriminate]. intros H. inversion H. split; reflexivity. }
  constructor.
  - simpl. rewrite String.eqb_refl. reflexivity.
  - intros v d H. destruct (Hkey v d H) as [-> ->]. constructor.
  - intros v d H. destruct (Hkey v d H) as [-> ->]. lia.
  - intros q [<- | []]. exists 0%nat. simpl. rewrite String.eqb_refl.
    split; [reflexivity | lia].
  - constructor; constructor.
  - intros u d H Hpend. destruct (Hkey u d H) as [-> ->].
    contradiction Hpend. left. reflexivity.
Qed.

(** When the queue is empty, the depths are the hop distances. *)
Lemma search_invariant_distances (edges : list (string * string))
  (source : string) (h : nat) (final : list (string * nat)) :
  search_invariant edges source h [] final [] ->
  forall v d, dict_lookup final v = Some d <-> hop_distance edges source v d.
Proof.
  intros [Hsrc Hsound _ _ _ Hclosed].
  assert (Hmin : forall v d', reaches edges source v d' ->
                   exists d, dict_lookup final v = Some d /\ (d <= d')%nat).
  { intros v d' Hr. induction Hr as [| u v d' Hr IH Hedge].
    - exists 0%nat. split; [exact Hsrc | lia].
    - destruct IH as [du [Hu Hle]].
      destruct (Hclosed u du Hu (fun H => H) v Hedge) as [dv [Hv Hle']].
      exists dv. split; [exact Hv | lia]. }
  intros v d. split.
  - intros Hv. split; [apply Hsound; exact Hv |].
    intros d' Hr. destruct (Hmin v d' Hr) as [d0 [Hd0 Hle]].
    rewrite Hv in Hd0. inversion Hd0; subst. exact Hle.
  - intros [Hr Hleast]. destruct (Hmin v d Hr) as [d0 [Hd0 Hle]].
    pose proof (Hleast d0 (Hsound _ _ Hd0)). replace d with d0 by lia.
    exact Hd0.
Qed.

(** X26.  The cascade depths are hop distances: when the search returns,
    a node has depth [d] exactly when [d] is the least number of connections
    on a walk from the source to it; the source has depth 0 and a node that
    no walk reaches has no depth. *)
Theorem cascade_depth_is_hop_distance (edges : list (string * string))
  (source : string) (nodes : list string) (depths : list (string * nat)) :
  compute_cascade_depth edges source nodes = Some (Ok depths) ->
  dict_lookup depths source = Some 0%nat /\
  (forall v d, dict_lookup depths v = Some d
               <-> hop_distance edges source v d) /\
  (forall v, dict_mem depths v = true
             <-> exists d, reaches edges source v d).
Proof.
  intros H.
  destruct (compute_cascade_depth_cases edges source nodes)
    as [[f [t [_ [_ E]]]] | [_ [adj [depths' [Hadj [Hsearch E]]]]]];
    rewrite E in H; [discriminate |].
  inversion H; subst depths'. clear H E.
  destruct (search_invariant_final edges source adj) with
    (steps := S (List.length edges)) (h := 0%nat)
    (depths := [(source, 0%nat)]) (final := depths) (queue := [source])
    as [h Hinv].
  - intros n v. rewrite Hadj. apply adjacency_edges.
  - apply search_invariant_start.
  - exact Hsearch.
  - pose proof (search_invariant_distances _ _ _ _ Hinv) as Hdist.
    split; [exact (sv_source _ _ _ _ _ _ Hinv) |]. split; [exact Hdist |].
    intros v. rewrite dict_mem_lookup. split.
    + destruct (dict_lookup depths v) as [d |] eqn:Ed; [| discriminate].
      intros _. exists d. apply Hdist in Ed. apply Ed.
    + intros [d Hr].
      assert (Hex : exists d0, dict_lookup depths v = Some d0).
      { clear - Hr Hinv. destruct Hinv as [Hsrc _ _ _ _ Hclosed].
        induction Hr as [| u v d Hr IH Hedge].
        - exists 0%nat. exact Hsrc.
        - destruct IH as [du Hu].
          destruct (Hclosed u du Hu (fun H => H) v Hedge) as [dv [Hv _]].
          exists dv. exact Hv. }
      destruct Hex as [d0 ->]. reflexivity.
Qed.

Lemma cascade_depth_is_hop_distance_witness :
  compute_cascade_depth
    (state_edges (fst (load_example_network network_state))) "Main-Tank"
    (dict_keys (state_nodes (fst (load_example_network network_state))))
  = Some (Ok [("Main-Tank", 0%nat); ("Pump-A", 1%nat); ("Main-Pipe", 2%nat);
              ("Hospital", 3%nat); ("School", 3%nat)]) /\
  dict_lookup [("Main-Tank", 0%nat); ("Pump-A", 1%nat); ("Main-Pipe", 2%nat);
               ("Hospital", 3%nat); ("School", 3%nat)] "Main-Tank"
  = Some 0%nat /\
  (forall v d,
      dict_lookup [("Main-Tank", 0%nat); ("Pump-A", 1%nat);
                   ("Main-Pipe", 2%nat); ("Hospital", 3%nat);
                   ("School", 3%nat)] v = Some d
      <-> hop_distance
            (state_edges (fst (load_example_network network_state)))
            "Main-Tank" v d) /\
  (forall v,
      dict_mem [("Main-Tank", 0%nat); ("Pump-A", 1%nat); ("Main-Pipe", 2%nat);
                ("Hospital", 3%nat); ("School", 3%nat)] v = true
      <-> exists d,
            reaches (state_edges (fst (load_example_network network_state)))
              "Main-Tank" v d).
Proof.
  assert (H : compute_cascade_depth
                (state_edges (fst (load_example_network network_state)))
                "Main-Tank"
                (dict_keys
                   (state_nodes (fst (load_example_network network_state))))
              = Some (Ok [("Main-Tank", 0%nat); ("Pump-A", 1%nat);
                          ("Main-Pipe", 2%nat); ("Hospital", 3%nat);
                          ("School", 3%nat)]))
    by reflexivity.
  split; [exact H |].
  exact (cascade_depth_is_hop_distance _ _ _ _ H).
Defined.
(** ** The inputs that the panel builds for the engine *)









Lemma auto_fill_features_length (node_type : string) (health : R) :
  List.length (auto_fill_features node_type health) = 24%nat.
Proof.
  destruct (auto_fill_features_parts node_type health)
    as [k [a [b [c [e [f [g [h [i [j [l [m [_ [_ [Hf _]]]]]]]]]]]]]]].
  rewrite Hf, length_app, length_list_set. reflexivity.
Qed.

Lemma panel_features_total (nodes : list (string * NodeInfo)) :
  exists x : Matrix,
    mapM (fun name =>
            info <- dict_item nodes name ;;
            Ok (auto_fill_features (type info) (health info)))
         (dict_keys nodes) = Ok x /\
    List.length x = List.length nodes /\
    Forall (fun row => List.length row = 24%nat) x.
Proof.
  destruct (mapM_Ok_total
              (fun name =>
                 info <- dict_item nodes name ;;
                 Ok (auto_fill_features (type info) (health info)))
              (dict_keys nodes)) as [x [Ex Lx]].
  - intros name Hname. destruct (dict_item_total nodes name Hname) as [v Ev].
    rewrite Ev. eexists. reflexivity.
  - exists x. split; [exact Ex |]. split.
    + rewrite Lx. apply length_map.
    + apply mapM_Ok_inv in Ex. clear Lx.
      induction Ex as [| name row names rows Hrow _ IH]; constructor;
        [| exact IH].
      apply rbind_Ok_inv in Hrow. destruct Hrow as [info [_ Hrow]].
      inversion Hrow. apply auto_fill_features_length.
Qed.

(** ** What the panel lists *)






(** X28.  A prediction ends with an error page, and without any call of the
    predictor, when the network has no node, when the node to fail is not a
    node of the network, and when the network has nodes but no connection. *)
Theorem run_prediction_error_pages (randint : nat -> Z -> Z -> Z)
  (predictor : Predictor) (failed_node failure_type severity : string)
  (s : NetworkState) (drawn : nat) (log : list Call) :
  (state_nodes s = [] ->
   run_prediction randint predictor failed_node failure_type severity s drawn
     log
   = (log, Ok (Some (render_error
                       "No network! Add some nodes first or load the example.")))) /\
  (state_nodes s <> [] -> ~ In failed_node (dict_keys (state_nodes s)) ->
   run_prediction randint predictor failed_node failure_type severity s drawn
     log
   = (log, Ok (Some (render_error
                       ("Node '" ++ failed_node ++ "' not found in network."))))) /\
  (In failed_node (dict_keys (state_nodes s)) -> state_edges s = [] ->
   run_prediction randint predictor failed_node failure_type severity s drawn
     log
   = (log, Ok (Some (render_error
                       "No connections in network! Add some edges.")))).
Proof.
  split; [| split].
  - intros H. unfold run_prediction. rewrite H. reflexivity.
  - intros Hne Hin. unfold run_prediction.
    destruct (state_nodes s) as [| p0 l0] eqn:En;
      [contradiction Hne; reflexivity |].
    cbv iota. apply dict_mem_false in Hin. rewrite Hin. reflexivity.
  - intros Hin Hedges. unfold run_prediction.
    destruct (state_nodes s) as [| p0 l0] eqn:En; [contradiction |].
    cbv iota. rewrite <- En in *. clear En p0 l0.
    rewrite (proj2 (dict_mem_In _ _) Hin). cbn [negb].
    destruct (panel_features_total (state_nodes s)) as [x [Ex _]].
    unfold sbind, lift, sret. cbv beta. rewrite Ex. cbv beta iota.
    rewrite Hedges. reflexivity.
Qed.
(** ** Strategic insights *)

(** X29.  The insight that the panel shows for a node never fails to be
    made and always names the node: it is a text before the node's name and a
    text after it.  A score below 0.05 gives "<name> appears stable.", and a
    failure type outside the table is treated as "Complete Failure". *)
Theorem strategic_insight_names_node (node_name : string) (score : R)
  (failure_type node_type : string) :
  (exists before after_,
      get_strategic_insight node_name score failure_type node_type
      = Ok (before ++ node_name ++ after_)) /\
  (score < 0.05 ->
   get_strategic_insight node_name score failure_type node_type
   = Ok (node_name ++ " appears stable.")) /\
  (dict_lookup CRISIS_INSIGHTS failure_type = None ->
   get_strategic_insight node_name score failure_type node_type
   = get_strategic_insight node_name score "Complete Failure" node_type).
Proof.
  split; [| split].
  - unfold get_strategic_insight.
    destruct ((get_severity_level score =? "low") && Rltb score 0.05);
      [exists "", " appears stable."; reflexivity |].
    change (dict_item CRISIS_INSIGHTS "Complete Failure")
      with (Ok (dict_get_or CRISIS_INSIGHTS "Complete Failure" [])).
    rbind_step.
    assert (Hlevels :
      forall insights,
        In insights (map snd CRISIS_INSIGHTS) ->
        forall level, In level ["low"; "medium"; "high"; "critical"] ->
          exists t, dict_lookup insights level = Some t).
    { intros insights Hin level Hlevel. simpl in Hin, Hlevel.
      repeat match type of Hin with
             | _ \/ _ => destruct Hin as [Hin | Hin]
             end; try contradiction; subst insights;
        repeat match type of Hlevel with
               | _ \/ _ => destruct Hlevel as [Hlevel | Hlevel]
               end; try contradiction; subst level;
        eexists; reflexivity. }
    assert (Hin : In (dict_get_or CRISIS_INSIGHTS failure_type
                        (dict_get_or CRISIS_INSIGHTS "Complete Failure" []))
                     (map snd CRISIS_INSIGHTS)).
    { unfold dict_get_or at 1.
      destruct (dict_lookup CRISIS_INSIGHTS failure_type) as [v |] eqn:E.
      - clear - E. induction CRISIS_INSIGHTS as [| [k0 v0] d IH];
          simpl in E; [discriminate |].
        destruct (k0 =? failure_type).
        + inversion E. left. reflexivity.
        + right. apply IH. exact E.
      - simpl. auto. }
    assert (Hlevel : In (get_severity_level score)
                        ["low"; "medium"; "high"; "critical"]).
    { unfold get_severity_level.
      destruct (Rgeb score 0.6); [simpl; auto |].
      destruct (Rgeb score 0.3); [simpl; auto |].
      destruct (Rgeb score 0.1); simpl; auto. }
    destruct (Hlevels _ Hin _ Hlevel) as [[pre post] ->].
    exists pre, post. reflexivity.
  - intros Hs. unfold get_strategic_insight, get_severity_level.
    replace (Rgeb score 0.6) with false by (symmetry; apply Rgeb_false; lra).
    replace (Rgeb score 0.3) with false by (symmetry; apply Rgeb_false; lra).
    replace (Rgeb score 0.1) with false by (symmetry; apply Rgeb_false; lra).
    replace (Rltb score 0.05) with true by (symmetry; apply Rltb_true; lra).
    reflexivity.
  - intros Hnone. unfold get_strategic_insight.
    destruct ((get_severity_level score =? "low") && Rltb score 0.05);
      [reflexivity |].
    change (dict_item CRISIS_INSIGHTS "Complete Failure")
      with (Ok (dict_get_or CRISIS_INSIGHTS "Complete Failure" [])).
    rbind_step. unfold dict_get_or at 1 3. rewrite Hnone. reflexivity.
Qed.

(** * The prediction form *)

Lemma create_node_features_cases (node_type : string)
  (capacity level flow status criticality population economic_value
   connectivity maintenance : R) :
  (~ In node_type type_names /\
   create_node_features node_type capacity level flow status criticality
     population economic_value connectivity maintenance = Raise KeyError) \/
  (exists k : nat,
      (k < 12)%nat /\ nth_error type_names k = Some node_type /\
      create_node_features node_type capacity level flow status criticality
        population economic_value connectivity maintenance
      = Ok (list_set (repeat 0 12) k 1
            ++ [capacity; level; flow; status; criticality; population;
                economic_value; connectivity; maintenance; 0.1; 0.1;
                0.0])%list).
Proof.
  unfold create_node_features, dict_item, NODE_TYPES, type_names.
  cbn [dict_lookup].
  repeat match goal with
         | |- context [String.eqb ?a node_type] =>
             destruct (String.eqb_spec a node_type) as [<- | ?]
         end;
    try (right; eexists; refine (conj _ (conj _ eq_refl));
         [lia | reflexivity]).
  left. split; [| reflexivity].
  simpl. intuition congruence.
Qed.

(** X30.  The feature vector of the prediction form has 24 places: a one-hot
    code of the node type, from which the type is read back, then capacity,
    level, flow and status as features 12 to 15.  A type outside the table is
    a [KeyError].  So the failure that a simulation forces on such a vector,
    a 0 in column 12, overwrites the capacity and leaves the status as the
    form gave it. *)
Theorem create_node_features_layout (node_type : string)
  (capacity level flow status criticality population economic_value
   connectivity maintenance : R) (features : list R) :
  create_node_features node_type capacity level flow status criticality
    population economic_value connectivity maintenance = Ok features ->
  In node_type type_names /\
  List.length features = 24%nat /\
  node_type_of [features] 0 = Ok node_type /\
  nth_error features 12 = Some capacity /\
  nth_error features 13 = Some level /\
  nth_error features 14 = Some flow /\
  nth_error features 15 = Some status /\
  exists failed,
    force_failures [features] [0%Z] 12 = Ok [failed] /\
    nth_error failed 12 = Some 0.0 /\
    nth_error failed 15 = Some status.
Proof.
  intros H.
  destruct (create_node_features_cases node_type capacity level flow status
              criticality population economic_value connectivity maintenance)
    as [[_ E] | [k [Hk [Hty E]]]]; rewrite E in H; [discriminate |].
  set (rest := [capacity; level; flow; status; criticality; population;
                economic_value; connectivity; maintenance; 0.1; 0.1; 0.0])
    in H.
  assert (Hf : features = (list_set (repeat 0 12) k 1 ++ rest)%list)
    by congruence.
  clear H. subst features.
  assert (Hlen : List.length (list_set (repeat 0 12) k 1) = 12%nat)
    by (rewrite length_list_set; reflexivity).
  assert (Hnth : forall j, nth_error (list_set (repeat 0 12) k 1 ++ rest)
                             (12 + j) = nth_error rest j).
  { intros j. rewrite nth_error_app2 by (rewrite Hlen; lia).
    rewrite Hlen. f_equal. lia. }
  split; [eapply nth_error_In; exact Hty |].
  split; [rewrite length_app, Hlen; reflexivity |].
  split.
  { unfold node_type_of, py_get.
    change (List.length [(list_set (repeat 0 12) k 1 ++ rest)%list])
      with 1%nat.
    rewrite norm_index_in_range by lia. rbind_step.
    change (item [(list_set (repeat 0 12) k 1 ++ rest)%list] (Z.to_nat 0))
      with (Ok (list_set (repeat 0 12) k 1 ++ rest)%list).
    rbind_step.
    rewrite <- Hlen at 1. rewrite firstn_app, firstn_all, Nat.sub_diag.
    simpl firstn. rewrite app_nil_r, np_argmax_onehot by exact Hk.
    rbind_step. unfold item. rewrite Hty. reflexivity. }
  split; [exact (Hnth 0%nat) |]. split; [exact (Hnth 1%nat) |].
  split; [exact (Hnth 2%nat) |]. split; [exact (Hnth 3%nat) |].
  exists (list_set (list_set (repeat 0 12) k 1 ++ rest) 12 0.0).
  split.
  - assert (Hrow : List.length (list_set (repeat 0 12) k 1 ++ rest)%list
                   = 24%nat)
      by (rewrite length_app, Hlen; reflexivity).
    generalize dependent (list_set (repeat 0 12) k 1 ++ rest)%list.
    intros row _ Hrow.
    cbn [force_failures]. unfold np_set2, np_set.
    change (List.length [row]) with 1%nat.
    rewrite norm_index_in_range by lia. rbind_step.
    change (item [row] (Z.to_nat 0)) with (Ok row).
    rbind_step.
    rewrite norm_index_in_range by (rewrite Hrow; lia).
    rbind_step. reflexivity.
  - assert (Hset : list_set (list_set (repeat 0 12) k 1 ++ rest) 12 0.0
                   = (list_set (repeat 0 12) k 1 ++ list_set rest 0 0.0)%list).
    { rewrite <- (list_set_app_r (list_set (repeat 0 12) k 1) rest 0 0.0).
      rewrite Hlen. reflexivity. }
    rewrite Hset.
    split.
    + rewrite nth_error_app2 by (rewrite Hlen; lia). rewrite Hlen.
      reflexivity.
    + rewrite nth_error_app2 by (rewrite Hlen; lia). rewrite Hlen.
      reflexivity.
Qed.

Lemma create_node_features_layout_witness :
  exists features : list R,
    create_node_features "Tank" 0.8 0.1 0.0 0.9 0.85 0.5 0.3 0.6 0.8
    = Ok features /\
    In "Tank" type_names /\
    List.length features = 24%nat /\
    node_type_of [features] 0 = Ok "Tank" /\
    nth_error features 12 = Some 0.8 /\
    nth_error features 13 = Some 0.1 /\
    nth_error features 14 = Some 0.0 /\
    nth_error features 15 = Some 0.9 /\
    exists failed,
      force_failures [features] [0%Z] 12 = Ok [failed] /\
      nth_error failed 12 = Some 0.0 /\
      nth_error failed 15 = Some 0.9.
Proof.
  eexists. split; [reflexivity |].
  exact (create_node_features_layout "Tank" 0.8 0.1 0.0 0.9 0.85 0.5 0.3 0.6
           0.8 _ eq_refl).
Defined.
